(* ===== verification/_CoqProject ===== *)
-Q . S2P
Prelude.v
Codec.v
SparseVec.v
SpotState.v
Builder.v
Store.v
StoreST.v
Parse.v
Digest.v
App.v
Formatter.v
Klib.v
Inspector.v
Redact.v
Platform.v
StringItf.v
Bindings.v
