(* ===== verification/Prelude.v ===== *)
(** * sra-tools: verification development

    The centre of the development is the spot assembly engine of the
    SharQ FASTQ loader, [src/tools/loaders/sharq/spot_assembly.hpp]
    (struct [spot_assembly_t]).  It groups reads that share a read name
    into spots, keeps the reads of a spot in bit-packed sparse columns
    (one column set per read slot), and hands them back on demand.  Around
    it, the development models the SharQ command line and application
    that feed the loader ([src/tools/sharq/fastq_parse.cpp]), the output formatter of
    sra-info ([src/tools/external/sra-info/formatter.cpp]) and the
    accession inspector of fasterq-dump
    ([src/tools/fasterq-dump/inspector.c]), the VDB helpers of sra-redact
    ([src/tools/sra-redact/sra-redact.hpp]), the C++ face of an NGS string
    ([src/ngs/ngs-sdk/dispatch/StringItf.cpp]), the environment
    variables of the driver tool
    ([src/tools/external/driver-tool/util.posix.hpp]) and the generated
    binding headers of NGS (the JNI header of [ReadCollectionItf], the
    Python header of [StatisticsItf]) with fasterq-dump's
    [simple_fasta_iter.h].

    Parts of the engine and how they interact:
    - the row-name index ([str_sv_type read_names], built by the caller)
      is the only input of the assembly builder;
    - the assembly builder [spot_assembly_t::build] sorts the row ids by
      name, walks the sorted order once, gives every row a spot id
      ([m_read_index]) and finalises each spot with [add_spot_bits], which
      sets the last-row bit ([m_last_index]) and the hot-spot bit
      ([m_hot_spot_ids]);
    - the column store ([save_read_mt], [get_spot_mt]) encodes a read's
      bases as 3-bit codes ([DNA2int]/[Int2DNA]), its qualities as deltas
      from a mid score, and records both as a 48-bit offset and a 16-bit
      length packed into one 64-bit word; the per-row read counter
      [m_spot_index] selects the read slot;
    - the hot-spot overflow map [m_hot_spots] keeps whole reads for the
      rows whose hot bit is set;
    - the deferred reclaimer [clear_spot_mt] collects released rows in
      [rows_to_clear] and clears all columns in one pass when their
      number reaches [MAX_ROW_TO_CLEAR]; [optimize] recompresses columns.

    Files (the library root is this file):
    - [Prelude]   : the result type with its monad notation (scope
                    [sharq_scope]), C++ vector access with its undefined
                    behaviour out of range, fixed-width wrap-around, the
                    hint databases [sharq] and [sharq_rw], shared lemmas
                    on [mapR]/[foldR] loops and on bits.
    - [Codec]     : Module [Dna] ([DNA2int], [Int2DNA], the sequence
                    encoding loops), Module [Qual] (class [ScoreValidator],
                    the delta encoding and decoding loops at their C++
                    widths), Module [Packed] (the offset/length word).
    - [SparseVec] : the BitMagic sparse vectors used as columns, modelled
                    from the spec (the library is not part of src/).
    - [SpotState] : the [fastq_read] record and its setters, [metadata_t],
                    the [spot_assembly_t] struct, [init], [is_last_spot].
    - [Builder]   : [add_spot_bits], the grouping walk and [build].
    - [Store]     : [save_read_mt], [get_spot_mt] (via [read_tags] and
                    [read_slot]), [clear_spot_mt] (via [clear_slot],
                    [clear_metadata], [clear_ranges], [fill_row_ids]) and
                    [optimize]; the invariant [store_wf]; concrete runs.
    - [StoreST]   : the single-threaded [save_read], [get_spot] and
                    [clear_spot], which the loader does not call.
    - [Parse]     : the SharQ command line: [s_split] (its two iterator
                    loops, with a step bound, and a structural form), the
                    read-pair batches of [s_AddReadPairBatch] and
                    [AppMain], and [xCheckInputFiles] (file existence as a
                    predicate).
    - [Digest]    : [xProcessDigest], which checks the digest of the
                    input files (platform, read counts) and assigns read
                    types and the quality expression.
    - [App]       : [main], [AppMain], [Run], [xRun], [xRunDigest],
                    [xSetupOutput] and [xBreakdownOutput] as runs
                    that emit a trace of writer, parser and output calls
                    (kept when an exception stops the run), against the
                    class [SharqEnv] for CLI11, [get_digest], the parser
                    and the other code that is not in the repository.
    - [Formatter] : sra-info's [Formatter]: [StringToFormat], the
                    platform, value, schema and spot-layout renderings
                    in the five formats, with the JSON separator flag and
                    the single-query counter threaded as state, and the
                    read descriptors of [sra-info.hpp] as parameters.
    - [Klib]      : the C conventions the C tools share: [rc_t] and its
                    fields, C strings as [list ascii], the string helpers
                    of [klib/text.h] and [helper.c], path types, exit
                    codes, [PATH_MAX] (contracts; the code is not in
                    src/, apart from the [PATH_MAX] fallback).
    - [Inspector] : fasterq-dump's [inspect] and its helpers, written
                    against the class [VfsEnv] that stands for the VFS,
                    KNS and VDB libraries (one field per call), so that
                    its theorems hold whatever the libraries answer.
    - [Redact]    : every helper of sra-redact.hpp against the classes
                    [RedactEnv] (cursors, tables) and [KdbEnv] (update
                    side, metadata nodes, directories): [CellData] and its
                    typed view, [DIE_UNLESS] and [OUT_OF_MEMORY] as the
                    fault [FExit], the [addColumn] family, the schema
                    lookup ([getSchemaInfo]), the openers, [copyNodeValue],
                    [writeChildNode], [dropColumn], [removeTempDir], the
                    [PATH_TYPE] macros, [WARN_IF], and the structs
                    [Inputs], [Output], [Outputs] with their initialisers.
    - [Platform]  : [EnvironmentVariables] get/set over the environment
                    as a [gmap], with POSIX's rule for invalid names.
    - [StringItf] : [Access], [data], [size], [substr] of an NGS string,
                    the C vtable and error block as values.
    - [Bindings]  : the declarations of [ngs_itf_ReadCollectionItf.h] as
                    a table, with the JNI rules that generate them (type
                    descriptors, C types, name mangling) modelled from the
                    JNI specification; the declarations of
                    [py_StatisticsItf.h] with their calling convention;
                    the class [SimpleFastaIter] for [simple_fasta_iter.h].

    State.  [spot_assembly_t] is one record; each operation is a function
    [state -> result state] (or [result (reads * state)] for a fetch).
    [std::vector] fields are lists updated with [vupd]/[<[i:=x]>],
    BitMagic columns are [gmap]s and [gset]s, [std::map] is a [gmap].

    Theorems, by group:
    - Builder: for any sorted permutation the sort may produce, two rows
      share a spot id exactly when their names are equal, the spot id is
      the rank of the name, [m_total_spots] counts the names, the last-row
      bits are the greatest row of each name, and the spot bits are set
      for spans below 10,000,000 (single-row spots included).
    - Codec: the three round trips, and what the packed word does at the
      16-bit length bound.
    - Store: [store_wf] (per-slot vectors of equal length, every packed
      range below its slot's write offset, nothing of a row at or above its
      counter, byte counters) holds for fresh slots and is kept by a cold
      save; saving then fetching appends the read (refinement of a list
      of reads per row); any list of saves is fetched back in order; hot
      rows keep whole reads and lose them on fetch; a pending release
      changes no read; from an empty batch, [max_rows] releases of
      distinct cold rows always end with the batch run and emptied
      (liveness of the reclaimer); a completed batch clears the slots below the
      trigger row's counter only and keeps the counter, so a fetch of the
      row faults; the [uint8_t] counter wraps after 255 reads; error
      paths of empty sequences and missing slots.
    - StoreST: the single-threaded variant faults on a new engine,
      fetches rows from the wrong frames, and, for any state, a slot
      loop that meets a row with nothing in the slot clears the slot's
      whole columns (the [size_t] range [0 .. 0 - 1]).
    - Parse, Digest and App: the iterator loops of [s_split] finish
      within the string's length (termination) with the pieces of the
      structural form, [s_split] inverts a join, the read-pair batches
      are the columns of the pair lists, the names [xCheckInputFiles]
      settles on exist, and [xProcessDigest] assigns read types file by
      file, with its defaults and its platform error; a successful
      [xRun] opens the writer, parses the checked groups in order, checks
      duplicates and closes it, while a parse error makes [AppMain] return
      1 with the writer never closed; for every command line and every
      answer of the libraries, a run closes the writer at most once, as
      its last call after the duplicate check, and then returns 0
      (composition of the application with the digest and input models);
      no run opens or deletes an output file: the output is always
      [cout].
    - Bindings: every declaration of the JNI header is the one the JNI
      rules give for its comment (symbol, return and parameter C types),
      no two share a symbol; the descriptor printer and parser are
      inverse on well-formed types, name mangling is undone by unmangling
      on the characters of Java names and is not injective beyond them
      ([a/1] and [a_] collide); the Python declarations follow the
      [PY_RES_TYPE] convention.
    - Formatter: [JoinPlatforms] is [String.concat] (equivalence),
      [StringToFormat] accepts exactly the spellings of the four names
      with each letter in either case (stated against a table of
      letters, independent of the [tolower] it calls), JSON
      items are separated after the first, CSV and TAB answer one query,
      the default schema output is the preorder of the tree
      (refinement of a flat listing), and the spot-layout output is the
      concatenation of the first [limit] layouts, never read past the end
      (refinement).
    - Inspector: the decision table of [inspect_db_type], the reported
      sequence table is a table of the database, the PacBio platform
      test never fires on 8-bit data, an unopenable database is not an
      error, [NULL] arguments, the [ncbi-acc:] prefix and the buffer
      overflow of [resolve_accession], the base name of
      [inspector_extract_acc_from_path_v1] and the trailing-separator
      loop of its VFS variant.
    - Redact, Platform, StringItf: a [Typed<T>] view exists only over
      elements of [sizeof(T)] bytes and checks its indices (type),
      [getSchemaInfo] returns the name attribute under the library's
      two-call protocol, the [PATH_TYPE] macros accept a type with or
      without the alias bit (bit-level proof), [dropColumn]'s three
      outcomes, the get-after-set round trip of the environment
      and the failures [set] ignores, and the [NGS_NOTHROW] accessors
      that turn every error into a default value.

    Bounds and parameters.  The batch size of the reclaimer
    ([MAX_ROW_TO_CLEAR] = 5,000,000) is a parameter [max_rows] of
    [clear_spot_mt_with] and [clear_spot_with] so that the theorems cover
    every batch size and witnesses run a batch of 1 or 2; the theorems
    about a completed batch assume [max_rows] is reached.  The per-row
    counter is a byte, so the save theorems require fewer than 255 reads
    per row, and the packed word requires offsets below 2^48 and lengths
    below 2^16 ([room], [valid_read]).  Loops are structural recursions
    over a list ([mapR], [foldR]) or, for the trailing-separator loop of
    the inspector, over its counter; the two [while] loops of [s_split]
    on string positions take a step bound ([scan_sep], [s_split_loop],
    [None] when it runs out), and [s_split_terminates] shows that the
    string's length is enough.  C
    buffers keep their sizes ([PATH_MAX] = 4096, 1024 bytes for
    [VPathReadPath]).

    Asserts.  Every C++ [assert] is modelled by [assert_ ndebug]: with
    [ndebug = false] (debug build) a failed assert is the fault
    [FAssert]; with [ndebug = true] (release build) execution goes on as
    the compiled code does.  Undefined behaviour (an out-of-range
    [operator[]], [back()] of an empty vector) is the fault [FUndefined].

    What is not modelled, and why: logging and timing (spdlog), the
    taskflow thread pool (the sort is modelled by its result, a sorted
    permutation), the thread-local scratch buffers (they are locals of
    each call in the model), the mutex (every operation is one atomic
    step of the model, which is what the single coarse lock gives; the
    unlocked bookkeeping at the start of [clear_spot_mt] is a race the
    model does not show).  In the other tools: logging ([ErrMsg],
    [KOutMsg], spdlog), the releases of handles, the locale and logger
    set-up of SharQ's [main], the writes through the output stream (the
    writer is not in the repository), and the functions sra-redact.hpp
    declares whose bodies are in sra-redact.cpp, absent from the
    repository.  The binding headers and [simple_fasta_iter.h] only
    declare functions: their declarations are modelled, their bodies
    (the NGS dispatch of the JVM and Python sides, fasterq-dump's
    iterator) are not in those files.  Each part is listed in
    PROJECT.json with its status. *)

From stdpp Require Export base list gmap sets strings.
From Stdlib Require Export ZArith Lia.
From Stdlib Require Export Ascii.

Declare Scope sharq_scope.
Delimit Scope sharq_scope with sharq.
Open Scope sharq_scope.

Create HintDb sharq discriminated.
Create Rewrite HintDb sharq_rw.

(** ** Faults and results *)

(** Why a C++ call does not return normally: a failed [assert], undefined
    behaviour, a thrown exception with its error code (the code of a
    [fastq_error]; 0 for another exception, such as [std::runtime_error]
    or [VDB::Error]) and its message, or a call of [exit(status)]. *)
Inductive fault :=
| FAssert (what : string)
| FUndefined (what : string)
| FThrow (code : Z) (what : string)
| FExit (status : Z).

#[export] Instance fault_eq_dec : EqDecision fault.
Proof. solve_decision. Defined.

Inductive result (A : Type) : Type :=
| Ok (a : A)
| Err (f : fault).
Arguments Ok {A} a.
Arguments Err {A} f.

Definition bind {A B} (r : result A) (k : A -> result B) : result B :=
  match r with
  | Ok a => k a
  | Err f => Err f
  end.

Notation "x <- c ;; k" := (bind c (fun x => k))
  (at level 100, c at next level, right associativity) : sharq_scope.

(** [assert(cond)]: a fault in a debug build, nothing in a release build. *)
Definition assert_ (ndebug : bool) (cond : bool) (what : string) : result unit :=
  if cond || ndebug then Ok tt else Err (FAssert what).

(** [v[i]] on a [std::vector]: undefined behaviour out of range. *)
Definition vat {A} (l : list A) (i : nat) (what : string) : result A :=
  match l !! i with
  | Some x => Ok x
  | None => Err (FUndefined what)
  end.

(** [v[i] = x] on a [std::vector]. *)
Definition vupd {A} (l : list A) (i : nat) (x : A) (what : string) : result (list A) :=
  if decide (i < length l) then Ok (<[i:=x]> l) else Err (FUndefined what).

(** The value of a result, or [d] for a fault (used to name the state
    a concrete run produces). *)
Definition ok_or {A} (d : A) (r : result A) : A :=
  match r with Ok a => a | Err _ => d end.

(** A loop over a list whose body may fail. *)
Fixpoint mapR {A B} (f : A -> result B) (l : list A) : result (list B) :=
  match l with
  | [] => Ok []
  | x :: l' => y <- f x ;; ys <- mapR f l' ;; Ok (y :: ys)
  end.

(** A loop that threads a state through a body that may fail. *)
Fixpoint foldR {A B} (f : B -> A -> result B) (l : list A) (b : B) : result B :=
  match l with
  | [] => Ok b
  | x :: l' => b' <- f b x ;; foldR f l' b'
  end.

(** ** Fixed-width integers *)

(** Unsigned [w]-bit wrap-around ([uint8_t], [size_t], ...). *)
Definition wrapU (w z : Z) : Z := (z mod 2 ^ w)%Z.

(** Signed [w]-bit two's complement truncation ([short], [int]). *)
Definition wrapS (w z : Z) : Z := ((z + 2 ^ (w - 1)) mod 2 ^ w - 2 ^ (w - 1))%Z.

(** [tolower] on an [unsigned char] in the C locale. *)
Definition ascii_tolower (c : ascii) : ascii :=
  let n := Ascii.nat_of_ascii c in
  if (65 <=? n) && (n <=? 90) then Ascii.ascii_of_nat (n + 32) else c.

(** ** Shared lemmas *)

Lemma bind_Ok {A B} (a : A) (k : A -> result B) : bind (Ok a) k = k a.
Proof. reflexivity. Qed.

Lemma bind_Err {A B} f (k : A -> result B) : bind (Err f) k = Err f.
Proof. reflexivity. Qed.

Lemma bind_Ok_inv {A B} (r : result A) (k : A -> result B) b :
  bind r k = Ok b -> exists a, r = Ok a /\ k a = Ok b.
Proof. destruct r; simpl; [eauto | discriminate]. Qed.

Lemma assert_true nd what : assert_ nd true what = Ok tt.
Proof. reflexivity. Qed.

Lemma vat_lookup {A} (l : list A) i x what : l !! i = Some x -> vat l i what = Ok x.
Proof. unfold vat. by intros ->. Qed.

Lemma vupd_lt {A} (l : list A) i x what :
  i < length l -> vupd l i x what = Ok (<[i:=x]> l).
Proof. unfold vupd. intros. by rewrite decide_True. Qed.

Lemma mapR_Ok {A B} (f : A -> B) (l : list A) :
  mapR (fun x => Ok (f x)) l = Ok (map f l).
Proof. induction l as [|x l IH]; simpl; [done | by rewrite IH]. Qed.

Lemma mapR_length {A B} (f : A -> result B) l l' :
  mapR f l = Ok l' -> length l' = length l.
Proof.
  revert l'. induction l as [|x l IH]; simpl; intros l' H; [by inversion H|].
  destruct (f x); simpl in H; [|discriminate].
  destruct (mapR f l) eqn:E; simpl in H; [|discriminate].
  inversion H; subst. simpl. f_equal. by apply IH.
Qed.

Lemma mapR_ext_Ok {A B} (f : A -> result B) (g : A -> B) l :
  (forall x, x ∈ l -> f x = Ok (g x)) -> mapR f l = Ok (map g l).
Proof.
  induction l as [|x l IH]; intros Hf; simpl; [done|].
  rewrite Hf by set_solver. simpl. rewrite IH by set_solver. done.
Qed.

Lemma mapR_snoc {A B} (f : A -> result B) l x :
  mapR f (l ++ [x]) = (ys <- mapR f l ;; y <- f x ;; Ok (ys ++ [y])).
Proof.
  induction l as [|a l IH]; simpl.
  - destruct (f x); simpl; done.
  - destruct (f a); simpl; [|done]. rewrite IH.
    destruct (mapR f l); simpl; [|done]. by destruct (f x).
Qed.

Lemma mapR_Forall2 {A B} (f : A -> result B) l l' :
  mapR f l = Ok l' -> Forall2 (fun x y => f x = Ok y) l l'.
Proof.
  revert l'. induction l as [|x l IH]; simpl; intros l' H; [injection H as <-; constructor|].
  destruct (f x) eqn:E; simpl in H; [|discriminate].
  destruct (mapR f l) eqn:E'; simpl in H; [|discriminate].
  injection H as <-. constructor; [done | by apply IH].
Qed.

Lemma mapR_ext {A B} (f g : A -> result B) l :
  (forall x, x ∈ l -> f x = g x) -> mapR f l = mapR g l.
Proof.
  induction l as [|x l IH]; intros H; simpl; [done|].
  rewrite H by set_solver. by rewrite IH by set_solver.
Qed.

Lemma wrapU_small (w z : Z) : (0 <= z < 2 ^ w)%Z -> wrapU w z = z.
Proof. unfold wrapU. intros. by apply Z.mod_small. Qed.

Lemma wrapU_range (w z : Z) : (0 <= w)%Z -> (0 <= wrapU w z < 2 ^ w)%Z.
Proof. unfold wrapU. intros. apply Z.mod_pos_bound. apply Z.pow_pos_nonneg; lia. Qed.

Lemma wrapS_small (w z : Z) : (0 < w)%Z -> (- 2 ^ (w - 1) <= z < 2 ^ (w - 1))%Z -> wrapS w z = z.
Proof.
  unfold wrapS. intros Hw Hz.
  assert (E : (2 ^ w = 2 * 2 ^ (w - 1))%Z).
  { replace w with (Z.succ (w - 1)) at 1 by lia. apply Z.pow_succ_r. lia. }
  rewrite Z.mod_small; lia.
Qed.


Lemma string_app_assoc (a b c : string) : (a +:+ b) +:+ c = a +:+ (b +:+ c).
Proof. induction a as [|x a IH]; [done | exact (f_equal (String x) IH)]. Qed.

Lemma string_app_nil_r (a : string) : a +:+ "" = a.
Proof. induction a as [|x a IH]; [done | exact (f_equal (String x) IH)]. Qed.

(** [String.append] does not simplify; this is its step equation. *)
Lemma string_app_cons (x : Ascii.ascii) (a b : string) : String x a +:+ b = String x (a +:+ b).
Proof. done. Qed.

(** A bit at or above [k] of a number below [2^k] is clear. *)
Lemma testbit_above (a k n : Z) : (0 <= a < 2 ^ k)%Z -> (0 <= k <= n)%Z -> Z.testbit a n = false.
Proof.
  intros Ha Hk. destruct (Z.eq_dec a 0) as [->|Hne]; [apply Z.bits_0|].
  apply Z.bits_above_log2; [lia|].
  assert (Z.log2 a < k)%Z by (apply Z.log2_lt_pow2; lia). lia.
Qed.

Lemma foldR_app {A B} (f : B -> A -> result B) l1 l2 b :
  foldR f (l1 ++ l2) b = (b' <- foldR f l1 b ;; foldR f l2 b').
Proof.
  revert b. induction l1 as [|x l1 IH]; intros b; [done|]. simpl.
  destruct (f b x); [apply IH | done].
Qed.

(** Two loops that invert each other element-wise invert each other. *)
Lemma mapR_roundtrip {A B} (f : A -> result B) (g : B -> result A) (l : list A) :
  (forall x, x ∈ l -> exists y, f x = Ok y /\ g y = Ok x) ->
  exists ys, mapR f l = Ok ys /\ mapR g ys = Ok l.
Proof.
  induction l as [|x l IH]; intros Hfg; simpl; [by exists []|].
  destruct (Hfg x) as (y & Hy & Hgy); [set_solver|].
  destruct IH as (ys & Hys & Hgys); [set_solver|].
  exists (y :: ys). rewrite Hy, Hys. simpl. by rewrite Hgy, Hgys.
Qed.

(** The loop [for (i = k; i < k + n; ++i) v[i]] reads [n] elements from
    [k] on when they are all in range. *)
Lemma mapR_vat_seq_take {A} (l : list A) k n what :
  k + n <= length l -> mapR (fun i => vat l i what) (seq k n) = Ok (take n (drop k l)).
Proof.
  revert k. induction n as [|n IH]; intros k Hk; [done|].
  destruct (lookup_lt_is_Some_2 l k) as [x Hx]; [lia|].
  cbn [seq mapR]. rewrite (vat_lookup _ _ _ _ Hx), bind_Ok, IH by lia.
  by rewrite (drop_S l x k Hx).
Qed.

#[export] Hint Rewrite @bind_Ok @bind_Err @assert_true string_app_nil_r : sharq_rw.
#[export] Hint Resolve vat_lookup vupd_lt wrapU_small wrapS_small : sharq.

(** Unfold the result monad in a goal or a hypothesis. *)
Ltac result_simpl := autorewrite with sharq_rw in *.

(** Split [bind r k = Ok b] into its two halves. *)
Ltac inv_bind H :=
  let a := fresh "a" in
  let Ha := fresh "Ha" in
  apply bind_Ok_inv in H as (a & Ha & H).
