(* ===== verification/Codec.v ===== *)
(** * Codec: the per-read encodings of the column store

    The three encodings [save_read_mt] applies to a read before it is
    stored, and the decodings [get_spot_mt] applies when it is fetched,
    from [src/tools/loaders/sharq/spot_assembly.hpp]:
    - Module [Dna]: bases to 3-bit codes ([DNA2int], [Int2DNA]) and the
      loops over a sequence;
    - Module [Qual]: quality scores ([uint8_t]) to deltas ([short]) from
      the mid score [ScoreValidator::min_score() + 30], and back;
    - Module [Packed]: a 48-bit offset and a 16-bit length in one
      [size_t] ([offset |= sz << 48], [>> 48], [& 0x0000FFFFFFFFFFFF]).
    Each comes with its round trip and the bounds that make it hold, and
    with what the code does outside them. *)

From S2P Require Import Prelude.

Local Open Scope Z_scope.

Module Dna.

(** [DNA2int] (the [default] branch asserts, then returns 0). *)
Definition DNA2int (nd : bool) (c : ascii) : result Z :=
  match c with
  | "A"%char => Ok 0
  | "T"%char => Ok 1
  | "G"%char => Ok 2
  | "C"%char => Ok 3
  | "N"%char => Ok 4
  | _ => _ <- assert_ nd false "DNA2int" ;; Ok 0
  end.

(** [Int2DNA(uint8_t code)] (the [default] branch asserts, then
    returns the character 0). *)
Definition Int2DNA (nd : bool) (code : Z) : result ascii :=
  match code with
  | 0 => Ok "A"%char
  | 1 => Ok "T"%char
  | 2 => Ok "G"%char
  | 3 => Ok "C"%char
  | 4 => Ok "N"%char
  | _ => _ <- assert_ nd false "Int2DNA" ;; Ok "000"%char
  end.

(** The alphabet the codes are defined for. *)
Definition is_base (c : ascii) : bool :=
  match c with
  | "A"%char | "T"%char | "G"%char | "C"%char | "N"%char => true
  | _ => false
  end.

(** [save_read_mt]: [assert(seq_sz > 0)] and the loop
    [buffer[i] = DNA2int(seq[i])]. *)
Definition encode_seq (nd : bool) (seq : string) : result (list Z) :=
  _ <- assert_ nd (0 <? String.length seq)%nat "seq_sz > 0" ;;
  mapR (DNA2int nd) (String.list_ascii_of_string seq).

(** [get_spot_mt]: the loop [m_tmp_str[j] = Int2DNA(buffer[j])]; the
    [uint32_t] code is narrowed to the [uint8_t] parameter. *)
Definition decode_seq (nd : bool) (buffer : list Z) : result string :=
  cs <- mapR (fun v => Int2DNA nd (wrapU 8 v)) buffer ;;
  Ok (String.string_of_list_ascii cs).

Lemma DNA2int_Int2DNA nd nd' c :
  is_base c = true ->
  exists v, DNA2int nd c = Ok v /\ Int2DNA nd' (wrapU 8 v) = Ok c.
Proof.
  destruct c as [[] [] [] [] [] [] [] []]; simpl; try discriminate;
    intros _; eexists; split; reflexivity.
Qed.

Lemma DNA2int_range nd c v : DNA2int nd c = Ok v -> 0 <= v < 8.
Proof.
  unfold DNA2int, assert_.
  destruct c as [[] [] [] [] [] [] [] []]; simpl; intros H;
    try (destruct nd; simpl in H); inversion H; lia.
Qed.

(** Encoding a valid sequence succeeds with one code per base, and
    decoding the codes gives it back. *)
Lemma encode_seq_spec (nd nd' : bool) (seq : string) :
  seq <> ""%string ->
  Forall (fun c => is_base c = true) (String.list_ascii_of_string seq) ->
  exists codes, encode_seq nd seq = Ok codes /\ decode_seq nd' codes = Ok seq /\
    length codes = String.length seq.
Proof.
  intros Hne Hb. unfold encode_seq.
  replace (0 <? String.length seq)%nat with true
    by (destruct seq; [done | reflexivity]).
  result_simpl.
  destruct (mapR_roundtrip (DNA2int nd) (fun v => Int2DNA nd' (wrapU 8 v))
              (String.list_ascii_of_string seq)) as (ys & Hys & Hback).
  { intros c Hc. apply DNA2int_Int2DNA. rewrite Forall_forall in Hb.
    by apply Hb. }
  exists ys. split_and!; [done| |].
  - unfold decode_seq. rewrite Hback. simpl.
    by rewrite String.string_of_list_ascii_of_string.
  - rewrite (mapR_length _ _ _ Hys). clear. induction seq; simpl; auto.
Qed.

(** C6. Round trip of a sequence over A, T, G, C, N through its codes. *)
Theorem seq_roundtrip (nd nd' : bool) (seq : string) :
  seq <> ""%string ->
  Forall (fun c => is_base c = true) (String.list_ascii_of_string seq) ->
  bind (encode_seq nd seq) (decode_seq nd') = Ok seq.
Proof.
  intros Hne Hb. destruct (encode_seq_spec nd nd' seq) as (codes & -> & Hd & _); done.
Qed.

Lemma seq_roundtrip_witness :
  bind (encode_seq false "GATTACAN") (decode_seq false) = Ok "GATTACAN"%string.
Proof. apply (seq_roundtrip false false "GATTACAN"); [discriminate | vm_compute; repeat constructor]. Defined.

(** The codes fit in the 3 bits the column is meant to use. *)
Lemma encode_seq_range nd seq codes :
  encode_seq nd seq = Ok codes -> Forall (fun v => 0 <= v < 8) codes.
Proof.
  unfold encode_seq. intros H. inv_bind H.
  revert codes H. induction (String.list_ascii_of_string seq) as [|c l IH];
    simpl; intros codes H; [by inversion H|].
  inv_bind H. inv_bind H. inversion H; subst.
  constructor; [by eapply DNA2int_range | by apply IH].
Qed.

End Dna.

Module Qual.

(** The [ScoreValidator] template parameter: only [min_score()] is
    used by the column store. *)
Class ScoreValidator := { min_score : Z }.

Section WithValidator.
Context `{SV : ScoreValidator}.

(** [int mid_score = ScoreValidator::min_score() + 30;] *)
Definition mid_score : Z := min_score + 30.

(** [qual_buffer[i] = qual_scores[i] - qual_scores[i - 1]], an [int]
    difference stored in a [short] ([qual_type_t]). *)
Fixpoint qual_deltas (prev : Z) (qs : list Z) : list Z :=
  match qs with
  | [] => []
  | q :: qs' => wrapS 16 (q - prev) :: qual_deltas q qs'
  end.

(** [save_read_mt]: [assert(qual_sz == seq_sz)], then
    [qual_buffer[0] = qual_scores[0] - mid_score] and the delta loop.
    With no score, [qual_buffer[0]] writes past an empty vector. *)
Definition encode_qual (nd : bool) (seq_sz : nat) (qual_scores : list Z)
  : result (list Z) :=
  _ <- assert_ nd (length qual_scores =? seq_sz)%nat "qual_sz == seq_sz" ;;
  match qual_scores with
  | [] => Err (FUndefined "qual_buffer[0]")
  | q0 :: qs => Ok (wrapS 16 (q0 - mid_score) :: qual_deltas q0 qs)
  end.

(** [qual_scores[i] = qual_buffer[i] + qual_scores[i - 1]], stored in
    a [uint8_t]. *)
Fixpoint qual_undeltas (prev : Z) (ds : list Z) : list Z :=
  match ds with
  | [] => []
  | d :: ds' => let q := wrapU 8 (d + prev) in q :: qual_undeltas q ds'
  end.

(** [get_spot_mt]: [qual_scores[0] = qual_buffer[0] + mid_score] and
    the loop; with a length of 0, [qual_scores[0]] writes past an
    empty vector. *)
Definition decode_qual (qual_buffer : list Z) : result (list Z) :=
  match qual_buffer with
  | [] => Err (FUndefined "qual_scores[0]")
  | d0 :: ds => let q0 := wrapU 8 (d0 + mid_score) in Ok (q0 :: qual_undeltas q0 ds)
  end.

Definition is_score (q : Z) : Prop := 0 <= q < 256.

Lemma undeltas_deltas prev qs :
  is_score prev -> Forall is_score qs -> qual_undeltas prev (qual_deltas prev qs) = qs.
Proof.
  unfold is_score. revert prev. induction qs as [|q qs IH]; intros prev Hp Hqs; [done|].
  inversion Hqs as [|? ? Hq Hrest]; subst. simpl.
  rewrite wrapS_small by (simpl; lia). replace (q - prev + prev) with q by lia.
  rewrite wrapU_small by (simpl; lia). f_equal. by apply IH.
Qed.

(** Every delta after the first fits in 9 bits with its sign. *)
Lemma qual_deltas_range prev qs :
  is_score prev -> Forall is_score qs ->
  Forall (fun d => -255 <= d <= 255) (qual_deltas prev qs).
Proof.
  unfold is_score. revert prev. induction qs as [|q qs IH]; intros prev Hp Hqs; simpl;
    [constructor|].
  inversion Hqs as [|? ? Hq Hrest]; subst.
  rewrite wrapS_small by (simpl; lia). constructor; [lia | by apply IH].
Qed.

(** Encoding non-empty scores succeeds with one delta per score, and
    decoding the deltas gives them back, while the first delta fits its
    [short]. *)
Lemma encode_qual_spec (nd : bool) (qs : list Z) :
  -32513 < mid_score <= 32768 ->
  qs <> [] -> Forall is_score qs ->
  exists ds, encode_qual nd (length qs) qs = Ok ds /\ decode_qual ds = Ok qs /\
    length ds = length qs.
Proof.
  intros Hmid Hne Hqs. unfold encode_qual.
  rewrite Nat.eqb_refl. result_simpl.
  destruct qs as [|q0 qs]; [done|]. inversion Hqs as [|? ? Hq0 Hrest]; subst.
  unfold is_score in Hq0. eexists. split_and!; [reflexivity| |].
  - simpl. rewrite wrapS_small by (simpl; lia).
    replace (q0 - mid_score + mid_score) with q0 by lia.
    rewrite wrapU_small by (simpl; lia). f_equal. f_equal. by apply undeltas_deltas.
  - simpl. f_equal. clear. revert q0. induction qs; simpl; auto.
Qed.

(** C5. Round trip of a quality string through its deltas. *)
Theorem qual_roundtrip (nd : bool) (qs : list Z) :
  -32513 < mid_score <= 32768 ->
  qs <> [] -> Forall is_score qs ->
  bind (encode_qual nd (length qs) qs) decode_qual = Ok qs.
Proof.
  intros Hmid Hne Hqs. destruct (encode_qual_spec nd qs) as (ds & -> & Hd & _); done.
Qed.

End WithValidator.

(** A validator whose [min_score()] is 0, as for Phred scores. *)
Local Instance phred_validator : ScoreValidator := {| min_score := 0 |}.

Lemma qual_roundtrip_witness :
  bind (encode_qual false 3 [40; 42; 41]) decode_qual = Ok [40; 42; 41].
Proof.
  apply (qual_roundtrip false [40; 42; 41]).
  - unfold mid_score. simpl. lia.
  - discriminate.
  - repeat constructor; unfold is_score; lia.
Defined.
End Qual.

Module Packed.

(** [offset |= sz << 48] on [size_t]: the shift wraps at 64 bits. *)
Definition pack_offset (offset sz : Z) : Z :=
  Z.lor offset (wrapU 64 (Z.shiftl sz 48)).

(** [size_t len = offset >> 48;] *)
Definition packed_len (v : Z) : Z := Z.shiftr v 48.

(** [offset &= 0x0000FFFFFFFFFFFF;] *)
Definition packed_off (v : Z) : Z := Z.land v 0x0000FFFFFFFFFFFF.

(** The length and offset fields of a packed word. *)
Lemma packed_fields (offset sz : Z) :
  0 <= offset < 2 ^ 48 -> 0 <= sz < 2 ^ 16 ->
  packed_len (pack_offset offset sz) = sz /\ packed_off (pack_offset offset sz) = offset.
Proof.
  intros Ho Hs. unfold packed_len, packed_off, pack_offset.
  rewrite wrapU_small by (rewrite Z.shiftl_mul_pow2 by lia; lia).
  change 0x0000FFFFFFFFFFFF with (Z.ones 48).
  split; apply Z.bits_inj'; intros n Hn.
  - rewrite Z.shiftr_spec, Z.lor_spec, Z.shiftl_spec by lia.
    rewrite (testbit_above offset 48) by lia. simpl. f_equal. lia.
  - rewrite Z.land_spec, Z.lor_spec, Z.shiftl_spec, Z.testbit_ones by lia.
    destruct (Z.ltb_spec n 48).
    + rewrite (Z.testbit_neg_r sz) by lia. rewrite Bool.orb_false_r.
      replace (0 <=? n) with true by (symmetry; apply Z.leb_le; lia).
      apply Bool.andb_true_r.
    + rewrite !Bool.andb_false_r. symmetry. apply (testbit_above offset 48); lia.
Qed.


(** C9. Below 2^48 for the offset and 2^16 for the length, both come
    back out of the packed word. *)
Theorem packed_roundtrip (offset sz : Z) :
  0 <= offset < 2 ^ 48 -> 0 <= sz < 2 ^ 16 ->
  packed_len (pack_offset offset sz) = sz /\ packed_off (pack_offset offset sz) = offset.
Proof. apply packed_fields. Qed.

Lemma packed_roundtrip_witness :
  packed_len (pack_offset 1000 151) = 151 /\ packed_off (pack_offset 1000 151) = 1000.
Proof. apply packed_roundtrip; lia. Defined.

(** The packed word stays a [size_t]. *)
Lemma pack_offset_range offset sz :
  0 <= offset < 2 ^ 64 -> 0 <= pack_offset offset sz < 2 ^ 64.
Proof.
  intros Ho. unfold pack_offset.
  pose proof (wrapU_range 64 (Z.shiftl sz 48)) as Hw.
  split; [apply Z.lor_nonneg; lia|].
  destruct (Z.eq_dec (Z.lor offset (wrapU 64 (Z.shiftl sz 48))) 0) as [->|Hne]; [lia|].
  apply Z.log2_lt_pow2; [apply Z.le_neq; split; [apply Z.lor_nonneg; lia | congruence]|].
  rewrite Z.log2_lor by lia. apply Z.max_lub_lt.
  - destruct (Z.eq_dec offset 0) as [->|]; [simpl; lia|]. apply Z.log2_lt_pow2; lia.
  - destruct (Z.eq_dec (wrapU 64 (Z.shiftl sz 48)) 0) as [->|]; [simpl; lia|].
    apply Z.log2_lt_pow2; lia.
Qed.

(** C10. A read of 2^16 bases or more loses its length: the shifted
    length leaves the 64-bit word, and the stored length reads 0. *)
Theorem packed_len_overflow (offset : Z) :
  0 <= offset < 2 ^ 48 -> packed_len (pack_offset offset (2 ^ 16)) = 0.
Proof.
  intros Ho. unfold packed_len, pack_offset, wrapU.
  rewrite Z.shiftl_mul_pow2 by lia. change (2 ^ 16 * 2 ^ 48 mod 2 ^ 64) with 0.
  rewrite Z.lor_0_r, Z.shiftr_div_pow2 by lia. apply Z.div_small. lia.
Qed.

Lemma packed_len_overflow_witness : packed_len (pack_offset 1000 (2 ^ 16)) = 0.
Proof. apply packed_len_overflow. lia. Defined.
End Packed.
