(* ===== verification/SparseVec.v ===== *)
(** * SparseVec: the BitMagic columns the store is built on

    [spot_assembly.hpp] keeps every column in a BitMagic container:
    [bm::bvector<>] (a bit set), [bm::sparse_vector<T>] (an integer
    column), [bm::str_sparse_vector] (a string column).  The library is
    not part of the repository's sources, so its operations are modelled
    from the spec: a sparse column is a finite map from row to value whose
    unset rows read as the element type's zero ([get_no_check] and [get]
    agree on that), a bit vector is a finite set of rows.  Optimisation
    ([optimize], [freeze]) changes the representation only, so it is the
    identity here.  The lemmas below are the laws of these containers the
    store's theorems use. *)

From S2P Require Import Prelude.

Section Sparse.
Context {V : Type} (zero : V).

(** [sv.get(i)] / [sv.get_no_check(i)]: an unset element reads as 0. *)
Definition sv_get (m : gmap nat V) (i : nat) : V := default zero (m !! i).

(** [sv.set(i, v)]. *)
Definition sv_set (m : gmap nat V) (i : nat) (v : V) : gmap nat V := <[i:=v]> m.

(** [sv.clear(bv)]: unset every element whose row is in [bv]. *)
Definition sv_clear (m : gmap nat V) (rows : gset nat) : gmap nat V :=
  filter (fun kv => kv.1 ∉ rows) m.

(** [sv.import(buf, sz, offset)]: element [offset + j] becomes [buf[j]]. *)
Fixpoint sv_import (m : gmap nat V) (buf : list V) (offset : nat) : gmap nat V :=
  match buf with
  | [] => m
  | v :: buf' => sv_import (<[offset:=v]> m) buf' (S offset)
  end.

(** [sv.decode(buf, offset, len)]: elements [offset .. offset+len-1]. *)
Definition sv_decode (m : gmap nat V) (offset len : nat) : list V :=
  map (fun j => sv_get m (offset + j)) (seq 0 len).

(** [sv.gather(out, rows, n, BM_UNSORTED)]: the elements at [rows]. *)
Definition sv_gather (m : gmap nat V) (rows : list nat) : list V :=
  map (sv_get m) rows.

Lemma sv_get_set_eq m i v : sv_get (sv_set m i v) i = v.
Proof. unfold sv_get, sv_set. by rewrite lookup_insert_eq. Qed.

Lemma sv_get_set_ne m i j v : i <> j -> sv_get (sv_set m i v) j = sv_get m j.
Proof. intros. unfold sv_get, sv_set. by rewrite lookup_insert_ne. Qed.

Lemma sv_get_empty i : sv_get ∅ i = zero.
Proof. reflexivity. Qed.

Lemma sv_get_clear m rows i :
  sv_get (sv_clear m rows) i = if decide (i ∈ rows) then zero else sv_get m i.
Proof.
  unfold sv_get, sv_clear. rewrite map_lookup_filter.
  destruct (m !! i) eqn:E; simpl; case_decide; simpl; try done; case_guard; simpl; tauto.
Qed.

Lemma sv_get_clear_notin m rows i : i ∉ rows -> sv_get (sv_clear m rows) i = sv_get m i.
Proof. intros. rewrite sv_get_clear. by case_decide. Qed.

Lemma sv_get_clear_in m rows i : i ∈ rows -> sv_get (sv_clear m rows) i = zero.
Proof. intros. rewrite sv_get_clear. by case_decide. Qed.

Lemma sv_get_import_out m buf offset i :
  (i < offset \/ offset + length buf <= i)%nat ->
  sv_get (sv_import m buf offset) i = sv_get m i.
Proof.
  revert m offset. induction buf as [|v buf IH]; intros m offset Hi; simpl in *; [done|].
  rewrite IH by lia. unfold sv_get. rewrite lookup_insert_ne by lia. done.
Qed.

Lemma sv_get_import_in m buf offset j :
  (j < length buf)%nat ->
  sv_get (sv_import m buf offset) (offset + j) = nth j buf zero.
Proof.
  revert m offset j. induction buf as [|v buf IH]; intros m offset j Hj; simpl in *; [lia|].
  destruct j as [|j].
  - rewrite sv_get_import_out by lia. unfold sv_get.
    by rewrite Nat.add_0_r, lookup_insert_eq.
  - replace (offset + S j)%nat with (S offset + j)%nat by lia. apply IH. lia.
Qed.

Lemma sv_decode_ext m m' offset len :
  (forall j, (j < len)%nat -> sv_get m (offset + j) = sv_get m' (offset + j)) ->
  sv_decode m offset len = sv_decode m' offset len.
Proof.
  intros H. unfold sv_decode. apply map_ext_in. intros j Hj.
  apply in_seq in Hj. apply H. lia.
Qed.

(** Decoding what was just imported gives it back. *)
Lemma sv_decode_import m buf offset :
  sv_decode (sv_import m buf offset) offset (length buf) = buf.
Proof.
  unfold sv_decode. apply (nth_ext _ _ zero zero).
  - by rewrite length_map, length_seq.
  - intros j Hj. rewrite length_map, length_seq in Hj.
    rewrite (nth_indep _ _ (sv_get (sv_import m buf offset) (offset + 0))) by
      (by rewrite length_map, length_seq).
    rewrite (map_nth (fun j => sv_get (sv_import m buf offset) (offset + j))).
    rewrite seq_nth by done. simpl. by apply sv_get_import_in.
Qed.

Lemma sv_decode_length m offset len : length (sv_decode m offset len) = len.
Proof. unfold sv_decode. by rewrite length_map, length_seq. Qed.
End Sparse.

(** [bvector.set_range(lo, hi)] (both ends included). *)
Definition bv_set_range (bv : gset nat) (lo hi : nat) : gset nat :=
  bv ∪ list_to_set (seq lo (S hi - lo)).

(** [sparse_vector::clear_range(left, right)]: unset the elements from
    [left] to [right], both included; bounds given in decreasing order
    are swapped, as BitMagic's range operations do. *)
Definition sv_clear_range {V} (m : gmap nat V) (left right : Z) : gmap nat V :=
  filter (fun kv => ~ (Z.min left right <= Z.of_nat kv.1 <= Z.max left right)%Z) m.

(** [sparse_vector<uint8_t>::inc(i)]: the [uint8_t] value wraps. *)
Definition sv_inc_u8 (m : gmap nat Z) (i : nat) : gmap nat Z :=
  <[i := wrapU 8 (sv_get 0%Z m i + 1)]> m.

Lemma elem_of_bv_set_range bv lo hi i :
  i ∈ bv_set_range bv lo hi <-> i ∈ bv \/ (lo <= i <= hi)%nat.
Proof.
  unfold bv_set_range. rewrite elem_of_union, elem_of_list_to_set, list_elem_of_In, in_seq.
  split; intros [H|H]; (left; done) || (right; lia).
Qed.

Lemma sv_get_inc_u8_eq m i : sv_get 0%Z (sv_inc_u8 m i) i = wrapU 8 (sv_get 0%Z m i + 1).
Proof. unfold sv_inc_u8, sv_get. by rewrite lookup_insert_eq. Qed.

Lemma sv_get_inc_u8_ne m i j : i <> j -> sv_get 0%Z (sv_inc_u8 m i) j = sv_get 0%Z m j.
Proof. intros. unfold sv_inc_u8, sv_get. by rewrite lookup_insert_ne. Qed.

#[export] Hint Rewrite @sv_get_set_eq @sv_get_empty @sv_decode_import @sv_decode_length
  sv_get_inc_u8_eq : sharq_rw.
#[export] Hint Resolve sv_get_set_ne sv_get_clear_notin sv_get_clear_in sv_get_import_out
  sv_get_inc_u8_ne : sharq.
