(* ===== verification/SpotState.v ===== *)
(** * SpotState: the data of [spot_assembly_t]

    The read record the engine receives ([fastq_read], declared in
    [fastq_read.hpp], which is not part of src/: modelled from the spec),
    the per-slot metadata frame [metadata_t] with its column ids, the
    fields of [struct spot_assembly_t], its default construction and
    [init(num_rows)], from [src/tools/loaders/sharq/spot_assembly.hpp]. *)

From S2P Require Import Prelude SparseVec.

(** ** The read *)

(** The accessors of [fastq_read] the engine calls: [m_ReaderIdx],
    [ReadNum()], [SpotGroup()], [Suffix()], [Channel()],
    [NanoporeReadNo()], [ReadFilter()], [Sequence()] and the scores
    [GetQualScores] produces. *)
Record fastq_read := mk_fastq_read {
  m_ReaderIdx : Z;
  ReadNum : string;
  SpotGroup : string;
  Suffix : string;
  Channel : string;
  NanoporeReadNo : string;
  ReadFilter : bool;
  Sequence : string;
  QualScores : list Z
}.

(** [m_tmp_read.Reset()]: every field empty. *)
Definition read_reset : fastq_read :=
  {| m_ReaderIdx := 0; ReadNum := ""; SpotGroup := ""; Suffix := ""; Channel := "";
     NanoporeReadNo := ""; ReadFilter := false; Sequence := ""; QualScores := [] |}.

(** The setters of [fastq_read] the engine calls on [m_tmp_read]. *)
Definition SetReadNum (s : string) (r : fastq_read) : fastq_read := {| r with ReadNum := s |}.
Definition SetSpotGroup (s : string) (r : fastq_read) : fastq_read := {| r with SpotGroup := s |}.
Definition SetSuffix (s : string) (r : fastq_read) : fastq_read := {| r with Suffix := s |}.
Definition SetChannel (s : string) (r : fastq_read) : fastq_read := {| r with Channel := s |}.
Definition SetNanoporeReadNo (s : string) (r : fastq_read) : fastq_read :=
  {| r with NanoporeReadNo := s |}.
Definition SetReadFilter (b : bool) (r : fastq_read) : fastq_read := {| r with ReadFilter := b |}.
Definition SetSequence (s : string) (r : fastq_read) : fastq_read := {| r with Sequence := s |}.
Definition SetQualScores (q : list Z) (r : fastq_read) : fastq_read :=
  {| r with QualScores := q |}.

(** ** The metadata frame of one read slot *)

(** [enum { e_ReadNumId, ... }] of [metadata_t]. *)
Inductive md_column :=
| e_ReadNumId | e_SpotGroupId | e_SuffixId | e_ChannelId | e_NanoporeReadNoId
| e_ReadFilterId | e_SeqOffsetId | e_QualOffsetId | e_ReaderId.

Inductive EDF_ColumnType := eDF_String | eDF_Bit | eDF_Uint64 | eDF_Uint16.

(** The column types [metadata_t()] passes to [CreateColumns]. *)
Definition md_column_type (c : md_column) : EDF_ColumnType :=
  match c with
  | e_ReadNumId | e_SpotGroupId | e_SuffixId | e_ChannelId | e_NanoporeReadNoId => eDF_String
  | e_ReadFilterId => eDF_Bit
  | e_SeqOffsetId | e_QualOffsetId => eDF_Uint64
  | e_ReaderId => eDF_Uint16
  end.

(** One column per id, each a sparse column keyed by row id. *)
Record metadata_t := mk_metadata {
  md_ReadNum : gmap nat string;
  md_SpotGroup : gmap nat string;
  md_Suffix : gmap nat string;
  md_Channel : gmap nat string;
  md_NanoporeReadNo : gmap nat string;
  md_ReadFilter : gset nat;
  md_SeqOffset : gmap nat Z;
  md_QualOffset : gmap nat Z;
  md_ReaderId : gmap nat Z
}.

(** [metadata_t()]: every column created empty. *)
Definition metadata_new : metadata_t :=
  {| md_ReadNum := ∅; md_SpotGroup := ∅; md_Suffix := ∅; md_Channel := ∅;
     md_NanoporeReadNo := ∅; md_ReadFilter := ∅; md_SeqOffset := ∅;
     md_QualOffset := ∅; md_ReaderId := ∅ |}.

(** ** The engine *)

(** [static constexpr int MAX_ROW_TO_CLEAR = 5000000;] *)
Definition MAX_ROW_TO_CLEAR : Z := 5000000.

(** The row-id span below which [add_spot_bits] sets the spot's bit. *)
Definition HOT_SPOT_SPAN : Z := 10000000.

(** The [m_optimize_count] level below which [optimize] returns. *)
Definition OPTIMIZE_THRESHOLD : Z := 10000000.

(** The fields of [struct spot_assembly_t] (the thread-local buffers and
    the mutex are not state of the model). *)
Record spot_assembly_t := mk_spot_assembly {
  m_read_index : list nat;
  m_last_index : gset nat;
  rows_to_clear : gset nat;
  num_rows_to_clear : nat;
  m_hot_spot_ids : gset nat;
  m_hot_spots : gmap nat (list fastq_read);
  m_total_spots : nat;
  m_reads_counts : gmap nat nat;
  m_optimize_count : Z;
  m_spot_index : gmap nat Z;
  m_reads_metadata : list metadata_t;
  m_sequences : list (gmap nat Z);
  m_qualities : list (gmap nat Z);
  m_seq_offset : list nat;
  m_qual_offset : list nat
}.

(** [spot_assembly_t()] with its member initialisers. *)
Definition spot_assembly_new : spot_assembly_t :=
  {| m_read_index := []; m_last_index := ∅; rows_to_clear := ∅; num_rows_to_clear := 0;
     m_hot_spot_ids := ∅; m_hot_spots := ∅; m_total_spots := 0; m_reads_counts := ∅;
     m_optimize_count := 0; m_spot_index := ∅; m_reads_metadata := [];
     m_sequences := []; m_qualities := []; m_seq_offset := []; m_qual_offset := [] |}.

(** [std::vector<uint32_t>::resize(n)]: keeps the prefix, pads with 0. *)
Definition vec_resize (l : list nat) (n : nat) : list nat :=
  take n l ++ replicate (n - length l) 0.

(** [init(num_rows)]: note that neither [num_rows_to_clear] nor
    [m_reads_counts] is reset. *)
Definition init (num_rows : nat) (st : spot_assembly_t) : spot_assembly_t :=
  {| st with
     m_read_index := vec_resize (m_read_index st) num_rows;
     m_last_index := ∅;
     rows_to_clear := ∅;
     m_hot_spot_ids := ∅;
     m_hot_spots := ∅;
     m_reads_metadata := [];
     m_total_spots := 0 |}.

(** The read slots are sized by the caller before any [save_read_mt]
    (the commented-out [resize(MAX_READS)] calls of the constructor and
    of [init] are not compiled): [k] empty slots, each with an empty
    metadata frame, empty sequence and quality columns and a write
    offset of 0. *)
Definition reserve_slots (k : nat) (st : spot_assembly_t) : spot_assembly_t :=
  {| st with
     m_reads_metadata := replicate k metadata_new;
     m_sequences := replicate k ∅;
     m_qualities := replicate k ∅;
     m_seq_offset := replicate k 0;
     m_qual_offset := replicate k 0 |}.

(** [bool is_last_spot(size_t row_id)]. *)
Definition is_last_spot (st : spot_assembly_t) (row_id : nat) : bool :=
  bool_decide (row_id ∈ m_last_index st).

Lemma length_vec_resize l n : length (vec_resize l n) = n.
Proof. unfold vec_resize. rewrite length_app, length_take, length_replicate. lia. Qed.

#[export] Hint Rewrite length_vec_resize : sharq_rw.
