(* ===== verification/Builder.v ===== *)
(** * Builder: [spot_assembly_t::build] and [add_spot_bits]

    The one-shot pass that groups rows into spots
    ([src/tools/loaders/sharq/spot_assembly.hpp], lines 695-772 and
    332-339): sort the row ids by name, walk the sorted order, give each
    row its spot id in [m_read_index], and finalise every spot with
    [add_spot_bits] (last-row bit, hot bit, size statistics, spot count).

    The parallel sort is modelled by its contract: the walk's theorems
    hold for every permutation of the row ids that is sorted by a total
    order on names (class [NameOrder]), so they do not depend on how the
    sort breaks ties; [sort_rows] is one such sort, used by [build]. *)

From S2P Require Import Prelude SparseVec SpotState.
From Stdlib Require Import Sorting.Mergesort Sorted.

(** [read_names.get(row, str)]. *)
Definition row_name (names : list string) (r : nat) : string := default ""%string (names !! r).

(** ** What the sort promises: a total order on names *)

Class NameOrder (name_leb : string -> string -> bool) := {
  name_leb_refl : forall s, name_leb s s = true;
  name_leb_trans : forall a b c, name_leb a b = true -> name_leb b c = true -> name_leb a c = true;
  name_leb_total : forall a b, name_leb a b = true \/ name_leb b a = true;
  name_leb_antisym : forall a b, name_leb a b = true -> name_leb b a = true -> a = b
}.

Lemma string_leb_trans (s1 s2 s3 : string) :
  String.leb s1 s2 = true -> String.leb s2 s3 = true -> String.leb s1 s3 = true.
Proof.
  unfold String.leb. revert s2 s3.
  induction s1 as [|c1 s1 IH]; intros [|c2 s2] [|c3 s3]; simpl; try congruence.
  unfold Ascii.compare.
  destruct (N.compare_spec (N_of_ascii c1) (N_of_ascii c2));
  destruct (N.compare_spec (N_of_ascii c2) (N_of_ascii c3));
  destruct (N.compare_spec (N_of_ascii c1) (N_of_ascii c3));
  try congruence; try lia.
  apply IH.
Qed.

(** Lexicographic byte order, the order the spec gives the comparator. *)
#[export] Instance string_name_order : NameOrder String.leb.
Proof.
  split.
  - intros s. destruct (String.leb_total s s); done.
  - exact string_leb_trans.
  - exact String.leb_total.
  - exact String.leb_antisym.
Qed.

(** ** The sort of the row ids *)

(** [taskflow.sort(sort_index, [&](l, r) { ... compare_remap(l, name(r)) < 0 })]
    modelled by an insertion sort on the same order. *)
Fixpoint insert_row (le : string -> string -> bool) (names : list string) (r : nat)
    (l : list nat) : list nat :=
  match l with
  | [] => [r]
  | x :: l' => if le (row_name names r) (row_name names x) then r :: l
               else x :: insert_row le names r l'
  end.

Definition sort_rows (le : string -> string -> bool) (names : list string) (rows : list nat)
  : list nat := foldr (insert_row le names) [] rows.

(** ** [add_spot_bits(spot_id, sort_vector)] *)

Definition add_spot_bits (spot_id : nat) (sort_vector : list nat) (st : spot_assembly_t)
  : result spot_assembly_t :=
  let sv := NatSort.sort sort_vector in
  match head sv, last sv with
  | Some front, Some back =>
      Ok {| st with
            m_last_index := {[back]} ∪ m_last_index st;
            m_hot_spot_ids :=
              if bool_decide (Z.of_nat back - Z.of_nat front < HOT_SPOT_SPAN)%Z
              then {[spot_id]} ∪ m_hot_spot_ids st else m_hot_spot_ids st;
            m_reads_counts :=
              <[length sv := default 0 (m_reads_counts st !! length sv) + 1]> (m_reads_counts st);
            m_total_spots := S (m_total_spots st) |}
  | _, _ => Err (FUndefined "sort_vector.back()")
  end.

(** ** The walk over the sorted rows *)

(** The locals of the loop of [build]: [spot_id], [sort_vector],
    [spot_name], and the object being built. *)
Record walk_t := mk_walk {
  w_spot_id : nat;
  w_sort_vector : list nat;
  w_spot_name : string;
  w_st : spot_assembly_t
}.

(** [for (size_t i = 1; i < num_rows; ++i) { ... }] *)
Fixpoint build_loop (names : list string) (rows : list nat) (w : walk_t) : result walk_t :=
  match rows with
  | [] => Ok w
  | row :: rows' =>
      if String.eqb (row_name names row) (w_spot_name w) then
        let st := w_st w in
        ri <- vupd (m_read_index st) row (w_spot_id w) "m_read_index[row]" ;;
        build_loop names rows'
          {| w with w_sort_vector := w_sort_vector w ++ [row];
                    w_st := {| st with m_read_index := ri |} |}
      else
        st1 <- add_spot_bits (w_spot_id w) (w_sort_vector w) (w_st w) ;;
        ri <- vupd (m_read_index st1) row (S (w_spot_id w)) "m_read_index[row]" ;;
        build_loop names rows'
          {| w_spot_id := S (w_spot_id w); w_sort_vector := [row];
             w_spot_name := row_name names row;
             w_st := {| st1 with m_read_index := ri |} |}
  end.

(** [build] after the sort: [init(num_rows)], the first row, the loop,
    the last spot, [assert(m_total_spots == spot_id)]; [optimize] and
    [freeze] of the two bit vectors change their representation only. *)
Definition build_sorted (nd : bool) (names : list string) (sort_index : list nat)
    (st : spot_assembly_t) : result spot_assembly_t :=
  let st0 := init (length names) st in
  match sort_index with
  | [] => Err (FUndefined "sort_index[0]")
  | r0 :: rest =>
      ri <- vupd (m_read_index st0) r0 1 "m_read_index[sort_index[0]]" ;;
      w <- build_loop names rest
             {| w_spot_id := 1; w_sort_vector := [r0]; w_spot_name := row_name names r0;
                w_st := {| st0 with m_read_index := ri |} |} ;;
      st1 <- match w_sort_vector w with
             | [] => Ok (w_st w)
             | _ => add_spot_bits (w_spot_id w) (w_sort_vector w) (w_st w)
             end ;;
      _ <- assert_ nd (m_total_spots st1 =? w_spot_id w)%nat "m_total_spots == spot_id" ;;
      Ok st1
  end.

(** [void spot_assembly_t::build(str_sv_type& read_names)]. *)
Definition build (nd : bool) (names : list string) (st : spot_assembly_t)
  : result spot_assembly_t :=
  build_sorted nd names (sort_rows String.leb names (seq 0 (length names))) st.

(** ** The specification of the builder *)

Definition list_min (l : list nat) : nat :=
  match l with [] => 0 | x :: l' => foldr Nat.min x l' end.

(** The row-id span of a spot, [sort_vector.back() - sort_vector.front()]. *)
Definition span_of (g : list nat) : Z := (Z.of_nat (list_max g) - Z.of_nat (list_min g))%Z.

(** The rows named [s], in row order. *)
Definition rows_of (names : list string) (s : string) : list nat :=
  filter (fun r => row_name names r = s) (seq 0 (length names)).

(** The spot id a name must get: the number of distinct names up to it. *)
Definition spot_rank (le : string -> string -> bool) (names : list string) (s : string) : nat :=
  size (list_to_set (filter (fun t => le t s = true) names) : gset string).

(** ** Minimum, maximum and the sorted group *)

Lemma list_min_spec l : l <> [] -> list_min l ∈ l /\ forall x, x ∈ l -> list_min l <= x.
Proof.
  destruct l as [|a l]; [done|]. intros _. simpl.
  induction l as [|b l IH]; simpl; [split; [set_solver | intros x Hx; set_solver]|].
  destruct IH as [Hin Hle]. split.
  - destruct (Nat.min_spec b (foldr Nat.min a l)) as [[_ ->]|[_ ->]]; set_solver.
  - intros x Hx. rewrite !elem_of_cons in Hx. destruct Hx as [->|[->|Hx]].
    + pose proof (Hle a ltac:(set_solver)). lia.
    + lia.
    + pose proof (Hle x ltac:(set_solver)). lia.
Qed.

Lemma list_max_spec l : l <> [] -> list_max l ∈ l /\ forall x, x ∈ l -> x <= list_max l.
Proof.
  intros Hne. split.
  - induction l as [|a l IH]; [done|]. simpl.
    destruct l as [|b l]; [simpl; rewrite Nat.max_0_r; set_solver|].
    destruct (Nat.max_spec a (list_max (b :: l))) as [[_ ->]|[_ ->]];
      [apply elem_of_cons; right; by apply IH | set_solver].
  - intros x Hx. assert (Hf := proj1 (list_max_le l (list_max l)) (le_n _)).
    rewrite Forall_forall in Hf. by apply Hf.
Qed.

Lemma StronglySorted_app_rel {A} (R : A -> A -> Prop) l1 l2 :
  StronglySorted R (l1 ++ l2) -> forall x y, x ∈ l1 -> y ∈ l2 -> R x y.
Proof.
  induction l1 as [|a l1 IH]; simpl; intros Hs x y Hx Hy; [set_solver|].
  apply StronglySorted_inv in Hs as [Hs Hf]. apply elem_of_cons in Hx as [->|Hx].
  - rewrite Forall_forall in Hf. apply Hf. set_solver.
  - by apply IH.
Qed.

Lemma perm_elem {A} (x : A) l1 l2 : l1 ≡ₚ l2 -> x ∈ l1 -> x ∈ l2.
Proof. intros H. by rewrite H. Qed.

Lemma sort_head_last g :
  g <> [] ->
  head (NatSort.sort g) = Some (list_min g) /\ last (NatSort.sort g) = Some (list_max g).
Proof.
  intros Hne. pose proof (NatSort.Permuted_sort g) as Hp.
  assert (Hs : StronglySorted (fun x y => Nat.leb x y = true) (NatSort.sort g)).
  { apply NatSort.StronglySorted_sort. intros x y z Hxy Hyz.
    apply Nat.leb_le in Hxy, Hyz. apply Nat.leb_le. lia. }
  destruct (list_min_spec g Hne) as [Hmin Hmin'].
  destruct (list_max_spec g Hne) as [Hmax Hmax'].
  destruct (NatSort.sort g) as [|a s] eqn:E; [apply Permutation_nil_r in Hp; done|].
  split.
  - simpl. f_equal. apply Nat.le_antisymm;
      [|apply Hmin'; apply (perm_elem _ _ _ (symmetry Hp)); set_solver].
    apply (perm_elem _ _ _ Hp) in Hmin. apply elem_of_cons in Hmin as [<-|Hm]; [lia|].
    apply StronglySorted_inv in Hs as [_ Hf]. rewrite Forall_forall in Hf.
    apply Nat.leb_le. by apply Hf.
  - destruct (exists_last (l:=a :: s)) as (s0 & b & Eb); [done|].
    rewrite Eb, last_snoc. f_equal. rewrite Eb in Hs, Hp.
    apply Nat.le_antisymm; [apply Hmax'; apply (perm_elem _ _ _ (symmetry Hp)); set_solver|].
    apply (perm_elem _ _ _ Hp) in Hmax. apply elem_of_app in Hmax as [Hm|Hm]; [|set_solver].
    apply Nat.leb_le.
    exact (StronglySorted_app_rel (fun x y => Nat.leb x y = true) s0 [b] Hs _ b Hm
             ltac:(set_solver)).
Qed.

Lemma add_spot_bits_ok spot_id g st :
  g <> [] ->
  add_spot_bits spot_id g st =
  Ok {| st with
        m_last_index := {[list_max g]} ∪ m_last_index st;
        m_hot_spot_ids := if bool_decide (span_of g < HOT_SPOT_SPAN)%Z
                          then {[spot_id]} ∪ m_hot_spot_ids st else m_hot_spot_ids st;
        m_reads_counts :=
          <[length g := default 0 (m_reads_counts st !! length g) + 1]> (m_reads_counts st);
        m_total_spots := S (m_total_spots st) |}.
Proof.
  intros Hne. unfold add_spot_bits. destruct (sort_head_last g Hne) as [-> ->].
  rewrite <- (Permutation_length (NatSort.Permuted_sort g)). reflexivity.
Qed.

(** ** The invariant of the walk *)

Section Walk.
Context (le : string -> string -> bool) `{!NameOrder le} (names : list string).

Local Abbreviation name := (row_name names).

(** The names, the distinct names, the rank of a name, and the rows of
    one name, within the rows [P] walked so far. *)
Definition names_of (P : list nat) : list string := name <$> P.
Definition name_set (P : list nat) : gset string := list_to_set (names_of P).
Definition rank_in (P : list nat) (s : string) : nat :=
  size (list_to_set (filter (fun t => le t s = true) (names_of P)) : gset string).
Definition rows_named (P : list nat) (s : string) : list nat := filter (fun r => name r = s) P.

(** After the rows [P]: the current spot is the one of the greatest
    name so far, its id is the number of distinct names, its rows are
    in [sort_vector]; every walked row has the rank of its name as id;
    every spot closed so far has its last row and its hot bit set. *)
Record walk_inv (P : list nat) (w : walk_t) : Prop := {
  wi_name_in : w_spot_name w ∈ names_of P;
  wi_name_max : forall t, t ∈ names_of P -> le t (w_spot_name w) = true;
  wi_id : w_spot_id w = size (name_set P);
  wi_vec : w_sort_vector w = rows_named P (w_spot_name w);
  wi_len : length (m_read_index (w_st w)) = length names;
  wi_ri : forall r, r ∈ P -> m_read_index (w_st w) !! r = Some (rank_in P (name r));
  wi_total : S (m_total_spots (w_st w)) = size (name_set P);
  wi_last : forall r, r ∈ m_last_index (w_st w) <->
    r ∈ P /\ name r <> w_spot_name w /\ r = list_max (rows_named P (name r));
  wi_hot : forall i, i ∈ m_hot_spot_ids (w_st w) <->
    exists s, s ∈ names_of P /\ s <> w_spot_name w /\ i = rank_in P s /\
              (span_of (rows_named P s) < HOT_SPOT_SPAN)%Z
}.

Lemma names_of_snoc P r : names_of (P ++ [r]) = names_of P ++ [name r].
Proof. unfold names_of. by rewrite fmap_app. Qed.

Lemma elem_of_names_of P s : s ∈ names_of P <-> exists r, r ∈ P /\ name r = s.
Proof. unfold names_of. rewrite list_elem_of_fmap. naive_solver. Qed.

Lemma rank_in_all P s :
  (forall t, t ∈ names_of P -> le t s = true) -> rank_in P s = size (name_set P).
Proof.
  intros Hall. unfold rank_in, name_set. f_equal. apply set_eq. intros x.
  rewrite !elem_of_list_to_set, list_elem_of_filter. naive_solver.
Qed.

Lemma rank_in_snoc_in P r s :
  name r ∈ names_of P -> rank_in (P ++ [r]) s = rank_in P s.
Proof.
  intros Hin. unfold rank_in. f_equal. apply set_eq. intros x.
  rewrite !elem_of_list_to_set, !list_elem_of_filter, names_of_snoc, elem_of_app,
    list_elem_of_singleton. naive_solver.
Qed.

Lemma rank_in_snoc_notle P r s :
  le (name r) s = false -> rank_in (P ++ [r]) s = rank_in P s.
Proof.
  intros Hn. unfold rank_in. f_equal. apply set_eq. intros x.
  rewrite !elem_of_list_to_set, !list_elem_of_filter, names_of_snoc, elem_of_app,
    list_elem_of_singleton. split; [|naive_solver].
  intros [Hx [Hx2 | Heq]]; [done | subst x; congruence].
Qed.

Lemma name_set_snoc_in P r : name r ∈ names_of P -> name_set (P ++ [r]) = name_set P.
Proof.
  intros Hin. unfold name_set. rewrite names_of_snoc, list_to_set_snoc_L.
  apply set_eq. intros x. rewrite elem_of_union, elem_of_singleton, elem_of_list_to_set.
  naive_solver.
Qed.

Lemma size_name_set_snoc_notin P r :
  name r ∉ names_of P -> size (name_set (P ++ [r])) = S (size (name_set P)).
Proof.
  intros Hn. unfold name_set. rewrite names_of_snoc, list_to_set_snoc_L.
  rewrite size_union, size_singleton; [lia|].
  apply disjoint_singleton_r. by rewrite elem_of_list_to_set.
Qed.

Lemma rows_named_snoc_ne P r s : name r <> s -> rows_named (P ++ [r]) s = rows_named P s.
Proof.
  intros Hne. unfold rows_named. rewrite filter_app. simpl.
  rewrite filter_cons_False by done. by rewrite app_nil_r.
Qed.

Lemma rows_named_snoc_eq P r : rows_named (P ++ [r]) (name r) = rows_named P (name r) ++ [r].
Proof. unfold rows_named. rewrite filter_app. simpl. by rewrite filter_cons_True. Qed.

Lemma rows_named_nonempty P s : s ∈ names_of P -> rows_named P s <> [].
Proof.
  rewrite elem_of_names_of. intros (r & Hr & <-) Hnil.
  assert (Hf : r ∈ rows_named P (name r)) by (by apply list_elem_of_filter).
  rewrite Hnil in Hf. set_solver.
Qed.
Lemma rows_named_notin P s : s ∉ names_of P -> rows_named P s = [].
Proof.
  unfold rows_named. rewrite elem_of_names_of.
  induction P as [|x P IH]; intros Hn; [done|]. rewrite filter_cons. case_decide.
  - exfalso. apply Hn. exists x. split; [set_solver|done].
  - apply IH. intros (y & Hy & Hys). apply Hn. exists y. split; [set_solver|done].
Qed.

Lemma elem_of_names_of_snoc P r s : s ∈ names_of (P ++ [r]) <-> s ∈ names_of P \/ s = name r.
Proof. rewrite names_of_snoc, elem_of_app, list_elem_of_singleton. done. Qed.

(** A row with the name of the current spot joins it. *)
Lemma walk_step_same P w r :
  walk_inv P w -> name r = w_spot_name w -> r < length names ->
  exists w', (forall R, build_loop names (r :: R) w = build_loop names R w') /\
             walk_inv (P ++ [r]) w'.
Proof.
  intros [Hin Hmax Hid Hvec Hlen Hri Htot Hlast Hhot] Hn Hr.
  eexists. split.
  { intros R. simpl. rewrite Hn, String.eqb_refl. simpl. rewrite vupd_lt by lia. reflexivity. }
  assert (Hin' : name r ∈ names_of P) by (by rewrite Hn).
  split; simpl.
  - apply elem_of_names_of_snoc. by left.
  - intros t [Ht| ->]%elem_of_names_of_snoc; [by apply Hmax | rewrite Hn; apply name_leb_refl].
  - by rewrite name_set_snoc_in.
  - by rewrite Hvec, <- Hn, rows_named_snoc_eq.
  - by rewrite length_insert.
  - intros r' Hr'. rewrite rank_in_snoc_in by done.
    destruct (decide (r' = r)) as [->|Hne].
    + rewrite list_lookup_insert_eq by lia. f_equal. rewrite Hid, Hn.
      symmetry. by apply rank_in_all.
    + rewrite list_lookup_insert_ne by done. apply Hri. set_solver.
  - by rewrite name_set_snoc_in.
  - intros r0. rewrite Hlast. split.
    + intros (H1 & H2 & H3). rewrite rows_named_snoc_ne by congruence. set_solver.
    + intros (H1 & H2 & H3). rewrite rows_named_snoc_ne in H3 by congruence.
      apply elem_of_app in H1 as [H1| ->%list_elem_of_singleton]; [done|congruence].
  - intros i. rewrite Hhot. split.
    + intros (s & Hs & Hsn & -> & Hspan). exists s.
      rewrite rank_in_snoc_in, rows_named_snoc_ne by congruence.
      split; [apply elem_of_names_of_snoc; by left | done].
    + intros (s & [Hs| ->]%elem_of_names_of_snoc & Hsn & -> & Hspan); [|congruence].
      exists s. rewrite rank_in_snoc_in, rows_named_snoc_ne in * by congruence. done.
Qed.

(** Closing the current spot with [add_spot_bits]. *)
Section Close.
Context (P : list nat) (w : walk_t).
Hypothesis Hi : walk_inv P w.

Lemma close_rank_current : rank_in P (w_spot_name w) = w_spot_id w.
Proof. rewrite (wi_id _ _ Hi). apply rank_in_all, (wi_name_max _ _ Hi). Qed.

Lemma close_last_iff r0 :
  r0 ∈ {[list_max (rows_named P (w_spot_name w))]} ∪ m_last_index (w_st w) <->
  r0 ∈ P /\ r0 = list_max (rows_named P (name r0)).
Proof.
  rewrite elem_of_union, elem_of_singleton, (wi_last _ _ Hi). split.
  - intros [-> | (H1 & H2 & H3)]; [|done].
    destruct (list_max_spec _ (rows_named_nonempty P _ (wi_name_in _ _ Hi))) as [Hm _].
    apply list_elem_of_filter in Hm as [Hmn HmP].
    assert (Hmn' : name (list_max (rows_named P (w_spot_name w))) = w_spot_name w)
      by exact Hmn.
    by rewrite Hmn'.
  - intros (H1 & H3).
    destruct (decide (name r0 = w_spot_name w)) as [Heq|Hneq];
      [left; by rewrite <- Heq | by right].
Qed.

Lemma close_hot_iff i :
  i ∈ (if bool_decide (span_of (rows_named P (w_spot_name w)) < HOT_SPOT_SPAN)%Z
       then {[w_spot_id w]} ∪ m_hot_spot_ids (w_st w) else m_hot_spot_ids (w_st w)) <->
  exists s, s ∈ names_of P /\ i = rank_in P s /\
            (span_of (rows_named P s) < HOT_SPOT_SPAN)%Z.
Proof.
  pose proof close_rank_current as Hcur.
  case_bool_decide as Hsp; rewrite ?elem_of_union, ?elem_of_singleton, (wi_hot _ _ Hi); split.
  - intros [-> | (s & Hs & _ & -> & Hspan)];
      [exists (w_spot_name w); split; [apply (wi_name_in _ _ Hi)|done] | by exists s].
  - intros (s & Hs & -> & Hspan).
    destruct (decide (s = w_spot_name w)) as [->|Hne']; [by left | right; by exists s].
  - intros (s & Hs & _ & -> & Hspan). by exists s.
  - intros (s & Hs & -> & Hspan). exists s. split; [done|]. split; [|done].
    intros ->. contradiction.
Qed.
End Close.

(** A row with a new name closes the current spot and opens the next. *)
Section StepNew.
Context (P : list nat) (w : walk_t) (r : nat).
Hypothesis Hi : walk_inv P w.
Hypothesis Hne : name r <> w_spot_name w.
Hypothesis Hsort : forall t, t ∈ names_of P -> le t (name r) = true.

Lemma new_name_notin : name r ∉ names_of P.
Proof.
  intros Hin. apply Hne, name_leb_antisym; [by apply (wi_name_max _ _ Hi) | ].
  apply Hsort, (wi_name_in _ _ Hi).
Qed.

Lemma new_name_not_le t : t ∈ names_of P -> le (name r) t = false.
Proof.
  intros Ht. destruct (le (name r) t) eqn:E; [|done]. exfalso. apply new_name_notin.
  replace (name r) with t; [done|]. apply name_leb_antisym; [by apply Hsort | exact E].
Qed.

Lemma new_rank_in t : t ∈ names_of P -> rank_in (P ++ [r]) t = rank_in P t.
Proof. intros. by apply rank_in_snoc_notle, new_name_not_le. Qed.

Lemma new_hot_iff i :
  (exists s, s ∈ names_of (P ++ [r]) /\ s <> name r /\ i = rank_in (P ++ [r]) s /\
             (span_of (rows_named (P ++ [r]) s) < HOT_SPOT_SPAN)%Z) <->
  (exists s, s ∈ names_of P /\ i = rank_in P s /\
             (span_of (rows_named P s) < HOT_SPOT_SPAN)%Z).
Proof.
  split.
  - intros (s & [Hs| ->]%elem_of_names_of_snoc & Hsr & -> & Hspan); [|congruence].
    exists s. rewrite new_rank_in, rows_named_snoc_ne in * by congruence. done.
  - intros (s & Hs & -> & Hspan). exists s.
    assert (s <> name r) by (intros ->; by apply new_name_notin).
    rewrite new_rank_in, rows_named_snoc_ne by done.
    split; [apply elem_of_names_of_snoc; by left | done].
Qed.
Local Abbreviation g := (rows_named P (w_spot_name w)).

Lemma new_last_iff r0 :
  r0 ∈ {[list_max g]} ∪ m_last_index (w_st w) <->
  r0 ∈ P ++ [r] /\ name r0 <> name r /\ r0 = list_max (rows_named (P ++ [r]) (name r0)).
Proof.
  pose proof new_name_notin as Hnotin.
  assert (Hnr : forall x, x ∈ P -> name x <> name r).
  { intros x Hx Heq. apply Hnotin. rewrite <- Heq. apply elem_of_names_of. eauto. }
  rewrite (close_last_iff P w Hi). split.
  - intros (H1 & H3). rewrite rows_named_snoc_ne by (apply not_eq_sym, Hnr; done).
    split; [set_solver|]. split; [by apply Hnr|done].
  - intros (H1 & H2 & H3). rewrite rows_named_snoc_ne in H3 by congruence.
    apply elem_of_app in H1 as [H1| ->%list_elem_of_singleton]; [done|congruence].
Qed.

Lemma new_hot_set_iff i :
  i ∈ (if bool_decide (span_of g < HOT_SPOT_SPAN)%Z
       then {[w_spot_id w]} ∪ m_hot_spot_ids (w_st w) else m_hot_spot_ids (w_st w)) <->
  exists s, s ∈ names_of (P ++ [r]) /\ s <> name r /\ i = rank_in (P ++ [r]) s /\
            (span_of (rows_named (P ++ [r]) s) < HOT_SPOT_SPAN)%Z.
Proof. by rewrite new_hot_iff, (close_hot_iff P w Hi). Qed.

Hypothesis Hr : r < length names.

Lemma walk_step_new :
  exists w', (forall R, build_loop names (r :: R) w = build_loop names R w') /\
             walk_inv (P ++ [r]) w'.
Proof.
  pose proof Hi as [Hin Hmax Hid Hvec Hlen Hri Htot Hlast Hhot].
  pose proof new_name_notin as Hnotin.
  eexists. split.
  { intros R. simpl. rewrite (proj2 (String.eqb_neq _ _) Hne), Hvec.
    rewrite add_spot_bits_ok by (by apply rows_named_nonempty). simpl.
    rewrite vupd_lt by lia. reflexivity. }
  assert (Hle_all : forall t, t ∈ names_of (P ++ [r]) -> le t (name r) = true).
  { intros t [Ht| ->]%elem_of_names_of_snoc; [by apply Hsort | apply name_leb_refl]. }
  split; simpl.
  - apply elem_of_names_of_snoc. by right.
  - exact Hle_all.
  - rewrite size_name_set_snoc_notin by done. by rewrite Hid.
  - by rewrite rows_named_snoc_eq, rows_named_notin.
  - by rewrite length_insert.
  - intros r' Hr'. destruct (decide (r' = r)) as [->|Hner].
    + rewrite list_lookup_insert_eq by lia. f_equal.
      rewrite rank_in_all, size_name_set_snoc_notin by done. by rewrite Hid.
    + rewrite list_lookup_insert_ne by done. assert (r' ∈ P) by set_solver.
      rewrite new_rank_in by (apply elem_of_names_of; eauto). by apply Hri.
  - rewrite size_name_set_snoc_notin by done. by rewrite <- Htot.
  - apply new_last_iff.
  - apply new_hot_set_iff.
Qed.
End StepNew.

(** The loop keeps the invariant over the rest of a sorted order. *)
Lemma walk_loop R : forall P w,
  StronglySorted (fun a b => le (name a) (name b) = true) (P ++ R) ->
  (forall x, x ∈ R -> x < length names) ->
  walk_inv P w ->
  exists w', build_loop names R w = Ok w' /\ walk_inv (P ++ R) w'.
Proof.
  induction R as [|r R IH]; intros P w Hs HR Hi; [exists w; by rewrite app_nil_r|].
  assert (Hsort : forall t, t ∈ names_of P -> le t (name r) = true).
  { intros t (x & Hx & <-)%elem_of_names_of.
    apply (StronglySorted_app_rel (fun a b => le (name a) (name b) = true) P (r :: R) Hs);
      set_solver. }
  assert (Hr : r < length names) by (apply HR; set_solver).
  assert (Hstep : exists w', (forall R', build_loop names (r :: R') w = build_loop names R' w')
                             /\ walk_inv (P ++ [r]) w').
  { destruct (decide (name r = w_spot_name w)) as [Heq|Hne].
    - by apply walk_step_same.
    - by apply walk_step_new. }
  destruct Hstep as (w' & Hstep & Hi'). rewrite Hstep.
  replace (P ++ r :: R) with ((P ++ [r]) ++ R) in * by by rewrite <- app_assoc.
  apply IH; [done | set_solver | done].
Qed.

(** The state after [init] and the first row. *)
Definition walk_start (r0 : nat) (st : spot_assembly_t) : walk_t :=
  let st0 := init (length names) st in
  {| w_spot_id := 1; w_sort_vector := [r0]; w_spot_name := name r0;
     w_st := {| st0 with m_read_index := <[r0 := 1]> (m_read_index st0) |} |}.

Lemma walk_start_inv r0 st : r0 < length names -> walk_inv [r0] (walk_start r0 st).
Proof.
  intros Hr. assert (Hset : name_set [r0] = {[name r0]}).
  { unfold name_set, names_of. simpl. set_solver. }
  unfold walk_start, init.
  split; cbn [w_spot_id w_sort_vector w_spot_name w_st m_read_index m_total_spots
              m_last_index m_hot_spot_ids].
  - set_solver.
  - intros t Ht. replace t with (name r0) by (unfold names_of in Ht; set_solver).
    apply name_leb_refl.
  - by rewrite Hset, size_singleton.
  - unfold rows_named. by rewrite filter_cons_True.
  - by rewrite length_insert, length_vec_resize.
  - intros r Hr'. apply list_elem_of_singleton in Hr' as ->.
    rewrite list_lookup_insert_eq by (rewrite length_vec_resize; lia). f_equal.
    rewrite rank_in_all, Hset, size_singleton; [done|].
    intros t Ht. replace t with (name r0) by (unfold names_of in Ht; set_solver).
    apply name_leb_refl.
  - by rewrite Hset, size_singleton.
  - intros r. split; [set_solver|]. intros (Hr0%list_elem_of_singleton & Hn & _). by subst.
  - intros i. split; [set_solver|]. intros (t & Ht & Hn & _).
    unfold names_of in Ht. set_solver.
Qed.

(** [build] on a sorted order of the rows: it returns, and the object
    it builds is described by the rows in that order. *)
Lemma build_sorted_spec nd L st :
  StronglySorted (fun a b => le (name a) (name b) = true) L -> L <> [] ->
  (forall x, x ∈ L -> x < length names) ->
  exists st', build_sorted nd names L st = Ok st' /\
    length (m_read_index st') = length names /\
    (forall r, r ∈ L -> m_read_index st' !! r = Some (rank_in L (name r))) /\
    m_total_spots st' = size (name_set L) /\
    (forall r, r ∈ m_last_index st' <-> r ∈ L /\ r = list_max (rows_named L (name r))) /\
    (forall i, i ∈ m_hot_spot_ids st' <->
       exists s, s ∈ names_of L /\ i = rank_in L s /\
                 (span_of (rows_named L s) < HOT_SPOT_SPAN)%Z).
Proof.
  intros Hs Hne HL. destruct L as [|r0 L']; [done|].
  assert (Hr0 : r0 < length names) by (apply HL; set_solver).
  destruct (walk_loop L' [r0] (walk_start r0 st)) as (w & Hloop & Hi);
    [done | set_solver | by apply walk_start_inv |].
  change ([r0] ++ L') with (r0 :: L') in Hi.
  pose proof Hi as [Hin Hmax Hid Hvec Hlen Hri Htot Hlast Hhot].
  pose proof (rows_named_nonempty _ _ Hin) as Hg.
  unfold build_sorted. cbv zeta.
  rewrite vupd_lt by (unfold init; cbn [m_read_index]; rewrite length_vec_resize; lia).
  rewrite bind_Ok. unfold walk_start in Hloop. cbv zeta in Hloop. rewrite Hloop, bind_Ok.
  assert (Hsv : exists x xs, w_sort_vector w = x :: xs)
    by (destruct (w_sort_vector w) as [|x xs]; [congruence | eauto]).
  destruct Hsv as (x & xs & Ev). rewrite Ev. cbv iota beta.
  rewrite <- Ev, Hvec, add_spot_bits_ok, bind_Ok by done. cbn [m_total_spots].
  replace (S (m_total_spots (w_st w)) =? w_spot_id w) with true
    by (symmetry; apply Nat.eqb_eq; congruence).
  rewrite assert_true, bind_Ok.
  eexists. split; [reflexivity|]. cbn [m_read_index m_total_spots m_last_index m_hot_spot_ids].
  split; [done|]. split; [done|]. split; [congruence|]. split.
  - intros r. apply (close_last_iff _ _ Hi).
  - intros i. apply (close_hot_iff _ _ Hi).
Qed.
End Walk.

(** ** From the sorted order back to the name index *)

Section Perm.
Context (le : string -> string -> bool) `{!NameOrder le} (names : list string).

Local Abbreviation name := (row_name names).
Local Abbreviation n := (length names).

Lemma names_of_seq : names_of names (seq 0 n) = names.
Proof.
  unfold names_of, row_name. generalize names as l. clear.
  induction l as [|x l IH]; [done|]. simpl. f_equal.
  rewrite <- fmap_S_seq, <- list_fmap_compose. exact IH.
Qed.

Context (L : list nat) (HL : L ≡ₚ seq 0 n).

Lemma perm_elem_rows r : r ∈ L <-> r < n.
Proof. rewrite HL, list_elem_of_In, in_seq. lia. Qed.

Lemma perm_names_of : names_of names L ≡ₚ names.
Proof. rewrite <- names_of_seq at 2. unfold names_of. by rewrite HL. Qed.

Lemma perm_name_set : name_set names L = list_to_set names.
Proof. unfold name_set. apply list_to_set_perm_L, perm_names_of. Qed.

Lemma perm_rank_in s : rank_in le names L s = spot_rank le names s.
Proof.
  unfold rank_in, spot_rank. f_equal. apply list_to_set_perm_L.
  apply filter_Permutation, perm_names_of.
Qed.

Lemma perm_rows_named s : rows_named names L s ≡ₚ rows_of names s.
Proof. unfold rows_named, rows_of. by rewrite HL. Qed.
End Perm.

Lemma list_min_perm l l' : l ≡ₚ l' -> list_min l = list_min l'.
Proof.
  intros Hp. destruct l as [|a l].
  { apply Permutation_nil in Hp. by subst. }
  assert (Hne' : l' <> []) by (intros ->; apply Permutation_nil_r in Hp; done).
  destruct (list_min_spec (a :: l)) as [Hm Hm']; [done|].
  destruct (list_min_spec l' Hne') as [Hn Hn'].
  apply Nat.le_antisymm; [apply Hm' | apply Hn'].
  - by apply (perm_elem _ _ _ (symmetry Hp)).
  - by apply (perm_elem _ _ _ Hp).
Qed.

Lemma span_of_perm l l' : l ≡ₚ l' -> span_of l = span_of l'.
Proof. intros Hp. unfold span_of. by rewrite (list_min_perm _ _ Hp), Hp. Qed.

(** ** The insertion sort meets the contract of the sort *)

Section Sort.
Context (le : string -> string -> bool) `{!NameOrder le} (names : list string).

Local Abbreviation rel := (fun a b => le (row_name names a) (row_name names b) = true).

Lemma insert_row_perm r l : insert_row le names r l ≡ₚ r :: l.
Proof.
  induction l as [|x l IH]; simpl; [done|]. destruct (le _ _); [done|].
  rewrite IH. constructor.
Qed.

Lemma sort_rows_perm l : sort_rows le names l ≡ₚ l.
Proof.
  induction l as [|x l IH]; simpl; [done|]. by rewrite insert_row_perm, IH.
Qed.

Lemma insert_row_sorted r l : Sorted rel l -> Sorted rel (insert_row le names r l).
Proof.
  induction 1 as [|x l Hs IH Hhd]; simpl; [by repeat constructor|].
  destruct (le (row_name names r) (row_name names x)) eqn:E; [by repeat constructor|].
  constructor; [done|].
  assert (E' : le (row_name names x) (row_name names r) = true)
    by (destruct (name_leb_total (row_name names x) (row_name names r)); congruence).
  destruct l as [|y l]; simpl; [by repeat constructor|].
  inversion Hhd; subst.
  destruct (le (row_name names r) (row_name names y)); by constructor.
Qed.

Lemma sort_rows_sorted l : Sorted rel (sort_rows le names l).
Proof. induction l as [|x l IH]; simpl; [constructor|]. by apply insert_row_sorted. Qed.

Lemma sorted_strongly l : Sorted rel l -> StronglySorted rel l.
Proof.
  apply Sorted_StronglySorted. intros x y z. apply name_leb_trans.
Qed.
End Sort.

(** ** The builder on the name index *)

Section Result.
Context (le : string -> string -> bool) `{!NameOrder le} (names : list string).

Local Abbreviation name := (row_name names).
Local Abbreviation n := (length names).

Lemma build_sorted_names_spec nd L st :
  L ≡ₚ seq 0 n -> Sorted (fun a b => le (name a) (name b) = true) L -> names <> [] ->
  exists st', build_sorted nd names L st = Ok st' /\
    length (m_read_index st') = n /\
    (forall r, r < n -> m_read_index st' !! r = Some (spot_rank le names (name r))) /\
    m_total_spots st' = size (list_to_set names : gset string) /\
    (forall r, r ∈ m_last_index st' <-> r < n /\ r = list_max (rows_of names (name r))) /\
    (forall i, i ∈ m_hot_spot_ids st' <->
       exists r, r < n /\ i = spot_rank le names (name r) /\
                 (span_of (rows_of names (name r)) < HOT_SPOT_SPAN)%Z).
Proof.
  intros HL Hs Hne.
  assert (HLne : L <> []).
  { intros ->. apply Permutation_nil in HL. destruct names; [done|discriminate]. }
  destruct (build_sorted_spec le names nd L st) as
    (st' & Hb & Hlen & Hri & Htot & Hlast & Hhot);
    [by apply sorted_strongly | done | intros x; by rewrite (perm_elem_rows names L HL) |].
  exists st'. split; [done|]. split; [done|]. split; [|split; [|split]].
  - intros r Hr. rewrite Hri by (by apply (perm_elem_rows names L HL)).
    by rewrite perm_rank_in.
  - by rewrite Htot, perm_name_set.
  - intros r. rewrite Hlast, (perm_elem_rows names L HL).
    by rewrite (perm_rows_named names L HL).
  - intros i. rewrite Hhot. split.
    + intros (s & (r & Hr & <-)%elem_of_names_of & -> & Hspan). exists r.
      rewrite <- (perm_elem_rows names L HL), <- (perm_rank_in le names L HL).
      by rewrite <- (span_of_perm _ _ (perm_rows_named names L HL _)).
    + intros (r & Hr & -> & Hspan). exists (name r). split.
      * apply elem_of_names_of. exists r. by rewrite (perm_elem_rows names L HL).
      * rewrite (perm_rank_in le names L HL). split; [done|].
        by rewrite (span_of_perm _ _ (perm_rows_named names L HL _)).
Qed.

(** Two names present in the index have the same rank only if equal. *)
Lemma spot_rank_inj s1 s2 :
  s1 ∈ names -> s2 ∈ names -> spot_rank le names s1 = spot_rank le names s2 -> s1 = s2.
Proof.
  assert (Hlt : forall a b, a ∈ names -> b ∈ names -> le a b = true -> a <> b ->
                spot_rank le names a < spot_rank le names b).
  { intros a b Ha Hb Hab Hne. unfold spot_rank. apply subset_size. split.
    - intros x. rewrite !elem_of_list_to_set, !list_elem_of_filter.
      intros [Hx Hx']. split; [|done]. by apply (name_leb_trans _ a).
    - intros Hsub. apply Hne, name_leb_antisym; [done|].
      assert (Hbin : b ∈ (list_to_set (filter (fun t => le t b = true) names) : gset string)).
      { rewrite elem_of_list_to_set, list_elem_of_filter. split; [apply name_leb_refl|done]. }
      apply Hsub in Hbin. rewrite elem_of_list_to_set, list_elem_of_filter in Hbin.
      by destruct Hbin. }
  intros H1 H2 Heq. destruct (decide (s1 = s2)) as [|Hne]; [done|].
  destruct (name_leb_total s1 s2) as [H|H].
  - pose proof (Hlt s1 s2 H1 H2 H Hne). lia.
  - pose proof (Hlt s2 s1 H2 H1 H (not_eq_sym Hne)). lia.
Qed.
End Result.

Lemma row_name_in names r : r < length names -> row_name names r ∈ names.
Proof.
  intros Hr. unfold row_name. destruct (lookup_lt_is_Some_2 names r Hr) as [x Hx].
  rewrite Hx. simpl. by apply list_elem_of_lookup_2 with r.
Qed.

Lemma build_sorts names :
  sort_rows String.leb names (seq 0 (length names)) ≡ₚ seq 0 (length names) /\
  Sorted (fun a b => String.leb (row_name names a) (row_name names b) = true)
         (sort_rows String.leb names (seq 0 (length names))).
Proof. split; [apply sort_rows_perm | apply sort_rows_sorted; apply _]. Qed.

(** ** Properties of the builder *)

(** C1. Whatever order the parallel sort leaves equal names in, two rows
    get the same spot id exactly when their names are equal: the walk
    over any permutation of the rows sorted by a total order on names
    groups the rows by name. *)
Theorem build_sorted_same_spot (le : string -> string -> bool) `{!NameOrder le}
    nd names L st st' r1 r2 :
  L ≡ₚ seq 0 (length names) ->
  Sorted (fun a b => le (row_name names a) (row_name names b) = true) L ->
  build_sorted nd names L st = Ok st' ->
  r1 < length names -> r2 < length names ->
  (m_read_index st' !! r1 = m_read_index st' !! r2 <-> row_name names r1 = row_name names r2).
Proof.
  intros HL Hs Hb H1 H2.
  destruct (build_sorted_names_spec le names nd L st) as (st'' & Hb' & _ & Hri & _);
    [done | done | destruct names; [simpl in H1; lia | done] |].
  rewrite Hb in Hb'. injection Hb' as <-. rewrite !Hri by done. split.
  - intros Heq. injection Heq. apply spot_rank_inj; [done | by apply row_name_in..].
  - by intros ->.
Qed.

Lemma build_sorted_same_spot_witness :
  let names := ["X"; "Y"; "X"]%string in
  let st' := ok_or spot_assembly_new (build_sorted false names [0; 2; 1] spot_assembly_new) in
  (m_read_index st' !! 0 = m_read_index st' !! 2 <-> row_name names 0 = row_name names 2).
Proof.
  intros names st'.
  apply (build_sorted_same_spot String.leb false names [0; 2; 1] spot_assembly_new st' 0 2).
  - simpl. apply perm_skip, perm_swap.
  - vm_compute. repeat constructor.
  - vm_compute. reflexivity.
  - simpl. lia.
  - simpl. lia.
Defined.

(** C2. The spot id of a row does not depend on the sort's tie-breaks:
    for any sorted permutation it is the rank of the row's name, the
    number of distinct names up to it (spot ids run from 1 upwards in
    name order). *)
Theorem build_sorted_read_index (le : string -> string -> bool) `{!NameOrder le}
    nd names L st st' r :
  L ≡ₚ seq 0 (length names) ->
  Sorted (fun a b => le (row_name names a) (row_name names b) = true) L ->
  build_sorted nd names L st = Ok st' ->
  r < length names ->
  m_read_index st' !! r = Some (spot_rank le names (row_name names r)).
Proof.
  intros HL Hs Hb Hr.
  destruct (build_sorted_names_spec le names nd L st) as (st'' & Hb' & _ & Hri & _);
    [done | done | destruct names; [simpl in Hr; lia | done] |].
  rewrite Hb in Hb'. injection Hb' as <-. by apply Hri.
Qed.

Lemma build_sorted_read_index_witness :
  let names := ["X"; "Y"; "X"]%string in
  let st' := ok_or spot_assembly_new (build_sorted false names [2; 0; 1] spot_assembly_new) in
  m_read_index st' !! 1 = Some (spot_rank String.leb names (row_name names 1)).
Proof.
  intros names st'.
  apply (build_sorted_read_index String.leb false names [2; 0; 1] spot_assembly_new st' 1).
  - simpl. etrans; [apply perm_swap | apply perm_skip, perm_swap].
  - vm_compute. repeat constructor.
  - vm_compute. reflexivity.
  - simpl. lia.
Defined.

(** C18. [build] returns exactly when the name index is not empty; on an
    empty index [sort_index[0]] is out of range. *)
Theorem build_ok_iff nd names st :
  (exists st', build nd names st = Ok st') <-> names <> [].
Proof.
  split.
  - intros [st' Hb] ->. discriminate Hb.
  - intros Hne. destruct (build_sorts names) as [HL Hs].
    destruct (build_sorted_names_spec String.leb names nd _ st HL Hs Hne) as (st' & Hb & _).
    by exists st'.
Qed.

(** C19. [build] counts one spot per distinct name, so the check
    [assert(m_total_spots == spot_id)] never fails. *)
Theorem build_total_spots nd names st st' :
  build nd names st = Ok st' -> m_total_spots st' = size (list_to_set names : gset string).
Proof.
  intros Hb. destruct names as [|s names']; [discriminate|].
  destruct (build_sorts (s :: names')) as [HL Hs].
  destruct (build_sorted_names_spec String.leb _ nd _ st HL Hs) as (st'' & Hb' & _ & _ & Ht & _);
    [done|].
  unfold build in Hb. rewrite Hb in Hb'. by injection Hb' as <-.
Qed.

Lemma build_total_spots_witness :
  let names := ["X"; "Y"; "X"]%string in
  m_total_spots (ok_or spot_assembly_new (build false names spot_assembly_new)) =
  size (list_to_set names : gset string).
Proof.
  intros names. apply (build_total_spots false names spot_assembly_new). vm_compute. reflexivity.
Defined.

(** C20. [is_last_spot] holds exactly for the greatest row id of each
    spot (by row id, not by arrival). *)
Theorem build_last_index nd names st st' r :
  build nd names st = Ok st' ->
  is_last_spot st' r = true <-> r < length names /\ r = list_max (rows_of names (row_name names r)).
Proof.
  intros Hb. destruct names as [|s names']; [discriminate|].
  destruct (build_sorts (s :: names')) as [HL Hs].
  destruct (build_sorted_names_spec String.leb _ nd _ st HL Hs) as
    (st'' & Hb' & _ & _ & _ & Hl & _); [done|].
  unfold build in Hb. rewrite Hb in Hb'. injection Hb' as <-.
  unfold is_last_spot. by rewrite bool_decide_eq_true, Hl.
Qed.

Lemma build_last_index_witness :
  let names := ["X"; "Y"; "X"]%string in
  is_last_spot (ok_or spot_assembly_new (build false names spot_assembly_new)) 2 = true <->
  2 < length names /\ 2 = list_max (rows_of names (row_name names 2)).
Proof.
  intros names. apply (build_last_index false names spot_assembly_new). vm_compute. reflexivity.
Defined.

(** C21. [add_spot_bits] sets the bit of a spot id exactly when the
    spot's rows span less than 10,000,000 row ids. *)
Theorem build_hot_bits nd names st st' i :
  build nd names st = Ok st' ->
  i ∈ m_hot_spot_ids st' <->
  exists r, r < length names /\ i = spot_rank String.leb names (row_name names r) /\
            (span_of (rows_of names (row_name names r)) < HOT_SPOT_SPAN)%Z.
Proof.
  intros Hb. destruct names as [|s names']; [discriminate|].
  destruct (build_sorts (s :: names')) as [HL Hs].
  destruct (build_sorted_names_spec String.leb _ nd _ st HL Hs) as
    (st'' & Hb' & _ & _ & _ & _ & Hh); [done|].
  unfold build in Hb. rewrite Hb in Hb'. injection Hb' as <-. apply Hh.
Qed.

Lemma build_hot_bits_witness :
  let names := ["X"; "Y"; "X"]%string in
  1 ∈ m_hot_spot_ids (ok_or spot_assembly_new (build false names spot_assembly_new)) <->
  exists r, r < length names /\ 1 = spot_rank String.leb names (row_name names r) /\
            (span_of (rows_of names (row_name names r)) < HOT_SPOT_SPAN)%Z.
Proof.
  intros names. apply (build_hot_bits false names spot_assembly_new). vm_compute. reflexivity.
Defined.

(** A spot of a single row gets its bit in [m_hot_spot_ids], the
    bit that sends its reads to the overflow map (the spec says such a
    spot is never hot). *)
Theorem build_single_row_spot_hot nd names st st' r k :
  build nd names st = Ok st' -> r < length names ->
  rows_of names (row_name names r) = [r] ->
  m_read_index st' !! r = Some k -> k ∈ m_hot_spot_ids st'.
Proof.
  intros Hb Hr Hrows Hk. destruct names as [|s names']; [discriminate|].
  destruct (build_sorts (s :: names')) as [HL Hs].
  destruct (build_sorted_names_spec String.leb _ nd _ st HL Hs) as
    (st'' & Hb' & _ & Hri & _ & _ & Hh); [done|].
  unfold build in Hb. rewrite Hb in Hb'. injection Hb' as <-.
  rewrite Hri in Hk by done. injection Hk as <-. apply Hh. exists r.
  split; [done|]. split; [done|]. rewrite Hrows. unfold span_of. simpl.
  unfold HOT_SPOT_SPAN. lia.
Qed.

Lemma build_single_row_spot_hot_witness :
  let names := ["X"; "Y"; "X"]%string in
  2 ∈ m_hot_spot_ids (ok_or spot_assembly_new (build false names spot_assembly_new)).
Proof.
  intros names. apply (build_single_row_spot_hot false names spot_assembly_new _ 1 2).
  - vm_compute. reflexivity.
  - simpl. lia.
  - vm_compute. reflexivity.
  - vm_compute. reflexivity.
Defined.

(** The spec's scenario: the index ["X"; "Y"; "X"] gives spot 1 to
    rows 0 and 2 and spot 2 to row 1, marks rows 2 and 1 as the last of
    their spots, counts two spots, and sets both spots' bits. *)
Example build_example_XYX :
  match build false ["X"; "Y"; "X"]%string spot_assembly_new with
  | Ok st' => m_read_index st' = [1; 2; 1] /\ m_last_index st' = {[1; 2]} /\
              m_hot_spot_ids st' = {[1; 2]} /\ m_total_spots st' = 2
  | Err _ => False
  end.
Proof. vm_compute. repeat split. Qed.
