(* ===== verification/Store.v ===== *)
(** * Store: saving, fetching and releasing the reads of a row

    The column store of [spot_assembly_t]
    ([src/tools/loaders/sharq/spot_assembly.hpp]): [save_read_mt]
    (lines 439-501), [get_spot_mt] (503-581), [clear_spot_mt] (583-691)
    and [optimize] (407-434).  Every call holds the one mutex for its
    whole critical section, so each is one atomic step of the model: a
    function from the state to a result.  The template parameters are
    Section variables: the [ScoreValidator] and [is_nanopore]; [ndebug]
    says whether asserts are compiled.  The batch size of the reclaimer
    is a parameter [max_rows] ([MAX_ROW_TO_CLEAR] in the code) so that
    the theorems cover it and a witness can run a batch. *)

From S2P Require Import Prelude Codec SparseVec SpotState.
From Stdlib Require Import Sorting.Mergesort.

Import Codec.Qual (ScoreValidator).

Section Store.
Context `{SV : ScoreValidator} (nd : bool) (is_nanopore : bool).

(** ** [save_read_mt] *)

(** [if (!s.empty()) column.set(row_id, s.c_str())]. *)
Definition set_str_if (col : gmap nat string) (row_id : nat) (s : string) : gmap nat string :=
  if String.eqb s "" then col else sv_set col row_id s.

(** The tag and filter writes of [save_read_mt] into the slot's frame. *)
Definition md_save_tags (row_id : nat) (read : fastq_read) (md : metadata_t) : metadata_t :=
  {| md with
     md_ReadNum := set_str_if (md_ReadNum md) row_id (ReadNum read);
     md_SpotGroup := set_str_if (md_SpotGroup md) row_id (SpotGroup read);
     md_Suffix := set_str_if (md_Suffix md) row_id (Suffix read);
     md_Channel :=
       if is_nanopore then set_str_if (md_Channel md) row_id (Channel read) else md_Channel md;
     md_NanoporeReadNo :=
       if is_nanopore then set_str_if (md_NanoporeReadNo md) row_id (NanoporeReadNo read)
       else md_NanoporeReadNo md;
     md_ReadFilter :=
       if ReadFilter read then {[row_id]} ∪ md_ReadFilter md else md_ReadFilter md |}.

Definition save_read_mt (row_id : nat) (read : fastq_read) (st : spot_assembly_t)
  : result spot_assembly_t :=
  if bool_decide (row_id ∈ m_hot_spot_ids st) then
    Ok {| st with m_hot_spots :=
            <[row_id := default [] (m_hot_spots st !! row_id) ++ [read]]> (m_hot_spots st) |}
  else
    let seq_sz := String.length (Sequence read) in
    buffer <- Dna.encode_seq nd (Sequence read) ;;
    qual_buffer <- Qual.encode_qual nd seq_sz (QualScores read) ;;
    let qual_sz := length (QualScores read) in
    let read_idx := Z.to_nat (sv_get 0%Z (m_spot_index st) row_id) in
    md0 <- vat (m_reads_metadata st) read_idx "m_reads_metadata[read_idx]" ;;
    let md1 := md_save_tags row_id read md0 in
    offset <- vat (m_seq_offset st) read_idx "m_seq_offset[read_idx]" ;;
    seq_col <- vat (m_sequences st) read_idx "m_sequences[read_idx]" ;;
    seqs <- vupd (m_sequences st) read_idx (sv_import seq_col buffer offset)
              "m_sequences[read_idx]" ;;
    seq_offs <- vupd (m_seq_offset st) read_idx (offset + seq_sz) "m_seq_offset[read_idx]" ;;
    let md2 := {| md1 with md_SeqOffset :=
                    sv_set (md_SeqOffset md1) row_id
                      (Packed.pack_offset (Z.of_nat offset) (Z.of_nat seq_sz)) |} in
    qual_offset <- vat (m_qual_offset st) read_idx "m_qual_offset[read_idx]" ;;
    qual_col <- vat (m_qualities st) read_idx "m_qualities[read_idx]" ;;
    quals <- vupd (m_qualities st) read_idx (sv_import qual_col qual_buffer qual_offset)
               "m_qualities[read_idx]" ;;
    qual_offs <- vupd (m_qual_offset st) read_idx (qual_offset + qual_sz)
                   "m_qual_offset[read_idx]" ;;
    let md3 := {| md2 with md_QualOffset :=
                    sv_set (md_QualOffset md2) row_id
                      (Packed.pack_offset (Z.of_nat qual_offset) (Z.of_nat qual_sz)) |} in
    mds <- vupd (m_reads_metadata st) read_idx md3 "m_reads_metadata[read_idx]" ;;
    Ok {| st with
          m_reads_metadata := mds;
          m_sequences := seqs;
          m_seq_offset := seq_offs;
          m_qualities := quals;
          m_qual_offset := qual_offs;
          m_spot_index := sv_inc_u8 (m_spot_index st) row_id;
          m_optimize_count := wrapS 32 (m_optimize_count st + 1) |}.

(** ** [get_spot_mt] *)

(** [m_tmp_str] read from a string column and set on the read only when
    it is not empty. *)
Definition get_str (col : gmap nat string) (row_id : nat) : string := sv_get ""%string col row_id.

(** The tag and filter reads of the loop body of [get_spot_mt] onto the
    reset [m_tmp_read] [r0]. *)
Definition read_tags (row_id : nat) (md : metadata_t) (r0 : fastq_read) : fastq_read :=
  let s := get_str (md_ReadNum md) row_id in
  let r1 := if String.eqb s "" then r0 else SetReadNum s r0 in
  let s := get_str (md_SpotGroup md) row_id in
  let r2 := if String.eqb s "" then r1 else SetSpotGroup s r1 in
  let s := get_str (md_Suffix md) row_id in
  let r3 := if String.eqb s "" then r2 else SetSuffix s r2 in
  let s := get_str (md_Channel md) row_id in
  let r4 := if is_nanopore && negb (String.eqb s "") then SetChannel s r3 else r3 in
  let s := get_str (md_NanoporeReadNo md) row_id in
  let r5 := if is_nanopore && negb (String.eqb s "") then SetNanoporeReadNo s r4 else r4 in
  if bool_decide (row_id ∈ md_ReadFilter md) then SetReadFilter true r5 else r5.

(** The sequence and quality decodes of the loop body of [get_spot_mt]:
    the packed word gives the offset and length, the column is decoded
    and mapped back. *)
Definition read_slot (row_id read_idx : nat) (md : metadata_t) (r6 : fastq_read)
    (st : spot_assembly_t) : result fastq_read :=
  let packed := sv_get 0%Z (md_SeqOffset md) row_id in
  seq_col <- vat (m_sequences st) read_idx "m_sequences[read_idx]" ;;
  let buffer := sv_decode 0%Z seq_col (Z.to_nat (Packed.packed_off packed))
                  (Z.to_nat (Packed.packed_len packed)) in
  seq <- Dna.decode_seq nd buffer ;;
  let qpacked := sv_get 0%Z (md_QualOffset md) row_id in
  qual_col <- vat (m_qualities st) read_idx "m_qualities[read_idx]" ;;
  let qual_buffer := sv_decode 0%Z qual_col (Z.to_nat (Packed.packed_off qpacked))
                       (Z.to_nat (Packed.packed_len qpacked)) in
  quals <- Qual.decode_qual qual_buffer ;;
  Ok (SetQualScores quals (SetSequence seq r6)).

(** The body of the loop of [get_spot_mt] for one slot. *)
Definition get_read (row_id read_idx : nat) (st : spot_assembly_t) : result fastq_read :=
  md <- vat (m_reads_metadata st) read_idx "m_reads_metadata[read_idx]" ;;
  read_slot row_id read_idx md (read_tags row_id md read_reset) st.

(** [get_spot_mt]: a hot row's list is moved out of the map (the entry
    stays, empty, as a moved-from [std::vector]); otherwise one read per
    slot below the row's counter. *)
Definition get_spot_mt (row_id : nat) (st : spot_assembly_t)
  : result (list fastq_read * spot_assembly_t) :=
  if bool_decide (row_id ∈ m_hot_spot_ids st) then
    match m_hot_spots st !! row_id with
    | Some reads => Ok (reads, {| st with m_hot_spots := <[row_id := []]> (m_hot_spots st) |})
    | None => Ok ([], st)
    end
  else
    let num_reads := Z.to_nat (sv_get 0%Z (m_spot_index st) row_id) in
    reads <- mapR (fun read_idx => get_read row_id read_idx st) (seq 0 num_reads) ;;
    Ok (reads, st).

(** ** [clear_spot_mt] *)

(** The loop that fills [row_ids] from the set bits of [rows_to_clear]. *)
Fixpoint fill_row_ids (c : nat) (elems : list nat) (row_ids : list nat) : result (list nat) :=
  match elems with
  | [] => Ok row_ids
  | e :: es => v <- vupd row_ids c e "row_ids[c]" ;; fill_row_ids (S c) es v
  end.

(** The ranges [set_range(offset, offset + len - 1)] of the gathered
    packed words whose length is not 0. *)
Definition clear_ranges (offsets : list Z) : gset nat :=
  foldl (fun bv packed =>
           let len := Packed.packed_len packed in
           if bool_decide (0 < len)%Z then
             let off := Packed.packed_off packed in
             bv_set_range bv (Z.to_nat off) (Z.to_nat (off + (len - 1)))
           else bv) ∅ offsets.

(** [if (!v.empty()) v.clear(rows_to_clear)] on a string column. *)
Definition clear_str (col : gmap nat string) (rows : gset nat) : gmap nat string :=
  if bool_decide (col = ∅) then col else sv_clear col rows.

(** The column clears of one slot's frame: the string columns that are
    not empty, the nanopore columns when [is_nanopore], the filter bits
    ([bit_sub]), the two offset columns and the reader ids. *)
Definition clear_metadata (rows : gset nat) (md : metadata_t) : metadata_t :=
  {| md_ReadNum := clear_str (md_ReadNum md) rows;
     md_SpotGroup := clear_str (md_SpotGroup md) rows;
     md_Suffix := clear_str (md_Suffix md) rows;
     md_Channel := if is_nanopore then sv_clear (md_Channel md) rows else md_Channel md;
     md_NanoporeReadNo :=
       if is_nanopore then sv_clear (md_NanoporeReadNo md) rows else md_NanoporeReadNo md;
     md_ReadFilter := md_ReadFilter md ∖ rows;
     md_SeqOffset := sv_clear (md_SeqOffset md) rows;
     md_QualOffset := sv_clear (md_QualOffset md) rows;
     md_ReaderId := sv_clear (md_ReaderId md) rows |}.

(** The body of the loop of [clear_spot_mt] for one slot. *)
Definition clear_slot (rows : gset nat) (row_ids : list nat) (st : spot_assembly_t)
    (read_idx : nat) : result spot_assembly_t :=
  md <- vat (m_reads_metadata st) read_idx "m_reads_metadata[read_idx]" ;;
  let seq_clear := clear_ranges (sv_gather 0%Z (md_SeqOffset md) row_ids) in
  let qual_clear := clear_ranges (sv_gather 0%Z (md_QualOffset md) row_ids) in
  seq_col <- vat (m_sequences st) read_idx "m_sequences[read_idx]" ;;
  seqs <- vupd (m_sequences st) read_idx (sv_clear seq_col seq_clear) "m_sequences[read_idx]" ;;
  qual_col <- vat (m_qualities st) read_idx "m_qualities[read_idx]" ;;
  quals <- vupd (m_qualities st) read_idx (sv_clear qual_col qual_clear)
             "m_qualities[read_idx]" ;;
  let md' := clear_metadata rows md in
  mds <- vupd (m_reads_metadata st) read_idx md' "m_reads_metadata[read_idx]" ;;
  Ok {| st with m_reads_metadata := mds; m_sequences := seqs; m_qualities := quals |}.

(** [clear_spot_mt], with the batch size [max_rows] as a parameter. *)
Definition clear_spot_mt_with (max_rows : Z) (row_id : nat) (st : spot_assembly_t)
  : result spot_assembly_t :=
  if bool_decide (row_id ∈ m_hot_spot_ids st) then
    Ok {| st with m_hot_spots := delete row_id (m_hot_spots st) |}
  else
    let st1 := {| st with rows_to_clear := {[row_id]} ∪ rows_to_clear st;
                          num_rows_to_clear := S (num_rows_to_clear st) |} in
    let n := num_rows_to_clear st1 in
    if bool_decide (max_rows <= Z.of_nat n)%Z then
      let elems := NatSort.sort (elements (rows_to_clear st1)) in
      row_ids <- fill_row_ids 0 elems (replicate n 0) ;;
      _ <- assert_ nd (length elems =? n) "c == num_rows_to_clear" ;;
      let num_reads := Z.to_nat (sv_get 0%Z (m_spot_index st1) row_id) in
      st2 <- foldR (clear_slot (rows_to_clear st1) row_ids) (seq 0 num_reads) st1 ;;
      Ok {| st2 with rows_to_clear := ∅;
                     m_optimize_count := wrapS 32 (m_optimize_count st2 + Z.of_nat n);
                     num_rows_to_clear := 0 |}
    else Ok st1.

(** [template<bool is_nanopore> void clear_spot_mt(size_t row_id)]. *)
Definition clear_spot_mt (row_id : nat) (st : spot_assembly_t) : result spot_assembly_t :=
  clear_spot_mt_with MAX_ROW_TO_CLEAR row_id st.

End Store.

(** ** [optimize] *)

(** Recompressing the columns changes their representation only; the
    counter is reset once it reaches the threshold. *)
Definition optimize (st : spot_assembly_t) : spot_assembly_t :=
  if bool_decide (m_optimize_count st < OPTIMIZE_THRESHOLD)%Z then st
  else {| st with m_optimize_count := 0%Z |}.

(** ** The invariant of the store *)

Section Invariant.
Context `{SV : ScoreValidator} (nd : bool) (is_nanopore : bool).

(** The read counter of a row, [m_spot_index.get_no_check(row_id)]. *)
Definition count_of (st : spot_assembly_t) (row : nat) : nat :=
  Z.to_nat (sv_get 0%Z (m_spot_index st) row).

(** A packed word that names a range below [bound]. *)
Definition packed_within (bound : nat) (packed : Z) : Prop :=
  exists off len, packed = Packed.pack_offset (Z.of_nat off) (Z.of_nat len) /\
    off + len <= bound /\ (Z.of_nat off < 2 ^ 48)%Z /\ (Z.of_nat len < 2 ^ 16)%Z.

(** Nothing of [row] in a slot's frame. *)
Definition slot_fresh (md : metadata_t) (row : nat) : Prop :=
  md_ReadNum md !! row = None /\ md_SpotGroup md !! row = None /\ md_Suffix md !! row = None /\
  md_Channel md !! row = None /\ md_NanoporeReadNo md !! row = None /\
  row ∉ md_ReadFilter md /\ md_SeqOffset md !! row = None /\ md_QualOffset md !! row = None.

(** The five per-slot vectors have one entry per slot; every packed word
    of a slot names a range below the slot's write offset; a row has
    nothing in the slots at or above its counter; counters are bytes. *)
Record store_wf (st : spot_assembly_t) : Prop := {
  wf_seq_len : length (m_sequences st) = length (m_reads_metadata st);
  wf_qual_len : length (m_qualities st) = length (m_reads_metadata st);
  wf_soff_len : length (m_seq_offset st) = length (m_reads_metadata st);
  wf_qoff_len : length (m_qual_offset st) = length (m_reads_metadata st);
  wf_seq_ranges : forall k md off row packed,
    m_reads_metadata st !! k = Some md -> m_seq_offset st !! k = Some off ->
    md_SeqOffset md !! row = Some packed -> packed_within off packed;
  wf_qual_ranges : forall k md off row packed,
    m_reads_metadata st !! k = Some md -> m_qual_offset st !! k = Some off ->
    md_QualOffset md !! row = Some packed -> packed_within off packed;
  wf_fresh : forall k md row,
    m_reads_metadata st !! k = Some md -> count_of st row <= k -> slot_fresh md row;
  wf_count : forall row, (0 <= sv_get 0%Z (m_spot_index st) row < 256)%Z
}.

(** A read the encodings accept and give back. *)
Definition valid_read (v : fastq_read) : Prop :=
  Sequence v <> ""%string /\
  Forall (fun c => Dna.is_base c = true) (String.list_ascii_of_string (Sequence v)) /\
  length (QualScores v) = String.length (Sequence v) /\
  Forall Qual.is_score (QualScores v) /\
  (Z.of_nat (String.length (Sequence v)) < 2 ^ 16)%Z /\
  (-32513 < Qual.mid_score <= 32768)%Z.

(** What [get_spot_mt] gives back for a saved read: the reader index is
    not stored, the nanopore tags only when [is_nanopore]. *)
Definition expected_read (v : fastq_read) : fastq_read :=
  {| m_ReaderIdx := 0; ReadNum := ReadNum v; SpotGroup := SpotGroup v; Suffix := Suffix v;
     Channel := if is_nanopore then Channel v else "";
     NanoporeReadNo := if is_nanopore then NanoporeReadNo v else "";
     ReadFilter := ReadFilter v; Sequence := Sequence v; QualScores := QualScores v |}.

(** The frame of slot [count_of st r] after [save_read_mt r v]. *)
Definition md_after_save (r : nat) (v : fastq_read) (md : metadata_t) (off qoff : nat)
  : metadata_t :=
  let md1 := md_save_tags is_nanopore r v md in
  {| md1 with
     md_SeqOffset := sv_set (md_SeqOffset md1) r
       (Packed.pack_offset (Z.of_nat off) (Z.of_nat (String.length (Sequence v))));
     md_QualOffset := sv_set (md_QualOffset md1) r
       (Packed.pack_offset (Z.of_nat qoff) (Z.of_nat (length (QualScores v)))) |}.

(** The state [save_read_mt] leaves after writing slot [k] of a cold row. *)
Definition save_cold_state (r : nat) (v : fastq_read) (st : spot_assembly_t) (k : nat)
    (md : metadata_t) (off qoff : nat) (sc qc : gmap nat Z) (buffer qbuf : list Z)
  : spot_assembly_t :=
  {| st with
     m_reads_metadata := <[k := md_after_save r v md off qoff]> (m_reads_metadata st);
     m_sequences := <[k := sv_import sc buffer off]> (m_sequences st);
     m_seq_offset := <[k := off + String.length (Sequence v)]> (m_seq_offset st);
     m_qualities := <[k := sv_import qc qbuf qoff]> (m_qualities st);
     m_qual_offset := <[k := qoff + length (QualScores v)]> (m_qual_offset st);
     m_spot_index := sv_inc_u8 (m_spot_index st) r;
     m_optimize_count := wrapS 32 (m_optimize_count st + 1) |}.

Lemma save_cold r v st k md off qoff sc qc buffer qbuf :
  r ∉ m_hot_spot_ids st -> count_of st r = k ->
  m_reads_metadata st !! k = Some md -> m_seq_offset st !! k = Some off ->
  m_sequences st !! k = Some sc -> m_qual_offset st !! k = Some qoff ->
  m_qualities st !! k = Some qc ->
  Dna.encode_seq nd (Sequence v) = Ok buffer ->
  Qual.encode_qual nd (String.length (Sequence v)) (QualScores v) = Ok qbuf ->
  save_read_mt nd is_nanopore r v st =
  Ok (save_cold_state r v st k md off qoff sc qc buffer qbuf).
Proof.
  intros Hhot Hk Hmd Hoff Hsc Hqoff Hqc Hbuf Hqbuf. unfold save_read_mt.
  rewrite bool_decide_eq_false_2 by done. rewrite Hbuf, bind_Ok, Hqbuf, bind_Ok.
  unfold count_of in Hk. rewrite Hk.
  rewrite (vat_lookup _ _ _ _ Hmd), bind_Ok, (vat_lookup _ _ _ _ Hoff), bind_Ok,
    (vat_lookup _ _ _ _ Hsc), bind_Ok.
  rewrite vupd_lt by (by eapply lookup_lt_Some). rewrite bind_Ok.
  rewrite vupd_lt by (by eapply lookup_lt_Some). rewrite bind_Ok.
  rewrite (vat_lookup _ _ _ _ Hqoff), bind_Ok, (vat_lookup _ _ _ _ Hqc), bind_Ok.
  rewrite vupd_lt by (by eapply lookup_lt_Some). rewrite bind_Ok.
  rewrite vupd_lt by (by eapply lookup_lt_Some). rewrite bind_Ok.
  rewrite vupd_lt by (by eapply lookup_lt_Some). rewrite bind_Ok.
  reflexivity.
Qed.

(** [get_read] reads the slot's frame and its two columns only. *)
Lemma get_read_ext r j st st' :
  m_reads_metadata st' !! j = m_reads_metadata st !! j ->
  m_sequences st' !! j = m_sequences st !! j ->
  m_qualities st' !! j = m_qualities st !! j ->
  get_read nd is_nanopore r j st' = get_read nd is_nanopore r j st.
Proof. intros Hm Hs Hq. unfold get_read, read_slot, vat. by rewrite Hm, Hs, Hq. Qed.

Lemma get_str_set_if col r s :
  col !! r = None -> get_str (set_str_if col r s) r = s.
Proof.
  intros Hr. unfold get_str, set_str_if, sv_get, sv_set.
  destruct (String.eqb_spec s ""); [subst; by rewrite Hr | by rewrite lookup_insert_eq].
Qed.

Lemma get_str_fresh col r : col !! r = None -> get_str col r = ""%string.
Proof. intros Hr. unfold get_str, sv_get. by rewrite Hr. Qed.

(** A packed word of a valid read decodes to its offset and length. *)
Lemma decode_packed (col : gmap nat Z) (buf : list Z) (off : nat) :
  (Z.of_nat off < 2 ^ 48)%Z -> (Z.of_nat (length buf) < 2 ^ 16)%Z ->
  let packed := Packed.pack_offset (Z.of_nat off) (Z.of_nat (length buf)) in
  sv_decode 0%Z (sv_import col buf off) (Z.to_nat (Packed.packed_off packed))
    (Z.to_nat (Packed.packed_len packed)) = buf.
Proof.
  intros Ho Hl packed. subst packed.
  destruct (Packed.packed_fields (Z.of_nat off) (Z.of_nat (length buf))) as [-> ->]; [lia..|].
  rewrite !Nat2Z.id. apply sv_decode_import.
Qed.

Section Saved.
Context (r : nat) (v : fastq_read) (md : metadata_t) (off qoff : nat)
  (sc qc : gmap nat Z) (buffer qbuf : list Z) (st' : spot_assembly_t) (k : nat).
Hypothesis Hfresh : slot_fresh md r.
Hypothesis Hmd : m_reads_metadata st' !! k = Some (md_after_save r v md off qoff).
Hypothesis Hsc : m_sequences st' !! k = Some (sv_import sc buffer off).
Hypothesis Hqc : m_qualities st' !! k = Some (sv_import qc qbuf qoff).
Hypothesis Hdec : Dna.decode_seq nd buffer = Ok (Sequence v).
Hypothesis Hqdec : Qual.decode_qual qbuf = Ok (QualScores v).
Hypothesis Hblen : length buffer = String.length (Sequence v).
Hypothesis Hqlen : length qbuf = length (QualScores v).
Hypothesis Hbounds : (Z.of_nat off < 2 ^ 48)%Z /\ (Z.of_nat qoff < 2 ^ 48)%Z /\
  (Z.of_nat (String.length (Sequence v)) < 2 ^ 16)%Z /\
  (Z.of_nat (length (QualScores v)) < 2 ^ 16)%Z.

(** The slot just written gives back the read, as [expected_read]. *)
Lemma get_read_saved : get_read nd is_nanopore r k st' = Ok (expected_read v).
Proof.
  destruct Hfresh as (H1 & H2 & H3 & H4 & H5 & H6 & H7 & H8).
  destruct Hbounds as (B1 & B2 & B3 & B4).
  unfold get_read, read_slot. rewrite (vat_lookup _ _ _ _ Hmd), (vat_lookup _ _ _ _ Hsc),
    (vat_lookup _ _ _ _ Hqc). cbn [bind].
  unfold read_tags, md_after_save, md_save_tags; cbn.
  rewrite !sv_get_set_eq, <- Hblen, <- Hqlen.
  rewrite decode_packed, Hdec, decode_packed, Hqdec by congruence. cbn [bind].
  rewrite !get_str_set_if by done.
  assert (Hch : forall c, c !! r = None -> forall s,
    get_str (if is_nanopore then set_str_if c r s else c) r =
    if is_nanopore then s else ""%string).
  { intros c Hc s. destruct is_nanopore; [by apply get_str_set_if | by apply get_str_fresh]. }
  rewrite !Hch by done.
  assert (Hf : bool_decide (r ∈ (if ReadFilter v then {[r]} ∪ md_ReadFilter md
                                 else md_ReadFilter md)) = ReadFilter v).
  { destruct (ReadFilter v); [apply bool_decide_eq_true_2; set_solver |
                              by apply bool_decide_eq_false_2]. }
  rewrite Hf. clear -v.
  destruct v as [idx rn sg sfx ch nrn flt sq qs]; unfold expected_read; cbn.
  destruct is_nanopore, flt; cbn;
    destruct (String.eqb_spec rn ""), (String.eqb_spec sg ""), (String.eqb_spec sfx ""),
      (String.eqb_spec ch ""), (String.eqb_spec nrn ""); subst; reflexivity.
Qed.
End Saved.

Lemma packed_within_mono b b' p : b <= b' -> packed_within b p -> packed_within b' p.
Proof. intros Hb (o & l & -> & Hol & Ho & Hl). exists o, l. split_and!; auto with lia. Qed.

Lemma packed_within_pack (o l : nat) :
  (Z.of_nat o < 2 ^ 48)%Z -> (Z.of_nat l < 2 ^ 16)%Z ->
  packed_within (o + l) (Packed.pack_offset (Z.of_nat o) (Z.of_nat l)).
Proof. intros. exists o, l. split_and!; auto with lia. Qed.

(** The fields of a packed word below [bound]. *)
Lemma packed_within_fields b p :
  packed_within b p ->
  (Z.to_nat (Packed.packed_off p) + Z.to_nat (Packed.packed_len p) <= b)%nat.
Proof.
  intros (o & l & -> & Hol & Ho & Hl).
  destruct (Packed.packed_fields (Z.of_nat o) (Z.of_nat l)) as [-> ->]; [lia..|]. lia.
Qed.

(** The counter of a row after [sv_inc_u8], below the wrap. *)
Lemma count_inc m r :
  (0 <= sv_get 0%Z m r < 255)%Z ->
  Z.to_nat (sv_get 0%Z (sv_inc_u8 m r) r) = S (Z.to_nat (sv_get 0%Z m r)).
Proof.
  intros H. rewrite sv_get_inc_u8_eq, wrapU_small by (simpl; lia). lia.
Qed.

Lemma slot_fresh_after_save md row r v off qoff :
  row <> r -> slot_fresh md row -> slot_fresh (md_after_save r v md off qoff) row.
Proof.
  intros Hne (H1 & H2 & H3 & H4 & H5 & H6 & H7 & H8).
  assert (Hs : forall c s, c !! row = None -> set_str_if c r s !! row = None).
  { intros c s Hc. unfold set_str_if, sv_set. case_match; [done|].
    by rewrite lookup_insert_ne by congruence. }
  unfold slot_fresh, md_after_save, md_save_tags, sv_set; simpl.
  split_and!; try (by apply Hs); try (by destruct is_nanopore; auto);
    try (rewrite lookup_insert_ne by congruence; done).
  destruct (ReadFilter v); set_solver.
Qed.

Lemma md_after_save_seq r v md off qoff row :
  md_SeqOffset (md_after_save r v md off qoff) !! row =
  if decide (row = r) then
    Some (Packed.pack_offset (Z.of_nat off) (Z.of_nat (String.length (Sequence v))))
  else md_SeqOffset md !! row.
Proof.
  unfold md_after_save, sv_set. cbn. case_decide; subst;
    [by rewrite lookup_insert_eq | by rewrite lookup_insert_ne by congruence].
Qed.

Lemma md_after_save_qual r v md off qoff row :
  md_QualOffset (md_after_save r v md off qoff) !! row =
  if decide (row = r) then
    Some (Packed.pack_offset (Z.of_nat qoff) (Z.of_nat (length (QualScores v))))
  else md_QualOffset md !! row.
Proof.
  unfold md_after_save, sv_set. cbn. case_decide; subst;
    [by rewrite lookup_insert_eq | by rewrite lookup_insert_ne by congruence].
Qed.

(** Split a lookup in a vector updated at [k]. *)
Ltac lookup_insert_cases k' k :=
  destruct (decide (k' = k)) as [->|?];
  [rewrite ?list_lookup_insert_eq by lia | rewrite ?list_lookup_insert_ne by congruence].

Section ColdSave.
Context (r : nat) (v : fastq_read) (st : spot_assembly_t) (k : nat) (md : metadata_t)
  (off qoff : nat) (sc qc : gmap nat Z) (buffer qbuf : list Z).
Hypothesis Hwf : store_wf st.
Hypothesis Hk : count_of st r = k.
Hypothesis Hk255 : k < 255.
Hypothesis Hmd : m_reads_metadata st !! k = Some md.
Hypothesis Hoff : m_seq_offset st !! k = Some off.
Hypothesis Hqoff : m_qual_offset st !! k = Some qoff.
Hypothesis Hbounds : (Z.of_nat (off + String.length (Sequence v)) < 2 ^ 48)%Z /\
  (Z.of_nat (qoff + length (QualScores v)) < 2 ^ 48)%Z /\
  (Z.of_nat (String.length (Sequence v)) < 2 ^ 16)%Z /\
  (Z.of_nat (length (QualScores v)) < 2 ^ 16)%Z.

Local Abbreviation st' := (save_cold_state r v st k md off qoff sc qc buffer qbuf).

Lemma k_lt : k < length (m_reads_metadata st).
Proof. by eapply lookup_lt_Some. Qed.

Lemma count_after_save : count_of st' r = S k.
Proof.
  unfold count_of in *. cbn. rewrite count_inc; [lia|].
  pose proof (wf_count _ Hwf r). unfold count_of in Hk. lia.
Qed.

Lemma count_after_save_ne row : row <> r -> count_of st' row = count_of st row.
Proof. intros. unfold count_of. cbn. by rewrite sv_get_inc_u8_ne. Qed.

(** Saving a read keeps the store well formed. *)
Lemma save_cold_wf : store_wf st'.
Proof.
  destruct Hwf as [L1 L2 L3 L4 R1 R2 F C]. pose proof k_lt as Hlt.
  destruct Hbounds as (B1 & B2 & B3 & B4).
  constructor; cbn; rewrite ?length_insert; try done.
  - intros k' md' off' row p. lookup_insert_cases k' k.
    + intros [= <-] [= <-]. rewrite md_after_save_seq. case_decide; [intros [= <-]|].
      * apply packed_within_pack; lia.
      * intros Hp. eapply packed_within_mono; [|eapply R1; eauto]. lia.
    + eauto.
  - intros k' md' off' row p. lookup_insert_cases k' k.
    + intros [= <-] [= <-]. rewrite md_after_save_qual. case_decide; [intros [= <-]|].
      * apply packed_within_pack; lia.
      * intros Hp. eapply packed_within_mono; [|eapply R2; eauto]. lia.
    + eauto.
  - intros k' md' row. destruct (decide (row = r)) as [->|Hne].
    + pose proof count_after_save as Hc. unfold count_of in Hc |- *. simpl in Hc |- *.
      lookup_insert_cases k' k; [intros _ ?; lia|].
      intros Hmd' ?. apply (F k' md' r Hmd'). unfold count_of in *. lia.
    + rewrite count_after_save_ne by done. lookup_insert_cases k' k.
      * intros [= <-] Hle. apply slot_fresh_after_save; eauto.
      * eauto.
  - intros row. destruct (decide (row = r)) as [->|Hne].
    + rewrite sv_get_inc_u8_eq. apply wrapU_range. lia.
    + rewrite sv_get_inc_u8_ne by done. apply C.
Qed.
End ColdSave.

(** Room for [v] in slot [k]: both write offsets stay below 2^48. *)
Definition room (st : spot_assembly_t) (k : nat) (v : fastq_read) : Prop :=
  forall off qoff, m_seq_offset st !! k = Some off -> m_qual_offset st !! k = Some qoff ->
    (Z.of_nat (off + String.length (Sequence v)) < 2 ^ 48)%Z /\
    (Z.of_nat (qoff + String.length (Sequence v)) < 2 ^ 48)%Z.

(** The reads [get_spot_mt] gives for a cold row are its slot loop. *)
Lemma get_spot_cold r st :
  r ∉ m_hot_spot_ids st ->
  get_spot_mt nd is_nanopore r st =
  (reads <- mapR (fun j => get_read nd is_nanopore r j st) (seq 0 (count_of st r)) ;;
   Ok (reads, st)).
Proof. intros Hhot. unfold get_spot_mt. by rewrite bool_decide_eq_false_2. Qed.

(** What a cold save reads: the slot's frame, columns and offsets, and
    the encodings of a valid read, which decode back. *)
Lemma save_cold_inputs r v st :
  store_wf st -> count_of st r < length (m_reads_metadata st) -> valid_read v ->
  exists md off sc qoff qc buffer qbuf,
    m_reads_metadata st !! count_of st r = Some md /\
    m_seq_offset st !! count_of st r = Some off /\
    m_sequences st !! count_of st r = Some sc /\
    m_qual_offset st !! count_of st r = Some qoff /\
    m_qualities st !! count_of st r = Some qc /\
    Dna.encode_seq nd (Sequence v) = Ok buffer /\ Dna.decode_seq nd buffer = Ok (Sequence v) /\
    length buffer = String.length (Sequence v) /\
    Qual.encode_qual nd (String.length (Sequence v)) (QualScores v) = Ok qbuf /\
    Qual.decode_qual qbuf = Ok (QualScores v) /\ length qbuf = length (QualScores v).
Proof.
  intros Hwf Hlt (Hne & Hb & Hql & Hsc & Hlen & Hmid).
  destruct (lookup_lt_is_Some_2 (m_reads_metadata st) (count_of st r)) as [md Hmd]; [done|].
  destruct (lookup_lt_is_Some_2 (m_seq_offset st) (count_of st r)) as [off Hoff];
    [by rewrite (wf_soff_len _ Hwf)|].
  destruct (lookup_lt_is_Some_2 (m_sequences st) (count_of st r)) as [sc Hsq];
    [by rewrite (wf_seq_len _ Hwf)|].
  destruct (lookup_lt_is_Some_2 (m_qual_offset st) (count_of st r)) as [qoff Hqoff];
    [by rewrite (wf_qoff_len _ Hwf)|].
  destruct (lookup_lt_is_Some_2 (m_qualities st) (count_of st r)) as [qc Hqc];
    [by rewrite (wf_qual_len _ Hwf)|].
  destruct (Dna.encode_seq_spec nd nd (Sequence v)) as (buffer & Henc & Hdec & Hbl); [done..|].
  destruct (Qual.encode_qual_spec nd (QualScores v)) as (qbuf & Hqenc & Hqdec & Hqbl); [done| |done|].
  { intros E. rewrite E in Hql. simpl in Hql. destruct (Sequence v); done. }
  rewrite Hql in Hqenc. exists md, off, sc, qoff, qc, buffer, qbuf. done.
Qed.

(** Saving a valid read into a cold row with a free slot succeeds, keeps
    the invariant, advances the row's counter, and appends the read to
    what [get_spot_mt] gives for the row. *)
Lemma save_fetch_step r v st reads :
  store_wf st -> r ∉ m_hot_spot_ids st ->
  count_of st r < length (m_reads_metadata st) -> count_of st r < 255 ->
  valid_read v -> room st (count_of st r) v ->
  get_spot_mt nd is_nanopore r st = Ok (reads, st) ->
  exists st', save_read_mt nd is_nanopore r v st = Ok st' /\ store_wf st' /\
    m_hot_spot_ids st' = m_hot_spot_ids st /\ count_of st' r = S (count_of st r) /\
    m_reads_metadata st' !! count_of st r <> None /\
    length (m_reads_metadata st') = length (m_reads_metadata st) /\
    (forall k, k <> count_of st r -> m_seq_offset st' !! k = m_seq_offset st !! k /\
       m_qual_offset st' !! k = m_qual_offset st !! k) /\
    get_spot_mt nd is_nanopore r st' = Ok (reads ++ [expected_read v], st').
Proof.
  intros Hwf Hhot Hlt H255 Hv Hroom Hget.
  destruct (save_cold_inputs r v st) as
    (md & off & sc & qoff & qc & buffer & qbuf & Hmd & Hoff & Hsq & Hqoff & Hqc &
     Henc & Hdec & Hbl & Hqenc & Hqdec & Hqbl); [done..|].
  set (k := count_of st r) in *.
  destruct Hv as (Hne & Hb & Hql & Hsc & Hlen & Hmid).
  destruct (Hroom off qoff Hoff Hqoff) as [R1 R2].
  assert (Hbounds : (Z.of_nat (off + String.length (Sequence v)) < 2 ^ 48)%Z /\
    (Z.of_nat (qoff + length (QualScores v)) < 2 ^ 48)%Z /\
    (Z.of_nat (String.length (Sequence v)) < 2 ^ 16)%Z /\
    (Z.of_nat (length (QualScores v)) < 2 ^ 16)%Z) by (rewrite Hql; lia).
  exists (save_cold_state r v st k md off qoff sc qc buffer qbuf).
  split; [by eapply save_cold|].
  split; [by eapply save_cold_wf|]. split; [done|].
  split; [by eapply count_after_save|].
  pose proof (lookup_lt_Some _ _ _ Hmd) as Hk.
  split; [simpl; by rewrite list_lookup_insert_eq|].
  split; [simpl; by rewrite length_insert|].
  split; [intros k' Hk'; simpl; by rewrite !list_lookup_insert_ne by congruence|].
  rewrite get_spot_cold by done.
  erewrite count_after_save by eauto. rewrite seq_S, mapR_snoc.
  rewrite get_spot_cold in Hget by done. inv_bind Hget. injection Hget as <-.
  change (count_of st r) with k in Ha.
  rewrite (mapR_ext _ (fun j => get_read nd is_nanopore r j st)), Ha by
    (intros j Hj%list_elem_of_In%in_seq; apply get_read_ext; simpl;
     (rewrite list_lookup_insert_ne; [done | lia])).
  cbn [bind]. erewrite get_read_saved; [reflexivity|..]; simpl;
    rewrite ?list_lookup_insert_eq by (rewrite ?(wf_seq_len _ Hwf), ?(wf_qual_len _ Hwf); lia);
    eauto; try lia.
  apply (wf_fresh _ Hwf k md r Hmd). lia.
Qed.

(** Every slot from the row's counter on has room for a read of fewer
    than 2^16 bases. *)
Definition room_from (st : spot_assembly_t) (r : nat) : Prop :=
  forall j off, count_of st r <= j ->
    m_seq_offset st !! j = Some off \/ m_qual_offset st !! j = Some off ->
    (Z.of_nat off + 2 ^ 16 <= 2 ^ 48)%Z.

Lemma room_from_room st r v :
  room_from st r -> (Z.of_nat (String.length (Sequence v)) < 2 ^ 16)%Z ->
  room st (count_of st r) v.
Proof.
  intros Hr Hl off qoff Ho Hq.
  pose proof (Hr _ off (reflexivity _) (or_introl Ho)).
  pose proof (Hr _ qoff (reflexivity _) (or_intror Hq)). lia.
Qed.

(** Saving reads [vs] in order into a cold row appends them, in order,
    to what [get_spot_mt] gives for it. *)
Lemma save_fold_fetch r vs st reads :
  store_wf st -> r ∉ m_hot_spot_ids st ->
  count_of st r + length vs <= length (m_reads_metadata st) ->
  count_of st r + length vs <= 255 ->
  Forall valid_read vs -> room_from st r ->
  get_spot_mt nd is_nanopore r st = Ok (reads, st) ->
  exists st', foldR (fun s v => save_read_mt nd is_nanopore r v s) vs st = Ok st' /\
    get_spot_mt nd is_nanopore r st' = Ok (reads ++ map expected_read vs, st').
Proof.
  revert st reads. induction vs as [|v vs IH]; intros st reads Hwf Hhot Hlen H255 Hvs Hroom Hget.
  { exists st. by rewrite app_nil_r. }
  inversion Hvs as [|? ? Hv Hvs']; subst. simpl in Hlen, H255.
  destruct (save_fetch_step r v st reads) as
    (st1 & Hsave & Hwf1 & Hhot1 & Hc1 & _ & Hl1 & Hoffs & Hget1); try done; try lia.
  { apply room_from_room; [done | apply Hv]. }
  destruct (IH st1 (reads ++ [expected_read v])) as (st' & Hfold & Hget');
    try done; try congruence; try lia.
  { intros j off Hj Hoff. rewrite Hc1 in Hj.
    destruct (Hoffs j) as [E1 E2]; [lia|]. rewrite E1, E2 in Hoff.
    apply (Hroom j off); [lia | done]. }
  exists st'. simpl. rewrite Hsave. simpl. split; [done|].
  by rewrite Hget', <- app_assoc.
Qed.

(** Fresh read slots keep the store well formed. *)
Lemma reserve_wf k st :
  (forall row, (0 <= sv_get 0%Z (m_spot_index st) row < 256)%Z) ->
  store_wf (reserve_slots k st).
Proof.
  intros Hc. constructor; simpl; rewrite ?length_replicate; try done.
  - intros j md off row p Hmd. apply lookup_replicate in Hmd as [-> _]. done.
  - intros j md off row p Hmd. apply lookup_replicate in Hmd as [-> _]. done.
  - intros j md row Hmd. apply lookup_replicate in Hmd as [-> _]. intros _.
    unfold slot_fresh. simpl. split_and!; done || set_solver.
Qed.

(** ** The release path *)

(** The state after the clears of one slot. *)
Definition with_slots (st : spot_assembly_t) (mds : list metadata_t)
    (seqs quals : list (gmap nat Z)) : spot_assembly_t :=
  {| st with m_reads_metadata := mds; m_sequences := seqs; m_qualities := quals |}.

Lemma clear_slot_eq rows ids st j md sc qc :
  m_reads_metadata st !! j = Some md -> m_sequences st !! j = Some sc ->
  m_qualities st !! j = Some qc ->
  clear_slot is_nanopore rows ids st j =
  Ok (with_slots st (<[j := clear_metadata is_nanopore rows md]> (m_reads_metadata st))
        (<[j := sv_clear sc (clear_ranges (sv_gather 0%Z (md_SeqOffset md) ids))]>
           (m_sequences st))
        (<[j := sv_clear qc (clear_ranges (sv_gather 0%Z (md_QualOffset md) ids))]>
           (m_qualities st))).
Proof.
  intros Hmd Hsc Hqc. unfold clear_slot.
  rewrite (vat_lookup _ _ _ _ Hmd), bind_Ok, (vat_lookup _ _ _ _ Hsc), bind_Ok.
  rewrite vupd_lt by (by eapply lookup_lt_Some). rewrite bind_Ok.
  rewrite (vat_lookup _ _ _ _ Hqc), bind_Ok.
  rewrite vupd_lt by (by eapply lookup_lt_Some). rewrite bind_Ok.
  rewrite vupd_lt by (by eapply lookup_lt_Some). reflexivity.
Qed.

(** The clear loop over slots [a .. a+n-1]: it succeeds, it clears the
    frame of each of those slots, and it touches nothing else. *)
Lemma clear_loop rows ids a n st :
  length (m_sequences st) = length (m_reads_metadata st) ->
  length (m_qualities st) = length (m_reads_metadata st) ->
  a + n <= length (m_reads_metadata st) ->
  exists mds seqs quals,
    foldR (clear_slot is_nanopore rows ids) (seq a n) st = Ok (with_slots st mds seqs quals) /\
    length mds = length (m_reads_metadata st) /\ length seqs = length mds /\
    length quals = length mds /\
    (forall j, a <= j < a + n -> exists md, m_reads_metadata st !! j = Some md /\
       mds !! j = Some (clear_metadata is_nanopore rows md)) /\
    (forall j, ~ (a <= j < a + n) -> mds !! j = m_reads_metadata st !! j /\
       seqs !! j = m_sequences st !! j /\ quals !! j = m_qualities st !! j).
Proof.
  revert a st. induction n as [|n IH]; intros a st Hs Hq Hn.
  { exists (m_reads_metadata st), (m_sequences st), (m_qualities st).
    split; [by destruct st|]. split_and!; auto with lia. }
  destruct (lookup_lt_is_Some_2 (m_reads_metadata st) a) as [md Hmd]; [lia|].
  destruct (lookup_lt_is_Some_2 (m_sequences st) a) as [sc Hsc]; [lia|].
  destruct (lookup_lt_is_Some_2 (m_qualities st) a) as [qc Hqc]; [lia|].
  simpl. rewrite (clear_slot_eq _ _ _ _ _ _ _ Hmd Hsc Hqc), bind_Ok.
  destruct (IH (S a) (with_slots st (<[a := clear_metadata is_nanopore rows md]>
     (m_reads_metadata st)) (<[a := sv_clear sc (clear_ranges (sv_gather 0%Z
     (md_SeqOffset md) ids))]> (m_sequences st)) (<[a := sv_clear qc (clear_ranges
     (sv_gather 0%Z (md_QualOffset md) ids))]> (m_qualities st))))
    as (mds & seqs & quals & Hf & L1 & L2 & L3 & Hin & Hout);
    simpl; rewrite ?length_insert; try lia.
  simpl in L1. rewrite length_insert in L1.
  exists mds, seqs, quals. rewrite Hf. split; [reflexivity|]. split_and!; try lia.
  - intros j Hj. destruct (decide (j = a)) as [->|Hja].
    + exists md. split; [done|]. rewrite (proj1 (Hout a ltac:(lia))).
      simpl. by rewrite list_lookup_insert_eq by lia.
    + destruct (Hin j) as (md' & Hmd' & Hj'); [lia|]. simpl in Hmd'.
      rewrite list_lookup_insert_ne in Hmd' by congruence. eauto.
  - intros j Hj. destruct (Hout j) as (E1 & E2 & E3); [lia|]. simpl in E1, E2, E3.
    rewrite E1, E2, E3, !list_lookup_insert_ne by lia. done.
Qed.

(** Filling [row_ids] from fewer set bits than its length succeeds. *)
Lemma fill_row_ids_ok c elems ids :
  c + length elems <= length ids ->
  exists ids', fill_row_ids c elems ids = Ok ids' /\ length ids' = length ids.
Proof.
  revert c ids. induction elems as [|e es IH]; intros c ids Hl; simpl in *; [by exists ids|].
  rewrite vupd_lt by lia. rewrite bind_Ok.
  destruct (IH (S c) (<[c:=e]> ids)) as (ids' & -> & Hl'); rewrite ?length_insert; [lia|].
  exists ids'. by rewrite Hl', length_insert.
Qed.

Lemma size_length_elements (X : gset nat) : size X = length (elements X).
Proof. unfold size, set_size. reflexivity. Qed.

Lemma assert_Ok nd' b what : b = true \/ nd' = true -> assert_ nd' b what = Ok tt.
Proof. unfold assert_. by intros [-> | ->]; [|rewrite Bool.orb_true_r]. Qed.

(** The state a batch leaves: the clears of the slots, then the set and
    the count of released rows reset, the optimisation counter raised. *)
Definition batch_state (st : spot_assembly_t) (mds : list metadata_t)
    (seqs quals : list (gmap nat Z)) : spot_assembly_t :=
  let st2 := with_slots st mds seqs quals in
  {| st2 with
     rows_to_clear := ∅;
     m_optimize_count := wrapS 32 (m_optimize_count st + Z.of_nat (S (num_rows_to_clear st)));
     num_rows_to_clear := 0 |}.

(** A release that fills the batch runs the clear loop over the slots
    below the trigger row's own counter, then resets the batch. *)
Lemma clear_batch max r st :
  r ∉ m_hot_spot_ids st -> (max <= Z.of_nat (S (num_rows_to_clear st)))%Z ->
  size ({[r]} ∪ rows_to_clear st) <= S (num_rows_to_clear st) ->
  nd = true \/ size ({[r]} ∪ rows_to_clear st) = S (num_rows_to_clear st) ->
  count_of st r <= length (m_reads_metadata st) ->
  length (m_sequences st) = length (m_reads_metadata st) ->
  length (m_qualities st) = length (m_reads_metadata st) ->
  exists mds seqs quals,
    clear_spot_mt_with nd is_nanopore max r st = Ok (batch_state st mds seqs quals) /\
    length mds = length (m_reads_metadata st) /\ length seqs = length mds /\
    length quals = length mds /\
    (forall j, j < count_of st r -> exists md, m_reads_metadata st !! j = Some md /\
       mds !! j = Some (clear_metadata is_nanopore ({[r]} ∪ rows_to_clear st) md)) /\
    (forall j, count_of st r <= j -> mds !! j = m_reads_metadata st !! j /\
       seqs !! j = m_sequences st !! j /\ quals !! j = m_qualities st !! j).
Proof.
  intros Hhot Hmax Hsz Hnd Hc Hs Hq. unfold clear_spot_mt_with.
  rewrite bool_decide_eq_false_2 by done. cbn zeta. simpl.
  rewrite bool_decide_eq_true_2 by done.
  pose proof (Permutation_length (NatSort.Permuted_sort (elements ({[r]} ∪ rows_to_clear st))))
    as Hperm. rewrite <- size_length_elements in Hperm.
  destruct (fill_row_ids_ok 0 (NatSort.sort (elements ({[r]} ∪ rows_to_clear st)))
              (0 :: replicate (num_rows_to_clear st) 0)) as (ids & -> & _);
    [simpl; rewrite length_replicate; lia|].
  rewrite bind_Ok, assert_Ok, bind_Ok
    by (rewrite <- Hperm; destruct Hnd as [-> | ->]; [by right | left; apply Nat.eqb_refl]).
  destruct (clear_loop ({[r]} ∪ rows_to_clear st) ids 0 (count_of st r)
     {| st with rows_to_clear := {[r]} ∪ rows_to_clear st;
                num_rows_to_clear := S (num_rows_to_clear st) |})
    as (mds & seqs & quals & Hf & L1 & L2 & L3 & Hin & Hout); simpl; try lia.
  exists mds, seqs, quals. unfold count_of in Hf. simpl in Hf. rewrite Hf, bind_Ok.
  split; [reflexivity|]. split_and!; try done.
  - intros j Hj. apply Hin. lia.
  - intros j Hj. apply Hout. lia.
Qed.

(** The state after releases that stay below the batch size. *)
Definition pending_state (st : spot_assembly_t) (rows : gset nat) (n : nat) : spot_assembly_t :=
  {| st with rows_to_clear := rows; num_rows_to_clear := n |}.

Lemma release_pending_state max r st :
  r ∉ m_hot_spot_ids st -> (Z.of_nat (S (num_rows_to_clear st)) < max)%Z ->
  clear_spot_mt_with nd is_nanopore max r st =
  Ok (pending_state st ({[r]} ∪ rows_to_clear st) (S (num_rows_to_clear st))).
Proof.
  intros Hhot Hlt. unfold clear_spot_mt_with. rewrite bool_decide_eq_false_2 by done.
  simpl. by rewrite bool_decide_eq_false_2 by lia.
Qed.

(** Releases of cold rows that keep the count below the batch size only
    collect the rows. *)
Lemma release_pending_fold max ps st :
  Forall (fun r => r ∉ m_hot_spot_ids st) ps ->
  (Z.of_nat (num_rows_to_clear st + length ps) < max)%Z ->
  foldR (fun s r => clear_spot_mt_with nd is_nanopore max r s) ps st =
  Ok (pending_state st (list_to_set (reverse ps) ∪ rows_to_clear st)
        (num_rows_to_clear st + length ps)).
Proof.
  revert st. induction ps as [|p ps IH]; intros st Hps Hlt.
  { simpl. rewrite Nat.add_0_r. unfold pending_state. f_equal. destruct st; simpl.
    f_equal. set_solver. }
  apply Forall_cons in Hps as [Hp Hps]. simpl in Hlt. simpl.
  rewrite release_pending_state by (done || lia). cbn [bind].
  rewrite IH by (done || simpl; lia). simpl. unfold pending_state. f_equal. f_equal.
  - rewrite reverse_cons, list_to_set_app_L. simpl. set_solver.
  - lia.
Qed.

Lemma size_pending (r : nat) ps :
  NoDup (ps ++ [r]) -> size ({[r]} ∪ (list_to_set (reverse ps) ∪ ∅) : gset nat) = S (length ps).
Proof.
  intros Hnd. apply NoDup_app in Hnd as (Hps & Hdisj & _).
  assert (Hr : r ∉ ps) by (intros Hin; by apply (Hdisj r Hin), list_elem_of_singleton).
  rewrite union_empty_r_L, size_union, size_singleton, size_list_to_set, length_reverse.
  - lia.
  - by rewrite reverse_Permutation.
  - apply disjoint_singleton_l. rewrite elem_of_list_to_set, elem_of_reverse. done.
Qed.

Lemma reserve_room_from k st r : room_from (reserve_slots k st) r.
Proof.
  intros j off _ [Ho|Ho]; simpl in Ho; apply lookup_replicate in Ho as [-> _]; simpl; lia.
Qed.

(** A slot whose frame was cleared for [r] gives a zero-length read,
    whose quality decode writes [qual_scores[0]] of an empty vector. *)
Lemma get_read_cleared r j st rows md sc qc :
  r ∈ rows ->
  m_reads_metadata st !! j = Some (clear_metadata is_nanopore rows md) ->
  m_sequences st !! j = Some sc -> m_qualities st !! j = Some qc ->
  get_read nd is_nanopore r j st = Err (FUndefined "qual_scores[0]").
Proof.
  intros Hr Hmd Hsc Hqc. unfold get_read, read_slot.
  rewrite (vat_lookup _ _ _ _ Hmd), (vat_lookup _ _ _ _ Hsc), (vat_lookup _ _ _ _ Hqc).
  cbn [bind clear_metadata md_SeqOffset md_QualOffset].
  rewrite !(sv_get_clear_in 0%Z) by done. reflexivity.
Qed.
(** The reads [get_spot_mt] hands to its caller. *)
Definition spot_reads (r : nat) (st : spot_assembly_t) : result (list fastq_read) :=
  p <- get_spot_mt nd is_nanopore r st ;; Ok p.1.

(** [get_spot_mt] reads the hot set and map, the counters and the slots. *)
Lemma spot_reads_ext r st st' :
  m_hot_spot_ids st' = m_hot_spot_ids st -> m_hot_spots st' = m_hot_spots st ->
  m_spot_index st' = m_spot_index st -> m_reads_metadata st' = m_reads_metadata st ->
  m_sequences st' = m_sequences st -> m_qualities st' = m_qualities st ->
  spot_reads r st' = spot_reads r st.
Proof.
  intros E1 E2 E3 E4 E5 E6. unfold spot_reads, get_spot_mt. rewrite E1, E2, E3.
  case_bool_decide; [by destruct (m_hot_spots st !! r)|].
  rewrite (mapR_ext _ (fun j => get_read nd is_nanopore r j st))
    by (intros j _; apply get_read_ext; congruence).
  by destruct (mapR _ _).
Qed.
End Invariant.

(** ** Theorems of the store *)

Section StoreTheorems.
Context `{SV : ScoreValidator} (nd : bool) (is_nanopore : bool).

(** C3. Saving a valid read into a cold row whose counter names an
    existing slot (and is below the [uint8_t] wrap) succeeds, keeps the
    store well formed, and [get_spot_mt] then gives the reads it gave
    before followed by the saved read (with reader index 0, and the
    nanopore tags only for nanopore input). *)
Theorem save_read_fetch r v st reads :
  store_wf st -> r ∉ m_hot_spot_ids st ->
  count_of st r < length (m_reads_metadata st) -> count_of st r < 255 ->
  valid_read v -> room st (count_of st r) v ->
  get_spot_mt nd is_nanopore r st = Ok (reads, st) ->
  exists st', save_read_mt nd is_nanopore r v st = Ok st' /\ store_wf st' /\
    get_spot_mt nd is_nanopore r st' = Ok (reads ++ [expected_read is_nanopore v], st').
Proof.
  intros. edestruct save_fetch_step as (st' & ? & ? & _ & _ & _ & _ & _ & ?); eauto.
Qed.

(** C4. From fresh read slots, saving any list of valid reads (no more
    than the slots and than 255) into an empty cold row and fetching it
    gives the reads back in the order they were saved. *)
Theorem save_reads_fetch r vs k st :
  length vs <= k -> length vs <= 255 ->
  (forall row, (0 <= sv_get 0%Z (m_spot_index st) row < 256)%Z) ->
  count_of st r = 0 -> r ∉ m_hot_spot_ids st -> Forall valid_read vs ->
  exists st', foldR (fun s v => save_read_mt nd is_nanopore r v s) vs (reserve_slots k st)
                = Ok st' /\
    get_spot_mt nd is_nanopore r st' = Ok (map (expected_read is_nanopore) vs, st').
Proof.
  intros Hk H255 Hc Hr Hhot Hvs.
  destruct (save_fold_fetch nd is_nanopore r vs (reserve_slots k st) []) as (st' & ? & ?);
    try done; try apply reserve_wf, Hc; try apply reserve_room_from;
    simpl; rewrite ?length_replicate; try (unfold count_of in *; simpl; lia).
  - rewrite get_spot_cold by done. unfold count_of in *. simpl. by rewrite Hr.
  - eauto.
Qed.

(** C7. A release that completes a batch (the trigger row cold, holding
    at least one read, no row released twice) resets the batch but not
    the trigger row's read counter: fetching that row afterwards decodes
    a zero-length read and writes [qual_scores[0]] of an empty vector. *)
Theorem release_batch_fetch_fault max r st :
  store_wf st -> r ∉ m_hot_spot_ids st ->
  0 < count_of st r <= length (m_reads_metadata st) ->
  (max <= Z.of_nat (S (num_rows_to_clear st)))%Z ->
  size ({[r]} ∪ rows_to_clear st) = S (num_rows_to_clear st) ->
  exists st', clear_spot_mt_with nd is_nanopore max r st = Ok st' /\
    get_spot_mt nd is_nanopore r st' = Err (FUndefined "qual_scores[0]").
Proof.
  intros Hwf Hhot Hc Hmax Hsz.
  destruct (clear_batch nd is_nanopore max r st) as
    (mds & seqs & quals & Hclr & L1 & L2 & L3 & Hin & _);
    try done; try lia; try apply Hwf.
  eexists. split; [exact Hclr|].
  rewrite get_spot_cold by done.
  change (count_of (batch_state st mds seqs quals) r) with (count_of st r).
  destruct (count_of st r) as [|k]; [lia|]. cbn [seq mapR].
  destruct (Hin 0) as (md & _ & Hmd); [lia|].
  destruct (lookup_lt_is_Some_2 seqs 0) as [sc Hsc]; [lia|].
  destruct (lookup_lt_is_Some_2 quals 0) as [qc Hqc]; [lia|].
  rewrite (get_read_cleared nd is_nanopore r 0 (batch_state st mds seqs quals)
             ({[r]} ∪ rows_to_clear st) md sc qc ltac:(set_solver) Hmd Hsc Hqc).
  reflexivity.
Qed.

(** C8. A hot row's reads are kept whole in the overflow map: saving
    appends the read unchanged (reader index and tags included), and
    fetching moves the list out, so a second fetch gives nothing. *)
Theorem hot_save_fetch r v st :
  r ∈ m_hot_spot_ids st ->
  exists st1 st2 st3, save_read_mt nd is_nanopore r v st = Ok st1 /\
    get_spot_mt nd is_nanopore r st1 =
      Ok (default [] (m_hot_spots st !! r) ++ [v], st2) /\
    get_spot_mt nd is_nanopore r st2 = Ok ([], st3).
Proof.
  intros Hhot. unfold save_read_mt. rewrite bool_decide_eq_true_2 by done.
  eexists _, _, _. split; [reflexivity|]. unfold get_spot_mt; simpl.
  rewrite bool_decide_eq_true_2 by done. rewrite lookup_insert_eq.
  split; [reflexivity|]. simpl. rewrite bool_decide_eq_true_2 by done.
  by rewrite lookup_insert_eq.
Qed.

(** Releasing a hot row erases its list: a fetch then gives nothing. *)
Theorem hot_release_fetch max r st :
  r ∈ m_hot_spot_ids st ->
  exists st', clear_spot_mt_with nd is_nanopore max r st = Ok st' /\
    get_spot_mt nd is_nanopore r st' = Ok ([], st').
Proof.
  intros Hhot. unfold clear_spot_mt_with. rewrite bool_decide_eq_true_2 by done.
  eexists. split; [reflexivity|]. unfold get_spot_mt; simpl.
  rewrite bool_decide_eq_true_2 by done. by rewrite lookup_delete_eq.
Qed.

(** C24. The read counter is a [uint8_t]: the 256th read saved for a
    cold row wraps it to 0, after which the row's reads are no longer
    fetched at all. *)
Theorem save_counter_wraps r v st :
  store_wf st -> r ∉ m_hot_spot_ids st -> count_of st r = 255 ->
  255 < length (m_reads_metadata st) -> valid_read v ->
  exists st', save_read_mt nd is_nanopore r v st = Ok st' /\
    get_spot_mt nd is_nanopore r st' = Ok ([], st').
Proof.
  intros Hwf Hhot Hc Hlt Hv.
  destruct (save_cold_inputs nd r v st) as
    (md & off & sc & qoff & qc & buffer & qbuf & Hmd & Hoff & Hsq & Hqoff & Hqc &
     Henc & _ & _ & Hqenc & _ & _); [done | lia | done|].
  exists (save_cold_state is_nanopore r v st (count_of st r) md off qoff sc qc buffer qbuf).
  split; [by eapply save_cold|].
  rewrite get_spot_cold by done. unfold count_of in *. simpl.
  rewrite sv_get_inc_u8_eq. pose proof (wf_count _ Hwf r).
  replace (sv_get 0%Z (m_spot_index st) r) with 255%Z by lia. reflexivity.
Qed.

(** An empty sequence is refused by the assert of a debug build; a
    release build goes on, and with no quality scores it writes
    [qual_buffer[0]] of an empty vector. *)
Theorem save_empty_sequence r v st :
  r ∉ m_hot_spot_ids st -> Sequence v = ""%string ->
  save_read_mt false is_nanopore r v st = Err (FAssert "seq_sz > 0") /\
  (QualScores v = [] ->
   save_read_mt true is_nanopore r v st = Err (FUndefined "qual_buffer[0]")).
Proof.
  intros Hhot Hs. unfold save_read_mt, Dna.encode_seq, Qual.encode_qual.
  rewrite bool_decide_eq_false_2 by done. rewrite Hs. split; [reflexivity|].
  intros Hq. rewrite Hq. reflexivity.
Qed.

(** C25. The read slots are not grown: a cold row whose counter has
    reached the number of slots makes [save_read_mt] index past
    [m_reads_metadata]. *)
Theorem save_no_slot r v st :
  r ∉ m_hot_spot_ids st -> length (m_reads_metadata st) <= count_of st r -> valid_read v ->
  save_read_mt nd is_nanopore r v st = Err (FUndefined "m_reads_metadata[read_idx]").
Proof.
  intros Hhot Hle (Hne & Hb & Hql & Hsc & _ & Hmid).
  destruct (Dna.encode_seq_spec nd nd (Sequence v)) as (buffer & Henc & _); [done..|].
  destruct (Qual.encode_qual_spec nd (QualScores v)) as (qbuf & Hqenc & _); [done| |done|].
  { intros E. rewrite E in Hql. simpl in Hql. destruct (Sequence v); done. }
  unfold save_read_mt. rewrite bool_decide_eq_false_2 by done.
  rewrite Henc, bind_Ok, <- Hql, Hqenc, bind_Ok. unfold vat, count_of in *.
  by rewrite lookup_ge_None_2 by lia.
Qed.

(** C22. Releasing a cold row below the batch size only records it as
    pending: no row's reads change, the released row's included. *)
Theorem release_pending_keeps_reads max r r' st :
  r ∉ m_hot_spot_ids st -> (Z.of_nat (S (num_rows_to_clear st)) < max)%Z ->
  exists st', clear_spot_mt_with nd is_nanopore max r st = Ok st' /\
    rows_to_clear st' = {[r]} ∪ rows_to_clear st /\
    spot_reads nd is_nanopore r' st' = spot_reads nd is_nanopore r' st.
Proof.
  intros Hhot Hlt. unfold clear_spot_mt_with. rewrite bool_decide_eq_false_2 by done.
  simpl. rewrite bool_decide_eq_false_2 by lia.
  eexists. split; [reflexivity|]. split; [reflexivity|]. by apply spot_reads_ext.
Qed.

(** C23. Liveness of the deferred reclaimer: from an empty batch, releasing
    [max] distinct cold rows one after the other succeeds, and the last
    release runs the batch and empties the pending set and count, so no
    released row waits for more than [max] releases. *)
Theorem release_batch_reclaims max rs st :
  store_wf st -> rows_to_clear st = ∅ -> num_rows_to_clear st = 0 ->
  (1 <= max)%Z -> length rs = Z.to_nat max -> NoDup rs ->
  Forall (fun r => (r ∉ m_hot_spot_ids st) /\ count_of st r <= length (m_reads_metadata st)) rs ->
  exists st', foldR (fun s r => clear_spot_mt_with nd is_nanopore max r s) rs st = Ok st' /\
    rows_to_clear st' = ∅ /\ num_rows_to_clear st' = 0.
Proof.
  intros Hwf Hr0 Hn0 Hmax Hlen Hnd Hrs.
  destruct rs as [|r ps _] using rev_ind; [simpl in Hlen; lia|].
  rewrite length_app in Hlen. simpl in Hlen.
  apply Forall_app in Hrs as [Hps Hr]. apply Forall_singleton in Hr as [Hhot Hcount].
  rewrite foldR_app, release_pending_fold;
    [| by eapply Forall_impl; [exact Hps|]; intros ? [? ?] | rewrite Hn0; lia].
  rewrite bind_Ok, Hr0, Hn0. cbn [foldR].
  destruct (clear_batch nd is_nanopore max r (pending_state st (list_to_set (reverse ps) ∪ ∅)
              (0 + length ps))) as (mds & seqs & quals & Hc & _);
    cbn [pending_state num_rows_to_clear rows_to_clear m_hot_spot_ids m_reads_metadata
         m_sequences m_qualities]; try done; try apply Hwf;
    [lia | rewrite size_pending by done; lia | right; by rewrite size_pending |].
  rewrite Hc, bind_Ok. by eexists.
Qed.
End StoreTheorems.

(** ** Concrete runs *)

(** Phred scores: [min_score() = 0]. *)
#[local] Instance phred_scores : ScoreValidator := {| Qual.min_score := 0%Z |}.

Definition read_gattaca : fastq_read :=
  {| m_ReaderIdx := 3%Z; ReadNum := "1"; SpotGroup := ""; Suffix := "/1"; Channel := "7";
     NanoporeReadNo := ""; ReadFilter := true; Sequence := "GATTACA";
     QualScores := [30; 31; 32; 33; 34; 35; 36]%Z |}.

Definition read_cc : fastq_read :=
  {| m_ReaderIdx := 1%Z; ReadNum := "2"; SpotGroup := "g"; Suffix := ""; Channel := "";
     NanoporeReadNo := ""; ReadFilter := false; Sequence := "CC"; QualScores := [20; 25]%Z |}.

(** Two fresh read slots on a new engine. *)
Definition two_slots : spot_assembly_t := reserve_slots 2 spot_assembly_new.

Lemma valid_gattaca : valid_read read_gattaca.
Proof.
  split_and!; [discriminate | vm_compute; repeat constructor | reflexivity |
    repeat constructor; unfold Qual.is_score; lia | simpl; lia | unfold Qual.mid_score; simpl; lia..].
Qed.

Lemma valid_cc : valid_read read_cc.
Proof.
  split_and!; [discriminate | vm_compute; repeat constructor | reflexivity |
    repeat constructor; unfold Qual.is_score; lia | simpl; lia | unfold Qual.mid_score; simpl; lia..].
Qed.

Lemma valid_two : Forall valid_read [read_gattaca; read_cc].
Proof. constructor; [apply valid_gattaca|]. constructor; [apply valid_cc|]. constructor. Qed.

Lemma two_slots_wf : store_wf two_slots.
Proof. apply reserve_wf. intros row. simpl. rewrite sv_get_empty. lia. Qed.

(** A read with no bases and no scores. *)
Definition read_empty : fastq_read := read_reset.

(** [two_slots] with row 0 hot. *)
Definition hot_row : spot_assembly_t := {| two_slots with m_hot_spot_ids := {[0]} |}.

(** 256 fresh slots, row 0 having saved 255 reads. *)
Definition wrap_row : spot_assembly_t :=
  reserve_slots 256 {| spot_assembly_new with m_spot_index := {[0 := 255%Z]} |}.

(** Row 0 of [two_slots] after saving [read_gattaca]. *)
Definition one_read : spot_assembly_t :=
  ok_or two_slots (save_read_mt false false 0 read_gattaca two_slots).

Lemma one_read_wf : store_wf one_read.
Proof.
  destruct (save_fetch_step false false 0 read_gattaca two_slots []) as (st' & Hs & Hwf & _).
  apply two_slots_wf.
  set_solver.
  (vm_compute; lia).
  (vm_compute; lia).
  apply valid_gattaca.
  (apply room_from_room; [apply reserve_room_from | simpl; lia]).
  reflexivity.
  unfold one_read. by rewrite Hs.
Qed.
Lemma save_read_fetch_witness :
  exists st', save_read_mt false false 0 read_gattaca two_slots = Ok st' /\ store_wf st' /\
    get_spot_mt false false 0 st' = Ok ([] ++ [expected_read false read_gattaca], st').
Proof.
  apply (save_read_fetch false false 0 read_gattaca two_slots []);
    [apply two_slots_wf | set_solver | vm_compute; lia | vm_compute; lia | apply valid_gattaca |
     apply room_from_room; [apply reserve_room_from | simpl; lia] | reflexivity].
Defined.

Lemma save_reads_fetch_witness :
  exists st', foldR (fun s v => save_read_mt false false 0 v s) [read_gattaca; read_cc]
                (reserve_slots 2 spot_assembly_new) = Ok st' /\
    get_spot_mt false false 0 st' = Ok (map (expected_read false) [read_gattaca; read_cc], st').
Proof.
  apply (save_reads_fetch false false 0 [read_gattaca; read_cc] 2 spot_assembly_new);
    [simpl; lia | simpl; lia | intros row; simpl; rewrite sv_get_empty; lia | reflexivity | set_solver |
     apply valid_two].
Defined.

Lemma release_batch_fetch_fault_witness :
  exists st', clear_spot_mt_with false false 1 0 one_read = Ok st' /\
    get_spot_mt false false 0 st' = Err (FUndefined "qual_scores[0]").
Proof.
  apply (release_batch_fetch_fault false false 1 0 one_read);
    [apply one_read_wf | vm_compute; set_solver | split; apply Nat.leb_le; vm_compute; reflexivity | apply Z.leb_le; vm_compute; reflexivity |
     vm_compute; reflexivity].
Defined.

Lemma hot_save_fetch_witness :
  exists st1 st2 st3, save_read_mt false false 0 read_gattaca hot_row = Ok st1 /\
    get_spot_mt false false 0 st1 = Ok (default [] (m_hot_spots hot_row !! 0) ++ [read_gattaca], st2) /\
    get_spot_mt false false 0 st2 = Ok ([], st3).
Proof. apply (hot_save_fetch false false 0 read_gattaca hot_row). simpl. set_solver. Defined.

Lemma hot_release_fetch_witness :
  exists st', clear_spot_mt_with false false MAX_ROW_TO_CLEAR 0 hot_row = Ok st' /\
    get_spot_mt false false 0 st' = Ok ([], st').
Proof. apply (hot_release_fetch false false MAX_ROW_TO_CLEAR 0 hot_row). simpl. set_solver. Defined.

Lemma wrap_row_wf : store_wf wrap_row.
Proof.
  apply reserve_wf. intros row. simpl. unfold sv_get.
  destruct (decide (row = 0)) as [->|Hne];
    [rewrite lookup_singleton_eq | rewrite lookup_singleton_ne by congruence]; simpl; lia.
Qed.

Lemma save_counter_wraps_witness :
  exists st', save_read_mt false false 0 read_gattaca wrap_row = Ok st' /\
    get_spot_mt false false 0 st' = Ok ([], st').
Proof.
  apply (save_counter_wraps false false 0 read_gattaca wrap_row);
    [apply wrap_row_wf | simpl; set_solver | reflexivity |
     apply Nat.ltb_lt; vm_compute; reflexivity | apply valid_gattaca].
Defined.

Lemma save_empty_sequence_witness :
  save_read_mt false false 0 read_empty two_slots = Err (FAssert "seq_sz > 0") /\
  (QualScores read_empty = [] ->
   save_read_mt true false 0 read_empty two_slots = Err (FUndefined "qual_buffer[0]")).
Proof. apply (save_empty_sequence false 0 read_empty two_slots); [simpl; set_solver | reflexivity]. Defined.

Lemma save_no_slot_witness :
  save_read_mt false false 0 read_gattaca spot_assembly_new =
    Err (FUndefined "m_reads_metadata[read_idx]").
Proof.
  apply (save_no_slot false false 0 read_gattaca spot_assembly_new);
    [simpl; set_solver | simpl; lia | apply valid_gattaca].
Defined.

Lemma release_pending_keeps_reads_witness :
  exists st', clear_spot_mt_with false false MAX_ROW_TO_CLEAR 0 one_read = Ok st' /\
    rows_to_clear st' = {[0]} ∪ rows_to_clear one_read /\
    spot_reads false false 0 st' = spot_reads false false 0 one_read.
Proof.
  apply (release_pending_keeps_reads false false MAX_ROW_TO_CLEAR 0 0 one_read);
    [vm_compute; set_solver | apply Z.ltb_lt; vm_compute; reflexivity].
Defined.

Lemma release_batch_reclaims_witness :
  exists st', foldR (fun s r => clear_spot_mt_with false false 2 r s) [0; 1] one_read = Ok st' /\
    rows_to_clear st' = ∅ /\ num_rows_to_clear st' = 0.
Proof.
  apply (release_batch_reclaims false false 2 [0; 1] one_read);
    [apply one_read_wf | vm_compute; reflexivity | vm_compute; reflexivity | lia | reflexivity |
     repeat constructor; set_solver |].
  constructor; [|constructor; [|constructor]]; split; vm_compute; (set_solver || lia).
Defined.
