(* ===== verification/StoreST.v ===== *)
(** * StoreST: the single-threaded store operations

    [save_read], [get_spot] and [clear_spot] of [spot_assembly_t]
    ([src/tools/loaders/sharq/spot_assembly.hpp], lines 192-405), the
    variants without the mutex that the loader does not call (it calls
    the [_mt] ones, modelled in [Store]).  They differ from the [_mt]
    code in ways that matter:
    - [save_read] appends a fresh metadata frame, sequence column and
      quality column on every call ([emplace_back]) instead of writing
      slot [read_idx], but still reads [m_seq_offset[read_idx]] and
      [m_qual_offset[read_idx]] first, and it stores the reader id;
    - [get_spot] restores the reader id;
    - [clear_spot] clears every string column without the emptiness
      test, sizes [row_ids] by the batch size, has no assert, and clears
      the range [offset .. offset + (len - 1)] of every gathered row even
      when [len] is 0, where the [size_t] subtraction wraps. *)

From S2P Require Import Prelude Codec SparseVec SpotState Store.
From Stdlib Require Import Sorting.Mergesort.

Import Codec.Qual (ScoreValidator).

Section StoreST.
Context `{SV : ScoreValidator} (nd : bool) (is_nanopore : bool).

(** [metadata.get<u16_t>(e_ReaderId).set(row_id, read.m_ReaderIdx)]. *)
Definition md_save_reader (row_id : nat) (read : fastq_read) (md : metadata_t) : metadata_t :=
  {| md with md_ReaderId := sv_set (md_ReaderId md) row_id (wrapU 16 (m_ReaderIdx read)) |}.

(** [save_read]: every call appends one frame and one column of each kind. *)
Definition save_read (row_id : nat) (read : fastq_read) (st : spot_assembly_t)
  : result spot_assembly_t :=
  if bool_decide (row_id ∈ m_hot_spot_ids st) then
    Ok {| st with m_hot_spots :=
            <[row_id := default [] (m_hot_spots st !! row_id) ++ [read]]> (m_hot_spots st) |}
  else
    let read_idx := Z.to_nat (sv_get 0%Z (m_spot_index st) row_id) in
    let md1 := md_save_tags is_nanopore row_id read (md_save_reader row_id read metadata_new) in
    let sz := String.length (Sequence read) in
    buffer <- Dna.encode_seq nd (Sequence read) ;;
    offset <- vat (m_seq_offset st) read_idx "m_seq_offset[read_idx]" ;;
    let md2 := {| md1 with md_SeqOffset :=
                    sv_set (md_SeqOffset md1) row_id
                      (Packed.pack_offset (Z.of_nat offset) (Z.of_nat sz)) |} in
    qual_buffer <- Qual.encode_qual nd sz (QualScores read) ;;
    let qsz := length (QualScores read) in
    qual_offset <- vat (m_qual_offset st) read_idx "m_qual_offset[read_idx]" ;;
    let md3 := {| md2 with md_QualOffset :=
                    sv_set (md_QualOffset md2) row_id
                      (Packed.pack_offset (Z.of_nat qual_offset) (Z.of_nat qsz)) |} in
    Ok {| st with
          m_reads_metadata := m_reads_metadata st ++ [md3];
          m_sequences := m_sequences st ++ [sv_import ∅ buffer offset];
          m_seq_offset := m_seq_offset st ++ [offset + sz];
          m_qualities := m_qualities st ++ [sv_import ∅ qual_buffer qual_offset];
          m_qual_offset := m_qual_offset st ++ [qual_offset + qsz];
          m_spot_index := sv_inc_u8 (m_spot_index st) row_id;
          m_optimize_count := wrapS 32 (m_optimize_count st + 1) |}.

(** The loop body of [get_spot]: the reader id, then as in [get_spot_mt]. *)
Definition get_read_st (row_id read_idx : nat) (st : spot_assembly_t) : result fastq_read :=
  md <- vat (m_reads_metadata st) read_idx "m_reads_metadata[read_idx]" ;;
  let r0 := {| read_reset with m_ReaderIdx := sv_get 0%Z (md_ReaderId md) row_id |} in
  read_slot nd row_id read_idx md (read_tags is_nanopore row_id md r0) st.

Definition get_spot (row_id : nat) (st : spot_assembly_t)
  : result (list fastq_read * spot_assembly_t) :=
  if bool_decide (row_id ∈ m_hot_spot_ids st) then
    match m_hot_spots st !! row_id with
    | Some reads => Ok (reads, {| st with m_hot_spots := <[row_id := []]> (m_hot_spots st) |})
    | None => Ok ([], st)
    end
  else
    let num_reads := Z.to_nat (sv_get 0%Z (m_spot_index st) row_id) in
    reads <- mapR (fun read_idx => get_read_st row_id read_idx st) (seq 0 num_reads) ;;
    Ok (reads, st).

(** The metadata clears of [clear_spot] for one slot. *)
Definition clear_metadata_st (rows : gset nat) (md : metadata_t) : metadata_t :=
  {| md_ReaderId := sv_clear (md_ReaderId md) rows;
     md_ReadNum := sv_clear (md_ReadNum md) rows;
     md_SpotGroup := sv_clear (md_SpotGroup md) rows;
     md_Suffix := sv_clear (md_Suffix md) rows;
     md_Channel := if is_nanopore then sv_clear (md_Channel md) rows else md_Channel md;
     md_NanoporeReadNo :=
       if is_nanopore then sv_clear (md_NanoporeReadNo md) rows else md_NanoporeReadNo md;
     md_ReadFilter := md_ReadFilter md ∖ rows;
     md_SeqOffset := sv_clear (md_SeqOffset md) rows;
     md_QualOffset := sv_clear (md_QualOffset md) rows |}.

(** [offset + (len - 1)] on [size_t]. *)
Definition range_end (packed : Z) : Z :=
  wrapU 64 (Packed.packed_off packed + (Packed.packed_len packed - 1)).

(** One turn of [for (size_t row : row_ids)]: the ranges of [row] in
    slot [read_idx], read from the frame [md] before its offsets go. *)
Definition clear_row_ranges (md : metadata_t) (read_idx : nat) (st : spot_assembly_t)
    (row : nat) : result spot_assembly_t :=
  let packed := sv_get 0%Z (md_SeqOffset md) row in
  seq_col <- vat (m_sequences st) read_idx "m_sequences[read_idx]" ;;
  seqs <- vupd (m_sequences st) read_idx
            (sv_clear_range seq_col (Packed.packed_off packed) (range_end packed))
            "m_sequences[read_idx]" ;;
  let qpacked := sv_get 0%Z (md_QualOffset md) row in
  qual_col <- vat (m_qualities st) read_idx "m_qualities[read_idx]" ;;
  quals <- vupd (m_qualities st) read_idx
             (sv_clear_range qual_col (Packed.packed_off qpacked) (range_end qpacked))
             "m_qualities[read_idx]" ;;
  Ok {| st with m_sequences := seqs; m_qualities := quals |}.

(** The body of the slot loop of [clear_spot]. *)
Definition clear_slot_st (rows : gset nat) (row_ids : list nat) (st : spot_assembly_t)
    (read_idx : nat) : result spot_assembly_t :=
  md <- vat (m_reads_metadata st) read_idx "m_reads_metadata[read_idx]" ;;
  st1 <- foldR (clear_row_ranges md read_idx) row_ids st ;;
  mds <- vupd (m_reads_metadata st1) read_idx (clear_metadata_st rows md)
           "m_reads_metadata[read_idx]" ;;
  Ok {| st1 with m_reads_metadata := mds |}.

(** [clear_spot], with the batch size (which also sizes [row_ids]) as a
    parameter. *)
Definition clear_spot_with (max_rows : Z) (row_id : nat) (st : spot_assembly_t)
  : result spot_assembly_t :=
  if bool_decide (row_id ∈ m_hot_spot_ids st) then
    Ok {| st with m_hot_spots := delete row_id (m_hot_spots st) |}
  else
    let st1 := {| st with rows_to_clear := {[row_id]} ∪ rows_to_clear st;
                          num_rows_to_clear := S (num_rows_to_clear st) |} in
    if bool_decide (max_rows <= Z.of_nat (num_rows_to_clear st1))%Z then
      let elems := NatSort.sort (elements (rows_to_clear st1)) in
      row_ids <- fill_row_ids 0 elems (replicate (Z.to_nat max_rows) 0) ;;
      let num_reads := Z.to_nat (sv_get 0%Z (m_spot_index st1) row_id) in
      st2 <- foldR (clear_slot_st (rows_to_clear st1) row_ids) (seq 0 num_reads) st1 ;;
      Ok {| st2 with rows_to_clear := ∅;
                     m_optimize_count :=
                       wrapS 32 (m_optimize_count st2 + Z.of_nat (num_rows_to_clear st1));
                     num_rows_to_clear := 0 |}
    else Ok st1.

Definition clear_spot (row_id : nat) (st : spot_assembly_t) : result spot_assembly_t :=
  clear_spot_with MAX_ROW_TO_CLEAR row_id st.

(** The state after one turn of the row loop (see [clear_row_ranges_eq]). *)
Definition clear_row_ranges_st (md : metadata_t) (j : nat) (st : spot_assembly_t) (row : nat)
  : spot_assembly_t :=
  {| st with
     m_sequences := <[j := sv_clear_range (m_sequences st !!! j)
                             (Packed.packed_off (sv_get 0%Z (md_SeqOffset md) row))
                             (range_end (sv_get 0%Z (md_SeqOffset md) row))]> (m_sequences st);
     m_qualities := <[j := sv_clear_range (m_qualities st !!! j)
                             (Packed.packed_off (sv_get 0%Z (md_QualOffset md) row))
                             (range_end (sv_get 0%Z (md_QualOffset md) row))]> (m_qualities st) |}.

(** A column with no value at any [size_t] position: every base reads
    back as code 0 ([A]) and every quality delta as 0. *)
Definition wiped (c : gmap nat Z) : Prop :=
  forall k, (Z.of_nat k < 2 ^ 64)%Z -> c !! k = None.

End StoreST.

(** ** Theorems *)

Section StoreSTTheorems.
Context `{SV : ScoreValidator} (nd : bool) (is_nanopore : bool).

(** C39. [save_read] reads [m_seq_offset[read_idx]] before it appends
    anything, and no code sizes that vector: on a cold row whose counter
    is not below its length (as for every row of a newly constructed
    engine, whose vectors are empty), a valid read is undefined
    behaviour. *)
Theorem st_save_offset_fault r v st :
  r ∉ m_hot_spot_ids st -> length (m_seq_offset st) <= count_of st r -> valid_read v ->
  save_read nd is_nanopore r v st = Err (FUndefined "m_seq_offset[read_idx]").
Proof.
  intros Hhot Hle (Hne & Hb & _).
  destruct (Dna.encode_seq_spec nd nd (Sequence v)) as (buffer & Henc & _); [done..|].
  unfold save_read. rewrite bool_decide_eq_false_2 by done.
  rewrite Henc, bind_Ok. unfold vat, count_of in *. by rewrite lookup_ge_None_2 by lia.
Qed.

(** A row with nothing in the slot has the packed word 0, whose range
    [0 .. 0 + (0 - 1)] ends at [2^64 - 1]. *)
Lemma range_end_0 : range_end 0 = (2 ^ 64 - 1)%Z.
Proof. reflexivity. Qed.

Lemma wiped_clear_range c p :
  wiped c \/ p = 0%Z -> wiped (sv_clear_range c (Packed.packed_off p) (range_end p)).
Proof.
  intros H k Hk. apply map_lookup_filter_None.
  destruct H as [H | ->]; [left; by apply H|].
  right. intros x _. rewrite range_end_0. cbn [fst]. change (Packed.packed_off 0) with 0%Z. lia.
Qed.

(** One turn of the row loop clears one range of slot [j] in both columns. *)
Lemma clear_row_ranges_eq md j st row :
  j < length (m_sequences st) -> j < length (m_qualities st) ->
  clear_row_ranges md j st row = Ok (clear_row_ranges_st md j st row).
Proof.
  intros Hs Hq. unfold clear_row_ranges.
  destruct (lookup_lt_is_Some_2 _ _ Hs) as [c Hc]. destruct (lookup_lt_is_Some_2 _ _ Hq) as [qc Hqc].
  rewrite (vat_lookup _ _ _ _ Hc), bind_Ok, vupd_lt, bind_Ok by done.
  rewrite (vat_lookup _ _ _ _ Hqc), bind_Ok, vupd_lt, bind_Ok by done.
  unfold clear_row_ranges_st.
  by rewrite (list_lookup_total_correct _ _ _ Hc), (list_lookup_total_correct _ _ _ Hqc).
Qed.

(** The row loop of one slot succeeds, keeps the frames and the column
    counts, keeps slot [j] wiped, and wipes it when one of the rows has
    nothing in the slot. *)
Lemma foldR_clear_rows md j rows st :
  j < length (m_sequences st) -> j < length (m_qualities st) ->
  exists st', foldR (clear_row_ranges md j) rows st = Ok st' /\
    length (m_sequences st') = length (m_sequences st) /\
    length (m_qualities st') = length (m_qualities st) /\
    m_reads_metadata st' = m_reads_metadata st /\
    ((wiped (m_sequences st !!! j) /\ wiped (m_qualities st !!! j)) \/
     (exists row, row ∈ rows /\ sv_get 0%Z (md_SeqOffset md) row = 0%Z /\
                  sv_get 0%Z (md_QualOffset md) row = 0%Z) ->
     wiped (m_sequences st' !!! j) /\ wiped (m_qualities st' !!! j)).
Proof.
  revert st. induction rows as [|row rows IH]; intros st Hs Hq.
  - exists st. split_and!; [done..|]. intros [H | (? & Hin & _)]; [done | set_solver].
  - cbn [foldR]. rewrite clear_row_ranges_eq by done. rewrite bind_Ok.
    destruct (IH (clear_row_ranges_st md j st row)) as (st' & Hf & Hs' & Hq' & Hmd & Hw);
      [unfold clear_row_ranges_st; cbn; rewrite length_insert; lia..|].
    unfold clear_row_ranges_st in *. cbn [m_sequences m_qualities m_reads_metadata] in Hs', Hq', Hmd, Hw.
    rewrite length_insert in Hs', Hq'.
    rewrite !list_lookup_total_insert_eq in Hw by done.
    exists st'. split_and!; [done..|]. intros H. apply Hw.
    destruct H as [[H1 H2] | (r & Hin & Hr1 & Hr2)]; [left; split; apply wiped_clear_range; by left|].
    apply elem_of_cons in Hin as [-> | Hin]; [|right; by eauto].
    left. rewrite Hr1, Hr2. split; apply wiped_clear_range; by right.
Qed.
End StoreSTTheorems.

Section StoreSTWipe.
Context (is_nanopore : bool).

(** C40. The slot loop of the single-threaded [clear_spot] has no
    [len > 0] test: when a gathered row has nothing in slot [j] (packed
    word 0, as for a released row with fewer reads than the trigger row
    or the zero padding of [row_ids]), its range [0 .. 0 + (0 - 1)] wraps
    to [0 .. 2^64 - 1], so the slot's whole sequence and quality columns
    are cleared: every other row's bases in the slot read back as A. *)
Theorem st_release_wipes_other_row rows row_ids st j md :
  m_reads_metadata st !! j = Some md ->
  j < length (m_sequences st) -> j < length (m_qualities st) ->
  (exists row, row ∈ row_ids /\ sv_get 0%Z (md_SeqOffset md) row = 0%Z /\
               sv_get 0%Z (md_QualOffset md) row = 0%Z) ->
  exists st', clear_slot_st is_nanopore rows row_ids st j = Ok st' /\
              wiped (m_sequences st' !!! j) /\ wiped (m_qualities st' !!! j).
Proof.
  intros Hmd Hs Hq Hrow. unfold clear_slot_st. rewrite (vat_lookup _ _ _ _ Hmd), bind_Ok.
  destruct (foldR_clear_rows md j row_ids st Hs Hq) as (st1 & -> & _ & _ & Hmd1 & Hw).
  rewrite bind_Ok, vupd_lt, bind_Ok; [|rewrite Hmd1; by eapply lookup_lt_Some].
  eexists. split; [reflexivity|]. apply Hw. by right.
Qed.
End StoreSTWipe.

(** ** Concrete runs *)

#[local] Instance phred_scores_st : ScoreValidator := {| Qual.min_score := 0%Z |}.

(** Offsets sized for one slot, no frame yet. *)
Definition one_offset : spot_assembly_t :=
  {| spot_assembly_new with m_seq_offset := [0]; m_qual_offset := [0] |}.

(** Row 0 saves [read_gattaca], then row 1 saves [read_cc]. *)
Definition two_rows_st : spot_assembly_t :=
  ok_or one_offset
    (st1 <- save_read false false 0 read_gattaca one_offset ;; save_read false false 1 read_cc st1).

Lemma st_save_offset_fault_witness :
  save_read false false 0 read_gattaca spot_assembly_new =
    Err (FUndefined "m_seq_offset[read_idx]").
Proof.
  apply (st_save_offset_fault false false 0 read_gattaca spot_assembly_new);
    [simpl; set_solver | simpl; lia | apply valid_gattaca].
Defined.

(** Each [save_read] appends a frame, but [get_spot] reads frame
    [read_idx]: the second row saved finds only the first row's frame in
    slot 0, decodes a zero-length read there and writes [qual_scores[0]]
    of an empty vector. *)
Example st_second_row_fault :
  (p <- get_spot false false 1 two_rows_st ;; Ok p.1) = Err (FUndefined "qual_scores[0]").
Proof. vm_compute. reflexivity. Qed.

(** The whole [clear_spot]: releasing row 1, which has nothing in
    slot 0, wipes slot 0, so row 0's bases read back as A and its scores
    as the mid score. *)
Example st_release_wipes_run :
  (st <- clear_spot_with false 1 1 two_rows_st ;; p <- get_spot false false 0 st ;; Ok p.1) =
  Ok [{| m_ReaderIdx := 3; ReadNum := "1"; SpotGroup := ""; Suffix := "/1"; Channel := "";
         NanoporeReadNo := ""; ReadFilter := true; Sequence := "AAAAAAA";
         QualScores := [30; 30; 30; 30; 30; 30; 30]%Z |}].
Proof. vm_compute. reflexivity. Qed.

(** Releasing row 1 of [two_rows_st]: slot 0's frame has nothing for it. *)
Lemma st_release_wipes_other_row_witness :
  exists st', clear_slot_st false {[1]} [1] two_rows_st 0 = Ok st' /\
              wiped (m_sequences st' !!! 0) /\ wiped (m_qualities st' !!! 0).
Proof.
  apply (st_release_wipes_other_row false {[1]} [1] two_rows_st 0 (nth 0 (m_reads_metadata two_rows_st) metadata_new));
    [vm_compute; reflexivity | vm_compute; lia | vm_compute; lia |].
  exists 1. split; [set_solver | split; vm_compute; reflexivity].
Defined.
