(* ===== verification/Parse.v ===== *)
(** * Parse: the command-line helpers of the SharQ front end

    From [src/tools/sharq/fastq_parse.cpp]: [s_split] (the comma lists of
    [--readNPairFiles]), [s_AddReadPairBatch] (files grouped by read
    pair), the [--readTypes] check, [xCheckInputFiles] (the file name
    fix-ups, against a file-system oracle), the input part of [AppMain]
    that combines them (read-pair lists, sorted file arguments, standard
    input) and [xRunDigest]'s guard and cleaning of the error message.
    A thrown [fastq_error] is the fault [FThrow code]. *)

From S2P Require Import Prelude.

(** ** [s_split] *)

(** The scan of [s_split] from [begin]: [cur] holds, reversed, the
    characters since [begin]. *)
Fixpoint split_from (c : ascii) (cur : list ascii) (l : list ascii) : list (list ascii) :=
  match l with
  | [] => [rev cur]
  | x :: l' =>
      if Ascii.eqb x c then
        rev cur :: match l' with [] => [] | _ => split_from c [] l' end
      else split_from c (x :: cur) l'
  end.

(** [s_split(str, out, c)]: the pieces between separators; an empty
    string gives no piece, and the loop stops after a separator that ends
    the string. *)
Definition s_split (str : string) (c : ascii) : list string :=
  match String.list_ascii_of_string str with
  | [] => []
  | l => map String.string_of_list_ascii (split_from c [] l)
  end.

(** The loops of [s_split] on the iterators, as positions in the string.
    The inner [while (it != end && *it != c) ++it;] from [it], with
    [fuel] steps: [None] when they run out. *)
Fixpoint scan_sep (fuel : nat) (c : ascii) (l : list ascii) (it : nat) : option nat :=
  match l !! it with
  | None => Some it
  | Some x =>
      if Ascii.eqb x c then Some it
      else match fuel with 0 => None | S f => scan_sep f c l (S it) end
  end.

(** The outer [while (begin != end)] from [begin], with [fuel]
    iterations: each emplaces [string(begin, it)] and stops at the end of
    the string, or moves [begin] past the separator. *)
Fixpoint s_split_loop (fuel : nat) (c : ascii) (l : list ascii) (begin : nat)
  : option (list (list ascii)) :=
  match l !! begin with
  | None => Some []
  | Some _ =>
      match fuel with
      | 0 => None
      | S f =>
          match scan_sep (length l) c l begin with
          | None => None
          | Some it =>
              let piece := take (it - begin) (drop begin l) in
              match l !! it with
              | None => Some [piece]
              | Some _ =>
                  match s_split_loop f c l (S it) with
                  | None => None
                  | Some rest => Some (piece :: rest)
                  end
              end
          end
      end
  end.

(** [s_split] with its loops given as many steps as the string has characters. *)
Definition s_split_iter (str : string) (c : ascii) : option (list string) :=
  let l := String.list_ascii_of_string str in
  match l with
  | [] => Some []
  | _ => map String.string_of_list_ascii <$> s_split_loop (length l) c l 0
  end.

(** Pieces joined with the separator. *)
Fixpoint join (c : ascii) (parts : list (list ascii)) : list ascii :=
  match parts with
  | [] => []
  | [p] => p
  | p :: ps => p ++ c :: join c ps
  end.

(** ** [s_AddReadPairBatch] *)

(** [out[i].push_back(move(batch[i]))] for every [i]. *)
Fixpoint push_each (out : list (list string)) (batch : list string) : list (list string) :=
  match out, batch with
  | o :: out', b :: batch' => (o ++ [b]) :: push_each out' batch'
  | _, _ => out
  end.

Definition s_AddReadPairBatch (batch : list string) (out : list (list string))
  : result (list (list string)) :=
  match batch with
  | [] => Ok out
  | _ =>
      let out' := if bool_decide (out = []) then replicate (length batch) [] else out in
      if bool_decide (out <> [] /\ length batch <> length out) then
        Err (FThrow 10 "Invalid command line parameters, inconsistent number of read pairs")
      else Ok (push_each out' batch)
  end.

(** ** Lemmas *)

Lemma split_from_noc c cur p l :
  c ∉ p -> split_from c cur (p ++ l) = split_from c (rev p ++ cur) l.
Proof.
  revert cur. induction p as [|x p IH]; intros cur Hp; [done|].
  simpl. destruct (Ascii.eqb_spec x c) as [->|Hne]; [set_solver|].
  rewrite IH by set_solver. by rewrite <- app_assoc.
Qed.

Lemma join_nonempty c parts :
  parts <> [] -> last parts <> Some [] -> join c parts <> [].
Proof.
  induction parts as [|p [|p' ps] IH]; intros Hne Hl; [done| |].
  - simpl in *. intros ->. done.
  - simpl. destruct p; simpl; [|done]. done.
Qed.

(** Splitting pieces joined by a separator they do not contain gives
    them back, provided the last one is not empty. *)
Lemma split_from_join c parts :
  parts <> [] -> Forall (fun p => c ∉ p) parts -> last parts <> Some [] ->
  split_from c [] (join c parts) = parts.
Proof.
  induction parts as [|p ps IH]; intros Hne Hc Hl; [done|].
  inversion Hc as [|? ? Hp Hps]; subst.
  destruct ps as [|p' ps'].
  - simpl. rewrite <- (app_nil_r p) at 1. rewrite split_from_noc by done.
    simpl. by rewrite !app_nil_r, rev_involutive.
  - change (join c (p :: p' :: ps')) with (p ++ c :: join c (p' :: ps')).
    rewrite split_from_noc by done. cbn [split_from]. rewrite Ascii.eqb_refl, app_nil_r, rev_involutive.
    destruct (join c (p' :: ps')) eqn:E.
    + exfalso. by apply (join_nonempty c (p' :: ps')).
    + change (p :: split_from c [] (a :: l) = p :: p' :: ps'). rewrite IH; done.
Qed.

Lemma scan_sep_unfold f c l it :
  scan_sep f c l it =
  match l !! it with
  | None => Some it
  | Some x =>
      if Ascii.eqb x c then Some it
      else match f with 0 => None | S f => scan_sep f c l (S it) end
  end.
Proof. by destruct f. Qed.

(** The inner loop stops at the first separator ... *)
Lemma scan_sep_found f c l it p r :
  drop it l = p ++ c :: r -> c ∉ p -> length p <= f -> scan_sep f c l it = Some (it + length p).
Proof.
  revert f it. induction p as [|x p IH]; intros f it Hd Hp Hf.
  all: pose proof (lookup_drop l it 0) as Hl; rewrite Hd, Nat.add_0_r in Hl; cbn in Hl.
  - rewrite scan_sep_unfold, <-Hl. by rewrite Ascii.eqb_refl, Nat.add_0_r.
  - rewrite scan_sep_unfold, <-Hl.
    destruct (Ascii.eqb_spec x c) as [->|Hne]; [set_solver|].
    destruct f as [|f]; [cbn in Hf; lia|].
    rewrite (IH f (S it)); [f_equal; cbn; lia| |set_solver|cbn in Hf; lia].
    by rewrite <-Nat.add_1_r, <-drop_drop, Hd.
Qed.

(** ... or at the end of the string. *)
Lemma scan_sep_end f c l it :
  it <= length l -> c ∉ drop it l -> length (drop it l) <= f -> scan_sep f c l it = Some (length l).
Proof.
  revert f it. induction f as [|f IH]; intros it Hit Hc Hf; rewrite scan_sep_unfold.
  - rewrite length_drop in Hf. by rewrite lookup_ge_None_2 by lia; f_equal; lia.
  - destruct (l !! it) as [x|] eqn:Hx; [|apply lookup_ge_None_1 in Hx; f_equal; lia].
    assert (Hd : drop it l = x :: drop (S it) l) by (by apply drop_S).
    destruct (Ascii.eqb_spec x c) as [->|Hne]; [rewrite Hd in Hc; set_solver|].
    apply lookup_lt_Some in Hx. apply IH; [lia|rewrite Hd in Hc; set_solver|].
    rewrite length_drop in *. lia.
Qed.

Lemma s_split_loop_end n c l begin : l !! begin = None -> s_split_loop n c l begin = Some [].
Proof. intros H. destruct n; cbn; by rewrite H. Qed.

(** With enough iterations, the outer loop from [begin] gives the pieces
    of the rest of the string. *)
Lemma s_split_loop_spec c l n begin :
  length l - begin <= n -> begin < length l ->
  s_split_loop n c l begin = Some (split_from c [] (drop begin l)).
Proof.
  revert begin. induction n as [|n IH]; intros begin Hn Hb; [lia|].
  destruct (lookup_lt_is_Some_2 l begin Hb) as [x0 Hx0]. cbn [s_split_loop]. rewrite Hx0.
  destruct (decide (c ∈ drop begin l)) as [Hin|Hnin].
  - destruct (list_elem_of_split_l _ _ Hin) as (p & r & Hd & Hp).
    assert (Hlen : length (drop begin l) = length p + S (length r)) by (rewrite Hd, length_app; done).
    rewrite length_drop in Hlen.
    rewrite (scan_sep_found _ _ _ _ p r Hd Hp) by lia.
    replace (begin + length p - begin) with (length p) by lia.
    rewrite Hd, take_app_length.
    rewrite <-(lookup_drop l begin (length p)), Hd, lookup_app_r, Nat.sub_diag by lia. cbn.
    rewrite split_from_noc by done. cbn [split_from]. rewrite Ascii.eqb_refl, app_nil_r, rev_involutive.
    assert (Hr : drop (S (begin + length p)) l = r).
    { replace (S (begin + length p)) with (begin + S (length p)) by lia.
      rewrite <-drop_drop, Hd, <-Nat.add_1_r, <-drop_drop, drop_app_length. done. }
    destruct r as [|y r]; cbn in Hlen.
    + by rewrite s_split_loop_end by (apply lookup_ge_None_2; lia).
    + rewrite IH by lia. by rewrite Hr.
  - rewrite (scan_sep_end (length l) c l begin) by first [done | rewrite ?length_drop; lia].
    rewrite lookup_ge_None_2 by lia. rewrite take_ge by (rewrite length_drop; lia).
    rewrite <-(app_nil_r (drop begin l)) at 2. rewrite split_from_noc by done.
    cbn. by rewrite app_nil_r, rev_involutive.
Qed.

(** ** [--readTypes] and [xCheckInputFiles] *)

(** [read_types.find_first_not_of("TBA") != string::npos] throws 150. *)
Definition check_read_types (read_types : string) : result (list ascii) :=
  let l := String.list_ascii_of_string read_types in
  if forallb (fun ch => bool_decide (ch ∈ ["T"; "B"; "A"]%char)) l then Ok l
  else Err (FThrow 150 "Invalid --readTypes values").

(** The characters after the last [c] (all of them if there is none). *)
Fixpoint after_last (c : ascii) (l : list ascii) : list ascii :=
  match l with
  | [] => []
  | x :: l' =>
      if bool_decide (c ∈ l') then after_last c l'
      else if Ascii.eqb x c then l' else x :: l'
  end.

(** [std::filesystem::path(f).extension()]: from the last period of the
    file name on, unless the name is [.] or [..], has no period, or its
    only period is its first character. *)
Definition path_extension (f : string) : string :=
  let name := after_last "/" (String.list_ascii_of_string f) in
  if bool_decide (name = ["."]%char \/ name = ["."; "."]%char) then ""
  else if bool_decide ("."%char ∈ name) then
    let ext := after_last "." name in
    if bool_decide (length ext + 1 = length name) then ""
    else String.string_of_list_ascii ("."%char :: ext)
  else "".

Section CheckFiles.
(** [fs::exists], the file system the front end runs against. *)
Variable fs_exists : string -> bool.

(** One turn of the loop of [xCheckInputFiles]: the name as given, or
    with [.gz] or [.bz2] added, or with a [.gz]/[.bz2] extension removed,
    whichever exists first; otherwise error 40. *)
Definition check_file (f : string) : result string :=
  if bool_decide (f = "-") || fs_exists f then Ok f
  else
    let ext := path_extension f in
    if negb (bool_decide (ext = ".gz")) && negb (bool_decide (ext = ".bz2")) then
      if fs_exists (String.append f ".gz") then Ok (String.append f ".gz")
      else if fs_exists (String.append f ".bz2") then Ok (String.append f ".bz2")
      else Err (FThrow 40 "File does not exist")
    else
      let new_fn := String.substring 0 (String.length f - String.length ext) f in
      if fs_exists new_fn then Ok new_fn else Err (FThrow 40 "File does not exist").

Definition xCheckInputFiles (files : list string) : result (list string) :=
  mapR check_file files.

(** The names [check_file] may settle on. *)
Definition candidates (f : string) : list string :=
  [f; String.append f ".gz"; String.append f ".bz2";
   String.substring 0 (String.length f - String.length (path_extension f)) f].

Lemma check_file_sound f f' :
  check_file f = Ok f' -> (f' = "-" \/ fs_exists f' = true) /\ f' ∈ candidates f.
Proof.
  unfold check_file, candidates. intros H.
  destruct (bool_decide (f = "-")) eqn:Ed.
  { simpl in H. injection H as <-. apply bool_decide_eq_true in Ed. split; [by left | set_solver]. }
  destruct (fs_exists f) eqn:Ef; simpl in H.
  { injection H as <-. split; [by right | set_solver]. }
  repeat case_match; simplify_eq; split; (right; done) || set_solver.
Qed.
End CheckFiles.

(** ** The read-pair branch of [AppMain] *)

(** The body of [for (auto p : read_pairs)]: split, check, add. *)
Definition batch_step (fs_exists : string -> bool) (batches : list (list string)) (p : string)
  : result (list (list string)) :=
  b <- xCheckInputFiles fs_exists (s_split p ",") ;; s_AddReadPairBatch b batches.

(** [for (auto p : read_pairs) { s_split(p, b); xCheckInputFiles(b);
    s_AddReadPairBatch(b, mInputBatches); }], after the check that read
    types are given when not in digest mode. *)
Definition add_read_pairs (fs_exists : string -> bool) (digest : bool) (read_types : list ascii)
    (read_pairs : list string) : result (list (list string)) :=
  if negb digest && bool_decide (read_types = []) then Err (FThrow 20 "No readTypes provided")
  else foldR (batch_step fs_exists) read_pairs [].

(** ** The input batches of [AppMain] and the digest run *)

(** [stable_sort] with [operator<] on [std::string] (equal names are
    equal strings, so stability is not observable). *)
Fixpoint insert_name (x : string) (l : list string) : list string :=
  match l with
  | [] => [x]
  | y :: l' => if String.ltb x y then x :: l else y :: insert_name x l'
  end.

Definition stable_sort_names (l : list string) : list string := foldr insert_name [] l.

Section Inputs.
Variable fs_exists : string -> bool.
(** [fastq_reader::cluster_files] (not in the repository): the batches it
    makes of the sorted, checked names. *)
Variable cluster_files : list string -> list (list string).

(** The inputs of [AppMain] once the options are parsed: the read types,
    then the batches of the read-pair lists when [--read1PairFiles] is
    given, else of the file arguments, else of standard input ["-"]. *)
Definition AppMain_inputs (digest : bool) (read_types : string) (read_pairs : list string)
    (input_files : list string) : result (list ascii * list (list string)) :=
  rt <- check_read_types read_types ;;
  batches <- (if negb (String.eqb (nth 0 read_pairs ""%string) "") then
                add_read_pairs fs_exists digest rt read_pairs
              else if bool_decide (input_files = []) then Ok [["-"%string]]
              else
                files <- xCheckInputFiles fs_exists (stable_sort_names input_files) ;;
                Ok (cluster_files files)) ;;
  Ok (rt, batches).
End Inputs.

(** [isprint] in the C locale: the characters 0x20 to 0x7E. *)
Definition isprint_c (c : ascii) : bool :=
  (32 <=? Ascii.nat_of_ascii c) && (Ascii.nat_of_ascii c <=? 126).

(** [error.erase(remove_if(..., [](char c) { return !isprint(c); }), ...)]:
    [isprint] of a negative [char] (a byte from 0x80 where [char] is
    signed) is undefined. *)
Definition sanitize_error (error : string) : result string :=
  let l := String.list_ascii_of_string error in
  if existsb (fun c => 128 <=? Ascii.nat_of_ascii c) l then Err (FUndefined "isprint(c), c < 0")
  else Ok (String.string_of_list_ascii (filter (fun c => isprint_c c = true) l)).

(** [xRunDigest()] around [get_digest]: 1 without batches; otherwise 0,
    with the message of the exception [get_digest] threw, if any and not
    empty, cleaned and stored as the ["error"] field. *)
Definition xRunDigest (batches : list (list string)) (digest_error : option string)
  : result (Z * option string) :=
  if bool_decide (batches = []) then Ok (1%Z, None)
  else
    match digest_error with
    | Some e =>
        if String.eqb e "" then Ok (0%Z, None)
        else e' <- sanitize_error e ;; Ok (0%Z, Some e')
    | None => Ok (0%Z, None)
    end.

(** The [i]-th batch holds the [i]-th file of every non-empty list. *)
Definition columns (n : nat) (bs : list (list string)) : list (list string) :=
  map (fun i => map (fun b => nth i b ""%string) bs) (seq 0 n).

Lemma push_each_map (f : nat -> list string) k b :
  push_each (map f (seq k (length b))) b =
  map (fun i => f i ++ [nth (i - k) b ""%string]) (seq k (length b)).
Proof.
  revert k. induction b as [|x b IH]; intros k; [done|].
  simpl. rewrite Nat.sub_diag. f_equal. rewrite IH.
  apply map_ext_in. intros i Hi%in_seq. by replace (i - k) with (S (i - S k)) by lia.
Qed.

Lemma push_each_columns n bs b :
  length b = n -> push_each (columns n bs) b = columns n (bs ++ [b]).
Proof.
  intros <-. unfold columns. rewrite push_each_map.
  apply map_ext. intros i. by rewrite map_app, Nat.sub_0_r.
Qed.

Lemma length_columns n bs : length (columns n bs) = n.
Proof. unfold columns. by rewrite length_map, length_seq. Qed.

Lemma columns_nil n : columns n [] = replicate n [].
Proof.
  unfold columns. induction n as [|n IH]; [done|].
  rewrite seq_S, map_app, IH, replicate_S_end. reflexivity.
Qed.

(** One non-empty list of [n] files joins the batches. *)
Lemma add_batch_columns n done b :
  0 < n -> length b = n -> b <> [] ->
  s_AddReadPairBatch b (columns n done) = Ok (columns n (done ++ [b])).
Proof.
  intros Hn Hb Hne. unfold s_AddReadPairBatch. destruct b as [|x b']; [done|].
  rewrite <- Hb, (bool_decide_eq_false_2 (columns _ _ = [])).
  - rewrite bool_decide_eq_false_2 by (rewrite length_columns; lia).
    by rewrite push_each_columns.
  - intros E. apply (f_equal length) in E. rewrite length_columns in E. simpl in E. lia.
Qed.

(** The first non-empty list opens one batch per file. *)
Lemma add_first_batch b :
  b <> [] -> s_AddReadPairBatch b [] = Ok (columns (length b) [b]).
Proof.
  intros Hne. transitivity (s_AddReadPairBatch b (columns (length b) [])).
  - rewrite columns_nil. unfold s_AddReadPairBatch.
    destruct b as [|x b]; [done|].
    repeat case_bool_decide; simpl in *; rewrite ?length_replicate in *; naive_solver.
  - apply (add_batch_columns (length b) [] b); [destruct b; simpl; [done | lia] | done | done].
Qed.

Section Batches.
Variable fs_exists : string -> bool.

Hypothesis Hall : forall f, fs_exists f = true.

Lemma xCheckInputFiles_all files : xCheckInputFiles fs_exists files = Ok files.
Proof.
  unfold xCheckInputFiles. rewrite <- (map_id files) at 2. apply mapR_ext_Ok.
  intros f _. unfold check_file. by rewrite Hall, Bool.orb_true_r.
Qed.

Lemma batch_fold n pairs prev :
  0 < n -> Forall (fun p => s_split p "," = [] \/ length (s_split p ",") = n) pairs ->
  prev <> [] ->
  foldR (batch_step fs_exists) pairs (columns n prev) =
  Ok (columns n (prev ++ filter (fun b => b <> []) (map (fun p => s_split p ",") pairs))).
Proof.
  revert prev. induction pairs as [|p ps IH]; intros prev Hn Hps Hd; simpl.
  { by rewrite app_nil_r. }
  inversion Hps as [|? ? Hp Hps']; subst.
  unfold batch_step at 1. rewrite xCheckInputFiles_all, bind_Ok.
  destruct Hp as [E|E].
  - rewrite E. cbn [s_AddReadPairBatch bind]. rewrite IH by done.
    rewrite filter_cons_False; [done|]. intros Hc. by apply Hc.
  - assert (Hne : s_split p "," <> []) by (intros E'; rewrite E' in E; simpl in E; lia).
    rewrite add_batch_columns by done. cbn [bind].
    rewrite IH by (done || by destruct prev). rewrite filter_cons_True by done.
    by rewrite <- app_assoc.
Qed.

Lemma batch_fold_nil n pairs :
  0 < n -> Forall (fun p => s_split p "," = [] \/ length (s_split p ",") = n) pairs ->
  Exists (fun p => s_split p "," <> []) pairs ->
  foldR (batch_step fs_exists) pairs [] =
  Ok (columns n (filter (fun b => b <> []) (map (fun p => s_split p ",") pairs))).
Proof.
  induction pairs as [|p ps IH]; intros Hn Hps Hex; [by inversion Hex|].
  inversion Hps as [|? ? Hp Hps']; subst. simpl.
  unfold batch_step at 1. rewrite xCheckInputFiles_all, bind_Ok.
  destruct (decide (s_split p "," = [])) as [E|Hne].
  - rewrite E. cbn [s_AddReadPairBatch bind]. rewrite IH; [..|done|done|].
    + rewrite filter_cons_False; [done|]. intros Hc. by apply Hc.
    + inversion Hex; [done|]. done.
  - destruct Hp as [|Hl]; [done|].
    assert (Hs : s_AddReadPairBatch (s_split p ",") [] = Ok (columns n [s_split p ","]))
      by (rewrite <- Hl; by apply add_first_batch).
    rewrite Hs. cbn [bind]. rewrite batch_fold by done.
    by rewrite filter_cons_True.
Qed.
End Batches.

(** ** Theorems *)

(** C28. [s_split] inverts joining with the separator: pieces that do not
    contain it, the last one not empty, come back as they were. *)
Theorem s_split_join (c : ascii) (parts : list string) :
  parts <> [] -> Forall (fun p => c ∉ String.list_ascii_of_string p) parts ->
  last parts <> Some ""%string ->
  s_split (String.string_of_list_ascii (join c (map String.list_ascii_of_string parts))) c = parts.
Proof.
  intros Hne Hc Hl. unfold s_split. rewrite String.list_ascii_of_string_of_list_ascii.
  assert (Hm : map String.list_ascii_of_string parts <> []) by (by destruct parts).
  assert (Hlast : last (String.list_ascii_of_string <$> parts) <> Some []).
  { rewrite fmap_last. destruct (last parts) as [p|]; simpl; [|done].
    intros [= Hp]. apply Hl. f_equal. by destruct p. }
  destruct (join c _) eqn:E; [by apply join_nonempty in E|].
  rewrite <- E, split_from_join by (done || by apply Forall_map).
  rewrite map_map. rewrite <- (map_id parts) at 2. apply map_ext.
  apply String.string_of_list_ascii_of_string.
Qed.

Lemma s_split_join_witness :
  s_split (String.string_of_list_ascii (join "," (map String.list_ascii_of_string
    ["a_1.fq"; "b_1.fq"]))) "," = ["a_1.fq"; "b_1.fq"]%string.
Proof.
  apply s_split_join; [discriminate | vm_compute; repeat constructor; set_solver | discriminate].
Defined.

(** C15. The two loops of [s_split] on the string's iterators always
    finish: given as many steps as the string has characters, the inner
    scan and the outer loop (which moves [begin] past each separator)
    end, with the pieces [s_split] describes. *)
Theorem s_split_terminates (str : string) (c : ascii) :
  s_split_iter str c = Some (s_split str c).
Proof.
  unfold s_split_iter, s_split. destruct (String.list_ascii_of_string str) as [|x l] eqn:E; [done|].
  rewrite s_split_loop_spec by (cbn; lia). done.
Qed.

(** A separator that ends the list is dropped with the empty piece
    after it, while an empty piece between two separators is kept. *)
Example s_split_edges :
  s_split "a_1.fq,b_1.fq," "," = ["a_1.fq"; "b_1.fq"]%string /\
  s_split "a_1.fq,,b_1.fq" "," = ["a_1.fq"; ""; "b_1.fq"]%string /\
  s_split "" "," = [].
Proof. split_and!; reflexivity. Qed.

(** C27. With every file present and read types given (or digest mode),
    read-pair lists of [n] files each make [n] batches, the [i]-th holding
    the [i]-th file of each non-empty list in read order. *)
Theorem add_read_pairs_columns (fs_exists : string -> bool) digest read_types pairs n :
  digest = true \/ read_types <> [] -> (forall f, fs_exists f = true) -> 0 < n ->
  Forall (fun p => s_split p "," = [] \/ length (s_split p ",") = n) pairs ->
  Exists (fun p => s_split p "," <> []) pairs ->
  add_read_pairs fs_exists digest read_types pairs =
  Ok (columns n (filter (fun b => b <> []) (map (fun p => s_split p ",") pairs))).
Proof.
  intros Hd Hall Hn Hps Hex. unfold add_read_pairs.
  replace (negb digest && bool_decide (read_types = [])) with false
    by (destruct Hd as [-> | Ht]; [done | by rewrite bool_decide_eq_false_2, Bool.andb_false_r]).
  by apply batch_fold_nil.
Qed.

Lemma add_read_pairs_columns_witness :
  add_read_pairs (fun _ => true) false ["B"; "B"]%char ["a_1.fq,b_1.fq"; "a_2.fq,b_2.fq"; ""; ""] =
  Ok [["a_1.fq"; "a_2.fq"]; ["b_1.fq"; "b_2.fq"]]%string.
Proof.
  apply (add_read_pairs_columns (fun _ => true) false ["B"; "B"]%char
           ["a_1.fq,b_1.fq"; "a_2.fq,b_2.fq"; ""; ""] 2);
    [right; discriminate | reflexivity | lia |
     repeat (constructor; [vm_compute; auto|]); constructor |
     constructor; vm_compute; discriminate].
Defined.

(** Read-pair lists of different lengths are refused with error 10,
    whatever follows them. *)
Theorem add_read_pairs_mismatch (fs_exists : string -> bool) digest read_types p1 p2 rest :
  digest = true \/ read_types <> [] -> (forall f, fs_exists f = true) ->
  s_split p1 "," <> [] -> s_split p2 "," <> [] ->
  length (s_split p1 ",") <> length (s_split p2 ",") ->
  add_read_pairs fs_exists digest read_types (p1 :: p2 :: rest) =
  Err (FThrow 10 "Invalid command line parameters, inconsistent number of read pairs").
Proof.
  intros Hd Hall H1 H2 Hl. unfold add_read_pairs.
  replace (negb digest && bool_decide (read_types = [])) with false
    by (destruct Hd as [-> | Ht]; [done | by rewrite bool_decide_eq_false_2, Bool.andb_false_r]).
  assert (Hfirst : batch_step fs_exists [] p1 = Ok (columns (length (s_split p1 ",")) [s_split p1 ","])).
  { unfold batch_step. rewrite xCheckInputFiles_all by done. by apply add_first_batch. }
  simpl. rewrite Hfirst. cbn [bind]. unfold batch_step at 1.
  rewrite xCheckInputFiles_all by done. cbn [bind]. unfold s_AddReadPairBatch.
  destruct (s_split p2 ",") as [|x b] eqn:E2; [done|].
  assert (Hc : columns (length (s_split p1 ",")) [s_split p1 ","] <> []).
  { intros Hc. apply (f_equal length) in Hc. rewrite length_columns in Hc.
    destruct (s_split p1 ","); [done | simpl in Hc; lia]. }
  rewrite (bool_decide_eq_false_2 (columns _ _ = [])) by done.
  rewrite bool_decide_eq_true_2 by (split; [done | rewrite length_columns; intros ?; apply Hl; lia]).
  reflexivity.
Qed.

Lemma add_read_pairs_mismatch_witness :
  add_read_pairs (fun _ => true) false ["B"; "B"]%char ["a_1.fq,b_1.fq"; "a_2.fq"; ""; ""] =
  Err (FThrow 10 "Invalid command line parameters, inconsistent number of read pairs").
Proof.
  apply (add_read_pairs_mismatch (fun _ => true) false ["B"; "B"]%char "a_1.fq,b_1.fq" "a_2.fq");
    [right; discriminate | reflexivity | vm_compute; discriminate | vm_compute; discriminate |
     vm_compute; discriminate].
Defined.

(** C29. Every name [xCheckInputFiles] settles on is ["-"] or exists, and
    is the given name, the name with [.gz] or [.bz2] added, or the name
    with its compression extension removed. *)
Theorem xCheckInputFiles_sound (fs_exists : string -> bool) files files' :
  xCheckInputFiles fs_exists files = Ok files' ->
  Forall2 (fun f f' => (f' = "-"%string \/ fs_exists f' = true) /\ f' ∈ candidates f)
    files files'.
Proof.
  intros H. apply mapR_Forall2 in H. eapply Forall2_impl; [exact H|].
  intros f f'. apply check_file_sound.
Qed.

(** A file system holding [a_1.fq.gz] and [b_1.fq]. *)
Definition two_files (s : string) : bool := bool_decide (s ∈ ["a_1.fq.gz"; "b_1.fq"]%string).

Lemma xCheckInputFiles_sound_witness :
  Forall2 (fun f f' => (f' = "-"%string \/ two_files f' = true) /\ f' ∈ candidates f)
    ["a_1.fq"; "b_1.fq.gz"]%string ["a_1.fq.gz"; "b_1.fq"]%string.
Proof. apply (xCheckInputFiles_sound two_files). vm_compute. reflexivity. Defined.

(** A name that is not ["-"] and none of whose candidates exists is
    refused with error 40. *)
Theorem check_file_missing (fs_exists : string -> bool) f :
  f <> "-"%string -> Forall (fun g => fs_exists g = false) (candidates f) ->
  check_file fs_exists f = Err (FThrow 40 "File does not exist").
Proof.
  intros Hd Hc. unfold candidates in Hc.
  apply Forall_cons in Hc as [E0 Hc]. apply Forall_cons in Hc as [E1 Hc].
  apply Forall_cons in Hc as [E2 Hc]. apply Forall_cons in Hc as [E3 _].
  unfold check_file. rewrite bool_decide_eq_false_2 by done. rewrite E0. simpl.
  destruct (negb _ && negb _); [by rewrite E1, E2 | by rewrite E3].
Qed.

Lemma check_file_missing_witness :
  check_file (fun _ => false) "reads.fastq" = Err (FThrow 40 "File does not exist").
Proof. apply check_file_missing; [discriminate | repeat constructor]. Defined.

(** Without read-pair lists or file arguments the loader reads standard
    input, as one batch of one file ["-"]. *)
Lemma AppMain_inputs_stdin fs_exists cluster_files digest read_types read_pairs rt :
  check_read_types read_types = Ok rt -> nth 0 read_pairs ""%string = ""%string ->
  AppMain_inputs fs_exists cluster_files digest read_types read_pairs [] = Ok (rt, [["-"%string]]).
Proof. intros Hrt Hp. unfold AppMain_inputs. by rewrite Hrt, bind_Ok, Hp. Qed.

(** The ["error"] field of the digest holds printable characters only:
    for an ASCII message it is the message without its control
    characters; a byte from 0x80 makes the cleaning undefined. *)
Lemma sanitize_error_spec e :
  (Forall (fun c => Ascii.nat_of_ascii c < 128) (String.list_ascii_of_string e) ->
   exists e', sanitize_error e = Ok e' /\
     Forall (fun c => isprint_c c = true) (String.list_ascii_of_string e') /\
     String.list_ascii_of_string e' =
       filter (fun c => isprint_c c = true) (String.list_ascii_of_string e)) /\
  (Exists (fun c => 128 <= Ascii.nat_of_ascii c) (String.list_ascii_of_string e) ->
   sanitize_error e = Err (FUndefined "isprint(c), c < 0")).
Proof.
  unfold sanitize_error. split.
  - intros Ha. destruct (existsb _ _) eqn:E.
    + apply existsb_exists in E as (c & Hc & Hge). apply Nat.leb_le in Hge.
      apply list_elem_of_In in Hc. pose proof (proj1 (Forall_forall _ _) Ha c Hc) as Hlt. cbn beta in Hlt. lia.
    + eexists. split; [reflexivity|]. rewrite String.list_ascii_of_string_of_list_ascii.
      split; [apply Forall_forall; intros c Hc%list_elem_of_filter; naive_solver | done].
  - intros Hx. destruct (existsb _ _) eqn:E; [done|].
    apply Exists_exists in Hx as (c & Hc & Hge).
    assert (Ht : existsb (fun c => 128 <=? Ascii.nat_of_ascii c) (String.list_ascii_of_string e) = true).
    { apply existsb_exists. exists c. split; [by apply list_elem_of_In | by apply Nat.leb_le]. }
    congruence.
Qed.

