(* ===== verification/Digest.v ===== *)
(** * Digest: [CFastqParseApp::xProcessDigest]

    [src/tools/sharq/fastq_parse.cpp], lines 285-374.  The digest of the
    input files (a JSON document built by [get_digest], not under src/)
    is modelled by the keys the function reads and writes: per group its
    [files] and [total_reads], per file its [platform_code], [is_10x],
    [max_reads], [orphans], [readNums], [quality_encoding] and the
    [readType] array it fills.  The function checks that all files agree
    on platform and 10x-ness, overrides the quality encoding, sorts the
    files of a group of single-read files by read number, derives the
    default read types, hands every file its slice of read types, and
    sets the writer's quality expression and platform.  [first] is a
    reference into the document: it sees the override and, after the
    sort, the file the sort put first.  [std::sort] does not fix the order
    of files with equal keys; the model uses a stable insertion sort. *)

From S2P Require Import Prelude.
From stdpp Require Import pretty.

Record digest_file := mk_digest_file {
  platform_code : Z;
  is_10x : bool;
  max_reads : nat;
  orphans : bool;
  readNums : list string;
  quality_encoding : Z;
  readType : list ascii
}.

Record digest_group := mk_digest_group {
  files : list digest_file;
  total_reads : nat
}.

(** The sort key: the first read number, or [""]. *)
Definition readnum_key (f : digest_file) : string :=
  match readNums f with [] => "" | n :: _ => n end.

Fixpoint insert_file (f : digest_file) (l : list digest_file) : list digest_file :=
  match l with
  | [] => [f]
  | g :: l' => if String.ltb (readnum_key g) (readnum_key f) then g :: insert_file f l'
               else f :: g :: l'
  end.

(** [sort(files.begin(), files.end(), v1 < v2)]. *)
Definition sort_files (l : list digest_file) : list digest_file := foldr insert_file [] l.

Section Process.
(** [mQuality] and the [mReadTypes] given on the command line. *)
Variable mQuality : Z.

(** The checks of one file of a group, with the quality override;
    the accumulator is [(max_reads, group_reads, files)]. *)
Definition check_digest_file (read_types : list ascii) (platform : Z) (is10x : bool)
    (acc : nat * nat * list digest_file) (f : digest_file)
  : result (nat * nat * list digest_file) :=
  let '(mx, group_reads, done) := acc in
  let f := if bool_decide (mQuality <> -1)%Z then {| f with quality_encoding := mQuality |}
           else f in
  if bool_decide (platform <> platform_code f) then
    Err (FThrow 70 "Input files have deflines from different platforms")
  else if negb (Bool.eqb is10x (is_10x f)) then Err (FThrow 80 "Inconsistent submission")
  else
    let mx := Nat.max mx (max_reads f) in
    let group_reads := group_reads + max_reads f in
    if bool_decide (read_types <> [] /\ 1 < mx /\ orphans f = true /\ readNums f = []) then
      Err (FThrow 190 "Usupported interleaved file with orphans")
    else Ok (mx, group_reads, done ++ [f]).

(** The body of the first loop over the groups; the accumulator is the
    running [total_reads] and the groups done. *)
Definition check_digest_group (read_types : list ascii) (platform : Z) (is10x : bool)
    (acc : nat * list digest_group) (gr : digest_group) : result (nat * list digest_group) :=
  let '(total, done) := acc in
  res <- foldR (check_digest_file read_types platform is10x) (files gr) (0, 0, []) ;;
  let '(mx, group_reads, fs) := res in
  let fs := if negb is10x && bool_decide (mx = 1) then sort_files fs else fs in
  if bool_decide (read_types <> [] /\ length read_types <> group_reads) then
    Err (FThrow 30 "readTypes number should match the number of reads")
  else
    let total := Nat.max group_reads total in
    Ok (total, done ++ [{| files := fs; total_reads := total |}]).

(** The innermost loop for one file: [f["readType"].push_back(mReadTypes[j])]
    [max_reads] times, [j] counting on; the accumulator is [(j, files)]. *)
Definition assign_file (types : list ascii) (acc : nat * list digest_file) (f : digest_file)
  : result (nat * list digest_file) :=
  let '(j, done) := acc in
  ts <- mapR (fun k => vat types k "mReadTypes[j]") (seq j (max_reads f)) ;;
  Ok (j + max_reads f, done ++ [{| f with readType := readType f ++ ts |}]).

(** The body of the second loop over the groups. *)
Definition assign_group (types : list ascii) (done : list digest_group) (gr : digest_group)
  : result (list digest_group) :=
  if bool_decide (length types < total_reads gr) then
    Err (FThrow 30 "readTypes number should match the number of reads")
  else
    res <- foldR (assign_file types) (files gr) (0, []) ;;
    Ok (done ++ [{| files := res.2; total_reads := total_reads gr |}]).

(** [switch ((int)first["quality_encoding"])]. *)
Definition quality_expression (q : Z) : result string :=
  match q with
  | 0%Z => Ok "(INSDC:quality:phred)QUALITY"
  | 33%Z => Ok "(INSDC:quality:text:phred_33)QUALITY"
  | 64%Z => Ok "(INSDC:quality:text:phred_64)QUALITY"
  | _ => Err (FThrow 0 "Invaid quality encoding")
  end.

(** [data["groups"].front()["files"].front()]. *)
Definition first_file (groups : list digest_group) : result digest_file :=
  match groups with
  | gr :: _ => match files gr with f :: _ => Ok f | [] => Err (FUndefined "front()") end
  | [] => Err (FUndefined "front()")
  end.

(** What [xProcessDigest] leaves: [mReadTypes], the document's groups,
    and the writer attributes it sets, in order. *)
Record digest_out := mk_digest_out {
  out_read_types : list ascii;
  out_groups : list digest_group;
  out_attrs : list (string * string)
}.

Definition xProcessDigest (read_types : list ascii) (groups : list digest_group)
  : result digest_out :=
  first <- first_file groups ;;
  let platform := platform_code first in
  let is10x := is_10x first in
  res <- foldR (check_digest_group read_types platform is10x) groups (0, []) ;;
  let '(total, groups1) := res in
  types <- (if bool_decide (read_types = []) then
              if is10x then Ok (replicate total "A"%char)
              else if bool_decide (total < 3) then Ok (replicate total "B"%char)
              else Err (FThrow 20 "No readTypes provided")
            else Ok read_types) ;;
  groups2 <- foldR (assign_group types) groups1 [] ;;
  first2 <- first_file groups2 ;;
  qexpr <- quality_expression (quality_encoding first2) ;;
  Ok {| out_read_types := types; out_groups := groups2;
        out_attrs := [("quality_expression", qexpr); ("platform", pretty (platform_code first2))] |}.
End Process.

(** ** Lemmas *)

Lemma insert_file_perm f l : insert_file f l ≡ₚ f :: l.
Proof.
  induction l as [|g l IH]; simpl; [done|].
  case_match; [|done]. rewrite IH. apply perm_swap.
Qed.

Lemma sort_files_perm l : sort_files l ≡ₚ l.
Proof.
  induction l as [|f l IH]; simpl; [done|]. unfold sort_files in IH.
  by rewrite insert_file_perm, IH.
Qed.

(** The read types the loop reads are the slice [j .. j + n - 1]. *)
Lemma mapR_vat_seq (types : list ascii) j n ts what :
  mapR (fun k => vat types k what) (seq j n) = Ok ts ->
  ts = take n (drop j types) /\ length ts = n.
Proof.
  revert j ts. induction n as [|n IH]; intros j ts H; simpl in H.
  { by injection H as <-. }
  unfold vat at 1 in H. destruct (types !! j) as [t|] eqn:Ej; simpl in H; [|discriminate].
  inv_bind H. injection H as <-. destruct (IH (S j) a Ha) as [-> Hl].
  split; [|simpl; lia]. by rewrite (drop_S types t j).
Qed.

Section Invariant.
Variable mQuality : Z.

(** A property of files that the quality override keeps. *)
Variable P : digest_file -> Prop.
Hypothesis HP : forall f q, P f -> P {| f with quality_encoding := q |}.

Lemma check_files_keep read_types platform is10x fs acc acc' :
  foldR (check_digest_file mQuality read_types platform is10x) fs acc = Ok acc' ->
  Forall P acc.2 -> Forall P fs -> Forall P acc'.2.
Proof.
  revert acc. induction fs as [|f fs IH]; intros [[mx g] done] H Hd Hfs; simpl in H.
  { by injection H as <-. }
  inversion Hfs as [|? ? Hf Hfs']; subst. inv_bind H.
  unfold check_digest_file in Ha.
  repeat (case_match; simplify_eq); apply (IH _ H); simpl; try done;
    apply Forall_app; (split; [done | constructor; [|done]]); by try apply HP.
Qed.

Lemma check_groups_keep read_types platform is10x gs acc acc' :
  foldR (check_digest_group mQuality read_types platform is10x) gs acc = Ok acc' ->
  Forall (fun g => Forall P (files g)) acc.2 -> Forall (fun g => Forall P (files g)) gs ->
  Forall (fun g => Forall P (files g)) acc'.2.
Proof.
  revert acc. induction gs as [|g gs IH]; intros [t done] H Hd Hgs; simpl in H.
  { by injection H as <-. }
  inversion Hgs as [|? ? Hg Hgs']; subst. inv_bind H.
  unfold check_digest_group in Ha. inv_bind Ha. destruct a0 as [[mx gr] fs].
  pose proof (check_files_keep _ _ _ _ _ _ Ha0 (Forall_nil_2 _) Hg) as Hfs. simpl in Hfs.
  case_bool_decide; [done|]. injection Ha as <-. apply (IH _ H); [|done]. simpl.
  apply Forall_app. split; [done|]. constructor; [|done]. simpl.
  case_match; [|done]. by rewrite sort_files_perm.
Qed.
End Invariant.

(** The second loop over the files of a group hands out consecutive
    slices of the read types, one of [max_reads] per file. *)
Lemma assign_files_spec types fs j prev j' done' :
  foldR (assign_file types) fs (j, prev) = Ok (j', done') ->
  Forall (fun f => readType f = []) fs ->
  exists nw, done' = prev ++ nw /\ j' = j + sum_list (map max_reads fs) /\
    concat (map readType nw) = take (sum_list (map max_reads fs)) (drop j types) /\
    map max_reads nw = map max_reads fs /\
    Forall (fun f => length (readType f) = max_reads f) nw.
Proof.
  revert j prev. induction fs as [|f fs IH]; intros j prev H Hfs; simpl in H.
  { injection H as <- <-. exists []. rewrite app_nil_r. simpl. split_and!; auto with lia. }
  inversion Hfs as [|? ? Hf Hfs']; subst. inv_bind H. unfold assign_file in Ha.
  inv_bind Ha. injection Ha as <-. apply mapR_vat_seq in Ha0 as [-> Hlen].
  destruct (IH _ _ H Hfs') as (nw & -> & -> & Hc & Hm & Hl).
  eexists (_ :: nw). rewrite <- app_assoc. split; [reflexivity|]. simpl.
  rewrite Hf. simpl. split_and!; [lia | | by rewrite Hm | constructor; [simpl; lia | done]].
  rewrite Hc, <- drop_drop. apply take_take_drop.
Qed.

Lemma assign_groups_spec types gs prev gs' :
  foldR (assign_group types) gs prev = Ok gs' ->
  Forall (fun g => Forall (fun f => readType f = []) (files g)) gs ->
  exists nw, gs' = prev ++ nw /\
    Forall (fun g => concat (map readType (files g)) =
                     take (sum_list (map max_reads (files g))) types /\
                     Forall (fun f => length (readType f) = max_reads f) (files g)) nw.
Proof.
  revert prev. induction gs as [|g gs IH]; intros prev H Hgs; simpl in H.
  { injection H as <-. exists []. by rewrite app_nil_r. }
  inversion Hgs as [|? ? Hg Hgs']; subst. inv_bind H. unfold assign_group in Ha.
  case_bool_decide; [done|]. inv_bind Ha. injection Ha as <-. destruct a0 as [j fs'].
  destruct (assign_files_spec _ _ _ _ _ _ Ha0 Hg) as (nw1 & -> & _ & Hc & Hm & Hl).
  destruct (IH _ H Hgs') as (nw & -> & Hnw).
  eexists (_ :: nw). rewrite <- app_assoc. split; [reflexivity|].
  constructor; [|done]. simpl. rewrite Hm. split; [by rewrite Hc | done].
Qed.

(** ** Theorems *)

(** C26. When [xProcessDigest] succeeds on files with no read types yet,
    each file receives [max_reads] read types and, group by group, the
    files' read types are the first read types of [mReadTypes], in file
    order. *)
Theorem xProcessDigest_read_types mQuality read_types groups out :
  Forall (fun g => Forall (fun f => readType f = []) (files g)) groups ->
  xProcessDigest mQuality read_types groups = Ok out ->
  Forall (fun g => concat (map readType (files g)) =
                   take (sum_list (map max_reads (files g))) (out_read_types out) /\
                   Forall (fun f => length (readType f) = max_reads f) (files g))
    (out_groups out).
Proof.
  intros Hin H. unfold xProcessDigest in H.
  inv_bind H. inv_bind H. destruct a0 as [total groups1]. inv_bind H. inv_bind H.
  inv_bind H. inv_bind H. injection H as <-. simpl.
  pose proof (check_groups_keep mQuality (fun f => readType f = []) (fun f q Hf => Hf)
                _ _ _ _ _ _ Ha0 (Forall_nil_2 _) Hin) as Hg1.
  destruct (assign_groups_spec _ _ _ _ Ha2 Hg1) as (nw & -> & Hnw). exact Hnw.
Qed.

(** Without [--readTypes], the read types default to [A] for every
    read of a 10x submission and to [B] otherwise, where only one or two
    reads are accepted. *)
Theorem xProcessDigest_default_types mQuality groups out :
  xProcessDigest mQuality [] groups = Ok out ->
  exists f, first_file groups = Ok f /\
    out_read_types out = replicate (length (out_read_types out))
                           (if is_10x f then "A"%char else "B"%char) /\
    (is_10x f = false -> length (out_read_types out) < 3).
Proof.
  intros H. unfold xProcessDigest in H.
  inv_bind H. inv_bind H. destruct a0 as [total groups1]. inv_bind H.
  exists a. split; [done|]. rewrite bool_decide_eq_true_2 in Ha1 by done.
  inv_bind H. inv_bind H. inv_bind H. injection H as <-. simpl.
  destruct (is_10x a).
  - injection Ha1 as <-. by rewrite length_replicate.
  - case_bool_decide; [|done]. injection Ha1 as <-. rewrite length_replicate. done.
Qed.

Lemma check_file_platform mQuality read_types platform is10x acc f :
  platform <> platform_code f ->
  check_digest_file mQuality read_types platform is10x acc f =
  Err (FThrow 70 "Input files have deflines from different platforms").
Proof.
  intros Hp. destruct acc as [[mx g] prev]. unfold check_digest_file.
  destruct (bool_decide (mQuality <> -1)%Z); cbv beta iota zeta;
    rewrite bool_decide_eq_true_2 by (simpl; done); reflexivity.
Qed.

Lemma check_file_first mQuality f :
  exists acc, check_digest_file mQuality [] (platform_code f) (is_10x f) (0, 0, []) f = Ok acc.
Proof.
  unfold check_digest_file.
  destruct (bool_decide (mQuality <> -1)%Z); cbv beta iota zeta;
    rewrite bool_decide_eq_false_2 by (intros Hc; by apply Hc);
    rewrite eqb_reflx; cbv beta iota zeta;
    rewrite bool_decide_eq_false_2 by (intros [Hc _]; by apply Hc); eauto.
Qed.

(** A file whose platform differs from the first file's is refused
    with error 70 (here the second file of the first group, with no
    read types given). *)
Theorem xProcessDigest_platform_mismatch mQuality g gs f1 f2 fs :
  files g = f1 :: f2 :: fs -> platform_code f2 <> platform_code f1 ->
  xProcessDigest mQuality [] (g :: gs) =
  Err (FThrow 70 "Input files have deflines from different platforms").
Proof.
  intros Hg Hp. destruct (check_file_first mQuality f1) as [acc Hacc].
  unfold xProcessDigest, first_file. rewrite Hg. cbn [bind foldR].
  unfold check_digest_group at 1. rewrite Hg. cbn [foldR].
  rewrite Hacc. cbn [bind foldR]. rewrite check_file_platform by congruence. reflexivity.
Qed.

(** ** Concrete runs *)

(** Two single-read files of one run: read 2 encoded phred+33, read 1
    encoded phred+64, listed in that order. *)
Definition file_r2 : digest_file :=
  {| platform_code := 2; is_10x := false; max_reads := 1; orphans := false;
     readNums := ["2"%string]; quality_encoding := 33; readType := [] |}.

Definition file_r1 : digest_file :=
  {| platform_code := 2; is_10x := false; max_reads := 1; orphans := false;
     readNums := ["1"%string]; quality_encoding := 64; readType := [] |}.

Definition pair_group : digest_group := {| files := [file_r2; file_r1]; total_reads := 0 |}.

(** A file of another platform. *)
Definition file_other : digest_file := {| file_r1 with platform_code := 5 |}.

Definition empty_out : digest_out := {| out_read_types := []; out_groups := []; out_attrs := [] |}.

Lemma xProcessDigest_read_types_witness :
  Forall (fun g => concat (map readType (files g)) =
                   take (sum_list (map max_reads (files g)))
                     (out_read_types (ok_or empty_out (xProcessDigest (-1) [] [pair_group]))) /\
                   Forall (fun f => length (readType f) = max_reads f) (files g))
    (out_groups (ok_or empty_out (xProcessDigest (-1) [] [pair_group]))).
Proof.
  apply (xProcessDigest_read_types (-1) [] [pair_group]);
    [repeat constructor | vm_compute; reflexivity].
Defined.

Lemma xProcessDigest_default_types_witness :
  exists f, first_file [pair_group] = Ok f /\
    out_read_types (ok_or empty_out (xProcessDigest (-1) [] [pair_group])) =
      replicate (length (out_read_types (ok_or empty_out (xProcessDigest (-1) [] [pair_group]))))
        (if is_10x f then "A"%char else "B"%char) /\
    (is_10x f = false ->
     length (out_read_types (ok_or empty_out (xProcessDigest (-1) [] [pair_group]))) < 3).
Proof. apply (xProcessDigest_default_types (-1) [pair_group]). vm_compute. reflexivity. Defined.

Lemma xProcessDigest_platform_mismatch_witness :
  xProcessDigest (-1) [] [{| files := [file_r2; file_other]; total_reads := 0 |}] =
  Err (FThrow 70 "Input files have deflines from different platforms").
Proof.
  apply (xProcessDigest_platform_mismatch (-1) {| files := [file_r2; file_other]; total_reads := 0 |}
           [] file_r2 file_other []); [reflexivity | discriminate].
Defined.

(** [first] is a reference into the document: the quality expression
    follows the file the sort put first (read 1, phred+64) rather than the
    file listed first, and follows [--quality] when it is given. *)
Example xProcessDigest_quality_first :
  (out <- xProcessDigest (-1) [] [pair_group] ;; Ok (out_attrs out)) =
    Ok [("quality_expression", "(INSDC:quality:text:phred_64)QUALITY"); ("platform", "2")]%string /\
  (out <- xProcessDigest 33 [] [pair_group] ;; Ok (out_attrs out)) =
    Ok [("quality_expression", "(INSDC:quality:text:phred_33)QUALITY"); ("platform", "2")]%string.
Proof. split; vm_compute; reflexivity. Qed.
