(* ===== verification/App.v ===== *)
(** * App: the SharQ application around the parser

    [src/tools/sharq/fastq_parse.cpp]: [CFastqParseApp::AppMain] reads
    the command line with CLI11, validates the options, handles
    [--help_errors] and [--hash], picks the writer, builds the input
    batches ([Parse.AppMain_inputs]), picks the output stream with
    [xSetupOutput] and calls [Run], which runs [xRunDigest] or [xRun]
    and then releases the stream with [xBreakdownOutput]; [xRun] gets the digest of the inputs, checks
    it with [Digest.xProcessDigest], opens the writer, parses every group
    and closes the writer.  A [fastq_error] or [std::exception] that
    reaches [AppMain] is logged and gives the exit code 1.

    CLI11, [get_digest], [check_hash_file], [fastq_reader::cluster_files],
    the parser and the writer are not in the repository: the class
    [SharqEnv] gives their results, and the calls that change the
    writer, the parser or the output are events of a trace, which is
    kept when an exception stops the run. *)

From S2P Require Import Prelude Parse Digest.

(** ** The trace of a run *)

(** The calls on the writer, the parser and the output streams. *)
Inductive event :=
| EPrintErrorCodes
| EMakeWriter (vdb : bool)
| ESetSpotFile (f : string)
| ESetAllowEarlyEnd (b : bool)
| ESetAttr (key value : string)
| EOpen
| EParse (group : digest_group)
| ECheckDuplicates
| EClose
| EDumpDigest (error : option string)
| EOpenOutput (file : string)
| EDeleteOutput.

(** A run: the events so far and its outcome. *)
Definition traced (A : Type) : Type := list event * result A.

Definition tret {A} (a : A) : traced A := ([], Ok a).
Definition tlift {A} (r : result A) : traced A := ([], r).
Definition temit (e : event) : traced unit := ([e], Ok tt).

Definition tbind {A B} (m : traced A) (k : A -> traced B) : traced B :=
  match m with
  | (t, Ok a) => let '(t', r) := k a in (t ++ t', r)
  | (t, Err f) => (t, Err f)
  end.

Declare Scope trace_scope.
Notation "x <~ c ;; k" := (tbind c (fun x => k))
  (at level 100, c at next level, right associativity) : trace_scope.
Local Open Scope trace_scope.

(** [catch (fastq_error &) ... catch (std::exception const &) ...
    return 1;]: a thrown error gives 1; an assert or undefined behaviour
    is not an exception. *)
Definition catch_errors (m : traced Z) : traced Z :=
  match m with
  | (t, Err (FThrow _ _)) => (t, Ok 1%Z)
  | _ => m
  end.

(** ** The command line *)

(** The values CLI11 leaves in the option variables; [None] for an
    option not given. *)
Record cli_options := mk_cli {
  opt_output : option string;
  opt_platform : string;
  opt_read_types : string;
  opt_discard_names : bool;
  opt_allow_early_end : bool;
  opt_debug : bool;
  opt_print_errors : bool;
  opt_no_timestamp : bool;
  opt_log_level : option string;
  opt_hash : string;
  opt_spot_file : string;
  opt_name_column : option string;
  opt_read_pairs : list string;
  opt_files : list string;
  opt_quality : option Z;
  opt_digest : bool
}.

(** The [CLI::IsMember] checks of [--log-level], [--name-column] and [--quality]. *)
Definition valid_options (o : cli_options) : bool :=
  match opt_log_level o with
  | Some l => bool_decide (l ∈ ["trace"; "debug"; "info"; "warning"; "error"]%string)
  | None => true
  end &&
  match opt_name_column o with
  | Some n => bool_decide (n ∈ ["NONE"; "NAME"; "RAW_NAME"]%string)
  | None => true
  end &&
  match opt_quality o with
  | Some q => bool_decide (q ∈ [0; 33; 64]%Z)
  | None => true
  end.

(** [mpOutStr]: [&cout] or an [ofstream] the application owns. *)
Inductive out_stream := Cout | OFStream (file : string).

(** The members of [CFastqParseApp] once [AppMain] has set them. *)
Record CFastqParseApp := mk_app {
  mDestination : string;
  mDebug : bool;
  mReadTypes : list ascii;
  mInputBatches : list (list string);
  mAllowEarlyFileEnd : bool;
  mQuality : Z;
  mDigest : bool;
  mSpotFile : string;
  mNameColumn : string;
  mpOutStr : out_stream
}.

(** The libraries SharQ calls. *)
Class SharqEnv := {
  (** [fs::exists] and [fastq_reader::cluster_files]. *)
  fs_exists : string -> bool;
  cluster_files : list string -> list (list string);
  (** [check_hash_file(hash_file)]. *)
  check_hash_file : string -> result unit;
  (** [get_digest(data, mInputBatches)]: the groups of the digest. *)
  get_digest : list (list string) -> result (list digest_group);
  (** [parser.set_readers(group); parser.parse();] for a group. *)
  parse_group : digest_group -> result unit;
  (** [parser.check_duplicates()]. *)
  check_duplicates : result unit;
  (** The code [app.exit(e)] returns for a [CLI::ValidationError]. *)
  validation_exit : Z
}.

Section App.
Context `{E : SharqEnv}.

(** The loop [for (auto& group : data["groups"]) { parser.set_readers(group); parser.parse(); }]. *)
Fixpoint parse_groups (groups : list digest_group) : traced unit :=
  match groups with
  | [] => tret tt
  | g :: gs => _ <~ temit (EParse g) ;; _ <~ tlift (parse_group g) ;; parse_groups gs
  end.

(** [CFastqParseApp::xRun()]. *)
Definition xRun (a : CFastqParseApp) : traced Z :=
  if bool_decide (mInputBatches a = []) then tret 1%Z
  else
    _ <~ (if mDebug a then tret tt else temit (ESetSpotFile (mSpotFile a))) ;;
    _ <~ temit (ESetAllowEarlyEnd (mAllowEarlyFileEnd a)) ;;
    groups <~ tlift (get_digest (mInputBatches a)) ;;
    d <~ tlift (xProcessDigest (mQuality a) (mReadTypes a) groups) ;;
    _ <~ (map (fun kv => ESetAttr kv.1 kv.2) (out_attrs d), Ok tt) ;;
    _ <~ temit (ESetAttr "name_column" (mNameColumn a)) ;;
    _ <~ temit (ESetAttr "destination" (mDestination a)) ;;
    _ <~ temit EOpen ;;
    _ <~ parse_groups (out_groups d) ;;
    _ <~ temit ECheckDuplicates ;;
    _ <~ tlift check_duplicates ;;
    _ <~ temit EClose ;;
    tret 0%Z.

(** The message [xRunDigest] keeps of what [get_digest] threw. *)
Definition digest_error (r : result (list digest_group)) : result (option string) :=
  match r with
  | Ok _ => Ok None
  | Err (FThrow _ msg) => Ok (Some msg)
  | Err f => Err f
  end.

(** [CFastqParseApp::xRunDigest()], with the digest printed to [cout]. *)
Definition runDigest (a : CFastqParseApp) : traced Z :=
  if bool_decide (mInputBatches a = []) then tret 1%Z
  else
    err <~ tlift (digest_error (get_digest (mInputBatches a))) ;;
    res <~ tlift (xRunDigest (mInputBatches a) err) ;;
    _ <~ temit (EDumpDigest res.2) ;;
    tret res.1.

(** [CFastqParseApp::xSetupOutput()]: [cout] without an output file,
    else a new [ofstream] on it. *)
Definition xSetupOutput (mOutputFile : string) : traced out_stream :=
  if String.eqb mOutputFile "" then tret Cout
  else _ <~ temit (EOpenOutput mOutputFile) ;; tret (OFStream mOutputFile).

(** [CFastqParseApp::xBreakdownOutput()]: an [ofstream] is deleted. *)
Definition xBreakdownOutput (s : out_stream) : traced unit :=
  match s with
  | Cout => tret tt
  | OFStream _ => temit EDeleteOutput
  end.

(** [CFastqParseApp::Run()]: an exception skips [xBreakdownOutput]. *)
Definition Run (a : CFastqParseApp) : traced Z :=
  retStatus <~ (if mDigest a then runDigest a else xRun a) ;;
  _ <~ xBreakdownOutput (mpOutStr a) ;;
  tret retStatus.

(** The [try] block of [CFastqParseApp::AppMain] after [--help_errors]. *)
Definition AppMain_try (o : cli_options) : traced Z :=
  if negb (String.eqb (opt_hash o) "") then
    _ <~ tlift (check_hash_file (opt_hash o)) ;; tret 0%Z
  else
    out <~ xSetupOutput "" ;;
    _ <~ (if opt_digest o then tret tt else temit (EMakeWriter (negb (opt_debug o)))) ;;
    inputs <~ tlift (AppMain_inputs fs_exists cluster_files (opt_digest o) (opt_read_types o)
                       (opt_read_pairs o) (opt_files o)) ;;
    Run {| mDestination := default "sra.out" (opt_output o);
           mDebug := opt_debug o;
           mReadTypes := inputs.1;
           mInputBatches := inputs.2;
           mAllowEarlyFileEnd := opt_allow_early_end o;
           mQuality := default (-1)%Z (opt_quality o);
           mDigest := opt_digest o;
           mSpotFile := opt_spot_file o;
           mNameColumn := default "NAME" (opt_name_column o);
           mpOutStr := out |}.

(** [CFastqParseApp::AppMain(argc, argv)] from the outcome of
    [CLI11_PARSE]: the code [app.exit(e)] returned for a parse error, or
    the options.  [mOutputFile] is cleared and no option sets it, so
    [xSetupOutput] is called with the empty name. *)
Definition AppMain (parsed : Z + cli_options) : traced Z :=
  match parsed with
  | inl code => tret code
  | inr o =>
      if negb (valid_options o) then tret validation_exit
      else if opt_print_errors o then _ <~ temit EPrintErrorCodes ;; tret 0%Z
      else catch_errors (AppMain_try o)
  end.
(** [main(argc, argv)]: the locale and logging set-up, then
    [CFastqParseApp().AppMain(argc, argv)] on a new application. *)
Definition main (parsed : Z + cli_options) : traced Z := AppMain parsed.
End App.

(** ** Lemmas *)

Lemma tbind_Ok_l {A B} t (a : A) (k : A -> traced B) : tbind (t, Ok a) k = (t ++ (k a).1, (k a).2).
Proof. unfold tbind. by destruct (k a). Qed.

Lemma tbind_inv {A B} (m : traced A) (k : A -> traced B) t r :
  tbind m k = (t, r) ->
  (exists f, m = (t, Err f) /\ r = Err f) \/
  (exists t1 a t2, m = (t1, Ok a) /\ k a = (t2, r) /\ t = t1 ++ t2).
Proof.
  destruct m as [t1 [a|f]]; cbn; [destruct (k a) as [t2 r2] eqn:Hk|]; intros H; simplify_eq; eauto 10.
Qed.

Lemma catch_errors_inv m t r :
  catch_errors m = (t, r) -> m = (t, r) \/ exists c msg, m = (t, Err (FThrow c msg)) /\ r = Ok 1%Z.
Proof. destruct m as [t' [a|[]]]; cbn; intros H; simplify_eq; eauto. Qed.

(** Split every [tbind] of a hypothesis into its two outcomes. *)
Ltac inv_tbind :=
  repeat match goal with
  | H : tbind _ _ = (_, _) |- _ =>
      let f := fresh "f" in let t1 := fresh "t" in let a := fresh "a" in let t2 := fresh "t" in
      let Hm := fresh "Hm" in let Hr := fresh "Hr" in let Hk := fresh "Hk" in
      apply tbind_inv in H as [(f & Hm & Hr) | (t1 & a & t2 & Hm & Hk & ->)]; [|cbv beta in Hk]
  end.

Section Loops.
Context `{E : SharqEnv}.

Lemma parse_groups_events gs t r :
  parse_groups gs = (t, r) -> EOpen ∉ t /\ EClose ∉ t.
Proof.
  revert t r. induction gs as [|g gs IH]; intros t r H; cbn [parse_groups] in H.
  - injection H as <- _. set_solver.
  - unfold temit, tlift in H. inv_tbind; simplify_eq; try discriminate.
    + set_solver.
    + match goal with Hk : parse_groups gs = _ |- _ => destruct (IH _ _ Hk) end. set_solver.
Qed.

Lemma parse_groups_parse_only gs t r :
  parse_groups gs = (t, r) -> Forall (fun e => exists g, e = EParse g) t.
Proof.
  revert t r. induction gs as [|g gs IH]; intros t r H; cbn [parse_groups] in H.
  - injection H as <- _. constructor.
  - unfold temit, tlift in H. inv_tbind; simplify_eq; try discriminate;
      try match goal with Hk : parse_groups gs = _ |- _ => specialize (IH _ _ Hk) end;
      rewrite ?app_nil_l, ?app_nil_r; cbn [app]; constructor; eauto.
Qed.

Lemma parse_groups_ok gs :
  Forall (fun g => parse_group g = Ok tt) gs -> parse_groups gs = (map EParse gs, Ok tt).
Proof.
  induction 1 as [|g gs Hg _ IH]; [done|]. cbn [parse_groups map].
  unfold temit, tlift. rewrite tbind_Ok_l. cbn [fst snd]. rewrite Hg, tbind_Ok_l, IH. done.
Qed.

Lemma parse_groups_fail pre g post f :
  Forall (fun g => parse_group g = Ok tt) pre -> parse_group g = Err f ->
  parse_groups (pre ++ g :: post) = (map EParse (pre ++ [g]), Err f).
Proof.
  intros Hpre Hg. induction Hpre as [|g' gs Hg' _ IH]; cbn [parse_groups map app].
  - unfold temit, tlift. rewrite tbind_Ok_l. cbn. by rewrite Hg.
  - unfold temit, tlift. rewrite tbind_Ok_l. cbn [fst snd]. rewrite Hg', tbind_Ok_l, IH. done.
Qed.
End Loops.

(** ** Properties *)

Section Properties.
Context `{E : SharqEnv}.

(** The events [xRun] emits before it opens the writer. *)
Definition xRun_setup (a : CFastqParseApp) (d : digest_out) : list event :=
  (if mDebug a then [] else [ESetSpotFile (mSpotFile a)]) ++ [ESetAllowEarlyEnd (mAllowEarlyFileEnd a)] ++
  map (fun kv => ESetAttr kv.1 kv.2) (out_attrs d) ++
  [ESetAttr "name_column" (mNameColumn a); ESetAttr "destination" (mDestination a)].

(** C11. When the digest is read and checked and every group parses,
    [xRun] configures the parser and the writer, opens the writer, parses
    the groups of the checked digest in order, checks duplicates, closes
    the writer and returns 0. *)
Theorem xRun_success a groups d :
  mInputBatches a <> [] ->
  get_digest (mInputBatches a) = Ok groups ->
  xProcessDigest (mQuality a) (mReadTypes a) groups = Ok d ->
  Forall (fun g => parse_group g = Ok tt) (out_groups d) ->
  check_duplicates = Ok tt ->
  xRun a = (xRun_setup a d ++ [EOpen] ++ map EParse (out_groups d) ++ [ECheckDuplicates; EClose], Ok 0%Z).
Proof.
  intros Hb Hg Hd Hp Hc. unfold xRun, xRun_setup. rewrite bool_decide_eq_false_2 by done.
  unfold tlift, temit, tret. rewrite Hg.
  destruct (mDebug a); rewrite !tbind_Ok_l; cbn [fst snd]; rewrite Hd, !tbind_Ok_l; cbn [fst snd];
    rewrite parse_groups_ok by done; rewrite !tbind_Ok_l; cbn [fst snd];
    rewrite Hc, !tbind_Ok_l; cbn [fst snd]; f_equal; by rewrite <-!app_assoc.
Qed.

Lemma xRun_parse_fail a groups d pre g post f :
  mInputBatches a <> [] ->
  get_digest (mInputBatches a) = Ok groups ->
  xProcessDigest (mQuality a) (mReadTypes a) groups = Ok d ->
  out_groups d = pre ++ g :: post ->
  Forall (fun g => parse_group g = Ok tt) pre -> parse_group g = Err f ->
  xRun a = (xRun_setup a d ++ [EOpen] ++ map EParse (pre ++ [g]), Err f).
Proof.
  intros Hb Hg Hd Hgs Hpre Hf. unfold xRun, xRun_setup. rewrite bool_decide_eq_false_2 by done.
  unfold tlift, temit, tret. rewrite Hg.
  destruct (mDebug a); rewrite !tbind_Ok_l; cbn [fst snd]; rewrite Hd, !tbind_Ok_l; cbn [fst snd];
    rewrite Hgs, (parse_groups_fail pre g post f Hpre Hf); cbn; f_equal; by rewrite <-!app_assoc.
Qed.

Lemma xRun_setup_no_open_close a d : EOpen ∉ xRun_setup a d /\ EClose ∉ xRun_setup a d.
Proof.
  unfold xRun_setup. split; intros Hin;
    repeat (apply list_elem_of_app in Hin as [Hin|Hin]);
    try (apply list_elem_of_map in Hin as (kv & Heq & _); discriminate);
    destruct (mDebug a); set_solver.
Qed.

(** C13. When parsing a group throws, [AppMain] returns 1 with the
    writer opened once and never closed: the failing group's parse is the
    last thing the run does, and no later group is parsed. *)
Theorem AppMain_parse_error o rt batches groups d pre g post code msg :
  valid_options o = true -> opt_print_errors o = false -> opt_hash o = ""%string ->
  opt_digest o = false ->
  AppMain_inputs fs_exists cluster_files false (opt_read_types o) (opt_read_pairs o) (opt_files o) =
    Ok (rt, batches) ->
  batches <> [] ->
  get_digest batches = Ok groups ->
  xProcessDigest (default (-1)%Z (opt_quality o)) rt groups = Ok d ->
  out_groups d = pre ++ g :: post ->
  Forall (fun g => parse_group g = Ok tt) pre -> parse_group g = Err (FThrow code msg) ->
  exists t, AppMain (inr o) = (t ++ [EOpen] ++ map EParse (pre ++ [g]), Ok 1%Z) /\
    EOpen ∉ t /\ EClose ∉ t.
Proof.
  intros Hv Hp Hh Hdg Hin Hb Hg Hd Hgs Hpre Hf. unfold AppMain, AppMain_try. rewrite Hv, Hp, Hh, Hdg.
  cbn [negb String.eqb]. unfold xSetupOutput, temit, tlift, tret. cbn [String.eqb].
  rewrite !tbind_Ok_l. cbn [fst snd]. rewrite Hin, tbind_Ok_l.
  unfold Run. cbn [mDigest fst snd].
  match goal with |- context [xRun ?a] => set (A := a) end.
  rewrite (xRun_parse_fail A groups d pre g post (FThrow code msg)) by done.
  exists (EMakeWriter (negb (opt_debug o)) :: xRun_setup A d).
  destruct (xRun_setup_no_open_close A d). split; [|set_solver].
  cbn [catch_errors tbind fst snd]; f_equal; by rewrite <-?app_assoc.
Qed.

Lemma runDigest_no_close a t r : runDigest a = (t, r) -> EClose ∉ t.
Proof.
  intros Hr. unfold runDigest, tret, tlift, temit in Hr. case_bool_decide as Hb; [simplify_eq; set_solver|].
  inv_tbind; simplify_eq; set_solver.
Qed.

Lemma xRun_close a t r :
  xRun a = (t, r) -> EClose ∈ t ->
  r = Ok 0%Z /\ exists t0, t = t0 ++ [ECheckDuplicates; EClose] /\ EOpen ∈ t0 /\ EClose ∉ t0.
Proof.
  intros Hr Hin. unfold xRun, tret, tlift, temit in Hr.
  case_bool_decide as Hb; [simplify_eq; set_solver|].
  inv_tbind; repeat match goal with H : parse_groups _ = _ |- _ => apply parse_groups_events in H as [? ?] end;
    destruct (mDebug a); simplify_eq.
  all: try (exfalso; set_unfold in Hin; naive_solver).
  all: split; [done|]; rewrite ?app_nil_l, ?app_nil_r, ?app_assoc;
    rewrite <-(app_assoc _ [ECheckDuplicates] [EClose]); eexists; split; [reflexivity|].
  all: split; set_unfold; naive_solver.
Qed.

(** The calls on an output stream. *)
Definition output_event (e : event) : bool :=
  match e with EOpenOutput _ | EDeleteOutput => true | _ => false end.

Lemma no_output_event t : Forall (fun e => output_event e = false) t ->
  (forall f, EOpenOutput f ∉ t) /\ EDeleteOutput ∉ t.
Proof. rewrite Forall_forall. intros H. split; [intros f|]; intros Hin; by apply H in Hin. Qed.

(** Close [Forall (fun e => output_event e = false)] on a trace built of
    single events, [ESetAttr] lists and parsed groups. *)
Ltac solve_no_output :=
  repeat match goal with
  | |- Forall _ [] => constructor
  | |- Forall _ (_ :: _) => constructor; [reflexivity|]
  | |- Forall _ (_ ++ _) => apply Forall_app_2
  | |- Forall _ (map _ _) => apply Forall_map, Forall_forall; intros; reflexivity
  | H : Forall (fun e => exists g, e = EParse g) ?t |- Forall _ ?t =>
      eapply Forall_impl; [exact H|]; intros ? [? ->]; reflexivity
  end.

Lemma xRun_no_output a t r : xRun a = (t, r) -> Forall (fun e => output_event e = false) t.
Proof.
  intros Hr. unfold xRun, tret, tlift, temit in Hr.
  case_bool_decide; [simplify_eq; constructor|].
  inv_tbind; repeat match goal with
    H : parse_groups _ = _ |- _ => apply parse_groups_parse_only in H end;
    destruct (mDebug a); simplify_eq; solve_no_output.
Qed.

Lemma runDigest_no_output a t r : runDigest a = (t, r) -> Forall (fun e => output_event e = false) t.
Proof.
  intros Hr. unfold runDigest, tret, tlift, temit in Hr. case_bool_decide; [simplify_eq; constructor|].
  inv_tbind; simplify_eq; solve_no_output.
Qed.

Lemma AppMain_try_close o t r :
  AppMain_try o = (t, r) -> EClose ∈ t ->
  r = Ok 0%Z /\ exists t0, t = t0 ++ [ECheckDuplicates; EClose] /\ EOpen ∈ t0 /\ EClose ∉ t0.
Proof.
  intros H Hin.
  unfold AppMain_try, Run, xSetupOutput, xBreakdownOutput, tlift, tret, temit in H.
  cbn [mDigest mpOutStr String.eqb] in H.
  destruct (negb _); [inv_tbind; simplify_eq; set_solver|].
  destruct (opt_digest o); inv_tbind; simplify_eq; try set_solver.
  all: rewrite ?app_nil_l, ?app_nil_r in *.
  all: match goal with
  | HR : runDigest _ = _ |- _ => apply runDigest_no_close in HR; set_solver
  | HR : xRun _ = _ |- _ =>
      destruct (xRun_close _ _ _ HR) as (? & ? & -> & ? & ?); [set_solver|];
      simplify_eq; (split; [done | eexists; split; [by rewrite app_assoc|set_solver]])
  end.
Qed.

(** C12. For every command line and whatever the libraries answer, the
    writer is closed at most once: when a run of [AppMain] closes it,
    the close is the run's last call, right after the duplicate check,
    the writer was opened before, and the run returns 0. *)
Theorem AppMain_close_last parsed t r :
  AppMain parsed = (t, r) -> EClose ∈ t ->
  r = Ok 0%Z /\ exists t0, t = t0 ++ [ECheckDuplicates; EClose] /\ EOpen ∈ t0 /\ EClose ∉ t0.
Proof.
  intros H Hin. destruct parsed as [code|o]; cbn [AppMain] in H; unfold tret, temit in H;
    [simplify_eq; set_solver|].
  destruct (valid_options o); cbn [negb] in H; [|simplify_eq; set_solver].
  destruct (opt_print_errors o); [inv_tbind; simplify_eq; set_solver|].
  apply catch_errors_inv in H as [H | (c & msg & H & ->)]; [by apply (AppMain_try_close o)|].
  by destruct (AppMain_try_close o t _ H Hin).
Qed.

(** C14. [AppMain] only ever writes to [cout]: for every command line and
    whatever the libraries answer, no run opens an [ofstream] in
    [xSetupOutput] or deletes one in [xBreakdownOutput], because
    [mOutputFile] is empty when [xSetupOutput] runs. *)
Theorem AppMain_output_cout parsed t r :
  AppMain parsed = (t, r) -> (forall f, EOpenOutput f ∉ t) /\ EDeleteOutput ∉ t.
Proof.
  intros H. apply no_output_event. destruct parsed as [code|o]; cbn [AppMain] in H;
    unfold tret, temit in H; [simplify_eq; constructor|].
  destruct (valid_options o); cbn [negb] in H; [|simplify_eq; constructor].
  destruct (opt_print_errors o); [inv_tbind; simplify_eq; repeat constructor|].
  apply catch_errors_inv in H as [H | (c & msg & H & ->)];
    unfold AppMain_try, Run, xSetupOutput, xBreakdownOutput, tlift, tret, temit in H;
    cbn [mDigest mpOutStr String.eqb] in H;
    (destruct (negb _); [inv_tbind; simplify_eq; constructor|]);
    destruct (opt_digest o); inv_tbind; simplify_eq;
    repeat match goal with
    | HR : runDigest _ = _ |- _ => apply runDigest_no_output in HR
    | HR : xRun _ = _ |- _ => apply xRun_no_output in HR
    end; solve_no_output; done.
Qed.
End Properties.

(** ** Concrete runs *)

(** Two single-read files, found on disk, whose digest is the pair of
    [Digest.pair_group]; the parser throws on every group when [fail] is set. *)
Definition demo_sharq (fail : bool) : SharqEnv := {|
  fs_exists := fun f => bool_decide (f ∈ ["r_1.fq"; "r_2.fq"]%string);
  cluster_files := fun fs => [fs];
  check_hash_file := fun _ => Ok tt;
  get_digest := fun _ => Ok [pair_group];
  parse_group := fun _ => if fail then Err (FThrow 100 "Defline not recognized") else Ok tt;
  check_duplicates := Ok tt;
  validation_exit := 105%Z |}.

Definition demo_cli : cli_options :=
  mk_cli None "" "" false false false false false None "" "" None ["";"";"";""]%string
         ["r_2.fq"; "r_1.fq"]%string None false.

Definition demo_digest : digest_out := ok_or empty_out (xProcessDigest (-1) [] [pair_group]).

Definition demo_group : digest_group := nth 0 (out_groups demo_digest) pair_group.

Definition demo_app : CFastqParseApp :=
  mk_app "sra.out" false [] [["r_1.fq"; "r_2.fq"]%string] false (-1) false "" "NAME" Cout.

Lemma xRun_success_witness :
  (mInputBatches demo_app <> [] /\
   @get_digest (demo_sharq false) (mInputBatches demo_app) = Ok [pair_group] /\
   xProcessDigest (mQuality demo_app) (mReadTypes demo_app) [pair_group] = Ok demo_digest /\
   Forall (fun g => @parse_group (demo_sharq false) g = Ok tt) (out_groups demo_digest) /\
   @check_duplicates (demo_sharq false) = Ok tt) /\
  @xRun (demo_sharq false) demo_app =
    (xRun_setup demo_app demo_digest ++ [EOpen] ++ map EParse (out_groups demo_digest) ++
     [ECheckDuplicates; EClose], Ok 0%Z).
Proof.
  assert (Hd : xProcessDigest (mQuality demo_app) (mReadTypes demo_app) [pair_group] = Ok demo_digest)
    by (vm_compute; reflexivity).
  assert (Hp : Forall (fun g => @parse_group (demo_sharq false) g = Ok tt) (out_groups demo_digest))
    by (apply Forall_forall; intros; reflexivity).
  split; [split_and!; try done|].
  exact (@xRun_success (demo_sharq false) demo_app [pair_group] demo_digest
           ltac:(discriminate) eq_refl Hd Hp eq_refl).
Defined.

Lemma AppMain_parse_error_witness :
  (valid_options demo_cli = true /\ opt_print_errors demo_cli = false /\ opt_hash demo_cli = ""%string /\
   opt_digest demo_cli = false /\
   AppMain_inputs (@fs_exists (demo_sharq true)) (@cluster_files (demo_sharq true)) false
     (opt_read_types demo_cli) (opt_read_pairs demo_cli) (opt_files demo_cli) =
     Ok ([], [["r_1.fq"; "r_2.fq"]%string]) /\
   out_groups demo_digest = [] ++ demo_group :: []) /\
  exists t, @AppMain (demo_sharq true) (inr demo_cli) =
    (t ++ [EOpen] ++ map EParse ([] ++ [demo_group]), Ok 1%Z) /\ EOpen ∉ t /\ EClose ∉ t.
Proof.
  assert (Hin : AppMain_inputs (@fs_exists (demo_sharq true)) (@cluster_files (demo_sharq true)) false
     (opt_read_types demo_cli) (opt_read_pairs demo_cli) (opt_files demo_cli) =
     Ok ([], [["r_1.fq"; "r_2.fq"]%string])) by (vm_compute; reflexivity).
  assert (Hgs : out_groups demo_digest = [] ++ demo_group :: []) by (vm_compute; reflexivity).
  split; [split_and!; try done|].
  apply (@AppMain_parse_error (demo_sharq true) demo_cli [] _ [pair_group] demo_digest [] demo_group []
           100 "Defline not recognized" eq_refl eq_refl eq_refl eq_refl Hin ltac:(discriminate) eq_refl);
    [vm_compute; reflexivity | exact Hgs | constructor | reflexivity].
Defined.

(** The whole run of [demo_cli] when every group parses. *)
Definition demo_run : traced Z := @AppMain (demo_sharq false) (inr demo_cli).

(** The run of [demo_cli] when the parser throws. *)
Definition demo_run_fail : traced Z := @AppMain (demo_sharq true) (inr demo_cli).

Lemma AppMain_close_last_witness :
  (@AppMain (demo_sharq false) (inr demo_cli) = (demo_run.1, demo_run.2) /\ EClose ∈ demo_run.1) /\
  (demo_run.2 = Ok 0%Z /\ exists t0, demo_run.1 = t0 ++ [ECheckDuplicates; EClose] /\
                                     EOpen ∈ t0 /\ EClose ∉ t0).
Proof.
  assert (H1 : @AppMain (demo_sharq false) (inr demo_cli) = (demo_run.1, demo_run.2))
    by (unfold demo_run; by destruct (@AppMain (demo_sharq false) (inr demo_cli))).
  assert (H2 : EClose ∈ demo_run.1).
  { apply list_elem_of_In. vm_compute. repeat (first [left; reflexivity | right]). }
  split; [split; assumption|].
  exact (@AppMain_close_last (demo_sharq false) (inr demo_cli) demo_run.1 demo_run.2 H1 H2).
Defined.

Lemma AppMain_output_cout_witness :
  @AppMain (demo_sharq true) (inr demo_cli) = (demo_run_fail.1, demo_run_fail.2) /\
  ((forall f, EOpenOutput f ∉ demo_run_fail.1) /\ EDeleteOutput ∉ demo_run_fail.1).
Proof.
  assert (H1 : @AppMain (demo_sharq true) (inr demo_cli) = (demo_run_fail.1, demo_run_fail.2))
    by (unfold demo_run_fail; by destruct (@AppMain (demo_sharq true) (inr demo_cli))).
  split; [exact H1|].
  exact (@AppMain_output_cout (demo_sharq true) (inr demo_cli) demo_run_fail.1 demo_run_fail.2 H1).
Defined.
