(* ===== verification/Formatter.v ===== *)
(** * Formatter: the output formats of sra-info

    [src/tools/external/sra-info/formatter.cpp]: [Formatter] renders the
    answers of sra-info in one of five formats.  Its [const] methods
    mutate two fields through [const_cast]: [first] (has the JSON
    separator been skipped yet) and [count] (queries answered, of which
    CSV and TAB allow one); the model threads them as state.  The
    [SchemaData] tree and the platform list come from [sra-info.hpp],
    which is not in the repository: a node has a name and its parents,
    and [Platforms] is the list of platforms in the order the container
    iterates them.  The spot layouts of that header are rendered with
    the read descriptors' [Encode], [TypeAsString] and [length] taken as
    parameters of a Section; numbers are written with stdpp's [pretty]. *)

From S2P Require Import Prelude.
From stdpp Require Import pretty.

(** [typedef enum { Default, CSV, XML, Json, Tab } Format]. *)
Inductive Format := Default | CSV | XML | Json | Tab.

#[export] Instance Format_eq_dec : EqDecision Format.
Proof. solve_decision. Defined.

(** The fields [fmt], [limit], [first], [count]. *)
Record Formatter := mk_formatter {
  fmt : Format;
  limit : nat;
  first : bool;
  count : nat
}.

(** [Formatter(f, l)]. *)
Definition new_formatter (f : Format) (l : nat) : Formatter :=
  {| fmt := f; limit := l; first := true; count := 0 |}.

(** [std::transform(..., tolower)] over the value. *)
Definition lowercase (value : string) : string :=
  String.string_of_list_ascii (map ascii_tolower (String.list_ascii_of_string value)).

(** [Formatter::StringToFormat]. *)
Definition StringToFormat (value : string) : result Format :=
  let lowercase := lowercase value in
  if String.eqb lowercase "csv" then Ok CSV
  else if String.eqb lowercase "xml" then Ok XML
  else if String.eqb lowercase "json" then Ok Json
  else if String.eqb lowercase "tab" then Ok Tab
  else Err (FThrow 0 ("Invalid value for the --format option: " +:+ value)).

(** [formatJsonSeparator]: [""] the first time, [","] afterwards. *)
Definition formatJsonSeparator (fm : Formatter) : string * Formatter :=
  if first fm then ("", {| fm with first := false |}) else (",", fm).

(** [expectSingleQuery(error)]: the second query throws. *)
Definition expectSingleQuery (error : string) (fm : Formatter) : result Formatter :=
  let fm := {| fm with count := S (count fm) |} in
  if 1 <? count fm then Err (FThrow 0 error) else Ok fm.

(** [JoinPlatforms(platforms, separator, prefix, suffix)]. *)
Fixpoint join_from (is_first : bool) (sep prefix suffix : string) (ps : list string) : string :=
  match ps with
  | [] => ""
  | p :: ps' =>
      (if is_first then "" else sep) +:+ (prefix +:+ p +:+ suffix) +:+
      join_from false sep prefix suffix ps'
  end.

Definition JoinPlatforms (platforms : list string) (sep prefix suffix : string) : string :=
  join_from true sep prefix suffix platforms.

(** A line break, a tab and a double quote. *)
Definition nl : string := String.String "010"%char "".
Definition tab : string := String.String "009"%char "".
Definition dq : string := String.String "034"%char "".

(** [Formatter::format(const SraInfo::Platforms &)]. *)
Definition format_platforms (platforms : list string) (fm : Formatter)
  : result (string * Formatter) :=
  match fmt fm with
  | Default => Ok (JoinPlatforms platforms nl "PLATFORM: " "", fm)
  | CSV =>
      fm <- expectSingleQuery "CVS format does not support multiple queries" fm ;;
      Ok (JoinPlatforms platforms "," "" "", fm)
  | XML =>
      Ok (" <PLATFORMS>" +:+ nl +:+ JoinPlatforms platforms nl "  <platform>" "</platform>"
          +:+ nl +:+ " </PLATFORMS>", fm)
  | Json =>
      let '(separator, fm) := formatJsonSeparator fm in
      let out := if String.eqb separator "" then "" else " " +:+ separator +:+ nl in
      Ok (out +:+ " " +:+ dq +:+ "PLATFORMS" +:+ dq +:+ ": [" +:+ nl
          +:+ JoinPlatforms platforms ("," +:+ nl) ("  " +:+ dq) dq +:+ nl +:+ " ]", fm)
  | Tab =>
      fm <- expectSingleQuery "TAB format does not support multiple queries" fm ;;
      Ok (JoinPlatforms platforms tab "" "", fm)
  end.

(** [Formatter::start] and [Formatter::end]. *)
Definition format_start (fm : Formatter) : string :=
  match fmt fm with
  | Default | CSV | Tab => ""
  | XML => "<SRA_INFO>"
  | Json => "{"
  end.

Definition format_end (fm : Formatter) : string :=
  match fmt fm with
  | Default | CSV | Tab => ""
  | XML => "</SRA_INFO>"
  | Json => "}"
  end.

(** [Formatter::format(const string & value, const string & name)]. *)
Definition format_value (value name : string) (fm : Formatter) : result (string * Formatter) :=
  let space := " " in
  match fmt fm with
  | CSV =>
      fm <- expectSingleQuery "CVS format does not support multiple queries" fm ;; Ok (value, fm)
  | Tab =>
      fm <- expectSingleQuery "TAB format does not support multiple queries" fm ;; Ok (value, fm)
  | Default => Ok (name +:+ ": " +:+ value, fm)
  | XML => Ok (space +:+ "<" +:+ name +:+ ">" +:+ value +:+ "</" +:+ name +:+ ">", fm)
  | Json =>
      let '(separator, fm) := formatJsonSeparator fm in
      let out := if String.eqb separator "" then "" else space +:+ separator +:+ nl in
      Ok (out +:+ space +:+ dq +:+ name +:+ dq +:+ ": " +:+ dq +:+ value +:+ dq, fm)
  end.

(** ** Schema output *)

(** [VDB::SchemaData]: a name and the parents. *)
Inductive SchemaData := mkSchemaData { sd_name : string; sd_parent : list SchemaData }.

(** [indent] copies of [space]. *)
Definition spaces (space : string) (indent : Z) : string :=
  String.concat "" (replicate (Z.to_nat indent) space).

(** [SimpleSchemaDataFormatter::format(d, indent)]: the name on a line
    of its own, the parents one level deeper.  The default [indent = -1]
    stands for the formatter's [_indent]; the callers below pass that
    value (2) directly, and the recursive calls pass [indent + 1], so the
    [indent < 0] test never fires and is left out. *)
Fixpoint simple_format (space : string) (d : SchemaData) (indent : Z) : string :=
  spaces space indent +:+ sd_name d +:+ nl +:+
  (fix go (ps : list SchemaData) : string :=
     match ps with [] => "" | p :: ps' => simple_format space p (indent + 1) +:+ go ps' end)
    (sd_parent d).

(** The strings a [FullSchemaDataFormatter] is built with. *)
Record full_cfg := mk_full_cfg {
  fc_indent : Z; fc_space : string; fc_open : string; fc_openNext : string;
  fc_closeName : string; fc_close : string; fc_openParent1 : string;
  fc_openParent2 : string; fc_closeParent1 : string; fc_closeParent2 : string;
  fc_noParent : string
}.

(** [FullSchemaDataFormatter::format(d, indent, first)]; a negative
    [indent] stands for the formatter's own. *)
Fixpoint full_format (c : full_cfg) (d : SchemaData) (indent : Z) (frst : bool) : string :=
  let indent := if (indent <? 0)%Z then fc_indent c else indent in
  let head := (if frst then "" else fc_openNext c) +:+ spaces (fc_space c) indent
              +:+ fc_open c +:+ sd_name d +:+ fc_closeName c in
  match sd_parent d with
  | [] => head +:+ fc_noParent c +:+ spaces (fc_space c) indent +:+ fc_close c
  | ps =>
      let two := negb (String.eqb (fc_openParent2 c) "") in
      let inner := if two then (indent + 1)%Z else indent in
      head +:+ fc_openParent1 c
      +:+ (if two then spaces (fc_space c) indent +:+ fc_openParent2 c else "")
      +:+ (fix go (ps : list SchemaData) (f : bool) : string :=
             match ps with
             | [] => ""
             | p :: ps' => full_format c p (inner + 1) f +:+ go ps' false
             end) ps true
      +:+ (if negb (String.eqb (fc_closeParent2 c) "") then
             fc_closeParent1 c +:+ spaces (fc_space c) inner +:+ fc_closeParent2 c
           else "")
      +:+ spaces (fc_space c) indent +:+ fc_close c
  end.

(** [VDB::SchemaInfo]: the databases, tables and views. *)
Record SchemaInfo := mk_schema_info { si_db : list SchemaData; si_table : list SchemaData;
                                      si_view : list SchemaData }.

(** The loop over the items that calls [format] on each, in the default and XML formats. *)
Definition simple_all (indent : Z) (ds : list SchemaData) : string :=
  String.concat "" (map (fun d => simple_format " " d indent) ds).

Definition full_all (c : full_cfg) (ds : list SchemaData) : string :=
  String.concat "" (map (fun d => full_format c d (-1) true) ds).

(** The loop that calls [format] with [indent] and [first], then clears [first], of the JSON
    format. *)
Fixpoint full_list (c : full_cfg) (indent : Z) (frst : bool) (ds : list SchemaData) : string :=
  match ds with
  | [] => ""
  | d :: ds' => full_format c d indent frst +:+ full_list c indent false ds'
  end.

Definition json_cfg (open : string) : full_cfg :=
  {| fc_indent := 3; fc_space := " "; fc_open := "{ " +:+ dq +:+ open +:+ dq +:+ ": " +:+ dq;
     fc_openNext := "," +:+ nl; fc_closeName := dq; fc_close := "}";
     fc_openParent1 := "," +:+ nl; fc_openParent2 := " " +:+ dq +:+ "Parents" +:+ dq +:+ ": [" +:+ nl;
     fc_closeParent1 := nl; fc_closeParent2 := "]" +:+ nl; fc_noParent := nl |}.

Definition xml_cfg (tag : string) : full_cfg :=
  {| fc_indent := 3; fc_space := " "; fc_open := "<" +:+ tag +:+ ">"; fc_openNext := "";
     fc_closeName := nl; fc_close := "</" +:+ tag +:+ ">" +:+ nl;
     fc_openParent1 := ""; fc_openParent2 := ""; fc_closeParent1 := ""; fc_closeParent2 := "";
     fc_noParent := "" |}.

(** [Formatter::format(const VDB::SchemaInfo &)]. *)
Definition format_schema (info : SchemaInfo) (fm : Formatter) : result (string * Formatter) :=
  let space := " " in
  match fmt fm with
  | Default =>
      Ok ("SCHEMA:" +:+ nl +:+ space +:+ "DBS:" +:+ nl +:+ simple_all 2 (si_db info)
          +:+ space +:+ "TABLES:" +:+ nl +:+ simple_all 2 (si_table info)
          +:+ space +:+ "VIEWS:" +:+ nl +:+ simple_all 2 (si_view info), fm)
  | Json =>
      let '(separator, fm) := formatJsonSeparator fm in
      let out := if String.eqb separator "" then "" else space +:+ separator +:+ nl in
      Ok (out +:+ space +:+ dq +:+ "SCHEMA" +:+ dq +:+ ": {" +:+ nl
          +:+ space +:+ space +:+ dq +:+ "DBS" +:+ dq +:+ ": [" +:+ nl
          +:+ full_list (json_cfg "Db") 3 true (si_db info)
          +:+ space +:+ space +:+ "]," +:+ nl
          +:+ space +:+ space +:+ dq +:+ "TABLES" +:+ dq +:+ ": [" +:+ nl
          +:+ full_list (json_cfg "Tbl") 3 true (si_table info)
          +:+ nl +:+ space +:+ space +:+ "]," +:+ nl
          +:+ space +:+ space +:+ dq +:+ "VIEWS" +:+ dq +:+ ": [" +:+ nl
          +:+ full_list (json_cfg "View") 3 true (si_view info)
          +:+ space +:+ space +:+ "]" +:+ nl +:+ space +:+ "}", fm)
  | XML =>
      Ok (space +:+ "<SCHEMA>" +:+ nl +:+ space +:+ space +:+ "<DBS>" +:+ nl
          +:+ full_all (xml_cfg "Db") (si_db info)
          +:+ space +:+ space +:+ "</DBS>" +:+ nl +:+ space +:+ space +:+ "<TABLES>" +:+ nl
          +:+ full_all (xml_cfg "Tbl") (si_table info)
          +:+ space +:+ space +:+ "</TABLES>" +:+ nl +:+ space +:+ space +:+ "<VIEWS>" +:+ nl
          +:+ full_all (xml_cfg "View") (si_view info)
          +:+ space +:+ space +:+ "</VIEWS>" +:+ nl +:+ space +:+ "</SCHEMA>", fm)
  | _ => Err (FThrow 0 "unsupported formatting option for schema")
  end.

(** ** Spot layouts *)

(** [SraInfo::Detail] (from [sra-info.hpp]): how much of each read is shown. *)
Inductive Detail := Short | Abbreviated | Full | Verbose.

Section SpotLayouts.
(** [SraInfo::ReadStructure] (from [sra-info.hpp]): its [Encode] and
    [TypeAsString] renderings and its [length]. *)
Context {ReadStructure : Type}.
Context (Encode TypeAsString : Detail -> ReadStructure -> string).
Context (rs_length : ReadStructure -> N).

(** [SraInfo::SpotLayout]: the number of spots with this layout and the reads. *)
Record SpotLayout := mkSpotLayout { sl_count : N; sl_reads : list ReadStructure }.

(** A number written to the stream. *)
Definition num (n : N) : string := pretty n.

(** The loop [bool first = true; for (x : xs) { if (first) first = false;
    else ret << sep; ret << f(x); }]. *)
Fixpoint first_loop {A} (frst : bool) (sep : string) (f : A -> string) (xs : list A) : string :=
  match xs with
  | [] => ""
  | x :: xs' => (if frst then "" else sep) +:+ f x +:+ first_loop false sep f xs'
  end.

(** The same loop over [layouts[i]], [i < count]: reading past the end
    of the vector is undefined. *)
Fixpoint first_loop_at (frst : bool) (sep : string) (f : SpotLayout -> string)
    (layouts : list SpotLayout) (idx : list nat) : result string :=
  match idx with
  | [] => Ok ""
  | i :: idx' =>
      l <- vat layouts i "layouts[i]" ;;
      rest <- first_loop_at false sep f layouts idx' ;;
      Ok ((if frst then "" else sep) +:+ f l +:+ rest)
  end.

(** The loop [for (i < count) ret << f(layouts[i]);]. *)
Definition concat_at (f : SpotLayout -> string) (layouts : list SpotLayout) (idx : list nat)
  : result string :=
  ls <- mapR (fun i => vat layouts i "layouts[i]") idx ;;
  Ok (String.concat "" (map f ls)).

(** [count = layouts.size()], cut to [limit] when [limit != 0 && limit < count]. *)
Definition layout_count (fm : Formatter) (layouts : list SpotLayout) : nat :=
  let count := length layouts in
  if negb (Nat.eqb (limit fm) 0) && (limit fm <? count) then limit fm else count.

(** The reads of a layout, [for (auto r : l.reads) ret << r.Encode(detail);]. *)
Definition encode_all (detail : Detail) (reads : list ReadStructure) : string :=
  String.concat "" (map (Encode detail) reads).

(** A layout in the default format. *)
Definition layout_default (detail : Detail) (l : SpotLayout) : string :=
  "SPOT: " +:+ num (sl_count l) +:+ (if N.eqb (sl_count l) 1 then " spot: " else " spots: ") +:+
  match detail with
  | Short => num (N.of_nat (length (sl_reads l))) +:+ " reads"
  | Abbreviated => encode_all detail (sl_reads l)
  | _ => first_loop true ", " (Encode detail) (sl_reads l)
  end.

(** A read and a layout in the JSON format. *)
Definition read_json (detail : Detail) (r : ReadStructure) : string :=
  "{ " +:+ dq +:+ "type" +:+ dq +:+ ": " +:+ dq +:+ TypeAsString detail r +:+ dq +:+ ", "
  +:+ dq +:+ "length" +:+ dq +:+ ": " +:+ num (rs_length r) +:+ " }".

Definition layout_json (detail : Detail) (l : SpotLayout) : string :=
  "  { " +:+ dq +:+ "count" +:+ dq +:+ ": " +:+ num (sl_count l) +:+ ", " +:+ dq +:+ "reads"
  +:+ dq +:+ ": " +:+
  match detail with
  | Short => num (N.of_nat (length (sl_reads l)))
  | Abbreviated => dq +:+ encode_all detail (sl_reads l) +:+ dq
  | _ => "[" +:+ first_loop true ", " (read_json detail) (sl_reads l) +:+ "]"
  end +:+ " }".

(** A layout in the CSV ([sep = ", "]) and TAB ([sep = "\t"]) formats. *)
Definition layout_sv (sep : string) (detail : Detail) (l : SpotLayout) : string :=
  match detail with
  | Short => num (sl_count l) +:+ sep +:+ num (N.of_nat (length (sl_reads l))) +:+ sep
  | Abbreviated => num (sl_count l) +:+ sep +:+ encode_all detail (sl_reads l)
  | _ => num (sl_count l) +:+ sep +:+
         String.concat "" (map (fun r => TypeAsString detail r +:+ sep +:+ num (rs_length r) +:+ sep)
                               (sl_reads l))
  end +:+ nl.

(** A layout in the XML format. *)
Definition layout_xml (detail : Detail) (l : SpotLayout) : string :=
  "  <layout><count>" +:+ num (sl_count l) +:+ "</count>" +:+
  match detail with
  | Short => "<reads>" +:+ num (N.of_nat (length (sl_reads l))) +:+ "</reads>"
  | Abbreviated => "<reads>" +:+ encode_all detail (sl_reads l) +:+ "</reads>"
  | _ => String.concat "" (map (fun r => "<read><type>" +:+ TypeAsString detail r +:+ "</type><length>"
                                         +:+ num (rs_length r) +:+ "</length></read>") (sl_reads l))
  end +:+ "</layout>" +:+ nl.

(** [Formatter::format(const SraInfo::SpotLayouts &, SraInfo::Detail)]; the
    [default:] branch of the [switch] is unreachable, [Format] having five
    values. *)
Definition format_layouts (layouts : list SpotLayout) (detail : Detail) (fm : Formatter)
  : result (string * Formatter) :=
  let idx := seq 0 (layout_count fm layouts) in
  match fmt fm with
  | Default =>
      out <- first_loop_at true nl (layout_default detail) layouts idx ;; Ok (out, fm)
  | Json =>
      let '(separator, fm) := formatJsonSeparator fm in
      let out := if String.eqb separator "" then "" else " " +:+ separator +:+ nl in
      body <- first_loop_at true ("," +:+ nl) (layout_json detail) layouts idx ;;
      Ok (out +:+ " " +:+ dq +:+ "SPOTS" +:+ dq +:+ ": [" +:+ nl +:+ body +:+ nl +:+ " ]" +:+ nl, fm)
  | CSV =>
      fm <- expectSingleQuery "CVS format does not support multiple queries" fm ;;
      out <- concat_at (layout_sv ", " detail) layouts idx ;; Ok (out, fm)
  | Tab =>
      fm <- expectSingleQuery "TAB format does not support multiple queries" fm ;;
      out <- concat_at (layout_sv tab detail) layouts idx ;; Ok (out, fm)
  | XML =>
      out <- concat_at (layout_xml detail) layouts idx ;;
      Ok (" <SPOTS>" +:+ nl +:+ out +:+ " </SPOTS>", fm)
  end.
End SpotLayouts.

(** ** Lemmas *)

(** Induction over schema trees, with the hypothesis on every parent. *)
Fixpoint SchemaData_ind' (P : SchemaData -> Prop)
    (H : forall n ps, Forall P ps -> P (mkSchemaData n ps)) (d : SchemaData) : P d :=
  match d with
  | mkSchemaData n ps =>
      H n ps ((fix go (ps : list SchemaData) : Forall P ps :=
                 match ps with
                 | [] => List.Forall_nil P
                 | p :: ps' => List.Forall_cons P p ps' (SchemaData_ind' P H p) (go ps')
                 end) ps)
  end.

(** The letters of the alphabet in both cases, position by position. *)
Definition lower_letters : string := "abcdefghijklmnopqrstuvwxyz".
Definition upper_letters : string := "ABCDEFGHIJKLMNOPQRSTUVWXYZ".

(** The character at the position of [c] in [ks], taken from [vs];
    [c] itself when [c] is not in [ks]. *)
Fixpoint translate_char (c : ascii) (ks vs : list ascii) : ascii :=
  match ks, vs with
  | k :: ks', v :: vs' => if Ascii.eqb c k then v else translate_char c ks' vs'
  | _, _ => c
  end.

(** The upper-case form of a lower-case letter; other characters are
    their own upper-case form. *)
Definition upper_letter (c : ascii) : ascii :=
  translate_char c (String.list_ascii_of_string lower_letters) (String.list_ascii_of_string upper_letters).

Definition is_lower_letter (c : ascii) : bool :=
  (97 <=? Ascii.nat_of_ascii c) && (Ascii.nat_of_ascii c <=? 122).

(** [v] spells [name] with any of its letters in either case. *)
Definition case_variant (v name : string) : Prop :=
  Forall2 (fun c d => c = d \/ c = upper_letter d)
    (String.list_ascii_of_string v) (String.list_ascii_of_string name).

(** The option name [StringToFormat] accepts for each format. *)
Definition format_option (f : Format) : option string :=
  match f with
  | Default => None
  | CSV => Some "csv"
  | XML => Some "xml"
  | Json => Some "json"
  | Tab => Some "tab"
  end.

(** The item [JoinPlatforms] writes for each platform. *)
Definition platform_item (prefix suffix p : string) : string := prefix +:+ p +:+ suffix.

(** The first-flag loop puts the separator between consecutive items,
    and before the first one when it starts with [first] cleared. *)
Lemma first_loop_concat {A} b sep (f : A -> string) xs :
  first_loop b sep f xs =
  (match xs with [] => "" | _ => if b then "" else sep end) +:+ String.concat sep (map f xs).
Proof.
  revert b. induction xs as [|x xs IH]; intros b; [done|].
  cbn [first_loop]. rewrite IH.
  destruct xs as [|y ys]; simpl; rewrite ?string_app_nil_r; [done|].
  by rewrite ?string_app_assoc.
Qed.

Lemma join_from_concat b sep prefix suffix ps :
  join_from b sep prefix suffix ps =
  (match ps with [] => "" | _ => if b then "" else sep end) +:+
  String.concat sep (map (platform_item prefix suffix) ps).
Proof.
  rewrite <-first_loop_concat. revert b.
  induction ps as [|p ps IH]; intros b; [done|]. simpl. by rewrite IH.
Qed.

(** [String.concat ""] is the plain concatenation. *)
Lemma concat_nil_cons (x : string) (xs : list string) :
  String.concat "" (x :: xs) = x +:+ String.concat "" xs.
Proof. destruct xs; simpl; [by rewrite string_app_nil_r | done]. Qed.

Lemma concat_nil_app (xs ys : list string) :
  String.concat "" (xs ++ ys) = String.concat "" xs +:+ String.concat "" ys.
Proof.
  induction xs as [|x xs IH]; [done|].
  by rewrite <-app_comm_cons, !concat_nil_cons, IH, string_app_assoc.
Qed.

(** The nodes of a schema tree in preorder, each with its depth. *)
Fixpoint schema_preorder (d : SchemaData) : list (nat * string) :=
  (0, sd_name d) ::
  (fix go (ps : list SchemaData) : list (nat * string) :=
     match ps with
     | [] => []
     | p :: ps' => map (fun kn => (S kn.1, kn.2)) (schema_preorder p) ++ go ps'
     end) (sd_parent d).

(** The line of the default schema output for a node at depth [k]. *)
Definition schema_line (space : string) (indent : Z) (kn : nat * string) : string :=
  spaces space (indent + Z.of_nat kn.1) +:+ kn.2 +:+ nl.

Lemma schema_line_shift space indent kn :
  schema_line space (indent + 1) kn = schema_line space indent (S kn.1, kn.2).
Proof. unfold schema_line. simpl. do 2 f_equal. lia. Qed.

Lemma simple_format_children space indent ps :
  Forall (fun p => forall indent, simple_format space p indent =
                     String.concat "" (map (schema_line space indent) (schema_preorder p))) ps ->
  (fix go (ps : list SchemaData) : string :=
     match ps with [] => "" | p :: ps' => simple_format space p (indent + 1) +:+ go ps' end) ps =
  String.concat "" (map (schema_line space indent)
    ((fix go (ps : list SchemaData) : list (nat * string) :=
        match ps with
        | [] => []
        | p :: ps' => map (fun kn => (S kn.1, kn.2)) (schema_preorder p) ++ go ps'
        end) ps)).
Proof.
  induction 1 as [|p ps Hp _ IH]; [done|].
  rewrite map_app, concat_nil_app, map_map, Hp, IH. do 2 f_equal.
  apply map_ext. intros kn. apply schema_line_shift.
Qed.

(** The output of the JSON format for one value, without its separator. *)
Definition json_item (value name : string) : string :=
  " " +:+ dq +:+ name +:+ dq +:+ ": " +:+ dq +:+ value +:+ dq.

Lemma format_value_json fm value name :
  fmt fm = Json ->
  format_value value name fm =
  Ok ((if first fm then "" else " " +:+ "," +:+ nl) +:+ json_item value name,
      {| fmt := fmt fm; limit := limit fm; first := false; count := count fm |}).
Proof.
  intros Hf. unfold format_value, formatJsonSeparator. rewrite Hf.
  destruct fm as [f l [] c]; simpl in *; subst; done.
Qed.

(** A caller's loop that formats each item in turn and collects the outputs. *)
Fixpoint format_each {A} (f : A -> Formatter -> result (string * Formatter)) (xs : list A)
    (fm : Formatter) : result (list string * Formatter) :=
  match xs with
  | [] => Ok ([], fm)
  | x :: xs' =>
      res <- f x fm ;;
      let '(s, fm1) := res in
      res2 <- format_each f xs' fm1 ;;
      let '(ss, fm2) := res2 in
      Ok (s :: ss, fm2)
  end.

Lemma format_each_json_rest l c (vns : list (string * string)) :
  format_each (fun vn fm => format_value vn.1 vn.2 fm) vns (mk_formatter Json l false c) =
  Ok (map (fun vn => " " +:+ "," +:+ nl +:+ json_item vn.1 vn.2) vns, mk_formatter Json l false c).
Proof.
  induction vns as [|vn vns IH]; [done|]. cbn [format_each].
  rewrite (format_value_json (mk_formatter Json l false c)) by done. rewrite bind_Ok.
  cbn [fmt limit first count]. rewrite IH, bind_Ok. cbn [map]. by rewrite string_app_assoc.
Qed.

(** The message of the second query in the CSV and TAB formats. *)
Definition single_query_error (f : Format) : string :=
  match f with
  | Tab => "TAB format does not support multiple queries"
  | _ => "CVS format does not support multiple queries"
  end.

(** [t] occurs in [s]. *)
Definition string_infix (t s : string) : Prop := exists pre post, s = pre +:+ t +:+ post.

Lemma string_infix_app_l t a b : string_infix t b -> string_infix t (a +:+ b).
Proof. intros (pre & post & ->). exists (a +:+ pre), post. by rewrite string_app_assoc. Qed.

(** A schema node's output ends with the formatter's [close]. *)
Lemma full_format_close c d indent frst :
  exists x, full_format c d indent frst = x +:+ fc_close c.
Proof.
  destruct d as [n [|p ps]]; cbn [full_format sd_parent sd_name];
    eexists; rewrite <-!string_app_assoc; reflexivity.
Qed.

Lemma full_list_close c indent frst ds :
  ds <> [] -> exists x, full_list c indent frst ds = x +:+ fc_close c.
Proof.
  revert frst. induction ds as [|d ds IH]; intros frst Hds; [done|].
  destruct ds as [|d' ds'].
  - destruct (full_format_close c d indent frst) as [x Hx].
    exists x. cbn [full_list]. by rewrite Hx, string_app_nil_r.
  - destruct (IH false) as [x Hx]; [done|].
    exists (full_format c d indent frst +:+ x). cbn [full_list] in Hx |- *.
    by rewrite Hx, string_app_assoc.
Qed.

(** The loop over [layouts[i]] is the loop over the layouts it reads. *)
Lemma first_loop_at_mapR {R} b sep f (layouts : list (@SpotLayout R)) idx :
  first_loop_at b sep f layouts idx =
  (ls <- mapR (fun i => vat layouts i "layouts[i]") idx ;; Ok (first_loop b sep f ls)).
Proof.
  revert b. induction idx as [|i idx IH]; intros b; [done|]. cbn [first_loop_at mapR].
  destruct (vat layouts i _); [|done]. rewrite !bind_Ok, IH.
  destruct (mapR _ idx); done.
Qed.

(** The layouts [format] shows: the first [limit] of them, all when [limit] is 0. *)
Definition shown_layouts {R} (fm : Formatter) (layouts : list (@SpotLayout R)) : list (@SpotLayout R) :=
  if Nat.eqb (limit fm) 0 then layouts else take (limit fm) layouts.

(** The indices [0 .. count) are all in range, and read the shown layouts. *)
Lemma layouts_read {R} (fm : Formatter) (layouts : list (@SpotLayout R)) :
  mapR (fun i => vat layouts i "layouts[i]") (seq 0 (layout_count fm layouts)) =
  Ok (shown_layouts fm layouts).
Proof.
  unfold layout_count, shown_layouts.
  destruct (Nat.eqb_spec (limit fm) 0) as [H0|H0]; cbn [negb andb].
  - rewrite mapR_vat_seq_take by lia. by rewrite drop_0, take_ge.
  - destruct (Nat.ltb_spec (limit fm) (length layouts)); rewrite mapR_vat_seq_take by lia;
      rewrite drop_0; [done|]. by rewrite !take_ge by lia.
Qed.

(** ** Properties *)

(** C34. [JoinPlatforms] writes each platform between the prefix and the
    suffix and puts the separator between consecutive platforms, and
    nowhere else: it is [String.concat] of the decorated platforms. *)
Theorem JoinPlatforms_concat ps sep prefix suffix :
  JoinPlatforms ps sep prefix suffix = String.concat sep (map (platform_item prefix suffix) ps).
Proof. unfold JoinPlatforms. rewrite join_from_concat. by destruct ps. Qed.

Lemma StringToFormat_option s f :
  StringToFormat s = Ok f <-> format_option f = Some (lowercase s).
Proof.
  unfold StringToFormat. generalize (lowercase s) as ls. intros ls.
  repeat match goal with |- context [String.eqb ls ?t] =>
    destruct (String.eqb_spec ls t) as [->|] end;
    destruct f; split; intros H; simplify_eq/=; congruence.
Qed.

Lemma upper_letter_code d :
  is_lower_letter d = true -> Ascii.nat_of_ascii (upper_letter d) + 32 = Ascii.nat_of_ascii d.
Proof. destruct d as [[] [] [] [] [] [] [] []]; vm_compute; congruence. Qed.

Lemma nat_of_ascii_inj c d : Ascii.nat_of_ascii c = Ascii.nat_of_ascii d -> c = d.
Proof. intros H. by rewrite <-(Ascii.ascii_nat_embedding c), H, Ascii.ascii_nat_embedding. Qed.

(** [tolower] sends exactly a lower-case letter and its upper-case form
    to the letter. *)
Lemma ascii_tolower_letter c d :
  is_lower_letter d = true -> ascii_tolower c = d <-> c = d \/ c = upper_letter d.
Proof.
  intros Hd. pose proof (upper_letter_code d Hd) as Hu.
  pose proof (Ascii.nat_ascii_bounded c). unfold is_lower_letter in Hd.
  apply andb_true_iff in Hd as [Hd1 Hd2]. apply Nat.leb_le in Hd1, Hd2.
  unfold ascii_tolower. destruct ((65 <=? _) && _) eqn:E.
  - apply andb_true_iff in E as [E1 E2]. apply Nat.leb_le in E1, E2. split.
    + intros <-. right. apply nat_of_ascii_inj. rewrite Ascii.nat_ascii_embedding in Hu; lia.
    + intros [-> | ->]; [lia|]. apply nat_of_ascii_inj. rewrite Ascii.nat_ascii_embedding; lia.
  - apply andb_false_iff in E. rewrite !Nat.leb_gt in E. split; [by left|].
    intros [-> | ->]; [done|]. lia.
Qed.

Lemma map_tolower_letters l ns :
  Forall (fun d => is_lower_letter d = true) ns ->
  map ascii_tolower l = ns <-> Forall2 (fun c d => c = d \/ c = upper_letter d) l ns.
Proof.
  revert ns. induction l as [|c l IH]; intros [|d ns] Hl; cbn [map].
  - split; [constructor | done].
  - split; intros H; [discriminate | inversion H].
  - split; intros H; [discriminate | inversion H].
  - inversion_clear Hl as [|? ? Hd Hns]. rewrite Forall2_cons. split.
    + intros H. injection H as H1 H2. split; [by apply ascii_tolower_letter | by apply IH].
    + intros [H1 H2]. f_equal; [by apply ascii_tolower_letter | by apply IH].
Qed.

Lemma lowercase_case_variant v name :
  Forall (fun d => is_lower_letter d = true) (String.list_ascii_of_string name) ->
  lowercase v = name <-> case_variant v name.
Proof.
  unfold lowercase, case_variant. intros Hl. rewrite <-map_tolower_letters by done.
  split.
  - intros <-. by rewrite String.list_ascii_of_string_of_list_ascii.
  - intros ->. apply String.string_of_list_ascii_of_string.
Qed.

Lemma format_option_lower f name :
  format_option f = Some name -> Forall (fun d => is_lower_letter d = true) (String.list_ascii_of_string name).
Proof. destruct f; cbn; intros H; simplify_eq; cbn; repeat constructor. Qed.

(** C35. [StringToFormat] accepts exactly the four option names spelt
    with each letter in either case: it returns [f] iff the value is a
    case variant of the name of [f] (so never [Default]), and for any
    other value it throws [Invalid value for the --format option]. *)
Theorem StringToFormat_spec v :
  (forall f, StringToFormat v = Ok f <-> exists name, format_option f = Some name /\ case_variant v name) /\
  ((forall f name, format_option f = Some name -> ~ case_variant v name) ->
   StringToFormat v = Err (FThrow 0 ("Invalid value for the --format option: " +:+ v))).
Proof.
  split.
  - intros f. rewrite StringToFormat_option. split.
    + intros H. exists (lowercase v). split; [done|].
      by apply lowercase_case_variant; [apply (format_option_lower f)|].
    + intros (name & Hf & Hv). rewrite Hf. f_equal. symmetry.
      by apply lowercase_case_variant; [apply (format_option_lower f)|].
  - intros H. destruct (StringToFormat v) as [f|] eqn:E.
    + exfalso. apply StringToFormat_option in E.
      apply (H f (lowercase v) E), lowercase_case_variant; [by apply (format_option_lower f)|done].
    + revert E. unfold StringToFormat. by repeat case_match.
Qed.

(** In the JSON format, a run of [format] calls on a new formatter
    writes the first item bare and every later item after the separator
    [" ,"] and a line break. *)
Theorem format_values_json l (vns : list (string * string)) :
  format_each (fun vn fm => format_value vn.1 vn.2 fm) vns (new_formatter Json l) =
  Ok (match vns with
      | [] => []
      | vn :: vns' => json_item vn.1 vn.2 ::
                      map (fun vn => " " +:+ "," +:+ nl +:+ json_item vn.1 vn.2) vns'
      end,
      mk_formatter Json l (bool_decide (vns = [])) 0).
Proof.
  destruct vns as [|vn vns]; [done|]. cbn [format_each].
  rewrite format_value_json, bind_Ok by done. cbn [fmt limit first count].
  by rewrite format_each_json_rest, bind_Ok.
Qed.

(** The CSV and TAB formats answer one query: on a new formatter
    the first value is written as it is, and every later value or
    platform list throws the format's error. *)
Theorem single_query f l value name :
  f = CSV \/ f = Tab ->
  exists fm1, format_value value name (new_formatter f l) = Ok (value, fm1) /\
    (forall value' name', format_value value' name' fm1 = Err (FThrow 0 (single_query_error f))) /\
    (forall ps, format_platforms ps fm1 = Err (FThrow 0 (single_query_error f))).
Proof. intros [-> | ->]; eexists; split_and!; done. Qed.

Lemma single_query_witness :
  exists fm1, format_value "ILLUMINA" "PLATFORM" (new_formatter CSV 0) = Ok ("ILLUMINA", fm1) /\
    (forall value' name', format_value value' name' fm1 = Err (FThrow 0 (single_query_error CSV))) /\
    (forall ps, format_platforms ps fm1 = Err (FThrow 0 (single_query_error CSV))).
Proof. apply single_query. by left. Defined.

(** C36. The default schema output lists the nodes of the tree in
    preorder, one per line, each indented by [indent] plus its depth. *)
Theorem simple_format_preorder space d indent :
  simple_format space d indent =
  String.concat "" (map (schema_line space indent) (schema_preorder d)).
Proof.
  revert indent. induction d as [n ps Hps] using SchemaData_ind'. intros indent.
  cbn [simple_format schema_preorder sd_name sd_parent].
  rewrite map_cons, concat_nil_cons, <-simple_format_children by done.
  unfold schema_line. cbn [fst snd]. rewrite Z.add_0_r. by rewrite !string_app_assoc.
Qed.

(** In the JSON schema output, the bracket that closes the list of
    databases is written on the line of the last database's closing
    brace ([}  ],]), while the list of tables is closed after a line
    break: the closing is not symmetric for a non-empty [db] list. *)
Theorem format_schema_json_dbs_close info fm :
  fmt fm = Json -> si_db info <> [] ->
  exists s fm', format_schema info fm = Ok (s, fm') /\ string_infix ("}" +:+ "  ]," +:+ nl) s.
Proof.
  intros Hf Hdb. destruct (full_list_close (json_cfg "Db") 3 true (si_db info) Hdb) as [x Hx].
  unfold format_schema. rewrite Hf. destruct (formatJsonSeparator fm) as [sep fm'].
  eexists _, fm'. split; [reflexivity|]. rewrite Hx.
  repeat match goal with
         | |- string_infix _ ((x +:+ _) +:+ _) => fail 1
         | |- string_infix _ (_ +:+ _) => apply string_infix_app_l
         end.
  eexists x, _. rewrite !string_app_assoc. reflexivity.
Qed.

(** A database with one parent, no table and no view. *)
Definition sra_db_schema : SchemaInfo :=
  mk_schema_info [mkSchemaData "NCBI:SRA:db" [mkSchemaData "NCBI:db" []]] [] [].

Lemma format_schema_json_dbs_close_witness :
  (fmt (new_formatter Json 0) = Json /\ si_db sra_db_schema <> []) /\
  exists s fm', format_schema sra_db_schema (new_formatter Json 0) = Ok (s, fm') /\
    string_infix ("}" +:+ "  ]," +:+ nl) s.
Proof.
  split; [split; [reflexivity | discriminate]|].
  apply format_schema_json_dbs_close; [reflexivity | discriminate].
Defined.

Section SpotLayoutProperties.
Context {ReadStructure : Type}.
Context (Encode TypeAsString : Detail -> ReadStructure -> string).
Context (rs_length : ReadStructure -> N).

(** C16. [format(SpotLayouts, detail)] shows the first [limit] layouts
    (all of them when [limit] is 0 or at least their number) without
    reading past the end of the vector, the default format one per
    line, the JSON format separated by [","] and a line break, the
    CSV, TAB and XML formats one after the other. *)
Theorem format_layouts_shown (layouts : list (@SpotLayout ReadStructure)) detail fm :
  format_layouts Encode TypeAsString rs_length layouts detail fm =
  let ls := shown_layouts fm layouts in
  match fmt fm with
  | Default => Ok (String.concat nl (map (layout_default Encode detail) ls), fm)
  | Json =>
      let '(separator, fm') := formatJsonSeparator fm in
      Ok ((if String.eqb separator "" then "" else " " +:+ separator +:+ nl) +:+ " " +:+ dq
          +:+ "SPOTS" +:+ dq +:+ ": [" +:+ nl
          +:+ String.concat ("," +:+ nl) (map (layout_json Encode TypeAsString rs_length detail) ls)
          +:+ nl +:+ " ]" +:+ nl, fm')
  | CSV =>
      fm' <- expectSingleQuery "CVS format does not support multiple queries" fm ;;
      Ok (String.concat "" (map (layout_sv Encode TypeAsString rs_length ", " detail) ls), fm')
  | Tab =>
      fm' <- expectSingleQuery "TAB format does not support multiple queries" fm ;;
      Ok (String.concat "" (map (layout_sv Encode TypeAsString rs_length tab detail) ls), fm')
  | XML =>
      Ok (" <SPOTS>" +:+ nl +:+ String.concat "" (map (layout_xml Encode TypeAsString rs_length detail) ls)
          +:+ " </SPOTS>", fm)
  end.
Proof.
  unfold format_layouts, concat_at. rewrite !first_loop_at_mapR, layouts_read, !bind_Ok.
  cbv zeta. destruct (fmt fm); rewrite ?first_loop_concat.
  - by destruct (shown_layouts fm layouts).
  - by destruct (expectSingleQuery _ fm).
  - done.
  - destruct (formatJsonSeparator fm). by destruct (shown_layouts fm layouts).
  - by destruct (expectSingleQuery _ fm).
Qed.
End SpotLayoutProperties.

(** Two layouts, a [limit] of 1: one line, for the first layout. *)
Definition demo_layouts : list (@SpotLayout (string * N)) :=
  [mkSpotLayout 3 [("B", 101%N); ("T", 101%N)]; mkSpotLayout 1 [("B", 50%N)]].

Example format_layouts_limit_run :
  format_layouts (fun _ r => r.1) (fun _ r => r.1) snd demo_layouts Short (new_formatter Default 1) =
  Ok ("SPOT: 3 spots: 2 reads", new_formatter Default 1) /\
  format_layouts (fun _ r => r.1) (fun _ r => r.1) snd demo_layouts Abbreviated (new_formatter Default 0) =
  Ok ("SPOT: 3 spots: BT" +:+ nl +:+ "SPOT: 1 spot: B", new_formatter Default 0).
Proof. split; vm_compute; reflexivity. Qed.

(** [--format JsOn] selects JSON. *)
Lemma StringToFormat_spec_witness : case_variant "JsOn" "json" /\ StringToFormat "JsOn" = Ok Json.
Proof.
  assert (H : case_variant "JsOn" "json").
  { cbn. repeat (constructor; [first [left; reflexivity | right; reflexivity] |]). constructor. }
  split; [exact H|].
  apply (proj1 (StringToFormat_spec "JsOn") Json). exists "json". split; [reflexivity | exact H].
Defined.
