(* ===== verification/Klib.v ===== *)
(** * Klib: the C conventions and library contracts the tools share

    Return codes ([rc_t] of [klib/rc.h]) with the field accessors, C
    strings as lists of characters, the string helpers of [klib/text.h]
    and of fasterq-dump's [helper.c], the path types of [kdb/manager.h],
    the exit codes of [sysexits.h] and [PATH_MAX].  Apart from the
    fallback [PATH_MAX] of [inspector.c], none of this code is in the
    repository: each definition states the contract the callers in
    [inspector.c] and [sra-redact.hpp] rely on. *)

From S2P Require Import Prelude.

(** [rc_t]: 0 is success. *)
Definition rc_t := Z.

(** A NUL-terminated [char] array, without its terminator. *)
Definition cstr := list ascii.
Definition cs (s : string) : cstr := String.list_ascii_of_string s.

(** [PATH_MAX] from [limits.h], 4096 when undefined ([inspector.c]). *)
Definition PATH_MAX : nat := 4096.

(** [GetRCObject] and [GetRCState] of [klib/rc.h]: bits 6 to 13 and 0 to 5. *)
Definition GetRCObject (rc : rc_t) : Z := Z.land (Z.shiftr rc 6) 0xFF.
Definition GetRCState (rc : rc_t) : Z := Z.land rc 0x3F.

(** [sysexits.h]. *)
Definition EX_DATAERR : Z := 65.
Definition EX_NOINPUT : Z := 66.
Definition EX_SOFTWARE : Z := 70.
Definition EX_IOERR : Z := 74.
Definition EX_TEMPFAIL : Z := 75.

(** ** String helpers ([helper.c] of fasterq-dump, [klib/text.h]) *)

(** [ends_in_slash]: the last character is ['/']. *)
Definition ends_in_slash (s : cstr) : bool :=
  match last s with Some c => bool_decide (c = "/"%char) | None => false end.

(** [ends_in_sra]: the name ends in [.sra]. *)
Definition ends_in_sra (s : cstr) : bool :=
  (4 <=? length s) && bool_decide (drop (length s - 4) s = cs ".sra").

(** [string_rchr(s, size, c)]: the index of the last [c]. *)
Fixpoint string_rchr (s : cstr) (c : ascii) : option nat :=
  match s with
  | [] => None
  | x :: s' =>
      match string_rchr s' c with
      | Some i => Some (S i)
      | None => if decide (x = c) then Some 0 else None
      end
  end.

(** [string_dup(s, n)]: a copy of the first [n] characters. *)
Definition string_dup (s : cstr) (n : nat) : cstr := take n s.

(** [string_copy_measure(dst, size, s)]: at most [size - 1] characters. *)
Definition string_copy_measure (size : nat) (s : cstr) : cstr := take (size - 1) s.

(** [strcase_cmp(a, n, b, n, n) == 0]: equal ignoring letter case. *)
Definition strcase_eq (a b : cstr) : bool :=
  bool_decide (map ascii_tolower a = map ascii_tolower b).

(** [kpt...] path types of [kdb/manager.h] and [SRA_PLATFORM_PACBIO_SMRT]
    of [insdc/sra.h]. *)
Definition kptDatabase : Z := 11.
Definition kptTable : Z := 12.
Definition kptPrereleaseTbl : Z := 16.
Definition kptAlias : Z := 128.
Definition SRA_PLATFORM_PACBIO_SMRT : Z := 6.

