(* ===== verification/Inspector.v ===== *)
(** * Inspector: what fasterq-dump learns about an accession

    [src/tools/fasterq-dump/inspector.c] finds an accession's location
    (local or remote) and size, and its kind (flat table, SRA database,
    cSRA with alignments, PacBio), and extracts an accession name from a
    path.  It is a chain of calls into the VFS, KNS and VDB libraries
    whose results are return codes ([rc_t], 0 for success) and objects.

    The libraries are not in the repository: the class [VfsEnv] states
    what the file needs of them, one field per call, for the accession
    being inspected (the objects a call receives are named by the string
    they were made from).  The file's functions are translated against
    that interface, so every theorem holds whatever the libraries
    answer.  Calls whose return code the file only logs ([ErrMsg],
    [KOutMsg]) are left out, as are releases whose code is dropped. *)

From S2P Require Import Prelude Klib.

(** [rc = ( 0 == rc ) ? rc2 : rc]: a release's code replaces only a success. *)
Definition rc_keep (rc rc2 : rc_t) : rc_t := if Z.eqb rc 0 then rc2 else rc.

(** [acc_type_t] of [inspector.h]. *)
Inductive acc_type_t := acc_csra | acc_pacbio | acc_sra_flat | acc_sra_db | acc_none.

#[export] Instance acc_type_eq_dec : EqDecision acc_type_t.
Proof. solve_decision. Defined.

(** [inspector_input_t]: the directory and manager pointers (set or
    [NULL]) and the two names. *)
Record inspector_input := mk_input {
  dir : bool;
  vdb_mgr : bool;
  accession_short : option cstr;
  accession_path : option cstr
}.

(** [inspector_output_t]. *)
Record inspector_output := mk_output {
  is_remote : bool;
  acc_size : Z;
  acc_type : acc_type_t;
  seq_tbl_name : option cstr
}.

Definition set_location (o : inspector_output) (remote : bool) (size : Z) : inspector_output :=
  mk_output remote size (acc_type o) (seq_tbl_name o).
Definition set_acc_size (o : inspector_output) (size : Z) : inspector_output :=
  mk_output (is_remote o) size (acc_type o) (seq_tbl_name o).
Definition set_acc_type (o : inspector_output) (t : acc_type_t) : inspector_output :=
  mk_output (is_remote o) (acc_size o) t (seq_tbl_name o).
Definition set_seq_tbl_name (o : inspector_output) (n : option cstr) : inspector_output :=
  mk_output (is_remote o) (acc_size o) (acc_type o) n.

(** ** The loop test of [inspector_extract_acc_from_path_v2] *)

(** [strchr("\\/", c) != NULL]: a path separator, or the terminator that
    [strchr] also finds. *)
Definition is_separator (c : ascii) : bool :=
  bool_decide (c = "\"%char \/ c = "/"%char \/ c = "000"%char).

(** ** The libraries, as the inspector sees them *)

Class VfsEnv := {
  (** [VFSManagerMake], [VFSManagerRelease]. *)
  vfs_manager_make : rc_t;
  vfs_manager_release : rc_t;
  (** [VFSManagerMakePath(mgr, &p, "%s", s)] and [VPathRelease] of it. *)
  vfs_make_path : cstr -> rc_t;
  vpath_release : cstr -> rc_t;
  (** [VFSManagerExtractAccessionOrOID] on the path made from [s]: the
      code and the accession's path. *)
  vfs_extract_acc : cstr -> rc_t * cstr;
  (** [VPathReadPath(p, buffer, n, &num_read)]. *)
  vpath_read_path : cstr -> nat -> rc_t * cstr;
  (** [VFSManagerGetResolver], [VResolverRelease]. *)
  vfs_get_resolver : rc_t;
  vresolver_release : rc_t;
  (** [VResolverQuery] for [accession], asking for the remote location
      too when the flag is set: the code, the local and the remote path. *)
  vresolver_query : cstr -> bool -> rc_t * option cstr * option cstr;
  (** [VPathMakeString] of a resolved path. *)
  vpath_make_string : cstr -> rc_t * option cstr;
  (** [VFSManagerResolvePath(mgr, vfsmgr_rflag_kdb_acc, ...)]. *)
  vfs_resolve_path : cstr -> rc_t;
  (** [KDirectoryOpenFileRead] or [KNSManagerMakeHttpFile] (remote), then
      [KFileSize]. *)
  open_file : cstr -> bool -> rc_t;
  file_size : cstr -> bool -> Z;
  (** [VDBManagerPathType]. *)
  vdb_path_type : cstr -> Z;
  (** [VDBManagerOpenDBReadVPath], [VDatabaseRelease]. *)
  vdb_open_db : cstr -> rc_t;
  vdb_release_db : rc_t;
  (** [VDatabaseListTbl] and [VNamelistFromKNamelist]. *)
  vdb_list_tbl : rc_t * list cstr;
  vnamelist_from_knamelist : rc_t;
  (** The PLATFORM column of the SEQUENCE table: opening the table, the
      cursor and the column, [VCursorIdRange] (code, first, count) and
      [VCursorCellDataDirect] of a row (code, [elem_bits], [boff], the
      values or [NULL]). *)
  vdb_open_table : cstr -> rc_t;
  vtbl_create_cursor : rc_t;
  vcursor_add_column : cstr -> rc_t;
  vcursor_open : rc_t;
  vcursor_id_range : rc_t * Z * Z;
  vcursor_cell : Z -> rc_t * Z * Z * option (list Z);
  (** [string_printf] into a buffer too small for the text, and
      [RC(rcApp, rcNoTarg, rcConstructing, rcParam, rcInvalid)]. *)
  rc_insufficient : rc_t;
  rc_param_invalid : rc_t;
  rc_insufficient_nz : rc_insufficient <> 0%Z;
  rc_param_invalid_nz : rc_param_invalid <> 0%Z
}.

Section Inspector.
Context `{E : VfsEnv}.

(** ** Accession from a path *)

(** [inspector_extract_acc_from_path_v1]: the part after the last ['/'],
    without [.sra]; nothing for [NULL] or a path ending in ['/']. *)
Definition inspector_extract_acc_from_path_v1 (s : option cstr) : option cstr :=
  match s with
  | Some s =>
      if ends_in_slash s then None
      else
        let size := length s in
        match string_rchr s "/"%char with
        | None => if ends_in_sra s then Some (string_dup s (size - 4)) else Some (string_dup s size)
        | Some i =>
            let tmp := drop (S i) s in
            if ends_in_sra tmp then Some (string_dup tmp (length tmp - 4))
            else Some (string_dup tmp (length tmp))
        end
  | None => None
  end.

(** [while ( l > 0 && strchr( "\\/", basename[ l - 1 ]) != NULL ) basename[ --l ] = '\0';] *)
Fixpoint strip_separators (b : cstr) (l : nat) : nat :=
  match l with
  | 0 => 0
  | S l' => if is_separator (nth l' b "000"%char) then strip_separators b l' else l
  end.

(** The retry of [inspector_extract_acc_from_path_v2]: the path copied
    into [P_option_buffer] and cut before its trailing separators. *)
Definition trailing_stripped (s : cstr) : cstr :=
  let buf := string_copy_measure PATH_MAX s in
  take (strip_separators buf (length buf)) buf.

(** The accession's path and the code after the first attempt and, when
    it fails, the retry. *)
Definition extract_acc_or_oid (s : cstr) : rc_t * cstr :=
  let '(rc, acc_or_oid) := vfs_extract_acc s in
  if Z.eqb rc 0 then (rc, acc_or_oid)
  else
    let buf := trailing_stripped s in
    let rc := vfs_make_path buf in
    if Z.eqb rc 0 then
      let '(rc, acc) := vfs_extract_acc buf in
      (rc_keep rc (vpath_release buf), acc)
    else (rc, acc_or_oid).

(** [inspector_extract_acc_from_path_v2]: the accession as the VFS
    manager extracts it, read into a buffer of 1024 bytes. *)
Definition inspector_extract_acc_from_path_v2 (s : cstr) : option cstr :=
  if Z.eqb vfs_manager_make 0 then
    if Z.eqb (vfs_make_path s) 0 then
      let '(rc, acc_or_oid) := extract_acc_or_oid s in
      if Z.eqb rc 0 then
        let '(rc, buffer) := vpath_read_path acc_or_oid 1024 in
        if Z.eqb rc 0 then Some buffer else None
      else None
    else None
  else None.

(** [inspector_extract_acc_from_path]: the VFS manager's answer, else the
    textual one. *)
Definition inspector_extract_acc_from_path (s : cstr) : option cstr :=
  match inspector_extract_acc_from_path_v2 s with
  | Some res => Some res
  | None => inspector_extract_acc_from_path_v1 (Some s)
  end.

(** ** Resolving an accession *)

(** [starts_with(a, b)]: [b] is a prefix of [a], ignoring case. *)
Definition starts_with (a b : cstr) : bool :=
  if length b <=? length a then strcase_eq (take (length b) a) b else false.

(** [VPathMakeString] of the resolved path and its copy into [dst]:
    [dst[path->size] = 0] writes past a buffer of [dst_size] bytes when
    the path does not fit. *)
Definition resolve_path_string (v : cstr) (dst_size : nat) : result (rc_t * cstr) :=
  let '(rc, path) := vpath_make_string v in
  match path with
  | Some p =>
      if Z.eqb rc 0 then
        if length p <? dst_size then Ok (rc, p) else Err (FUndefined "dst[path->size]")
      else Ok (rc, [])
  | None => Ok (rc, [])
  end.

(** The [VResolverQuery] step: the local path, else the remote one. *)
Definition resolve_query (accession : cstr) (dst_size : nat) (remotely : bool)
  : result (rc_t * cstr) :=
  let '(rc, local, remote) := vresolver_query accession remotely in
  let remote := if remotely then remote else None in
  match local, remote with
  | Some l, _ => if Z.eqb rc 0 then resolve_path_string l dst_size else Ok (rc, [])
  | None, Some r => if Z.eqb rc 0 then resolve_path_string r dst_size else Ok (rc, [])
  | None, None => Ok (rc, [])
  end.

(** The [ncbi-acc:] scheme removed from a resolved name. *)
Definition strip_ncbi_acc (rc : rc_t) (dst : cstr) : cstr :=
  if Z.eqb rc 0 && starts_with dst (cs "ncbi-acc:") then drop 9 dst else dst.

(** [resolve_accession(accession, dst, dst_size, remotely)]: the code and
    the text left in [dst]. *)
Definition resolve_accession (accession : cstr) (dst_size : nat) (remotely : bool)
  : result (rc_t * cstr) :=
  res <- (if Z.eqb vfs_manager_make 0 then
            res <- (if Z.eqb vfs_get_resolver 0 then
                      res <- (let rc := vfs_make_path accession in
                              if Z.eqb rc 0 then
                                res <- resolve_query accession dst_size remotely ;;
                                Ok (rc_keep res.1 (vpath_release accession), res.2)
                              else Ok (rc, [])) ;;
                      Ok (rc_keep res.1 vresolver_release, res.2)
                    else Ok (vfs_get_resolver, [])) ;;
            Ok (rc_keep res.1 vfs_manager_release, res.2)
          else Ok (vfs_manager_make, [])) ;;
  Ok (res.1, strip_ncbi_acc res.1 res.2).

(** [get_file_size(dir, path, remotely)]: 0 when the file cannot be opened. *)
Definition get_file_size (path : cstr) (remotely : bool) : Z :=
  if Z.eqb (open_file path remotely) 0 then file_size path remotely else 0.

(** [string_printf(p, sizeof p, &written, "%s/%s", a, b)]. *)
Definition string_printf_path (a b : cstr) : rc_t * cstr :=
  let p := a ++ cs "/" ++ b in
  if length p <? PATH_MAX then (0%Z, p) else (rc_insufficient, []).

(** [inspect_location_and_size]: local first, with the accession's name
    appended when the local path is a directory; remote otherwise. *)
Definition inspect_location_and_size (short path : cstr) (o : inspector_output)
  : result (rc_t * inspector_output) :=
  res <- resolve_accession path PATH_MAX false ;;
  let '(rc, resolved) := res in
  if Z.eqb rc 0 then
    let o := set_location o false (get_file_size resolved false) in
    if Z.eqb (acc_size o) 0 then
      let '(rc, p) := string_printf_path resolved short in
      if Z.eqb rc 0 then Ok (rc, set_acc_size o (get_file_size p false)) else Ok (rc, o)
    else Ok (rc, o)
  else
    res <- resolve_accession path PATH_MAX true ;;
    let '(rc, resolved) := res in
    if Z.eqb rc 0 then Ok (rc, set_location o true (get_file_size resolved true))
    else Ok (rc, o).

(** ** The kind of accession *)

(** [inspector_path_to_vpath]: the code of resolving [path] to a VPath. *)
Definition inspector_path_to_vpath (path : cstr) : rc_t :=
  let rc := vfs_manager_make in
  if Z.eqb rc 0 then
    let rc := vfs_make_path path in
    let rc := if Z.eqb rc 0 then rc_keep (vfs_resolve_path path) (vpath_release path) else rc in
    rc_keep rc vfs_manager_release
  else rc.

(** [inspector_open_db]. *)
Definition inspector_open_db (path : cstr) : rc_t :=
  let rc := inspector_path_to_vpath path in
  if Z.eqb rc 0 then rc_keep (vdb_open_db path) (vpath_release path) else rc.

(** [inspector_release_db(db, rc, ...)]. *)
Definition inspector_release_db (rc : rc_t) : rc_t := rc_keep rc vdb_release_db.

(** [contains(tables, table)]: [VNamelistIndexOf] finds the name. *)
Definition contains (tables : list cstr) (table : cstr) : bool := bool_decide (table ∈ tables).

(** [inspect_db_platform]: the first PLATFORM value of the SEQUENCE table,
    when the cell is read with [elem_bits == 0], [boff == 0] and at
    least one value. *)
Definition inspect_db_platform : option Z :=
  if Z.eqb (vdb_open_table (cs "SEQUENCE")) 0 && Z.eqb vtbl_create_cursor 0
     && Z.eqb (vcursor_add_column (cs "PLATFORM")) 0 && Z.eqb vcursor_open 0 then
    let '(rc, first, count) := vcursor_id_range in
    if Z.eqb rc 0 && (0 <? count)%Z then
      let '(rc, elem_bits, boff, values) := vcursor_cell first in
      match values with
      | Some (v :: _) =>
          if Z.eqb rc 0 && Z.eqb elem_bits 0 && Z.eqb boff 0 then Some v else None
      | _ => None
      end
    else None
  else None.

Definition SEQ_TBL_NAME : cstr := cs "SEQUENCE".
Definition CONS_TBL_NAME : cstr := cs "CONSENSUS".

(** The decision [inspect_db_type] takes on the table list. *)
Definition db_type_of_tables (tables : list cstr) (o : inspector_output)
  : acc_type_t * inspector_output :=
  if contains tables SEQ_TBL_NAME then
    let o := set_seq_tbl_name o (Some SEQ_TBL_NAME) in
    if contains tables (cs "PRIMARY_ALIGNMENT") && contains tables (cs "REFERENCE") then
      (acc_csra, o)
    else
      let has_cons_tbl := contains tables CONS_TBL_NAME in
      if has_cons_tbl || contains tables (cs "ZMW_METRICS") || contains tables (cs "PASSES") then
        (acc_pacbio, if has_cons_tbl then set_seq_tbl_name o (Some CONS_TBL_NAME) else o)
      else
        match inspect_db_platform with
        | Some pf => if Z.eqb pf SRA_PLATFORM_PACBIO_SMRT then (acc_pacbio, o) else (acc_sra_db, o)
        | None => (acc_sra_db, o)
        end
  else (acc_none, o).

(** [inspect_db_type]: the database's tables decide; [acc_none] when it
    cannot be opened or listed. *)
Definition inspect_db_type (path : cstr) (o : inspector_output) : acc_type_t * inspector_output :=
  if Z.eqb (inspector_open_db path) 0 then
    let '(rc, tables) := vdb_list_tbl in
    if Z.eqb rc 0 && Z.eqb vnamelist_from_knamelist 0 then db_type_of_tables tables o
    else (acc_none, o)
  else (acc_none, o).

(** [inspect_path_type_and_seq_tbl_name]. *)
Definition inspect_path_type_and_seq_tbl_name (path : cstr) (o : inspector_output)
  : acc_type_t * inspector_output :=
  let pt := vdb_path_type path in
  let o := set_seq_tbl_name o None in
  if Z.eqb pt kptDatabase then inspect_db_type path o
  else if Z.eqb pt kptPrereleaseTbl || Z.eqb pt kptTable then (acc_sra_flat, o)
  else (acc_none, o).

(** [inspect_csra] and [inspect_sra_db]: open the database and release it. *)
Definition inspect_csra (path : cstr) : rc_t :=
  let rc := inspector_open_db path in
  if Z.eqb rc 0 then inspector_release_db rc else rc.

Definition inspect_sra_db (path : cstr) : rc_t :=
  let rc := inspector_open_db path in
  if Z.eqb rc 0 then inspector_release_db rc else rc.

(** [inspect_sra_flat]. *)
Definition inspect_sra_flat : rc_t := 0%Z.

(** [inspect(input, output)]: the code and the output ([NULL] stays
    [NULL]). *)
Definition inspect (input : option inspector_input) (output : option inspector_output)
  : result (rc_t * option inspector_output) :=
  match input, output with
  | Some i, Some o =>
      if negb (dir i) || negb (vdb_mgr i) then Ok (rc_param_invalid, output)
      else
        match accession_short i, accession_path i with
        | Some short, Some path =>
            res <- inspect_location_and_size short path o ;;
            let '(rc, o) := res in
            if Z.eqb rc 0 then
              let '(t, o) := inspect_path_type_and_seq_tbl_name path o in
              let o := set_acc_type o t in
              let rc := match t with
                        | acc_csra => inspect_csra path
                        | acc_sra_flat => inspect_sra_flat
                        | acc_sra_db => inspect_sra_db path
                        | _ => rc
                        end in
              Ok (rc, Some o)
            else Ok (rc, Some o)
        | _, _ => Ok (rc_param_invalid, output)
        end
  | _, _ => Ok (rc_param_invalid, output)
  end.

End Inspector.

(** ** Lemmas *)

Lemma rc_keep_0_l rc2 : rc_keep 0%Z rc2 = rc2.
Proof. reflexivity. Qed.

Lemma rc_keep_nz rc rc2 : rc <> 0%Z -> rc_keep rc rc2 = rc.
Proof. unfold rc_keep. intros H. by rewrite (proj2 (Z.eqb_neq rc 0) H). Qed.

(** Releases keep the first failure: the code is 0 only when every step's is. *)
Lemma rc_keep_eq_0 rc rc2 : rc_keep rc rc2 = 0%Z <-> rc = 0%Z /\ rc2 = 0%Z.
Proof. unfold rc_keep. destruct (Z.eqb_spec rc 0); naive_solver. Qed.

#[export] Hint Rewrite rc_keep_0_l : sharq_rw.

Lemma contains_spec ts t : contains ts t = true <-> t ∈ ts.
Proof. unfold contains. apply bool_decide_eq_true. Qed.

(** Case analysis on the table tests, each turned into membership. *)
Ltac contains_cases ts :=
  repeat match goal with
  | |- context [contains ts ?x] => let H := fresh "Hc" in destruct (contains ts x) eqn:H
  end;
  repeat match goal with
  | H : contains ts _ = true |- _ => apply contains_spec in H
  | H : contains ts _ = false |- _ => apply not_true_iff_false in H; rewrite contains_spec in H
  end.

Lemma string_rchr_None s c : c ∉ s -> string_rchr s c = None.
Proof.
  induction s as [|x s IH]; intros Hc; [done|]. simpl.
  rewrite IH by set_solver. rewrite decide_False; [done|]. set_solver.
Qed.

Lemma string_rchr_app d b c : c ∉ b -> string_rchr (d ++ c :: b) c = Some (length d).
Proof.
  intros Hc. induction d as [|x d IH]; simpl.
  - by rewrite string_rchr_None, decide_True.
  - by rewrite IH.
Qed.

(** What [inspector_extract_acc_from_path_v1] keeps of a base name. *)
Definition strip_sra (b : cstr) : cstr := if ends_in_sra b then take (length b - 4) b else b.

Lemma ends_in_slash_nosep b : "/"%char ∉ b -> ends_in_slash b = false.
Proof.
  intros Hb. unfold ends_in_slash. destruct (last b) as [c|] eqn:Hl; [|done].
  apply bool_decide_eq_false_2. intros ->. by apply Hb, last_Some_elem_of.
Qed.

Section Loop.
Context (b : cstr).

(** The loop stops at [k]: every character in [k, l) is a separator, the
    one before [k] is not. *)
Lemma strip_separators_spec l :
  let k := strip_separators b l in
  k <= l /\ (forall j, k <= j < l -> is_separator (nth j b "000"%char) = true) /\
  (k = 0 \/ is_separator (nth (k - 1) b "000"%char) = false).
Proof.
  induction l as [|l IH]; simpl; [split_and!; [lia | lia | by left]|].
  destruct (is_separator (nth l b "000"%char)) eqn:Hs.
  - destruct IH as (Hk & Hj & Hlast). split_and!; [lia | | done].
    intros j Hjl. destruct (decide (j = l)) as [->|]; [done|]. apply Hj. lia.
  - split_and!; [lia | lia |]. right. by replace (S l - 1) with l by lia.
Qed.
End Loop.

Lemma drop_after_sep d (c : ascii) b : drop (S (length d)) (d ++ c :: b) = b.
Proof.
  replace (d ++ c :: b) with ((d ++ [c]) ++ b) by by rewrite <-app_assoc.
  apply drop_app_length'. rewrite length_app. simpl. lia.
Qed.

Lemma strip_sra_dup b :
  (if ends_in_sra b then Some (string_dup b (length b - 4)) else Some (string_dup b (length b)))
  = Some (strip_sra b).
Proof. unfold strip_sra, string_dup. destruct (ends_in_sra b); [done|]. by rewrite take_ge. Qed.

(** ** Properties *)

(** [inspector_extract_acc_from_path_v1] gives the base name of a path
    (the part after its last ['/']) without a [.sra] suffix, and nothing
    for a path that ends in ['/']. *)
Theorem extract_acc_v1_basename :
  (forall b, "/"%char ∉ b -> inspector_extract_acc_from_path_v1 (Some b) = Some (strip_sra b)) /\
  (forall d b, "/"%char ∉ b ->
     inspector_extract_acc_from_path_v1 (Some (d ++ "/"%char :: b)) =
     match b with [] => None | _ => Some (strip_sra b) end).
Proof.
  split.
  - intros b Hb. cbn [inspector_extract_acc_from_path_v1].
    rewrite ends_in_slash_nosep, string_rchr_None by done. apply strip_sra_dup.
  - intros d b Hb. cbn [inspector_extract_acc_from_path_v1].
    assert (Hs : ends_in_slash (d ++ "/"%char :: b) = bool_decide (b = [])).
    { unfold ends_in_slash. rewrite last_app_cons.
      destruct b as [|c b]; [done|]. rewrite last_cons_cons.
      pose proof (ends_in_slash_nosep (c :: b) Hb) as Hn. unfold ends_in_slash in Hn.
      rewrite Hn. by rewrite bool_decide_eq_false_2. }
    rewrite Hs, string_rchr_app, drop_after_sep by done.
    destruct b as [|c b]; [done|]. rewrite bool_decide_eq_false_2 by done. apply strip_sra_dup.
Qed.

Lemma extract_acc_v1_basename_witness :
  "/"%char ∉ cs "SRR1.sra" /\
  inspector_extract_acc_from_path_v1 (Some (cs "dir" ++ "/"%char :: cs "SRR1.sra")) = Some (cs "SRR1").
Proof.
  assert (H : "/"%char ∉ cs "SRR1.sra") by (apply (bool_decide_unpack _); vm_compute; reflexivity).
  split; [exact H|]. rewrite (proj2 extract_acc_v1_basename (cs "dir") (cs "SRR1.sra") H).
  reflexivity.
Defined.

(** The retry of [inspector_extract_acc_from_path_v2] works on the
    path cut to the 4095 characters [P_option_buffer] holds and stripped
    of its trailing separators: what is removed is separators only, and
    what is left does not end in one. *)
Theorem trailing_stripped_spec s :
  length (trailing_stripped s) <= PATH_MAX - 1 /\
  exists suf, take (PATH_MAX - 1) s = trailing_stripped s ++ suf /\
    Forall (fun c => is_separator c = true) suf /\
    (forall c, last (trailing_stripped s) = Some c -> is_separator c = false).
Proof.
  unfold trailing_stripped, string_copy_measure. set (buf := take (PATH_MAX - 1) s).
  destruct (strip_separators_spec buf (length buf)) as (Hk & Hj & Hl).
  set (k := strip_separators buf (length buf)) in *.
  split; [rewrite length_take; unfold buf; rewrite length_take; lia|].
  exists (drop k buf). split_and!; [by rewrite take_drop | |].
  - apply Forall_lookup. intros i x Hx. rewrite lookup_drop in Hx.
    pose proof (lookup_lt_Some _ _ _ Hx). apply nth_lookup_Some with (d := "000"%char) in Hx.
    rewrite <-Hx. apply Hj. lia.
  - intros c Hc. destruct (decide (k = 0)) as [Hk0|Hk0]; [by rewrite Hk0 in Hc|].
    destruct Hl as [|Hl]; [done|].
    rewrite last_lookup, length_take, lookup_take, decide_True in Hc by lia.
    apply nth_lookup_Some with (d := "000"%char) in Hc.
    replace (pred (min k (length buf))) with (k - 1) in Hc by lia. by rewrite <-Hc.
Qed.

Section Theorems.
Context `{E : VfsEnv}.

(** The element size of the PLATFORM cell of a row. *)
Definition cell_elem_bits (row : Z) : Z := let '(_, eb, _, _) := vcursor_cell row in eb.

Lemma inspect_db_platform_elem_bits :
  (forall row, cell_elem_bits row <> 0%Z) -> inspect_db_platform = None.
Proof.
  intros Hb. unfold inspect_db_platform.
  destruct (_ && _); [|done]. destruct vcursor_id_range as [[rc first] count].
  destruct (_ && _); [|done]. specialize (Hb first). unfold cell_elem_bits in Hb.
  destruct (vcursor_cell first) as [[[rc' eb] boff] values].
  destruct values as [[|v vs]|]; [done| |done].
  by rewrite (proj2 (Z.eqb_neq eb 0) Hb), andb_false_r, andb_false_l.
Qed.

(** [inspect_db_type] once the database is open and its tables listed. *)
Lemma inspect_db_type_listed path o ts :
  inspector_open_db path = 0%Z -> vdb_list_tbl = (0%Z, ts) -> vnamelist_from_knamelist = 0%Z ->
  inspect_db_type path o = db_type_of_tables ts o.
Proof. intros Ho Hl Hn. unfold inspect_db_type. by rewrite Ho, Hl, Hn. Qed.

(** The sequence-table name the inspector reports is a table of the
    database, and it reports one exactly when it classifies the
    accession as a cSRA, PacBio or SRA database. *)
Theorem inspect_type_seq_tbl_name path o :
  let '(t, o') := inspect_path_type_and_seq_tbl_name path o in
  (forall n, seq_tbl_name o' = Some n -> n ∈ vdb_list_tbl.2) /\
  (is_Some (seq_tbl_name o') <-> t = acc_csra \/ t = acc_pacbio \/ t = acc_sra_db).
Proof.
  unfold inspect_path_type_and_seq_tbl_name, inspect_db_type, db_type_of_tables.
  destruct vdb_list_tbl as [rc ts]. cbn [snd].
  repeat (case_match; simplify_eq/=); rewrite ?contains_spec in *; naive_solver.
Qed.
(** C30. Once the database is open and its tables listed, it is a cSRA
    exactly when it has SEQUENCE, PRIMARY_ALIGNMENT and REFERENCE tables,
    nothing ([acc_none]) exactly when it has no SEQUENCE table, and PacBio
    when, not being a cSRA, it has a SEQUENCE table and a CONSENSUS,
    ZMW_METRICS or PASSES table. *)
Theorem inspect_db_type_decision path o ts :
  inspector_open_db path = 0%Z -> vdb_list_tbl = (0%Z, ts) -> vnamelist_from_knamelist = 0%Z ->
  let t := (inspect_db_type path o).1 in
  (t = acc_none <-> SEQ_TBL_NAME ∉ ts) /\
  (t = acc_csra <-> SEQ_TBL_NAME ∈ ts /\ cs "PRIMARY_ALIGNMENT" ∈ ts /\ cs "REFERENCE" ∈ ts) /\
  (SEQ_TBL_NAME ∈ ts -> ~ (cs "PRIMARY_ALIGNMENT" ∈ ts /\ cs "REFERENCE" ∈ ts) ->
   CONS_TBL_NAME ∈ ts \/ cs "ZMW_METRICS" ∈ ts \/ cs "PASSES" ∈ ts -> t = acc_pacbio).
Proof.
  intros Ho Hl Hn. rewrite (inspect_db_type_listed path o ts) by done. cbv zeta.
  unfold db_type_of_tables. contains_cases ts; cbn [andb orb]; repeat case_match; cbn [fst];
    naive_solver.
Qed.

(** C31. [inspect_db_platform] accepts the PLATFORM cell only when
    [elem_bits] is 0, which an 8-bit column never reports: a database
    with a SEQUENCE table and none of the alignment or PacBio tables is
    an SRA database whatever platform its rows carry, PacBio included. *)
Theorem pacbio_platform_missed path o ts :
  inspector_open_db path = 0%Z -> vdb_list_tbl = (0%Z, ts) -> vnamelist_from_knamelist = 0%Z ->
  SEQ_TBL_NAME ∈ ts -> cs "PRIMARY_ALIGNMENT" ∉ ts -> CONS_TBL_NAME ∉ ts ->
  cs "ZMW_METRICS" ∉ ts -> cs "PASSES" ∉ ts ->
  (forall row, cell_elem_bits row <> 0%Z) ->
  (inspect_db_type path o).1 = acc_sra_db.
Proof.
  intros Ho Hl Hn Hs Hp Hc Hz Hpa Hb. rewrite (inspect_db_type_listed path o ts) by done.
  unfold db_type_of_tables. rewrite inspect_db_platform_elem_bits by done.
  contains_cases ts; cbn [andb orb]; naive_solver.
Qed.
(** [inspect] checks its arguments first: a [NULL] input, output,
    directory, manager or name gives [RC(rcApp, rcNoTarg, rcConstructing,
    rcParam, rcInvalid)] and leaves the output as it was. *)
Theorem inspect_null_argument input output :
  (input = None \/ output = None \/
   exists i, input = Some i /\
     (dir i = false \/ vdb_mgr i = false \/ accession_short i = None \/ accession_path i = None)) ->
  inspect input output = Ok (rc_param_invalid, output).
Proof.
  intros [-> | [-> | (i & -> & Hi)]]; [done | by destruct input |].
  destruct output as [o|]; [|done]. unfold inspect.
  destruct (dir i), (vdb_mgr i), (accession_short i), (accession_path i); naive_solver.
Qed.

(** C32. A database that cannot be opened is not an error of [inspect]:
    when the location is found and the path is a database, a failure to
    open it gives code 0 and the type [acc_none], with no sequence table. *)
Theorem inspect_db_open_failure i o short path o1 :
  dir i = true -> vdb_mgr i = true -> accession_short i = Some short -> accession_path i = Some path ->
  inspect_location_and_size short path o = Ok (0%Z, o1) ->
  vdb_path_type path = kptDatabase -> inspector_open_db path <> 0%Z ->
  inspect (Some i) (Some o) = Ok (0%Z, Some (set_acc_type (set_seq_tbl_name o1 None) acc_none)).
Proof.
  intros Hd Hm Hs Hp Hloc Hpt Ho. unfold inspect. rewrite Hd, Hm, Hs, Hp, Hloc. cbn.
  unfold inspect_path_type_and_seq_tbl_name, inspect_db_type. rewrite Hpt, Z.eqb_refl.
  by rewrite (proj2 (Z.eqb_neq _ 0) Ho).
Qed.

(** C33. Resolving locally with every call succeeding gives the path the
    resolver made, without an [ncbi-acc:] scheme recognised in any
    letter case; a path that does not fit the destination buffer makes
    [dst[path->size] = 0] write past it. *)
Theorem resolve_accession_local acc dst_size l r p :
  vfs_manager_make = 0%Z -> vfs_get_resolver = 0%Z -> vfs_make_path acc = 0%Z ->
  vresolver_query acc false = (0%Z, Some l, r) -> vpath_make_string l = (0%Z, Some p) ->
  vpath_release acc = 0%Z -> vresolver_release = 0%Z -> vfs_manager_release = 0%Z ->
  resolve_accession acc dst_size false =
  if length p <? dst_size then Ok (0%Z, if starts_with p (cs "ncbi-acc:") then drop 9 p else p)
  else Err (FUndefined "dst[path->size]").
Proof.
  intros Hm Hr Hp Hq Hs Hrel Hrr Hmr. unfold resolve_accession, resolve_query, resolve_path_string.
  rewrite Hm, Hr, Hp, Hq, Hs. destruct (length p <? dst_size); cbn; [|done].
  by rewrite Hrel, Hrr, Hmr.
Qed.
End Theorems.

(** ** Concrete runs *)

(** A library that resolves [acc] locally to [NCBI-ACC:acc], sees a
    database with a SEQUENCE table only, whose PLATFORM cells are 8-bit
    PacBio values, and opens it with code [open_rc]. *)
Definition demo_env (open_rc : rc_t) : VfsEnv := {|
  vfs_manager_make := 0%Z; vfs_manager_release := 0%Z;
  vfs_make_path := fun _ => 0%Z; vpath_release := fun _ => 0%Z;
  vfs_extract_acc := fun s => (0%Z, s); vpath_read_path := fun p _ => (0%Z, p);
  vfs_get_resolver := 0%Z; vresolver_release := 0%Z;
  vresolver_query := fun acc _ => (0%Z, Some (cs "NCBI-ACC:" ++ acc), None);
  vpath_make_string := fun v => (0%Z, Some v);
  vfs_resolve_path := fun _ => 0%Z;
  open_file := fun _ _ => 0%Z; file_size := fun _ _ => 1000%Z;
  vdb_path_type := fun _ => kptDatabase;
  vdb_open_db := fun _ => open_rc; vdb_release_db := 0%Z;
  vdb_list_tbl := (0%Z, [SEQ_TBL_NAME]); vnamelist_from_knamelist := 0%Z;
  vdb_open_table := fun _ => 0%Z; vtbl_create_cursor := 0%Z;
  vcursor_add_column := fun _ => 0%Z; vcursor_open := 0%Z;
  vcursor_id_range := (0%Z, 1%Z, 10%Z);
  vcursor_cell := fun _ => (0%Z, 8%Z, 0%Z, Some [SRA_PLATFORM_PACBIO_SMRT]);
  rc_insufficient := 1%Z; rc_param_invalid := 2%Z;
  rc_insufficient_nz := ltac:(discriminate); rc_param_invalid_nz := ltac:(discriminate) |}.

Definition demo_input : inspector_input := mk_input true true (Some (cs "SRR1")) (Some (cs "SRR1")).
Definition demo_output : inspector_output := mk_output false 0%Z acc_none None.

Lemma inspect_null_argument_witness :
  (@inspect (demo_env 0%Z) (Some (mk_input true false None None)) (Some demo_output) =
   Ok (2%Z, Some demo_output)).
Proof.
  apply (@inspect_null_argument (demo_env 0%Z)). right; right. eexists; split; [reflexivity|]. by right; left.
Defined.

Lemma inspect_db_type_decision_witness :
  @inspector_open_db (demo_env 0%Z) (cs "SRR1") = 0%Z /\
  ((@inspect_db_type (demo_env 0%Z) (cs "SRR1") demo_output).1 = acc_none <->
   SEQ_TBL_NAME ∉ [SEQ_TBL_NAME]).
Proof.
  split; [reflexivity|].
  exact (proj1 (@inspect_db_type_decision (demo_env 0%Z) (cs "SRR1") demo_output [SEQ_TBL_NAME]
                  ltac:(reflexivity) ltac:(reflexivity) ltac:(reflexivity))).
Defined.

Lemma pacbio_platform_missed_witness :
  (forall row, @vcursor_cell (demo_env 0%Z) row = (0%Z, 8%Z, 0%Z, Some [SRA_PLATFORM_PACBIO_SMRT])) /\
  (@inspect_db_type (demo_env 0%Z) (cs "SRR1") demo_output).1 = acc_sra_db.
Proof.
  split; [reflexivity|].
  apply (@pacbio_platform_missed (demo_env 0%Z) (cs "SRR1") demo_output [SEQ_TBL_NAME]);
    [reflexivity | reflexivity | reflexivity | by left | .. | intros row; discriminate];
    apply (bool_decide_unpack _); vm_compute; reflexivity.
Defined.

Lemma inspect_db_open_failure_witness :
  @inspect_location_and_size (demo_env 3%Z) (cs "SRR1") (cs "SRR1") demo_output =
    Ok (0%Z, set_location demo_output false 1000) /\
  @inspect (demo_env 3%Z) (Some demo_input) (Some demo_output) =
    Ok (0%Z, Some (set_acc_type (set_seq_tbl_name (set_location demo_output false 1000) None) acc_none)).
Proof.
  split; [vm_compute; reflexivity|].
  apply (@inspect_db_open_failure (demo_env 3%Z) demo_input demo_output (cs "SRR1") (cs "SRR1"));
    [reflexivity.. | vm_compute; reflexivity | reflexivity | vm_compute; discriminate].
Defined.

Lemma resolve_accession_local_witness :
  @resolve_accession (demo_env 0%Z) (cs "SRR1") PATH_MAX false = Ok (0%Z, cs "SRR1") /\
  @resolve_accession (demo_env 0%Z) (cs "SRR1") 5 false = Err (FUndefined "dst[path->size]").
Proof.
  split.
  - rewrite (@resolve_accession_local (demo_env 0%Z) (cs "SRR1") PATH_MAX (cs "NCBI-ACC:SRR1") None
               (cs "NCBI-ACC:SRR1")) by reflexivity.
    vm_compute. reflexivity.
  - rewrite (@resolve_accession_local (demo_env 0%Z) (cs "SRR1") 5 (cs "NCBI-ACC:SRR1") None
               (cs "NCBI-ACC:SRR1")) by reflexivity.
    reflexivity.
Defined.

(** A database reached through an alias: [VDBManagerPathType] sets the
    [kptAlias] bit, which the [switch] of
    [inspect_path_type_and_seq_tbl_name] does not mask. *)
Lemma inspect_path_type_alias `{VfsEnv} path o :
  vdb_path_type path = Z.lor kptDatabase kptAlias ->
  inspect_path_type_and_seq_tbl_name path o = (acc_none, set_seq_tbl_name o None).
Proof. intros Hpt. unfold inspect_path_type_and_seq_tbl_name. by rewrite Hpt. Qed.
