(* ===== verification/Redact.v ===== *)
(** * Redact: the VDB helpers of sra-redact

    [src/tools/sra-redact/sra-redact.hpp] wraps the VDB, KDB and KFS
    calls sra-redact makes: each helper makes one or two library calls
    and either returns what they give or ends the program with an exit
    code of [sysexits.h] ([DIE_UNLESS], [exit]).  The class [RedactEnv]
    states the library calls, one field per call, for the objects the
    tool works on, and the class [KdbEnv] the update side of VDB, the
    KDB metadata nodes and the KFS directories, whose handles are types
    the class leaves open; [exit(status)] is the fault [FExit status]
    and an [assert] is [assert_ ndebug].  Logging ([LogErr], [pLogMsg])
    and the releases of handles are left out; a [va_list] path is taken
    as the formatted path. *)

From S2P Require Import Prelude Klib.

(** [struct CellData]: the values of a cell, their count and size in bits. *)
Record CellData := mkCellData { cd_data : list Z; cd_count : nat; cd_elem_bits : Z }.

(** [CellData()]. *)
Definition CellData_new : CellData := mkCellData [] 0 0.

(** [CellData::Typed<T>]: the values seen as an array of [count] [T]s. *)
Record Typed := mkTyped { ty_data : list Z; ty_count : nat }.

(** [CellData::typed<T>()]: [Typed(parent)] asserts
    [parent.elem_bits == sizeof(T) * 8]. *)
Definition typed (ndebug : bool) (sizeof_T : Z) (c : CellData) : result Typed :=
  _ <- assert_ ndebug (Z.eqb (cd_elem_bits c) (sizeof_T * 8)) "parent.elem_bits == sizeof(T) * 8" ;;
  Ok (mkTyped (cd_data c) (cd_count c)).

(** [Typed::operator [](int i)]. *)
Definition typed_at (ndebug : bool) (t : Typed) (i : Z) : result Z :=
  _ <- assert_ ndebug ((0 <=? i)%Z && (Z.to_nat i <? ty_count t)) "i >= 0 && (size_t)i < count()" ;;
  if (i <? 0)%Z then Err (FUndefined "data_[i]") else vat (ty_data t) (Z.to_nat i) "data_[i]".

(** [Typed::front()] and [Typed::back()]: [data_[count_ - 1]] with
    [count_ == 0] reads [data_[SIZE_MAX]]. *)
Definition typed_front (t : Typed) : result Z := vat (ty_data t) 0 "data_[0]".
Definition typed_back (t : Typed) : result Z :=
  match ty_count t with
  | 0 => Err (FUndefined "data_[count_ - 1]")
  | S n => vat (ty_data t) n "data_[count_ - 1]"
  end.

(** [DIE_UNLESS(EX, CALL)]. *)
Definition DIE_UNLESS (ex : Z) (rc : rc_t) : result unit :=
  if Z.eqb rc 0 then Ok tt else Err (FExit ex).

(** [WARN_IF(CALL)]: a failing call is only logged. *)
Definition WARN_IF (rc : rc_t) : result unit := Ok tt.

(** [struct Inputs]: the input tables ([NULL] when absent), the schema
    type and whether the input is a bare table. *)
Record Inputs := mkInputs {
  in_sequence : option cstr;
  in_primaryAlignment : option cstr;
  in_secondaryAlignment : option cstr;
  schemaType : string;
  noDb : bool
}.

Definition Inputs_new : Inputs := mkInputs None None None "" false.

(** [struct Output]: the output table and the columns changed in it. *)
Record Output := mkOutput { out_tbl : option cstr; changedColumns : list string }.

Definition Output_new : Output := mkOutput None [].

(** [struct Outputs]. *)
Record Outputs := mkOutputs {
  out_sequence : Output;
  out_primaryAlignment : Output;
  out_secondaryAlignment : Output
}.

Definition Outputs_new : Outputs := mkOutputs Output_new Output_new Output_new.

(** [OUT_OF_MEMORY()]: [exit(EX_TEMPFAIL)]. *)
Definition OUT_OF_MEMORY {A} : result A := Err (FExit EX_TEMPFAIL).

(** The column a cursor is asked for: ["%s"] or ["(%s)%s"] with the type. *)
Definition col_spec (type : option cstr) (name : cstr) : cstr :=
  match type with
  | None => name
  | Some t => cs "(" ++ t ++ cs ")" ++ name
  end.

(** [PATH_TYPE_ISA_DATABASE] and [PATH_TYPE_ISA_TABLE]. *)
Definition PATH_TYPE_ISA_DATABASE (type : Z) : bool :=
  Z.eqb (Z.lor type kptAlias) (Z.lor kptDatabase kptAlias).
Definition PATH_TYPE_ISA_TABLE (type : Z) : bool :=
  Z.eqb (Z.lor type kptAlias) (Z.lor kptTable kptAlias).

(** ** The libraries, as sra-redact sees them *)

Class RedactEnv := {
  (** [VCursorCellDataDirect(curs, row, col, ...)]: the code, [elem_bits],
      the values, [bit_offset] and the count. *)
  vcursor_cell_data : Z -> nat -> rc_t * Z * list Z * Z * nat;
  (** [VCursorIdRange(curs, cid, &first, &count)]. *)
  vcursor_id_range : nat -> rc_t * Z * Z;
  (** [VCursorAddColumn(curs, &cid, spec)]: the code and the id. *)
  vcursor_add_column : cstr -> rc_t * nat;
  (** [VCursorOpen], [VCursorOpenRow], [VCursorCommitRow],
      [VCursorCloseRow], [VCursorCommit]. *)
  vcursor_open : rc_t;
  vcursor_open_row : rc_t;
  vcursor_commit_row : rc_t;
  vcursor_close_row : rc_t;
  vcursor_commit : rc_t;
  (** [VCursorFlushPage(curs)]. *)
  vcursor_flush_page : rc_t;
  (** [VCursorWrite(curs, cid, elem_bits, data, 0, count)]. *)
  vcursor_write : nat -> Z -> list Z -> nat -> rc_t;
  (** [VDBManagerOpenTableRead], [VDBManagerOpenDBRead] by name and
      [VDatabaseOpenTableRead(db, &tbl, "%s", table)]. *)
  vdb_open_table_read : cstr -> rc_t;
  vdb_open_db_read : cstr -> rc_t;
  vdatabase_open_table_read : cstr -> cstr -> rc_t;
  (** [VTableDropColumn(tbl, "%s", name)]. *)
  vtable_drop_column : cstr -> rc_t;
  (** [KDirectoryNativeDir] and [KDirectoryRemove(ndir, true, "%s", path)]. *)
  kdirectory_native : rc_t;
  kdirectory_remove : cstr -> rc_t;
  (** [KNamelistCount] and [KNamelistGet(list, i, &name)]. *)
  knamelist_count : rc_t * nat;
  knamelist_get : nat -> rc_t * cstr;
  (** The values of [enum RCObject] and [enum RCState] the tool tests. *)
  rcPath : Z;
  rcNotFound : Z;
  rcBusy : Z
}.

(** The update side of VDB, the metadata nodes of KDB and the
    directories of KFS.  Metadata objects, nodes and directories are
    handles of types the class leaves open. *)
Class KdbEnv := {
  KMetadata : Type;
  KMDataNode : Type;
  KDirectory : Type;
  (** [VDBManagerMakeUpdate], [VDBManagerOpenKDBManagerRead] and
      [KDBManagerPathType(kmgr, "%s", path)]. *)
  vdb_manager_make_update : rc_t;
  vdb_manager_open_kdb_read : rc_t;
  kdb_path_type : cstr -> Z;
  (** [VDBManagerOpenTableUpdate], [VDBManagerOpenDBUpdate] by name and
      [VDatabaseOpenTableUpdate(db, &tbl, "%s", table)]. *)
  vdb_open_table_update : cstr -> rc_t;
  vdb_open_db_update : cstr -> rc_t;
  vdatabase_open_table_update : cstr -> cstr -> rc_t;
  (** [VTableOpenMetadataRead], [VDatabaseOpenMetadataRead] and their
      [Update] forms, for the table or database of that name. *)
  vtable_open_metadata_read : cstr -> rc_t * KMetadata;
  vdatabase_open_metadata_read : cstr -> rc_t * KMetadata;
  vtable_open_metadata_update : cstr -> rc_t * KMetadata;
  vdatabase_open_metadata_update : cstr -> rc_t * KMetadata;
  (** [KMetadataOpenNodeRead(meta, &node, path)] ([None] for the root,
      a [NULL] path) and [KMetadataOpenNodeUpdate]. *)
  kmetadata_open_node_read : KMetadata -> option cstr -> rc_t * KMDataNode;
  kmetadata_open_node_update : KMetadata -> cstr -> rc_t * KMDataNode;
  (** [KMDataNodeOpenNodeRead(node, &child, path)] and [...Update]. *)
  kmdatanode_open_node_read : KMDataNode -> cstr -> rc_t * KMDataNode;
  kmdatanode_open_node_update : KMDataNode -> cstr -> rc_t * KMDataNode;
  (** [KMDataNodeAddr(node, &addr, &size)]: the node's bytes. *)
  kmdatanode_addr : KMDataNode -> rc_t * list Z;
  (** [KMDataNodeWrite(node, data, size)]. *)
  kmdatanode_write : KMDataNode -> list Z -> rc_t;
  (** [KMDataNodeReadAttr(node, attr, buffer, bsize, &size)]: the code,
      the size of the attribute and the bytes put into the buffer. *)
  kmdatanode_read_attr : KMDataNode -> cstr -> nat -> rc_t * nat * cstr;
  (** [VSchemaParseText(schema, NULL, text, size)]. *)
  vschema_parse_text : list Z -> rc_t;
  (** [malloc(size)] returns memory. *)
  malloc_ok : nat -> bool;
  (** [KDirectoryVOpenDirUpdate], [KDirectoryVOpenDirRead] from the
      native directory, and [KDirectoryList_v1]. *)
  kdirectory_open_dir_update : cstr -> rc_t * KDirectory;
  kdirectory_open_dir_read : cstr -> rc_t * KDirectory;
  kdirectory_list : KDirectory -> rc_t;
  (** The values of [rcBuffer] and [rcInsufficient]. *)
  rcBuffer : Z;
  rcInsufficient : Z
}.

Section Redact.
Context `{R : RedactEnv} `{K : KdbEnv}.

(** [cellData(colName, col, row, curs)]: an empty cell for column 0. *)
Definition cellData (ndebug : bool) (col : nat) (row : Z) : result CellData :=
  if Nat.eqb col 0 then Ok CellData_new
  else
    let '(rc, elem_bits, data, bit_offset, count) := vcursor_cell_data row col in
    if Z.eqb rc 0 then
      _ <- assert_ ndebug (Z.eqb bit_offset 0) "bit_offset == 0" ;;
      _ <- assert_ ndebug (Z.eqb (Z.land elem_bits 7) 0) "(result.elem_bits & 0x7) == 0" ;;
      Ok (mkCellData data count elem_bits)
    else Err (FExit EX_DATAERR).

(** [rowCount(curs, &first, cid)]: the first row and the count. *)
Definition rowCount (cid : nat) : result (Z * Z) :=
  let '(rc, first, count) := vcursor_id_range cid in
  _ <- DIE_UNLESS EX_SOFTWARE rc ;;
  Ok (first, count).

(** [addColumn(name, curs)] and [addColumn(name, type, curs)]: the id, or
    [exit(EX_NOINPUT)]. *)
Definition addColumn (name : cstr) (type : option cstr) : result nat :=
  let '(rc, cid) := vcursor_add_column (col_spec type name) in
  if Z.eqb rc 0 then Ok cid else Err (FExit EX_NOINPUT).

(** [addColumn(name, [type,] curs, have)]: the id (0 on failure) and [have]. *)
Definition addColumn_have (name : cstr) (type : option cstr) : nat * bool :=
  let '(rc, cid) := vcursor_add_column (col_spec type name) in
  (if Z.eqb rc 0 then cid else 0, Z.eqb rc 0).

(** [addColumn(name, altname, type, curs, used)]: the id and [used]. *)
Definition addColumn_alt (name altname type : cstr) : nat * option cstr :=
  let '(cid, have) := addColumn_have name (Some type) in
  if have then (cid, Some name)
  else
    let '(cid, have) := addColumn_have altname (Some type) in
    if have then (cid, Some altname) else (0, None).

(** [openCursor(curs, name)]. *)
Definition openCursor : result unit :=
  if Z.eqb vcursor_open 0 then Ok tt else Err (FExit EX_NOINPUT).

(** [openTable(name, mgr)]. *)
Definition openTable (name : cstr) : result cstr :=
  if Z.eqb (vdb_open_table_read name) 0 then Ok name else Err (FExit EX_SOFTWARE).

(** [openDatabase(input, mgr)]. *)
Definition openDatabase (input : cstr) : result cstr :=
  if Z.eqb (vdb_open_db_read input) 0 then Ok input else Err (FExit EX_SOFTWARE).

(** [openRow], [commitRow], [closeRow], [commitCursor] (whose
    [VCursorFlushPage] code is only logged, [WARN_IF]). *)
Definition openRow : result unit := DIE_UNLESS EX_IOERR vcursor_open_row.
Definition commitRow : result unit := DIE_UNLESS EX_IOERR vcursor_commit_row.
Definition closeRow : result unit := DIE_UNLESS EX_IOERR vcursor_close_row.
Definition commitCursor : result unit :=
  _ <- WARN_IF vcursor_flush_page ;;
  DIE_UNLESS EX_IOERR vcursor_commit.

(** [writeRow(row, data, cid, out)]: nothing for column 0. *)
Definition writeRow (data : CellData) (cid : nat) : result unit :=
  if Nat.eqb cid 0 then Ok tt
  else DIE_UNLESS EX_IOERR (vcursor_write cid (cd_elem_bits data) (cd_data data) (cd_count data)).

(** [writeRow(row, std::vector<T> data, cid, curs)]. *)
Definition writeRow_vector (sizeof_T : Z) (data : list Z) (cid : nat) : result unit :=
  if Nat.eqb cid 0 then Ok tt
  else DIE_UNLESS EX_IOERR (vcursor_write cid (8 * sizeof_T) data (length data)).

(** [KNamelistForEach(list, f)]: the names [f] is called with, in order. *)
Definition KNamelistForEach : result (list cstr) :=
  let '(rc, count) := knamelist_count in
  _ <- DIE_UNLESS EX_SOFTWARE rc ;;
  mapR (fun i => let '(rc, name) := knamelist_get i in
                 _ <- DIE_UNLESS EX_SOFTWARE rc ;; Ok name) (seq 0 count).

(** [dropColumn(tbl, name)]: [false] when the column does not exist. *)
Definition dropColumn (name : cstr) : result bool :=
  let rc := vtable_drop_column name in
  let notFound := Z.eqb (GetRCObject rc) rcPath && Z.eqb (GetRCState rc) rcNotFound in
  if notFound then Ok false
  else if negb (Z.eqb rc 0) then Err (FExit EX_SOFTWARE)
  else Ok true.

(** [removeTempDir(temp)]: a busy directory is only reported. *)
Definition removeTempDir (temp : cstr) : result unit :=
  _ <- DIE_UNLESS EX_SOFTWARE kdirectory_native ;;
  let rc := kdirectory_remove temp in
  if Z.eqb (GetRCState rc) rcBusy && Z.eqb (GetRCObject rc) rcPath then Ok tt
  else if negb (Z.eqb rc 0) then Err (FExit EX_DATAERR)
  else Ok tt.

(** ** Schema, manager, directories and metadata nodes *)

(** [getSchemaInfo(meta, &type, schema)]: the [schema] node of the
    metadata is parsed into [schema], and its [name] attribute is read in
    two calls, the first with an empty buffer to learn the size.  The
    second call writes [value[valueLen] = '\0'] with the size it reports,
    past the buffer when that size grew. *)
Definition getSchemaInfo (ndebug : bool) (meta : KMetadata) : result cstr :=
  let '(rc, root) := kmetadata_open_node_read meta None in
  _ <- DIE_UNLESS EX_SOFTWARE rc ;;
  let '(rc, node) := kmdatanode_open_node_read root (cs "schema") in
  _ <- DIE_UNLESS EX_SOFTWARE rc ;;
  let '(rc, value) := kmdatanode_addr node in
  _ <- DIE_UNLESS EX_SOFTWARE rc ;;
  _ <- DIE_UNLESS EX_SOFTWARE (vschema_parse_text value) ;;
  let '(rc, valueLen, _) := kmdatanode_read_attr node (cs "name") 0 in
  let insufficient := Z.eqb (GetRCObject rc) rcBuffer && Z.eqb (GetRCState rc) rcInsufficient in
  _ <- assert_ ndebug insufficient
         "GetRCObject(rc) == (int)rcBuffer && GetRCState(rc) == (int)rcInsufficient" ;;
  if negb insufficient then Err (FExit EX_SOFTWARE)
  else if negb (malloc_ok (valueLen + 1)) then OUT_OF_MEMORY
  else
    let '(rc, valueLen', value) := kmdatanode_read_attr node (cs "name") (valueLen + 1) in
    _ <- DIE_UNLESS EX_SOFTWARE rc ;;
    if valueLen' <=? valueLen then Ok (take valueLen' value)
    else Err (FUndefined "value[valueLen] = '\0'").

(** [dbSchemaInfo(db, &name, schema)] and [tblSchemaInfo(tbl, &name, schema)]. *)
Definition dbSchemaInfo (ndebug : bool) (db : cstr) : result cstr :=
  let '(rc, meta) := vdatabase_open_metadata_read db in
  _ <- DIE_UNLESS EX_SOFTWARE rc ;;
  getSchemaInfo ndebug meta.

Definition tblSchemaInfo (ndebug : bool) (tbl : cstr) : result cstr :=
  let '(rc, meta) := vtable_open_metadata_read tbl in
  _ <- DIE_UNLESS EX_SOFTWARE rc ;;
  getSchemaInfo ndebug meta.

(** [openInputTable(name, mgr, schemaType, schema)]: the table and its schema type. *)
Definition openInputTable (ndebug : bool) (name : cstr) : result (cstr * cstr) :=
  tbl <- openTable name ;;
  schemaType <- tblSchemaInfo ndebug tbl ;;
  Ok (tbl, schemaType).

(** [dbOpenTable(db, table, mgr, schemaType, schema, optional)]: the
    table ([NULL] when it does not open and is optional) and, when a
    [schema] is passed and the table opens, the database's schema type;
    a required table that does not open ends the program. *)
Definition dbOpenTable (ndebug : bool) (db table : cstr) (schema optional : bool)
  : result (option cstr * option cstr) :=
  let rc := vdatabase_open_table_read db table in
  schemaType <- (if Z.eqb rc 0 && schema then t <- dbSchemaInfo ndebug db ;; Ok (Some t)
                 else Ok None) ;;
  if Z.eqb rc 0 then Ok (Some table, schemaType)
  else if optional then Ok (None, schemaType)
  else Err (FExit EX_NOINPUT).

(** [manager()] and [pathType(mgr, path)]. *)
Definition manager : result unit := DIE_UNLESS EX_SOFTWARE vdb_manager_make_update.

Definition pathType (path : cstr) : result Z :=
  _ <- DIE_UNLESS EX_SOFTWARE vdb_manager_open_kdb_read ;;
  Ok (kdb_path_type path).

(** [rootDir()], [openDirUpdate(path, ...)] and [openDirRead(path, ...)]. *)
Definition rootDir : result unit := DIE_UNLESS EX_SOFTWARE kdirectory_native.

Definition openDirUpdate (path : cstr) : result KDirectory :=
  _ <- rootDir ;;
  let '(rc, dir) := kdirectory_open_dir_update path in
  if Z.eqb rc 0 then Ok dir else Err (FExit EX_SOFTWARE).

Definition openDirRead (path : cstr) : result KDirectory :=
  _ <- rootDir ;;
  let '(rc, dir) := kdirectory_open_dir_read path in
  if Z.eqb rc 0 then Ok dir else Err (FExit EX_SOFTWARE).

(** [listDir(dir)]: the names it logs. *)
Definition listDir (dir : KDirectory) : result (list cstr) :=
  _ <- DIE_UNLESS EX_SOFTWARE (kdirectory_list dir) ;;
  KNamelistForEach.

(** [openNodeRead(tbl, path, ...)]. *)
Definition openNodeRead (tbl path : cstr) : result KMDataNode :=
  let '(rc, meta) := vtable_open_metadata_read tbl in
  _ <- DIE_UNLESS EX_SOFTWARE rc ;;
  let '(rc, node) := kmetadata_open_node_read meta (Some path) in
  _ <- DIE_UNLESS EX_SOFTWARE rc ;;
  Ok node.

(** [openNodeUpdate(meta, path, va)], and its database and table forms. *)
Definition openNodeUpdate_meta (meta : KMetadata) (path : cstr) : result KMDataNode :=
  let '(rc, node) := kmetadata_open_node_update meta path in
  _ <- DIE_UNLESS EX_DATAERR rc ;;
  Ok node.

Definition openNodeUpdate_db (db path : cstr) : result KMDataNode :=
  let '(rc, meta) := vdatabase_open_metadata_update db in
  _ <- DIE_UNLESS EX_SOFTWARE rc ;;
  openNodeUpdate_meta meta path.

Definition openNodeUpdate_tbl (tbl path : cstr) : result KMDataNode :=
  let '(rc, meta) := vtable_open_metadata_update tbl in
  _ <- DIE_UNLESS EX_SOFTWARE rc ;;
  openNodeUpdate_meta meta path.

(** [copyNodeValue(dst, src)]. *)
Definition copyNodeValue (dst src : KMDataNode) : result unit :=
  let '(rc, data) := kmdatanode_addr src in
  _ <- DIE_UNLESS EX_SOFTWARE rc ;;
  DIE_UNLESS EX_DATAERR (kmdatanode_write dst data).

(** [writeChildNode(node, name, size, data)]: the write reads [size]
    bytes of [data]. *)
Definition writeChildNode (node : KMDataNode) (name : cstr) (size : nat) (data : list Z)
  : result unit :=
  let '(rc, child) := kmdatanode_open_node_update node name in
  _ <- DIE_UNLESS EX_DATAERR rc ;;
  if size <=? length data then DIE_UNLESS EX_DATAERR (kmdatanode_write child (take size data))
  else Err (FUndefined "KMDataNodeWrite(child, data, size)").

(** [openUpdateTbl(name, mgr)], [openUpdateDb(name, mgr)],
    [openUpdateDb(name, table, mgr)], [openReadTbl(name, mgr)] and
    [openReadDb(name, table, mgr)]. *)
Definition openUpdateTbl (name : cstr) : result cstr :=
  _ <- DIE_UNLESS EX_DATAERR (vdb_open_table_update name) ;; Ok name.

Definition openUpdateDb (name : cstr) : result cstr :=
  _ <- DIE_UNLESS EX_DATAERR (vdb_open_db_update name) ;; Ok name.

Definition openUpdateDb_table (name table : cstr) : result cstr :=
  db <- openUpdateDb name ;;
  _ <- DIE_UNLESS EX_DATAERR (vdatabase_open_table_update db table) ;;
  Ok table.

Definition openReadTbl (name : cstr) : result cstr := openTable name.

Definition openReadDb (name table : cstr) : result cstr :=
  _ <- DIE_UNLESS EX_DATAERR (vdb_open_db_read name) ;;
  _ <- DIE_UNLESS EX_DATAERR (vdatabase_open_table_read name table) ;;
  Ok table.

End Redact.

(** ** Lemmas *)

(** Or-ing the alias bit forgets only bit 7: a type below 128 and the
    same type with the alias bit are the two values that give its image. *)
Lemma lor_alias_eq (t k : Z) :
  (0 <= k < 128)%Z -> Z.lor t kptAlias = Z.lor k kptAlias -> t = k \/ t = Z.lor k kptAlias.
Proof.
  intros Hk H. unfold kptAlias in *.
  assert (Hb : forall n, (0 <= n)%Z -> n <> 7%Z -> Z.testbit t n = Z.testbit k n).
  { intros n Hn H7. apply (f_equal (fun z => Z.testbit z n)) in H.
    rewrite !Z.lor_spec in H. change 128%Z with (2 ^ 7)%Z in H.
    rewrite Z.pow2_bits_false in H by lia. by rewrite !orb_false_r in H. }
  assert (Hk7 : Z.testbit k 7 = false) by (apply (testbit_above k 7); lia).
  destruct (Z.testbit t 7) eqn:Ht7; [right | left]; apply Z.bits_inj'; intros n Hn;
    destruct (Z.eq_dec n 7) as [->|H7]; rewrite ?Z.lor_spec; try rewrite Hk7; try done;
    rewrite Hb by done; change 128%Z with (2 ^ 7)%Z; rewrite ?Z.pow2_bits_false by lia;
    by rewrite ?orb_false_r.
Qed.

Lemma lor_alias_iff (t k : Z) :
  (0 <= k < 128)%Z -> Z.lor t kptAlias = Z.lor k kptAlias <-> t = k \/ t = Z.lor k kptAlias.
Proof.
  intros Hk. split; [by apply lor_alias_eq|].
  intros [-> | ->]; [done|]. by rewrite <-Z.lor_assoc, Z.lor_diag.
Qed.

(** ** Properties *)

(** [PATH_TYPE_ISA_DATABASE] and [PATH_TYPE_ISA_TABLE] accept exactly
    the database (table) path type, with or without the [kptAlias] bit. *)
Theorem path_type_isa type :
  (PATH_TYPE_ISA_DATABASE type = true <-> type = kptDatabase \/ type = Z.lor kptDatabase kptAlias) /\
  (PATH_TYPE_ISA_TABLE type = true <-> type = kptTable \/ type = Z.lor kptTable kptAlias).
Proof.
  unfold PATH_TYPE_ISA_DATABASE, PATH_TYPE_ISA_TABLE. rewrite !Z.eqb_eq.
  split; apply lor_alias_iff; unfold kptDatabase, kptTable; lia.
Qed.

Section Theorems.
Context `{R : RedactEnv} `{K : KdbEnv}.

(** [addColumn(name, altname, type, curs, used)] reports in [used] the
    name it opened, the first of [name] and [altname] the cursor accepts,
    and returns that column's id; with neither, [used] is [NULL] and the
    id 0. *)
Theorem addColumn_alt_used name altname type :
  let '(cid, used) := addColumn_alt name altname type in
  match used with
  | Some u =>
      (u = name \/ (u = altname /\ (vcursor_add_column (col_spec (Some type) name)).1 <> 0%Z)) /\
      vcursor_add_column (col_spec (Some type) u) = (0%Z, cid)
  | None =>
      cid = 0 /\ (vcursor_add_column (col_spec (Some type) name)).1 <> 0%Z /\
      (vcursor_add_column (col_spec (Some type) altname)).1 <> 0%Z
  end.
Proof.
  unfold addColumn_alt, addColumn_have.
  destruct (vcursor_add_column (col_spec (Some type) name)) as [rc cid] eqn:Hn.
  destruct (Z.eqb_spec rc 0) as [->|Hrc]; [naive_solver|].
  destruct (vcursor_add_column (col_spec (Some type) altname)) as [rc' cid'] eqn:Ha.
  destruct (Z.eqb_spec rc' 0) as [->|Hrc']; naive_solver.
Qed.

(** When [rcPath] is not 0, [dropColumn] reports a dropped column as
    [true], a column that does not exist (object [rcPath], state
    [rcNotFound]) as [false], and ends the program with [EX_SOFTWARE] on
    any other failure. *)
Theorem dropColumn_cases name :
  rcPath <> 0%Z ->
  let rc := vtable_drop_column name in
  (dropColumn name = Ok true <-> rc = 0%Z) /\
  (dropColumn name = Ok false <-> GetRCObject rc = rcPath /\ GetRCState rc = rcNotFound) /\
  (dropColumn name = Err (FExit EX_SOFTWARE) <->
     rc <> 0%Z /\ ~ (GetRCObject rc = rcPath /\ GetRCState rc = rcNotFound)).
Proof.
  intros Hp. cbv zeta. unfold dropColumn.
  destruct (Z.eqb_spec (vtable_drop_column name) 0) as [Hz|Hz].
  - rewrite Hz. replace (GetRCObject 0%Z) with 0%Z by reflexivity.
    rewrite (proj2 (Z.eqb_neq 0 rcPath)) by congruence. naive_solver.
  - destruct (Z.eqb_spec (GetRCObject (vtable_drop_column name)) rcPath),
      (Z.eqb_spec (GetRCState (vtable_drop_column name)) rcNotFound); cbn; naive_solver.
Qed.

(** C17. A [Typed<T>] view exists, in a debug build, only over a cell
    whose elements are [sizeof(T)] bytes wide, and it keeps the cell's
    count; when the cell holds [count] values, [operator[]] returns the
    value at an index in [0, count) and asserts on any other index, so it
    never reads outside the cell. *)
Theorem typed_view_checked sizeof_T c t :
  length (cd_data c) = cd_count c ->
  typed false sizeof_T c = Ok t ->
  cd_elem_bits c = (sizeof_T * 8)%Z /\ ty_count t = cd_count c /\
  forall i, typed_at false t i =
    if (0 <=? i)%Z && (Z.to_nat i <? cd_count c) then Ok (cd_data c !!! Z.to_nat i)
    else Err (FAssert "i >= 0 && (size_t)i < count()").
Proof.
  intros Hlen Ht. unfold typed, assert_ in Ht.
  destruct (Z.eqb_spec (cd_elem_bits c) (sizeof_T * 8)) as [Hb|Hb]; cbn in Ht; [|done].
  injection Ht as <-. split_and!; [done..|]. intros i. unfold typed_at, assert_; cbn [ty_count ty_data].
  destruct (Z.leb_spec 0 i), (Nat.ltb_spec (Z.to_nat i) (cd_count c)); cbn; try done.
  rewrite ?bind_Ok. destruct (Z.ltb_spec i 0); [lia|].
  destruct (lookup_lt_is_Some_2 (cd_data c) (Z.to_nat i)) as [x Hx]; [lia|].
  rewrite (vat_lookup _ _ _ _ Hx). by rewrite (list_lookup_total_correct _ _ _ Hx).
Qed.

(** [getSchemaInfo] returns the schema's [name] attribute when the
    metadata library follows the two-call protocol: the probe with an
    empty buffer reports an insufficient buffer ([rcBuffer],
    [rcInsufficient]) and the attribute's size, and the read with one
    more byte fills the buffer with the attribute and reports the same
    size. *)
Theorem getSchemaInfo_name ndebug meta root node value name rc0 junk rest :
  kmetadata_open_node_read meta None = (0%Z, root) ->
  kmdatanode_open_node_read root (cs "schema") = (0%Z, node) ->
  kmdatanode_addr node = (0%Z, value) ->
  vschema_parse_text value = 0%Z ->
  kmdatanode_read_attr node (cs "name") 0 = (rc0, length name, junk) ->
  GetRCObject rc0 = rcBuffer -> GetRCState rc0 = rcInsufficient ->
  malloc_ok (length name + 1) = true ->
  kmdatanode_read_attr node (cs "name") (length name + 1) = (0%Z, length name, name ++ rest) ->
  getSchemaInfo ndebug meta = Ok name.
Proof.
  intros Hroot Hnode Haddr Hparse Hprobe Hobj Hstate Hmalloc Hread.
  unfold getSchemaInfo.
  rewrite Hroot, Hnode, Haddr, Hparse, Hprobe, Hobj, Hstate, !Z.eqb_refl, Hmalloc, Hread.
  cbn. rewrite Nat.leb_refl. by rewrite take_app_length.
Qed.

(** When the probe with an empty buffer succeeds, a debug build stops on
    the assert and a release build ends the program with [EX_SOFTWARE]:
    the attribute is never read. *)
Lemma getSchemaInfo_probe_ok ndebug meta root node value n junk :
  rcBuffer <> 0%Z ->
  kmetadata_open_node_read meta None = (0%Z, root) ->
  kmdatanode_open_node_read root (cs "schema") = (0%Z, node) ->
  kmdatanode_addr node = (0%Z, value) ->
  vschema_parse_text value = 0%Z ->
  kmdatanode_read_attr node (cs "name") 0 = (0%Z, n, junk) ->
  getSchemaInfo ndebug meta =
  if ndebug then Err (FExit EX_SOFTWARE)
  else Err (FAssert "GetRCObject(rc) == (int)rcBuffer && GetRCState(rc) == (int)rcInsufficient").
Proof.
  intros Hb Hroot Hnode Haddr Hparse Hprobe.
  unfold getSchemaInfo. rewrite Hroot, Hnode, Haddr, Hparse, Hprobe.
  replace (GetRCObject 0%Z) with 0%Z by reflexivity.
  destruct (Z.eqb_spec 0 rcBuffer); [congruence|]. by destruct ndebug.
Qed.
End Theorems.

(** ** Concrete runs *)

(** A table without a QUALITY column: dropping it answers with object
    [rcPath] and state [rcNotFound] (values chosen for the run). *)
Definition demo_redact : RedactEnv := {|
  vcursor_cell_data := fun _ _ => (0%Z, 8%Z, [], 0%Z, 0);
  vcursor_id_range := fun _ => (0%Z, 1%Z, 0%Z);
  vcursor_add_column := fun spec => if decide (spec = col_spec (Some (cs "U8")) (cs "ALTREAD"))
                                    then (0%Z, 3) else (1%Z, 0);
  vcursor_open := 0%Z; vcursor_open_row := 0%Z; vcursor_commit_row := 0%Z; vcursor_close_row := 0%Z;
  vcursor_commit := 0%Z; vcursor_flush_page := 0%Z; vcursor_write := fun _ _ _ _ => 0%Z;
  vdb_open_table_read := fun _ => 0%Z; vdb_open_db_read := fun _ => 0%Z;
  vdatabase_open_table_read := fun _ _ => 0%Z;
  vtable_drop_column := fun name => if decide (name = cs "QUALITY")
                                    then Z.lor (Z.shiftl 17 6) 24 else 0%Z;
  kdirectory_native := 0%Z; kdirectory_remove := fun _ => 0%Z;
  knamelist_count := (0%Z, 0); knamelist_get := fun _ => (0%Z, []);
  rcPath := 17%Z; rcNotFound := 24%Z; rcBusy := 5%Z |}.

Lemma dropColumn_cases_witness :
  @rcPath demo_redact <> 0%Z /\
  (@dropColumn demo_redact (cs "QUALITY") = Ok false <->
   GetRCObject (@vtable_drop_column demo_redact (cs "QUALITY")) = @rcPath demo_redact /\
   GetRCState (@vtable_drop_column demo_redact (cs "QUALITY")) = @rcNotFound demo_redact).
Proof.
  split; [discriminate|].
  exact (proj1 (proj2 (@dropColumn_cases demo_redact (cs "QUALITY") ltac:(discriminate)))).
Defined.

(** A metadata library that answers the schema's [name] attribute
    [NCBI:SRA:Illumina:db] with the two-call protocol; the values of
    [rcBuffer] and [rcInsufficient] are chosen for the run. *)
Definition schema_name : cstr := cs "NCBI:SRA:Illumina:db".

Definition demo_kdb : KdbEnv := {|
  KMetadata := unit; KMDataNode := cstr; KDirectory := unit;
  vdb_manager_make_update := 0%Z; vdb_manager_open_kdb_read := 0%Z;
  kdb_path_type := fun _ => kptDatabase;
  vdb_open_table_update := fun _ => 0%Z; vdb_open_db_update := fun _ => 0%Z;
  vdatabase_open_table_update := fun _ _ => 0%Z;
  vtable_open_metadata_read := fun _ => (0%Z, tt); vdatabase_open_metadata_read := fun _ => (0%Z, tt);
  vtable_open_metadata_update := fun _ => (0%Z, tt); vdatabase_open_metadata_update := fun _ => (0%Z, tt);
  kmetadata_open_node_read := fun _ p => (0%Z, match p with Some p => p | None => [] end);
  kmetadata_open_node_update := fun _ p => (0%Z, p);
  kmdatanode_open_node_read := fun _ p => (0%Z, p);
  kmdatanode_open_node_update := fun _ p => (0%Z, p);
  kmdatanode_addr := fun _ => (0%Z, [118; 101; 114]%Z);
  kmdatanode_write := fun _ _ => 0%Z;
  kmdatanode_read_attr := fun _ _ bsize =>
    if bsize <=? length schema_name then (Z.lor (Z.shiftl 13 6) 3, length schema_name, [])
    else (0%Z, length schema_name, schema_name ++ ["000"%char]);
  vschema_parse_text := fun _ => 0%Z; malloc_ok := fun _ => true;
  kdirectory_open_dir_update := fun _ => (0%Z, tt); kdirectory_open_dir_read := fun _ => (0%Z, tt);
  kdirectory_list := fun _ => 0%Z;
  rcBuffer := 13%Z; rcInsufficient := 3%Z |}.

Lemma getSchemaInfo_name_witness :
  (@kmetadata_open_node_read demo_kdb tt None = (0%Z, []) /\
   @kmdatanode_open_node_read demo_kdb [] (cs "schema") = (0%Z, cs "schema") /\
   @kmdatanode_addr demo_kdb (cs "schema") = (0%Z, [118; 101; 114]%Z) /\
   @vschema_parse_text demo_kdb [118; 101; 114]%Z = 0%Z /\
   @kmdatanode_read_attr demo_kdb (cs "schema") (cs "name") 0 =
     (Z.lor (Z.shiftl 13 6) 3, length schema_name, []) /\
   GetRCObject (Z.lor (Z.shiftl 13 6) 3) = @rcBuffer demo_kdb /\
   GetRCState (Z.lor (Z.shiftl 13 6) 3) = @rcInsufficient demo_kdb /\
   @malloc_ok demo_kdb (length schema_name + 1) = true /\
   @kmdatanode_read_attr demo_kdb (cs "schema") (cs "name") (length schema_name + 1) =
     (0%Z, length schema_name, schema_name ++ ["000"%char])) /\
  @getSchemaInfo demo_kdb false tt = Ok schema_name.
Proof.
  split; [split_and!; reflexivity|].
  apply (@getSchemaInfo_name demo_kdb false tt [] (cs "schema") [118; 101; 114]%Z schema_name
           (Z.lor (Z.shiftl 13 6) 3) [] ["000"%char]); reflexivity.
Defined.

(** A cell of two bytes viewed as [uint8_t]: index 1 is read, index 2 asserts. *)
Definition byte_cell : CellData := mkCellData [7; 9]%Z 2 8.

Lemma typed_view_checked_witness :
  (length (cd_data byte_cell) = cd_count byte_cell /\
   typed false 1 byte_cell = Ok (mkTyped [7; 9]%Z 2)) /\
  typed_at false (mkTyped [7; 9]%Z 2) 1 = Ok 9%Z /\
  typed_at false (mkTyped [7; 9]%Z 2) 2 = Err (FAssert "i >= 0 && (size_t)i < count()").
Proof.
  assert (H : length (cd_data byte_cell) = cd_count byte_cell /\
              typed false 1 byte_cell = Ok (mkTyped [7; 9]%Z 2)) by (split; reflexivity).
  split; [exact H|].
  destruct (typed_view_checked 1 byte_cell (mkTyped [7; 9]%Z 2) (proj1 H) (proj2 H)) as (_ & _ & Hat).
  split; rewrite Hat; reflexivity.
Defined.
