(* ===== verification/Platform.v ===== *)
(** * Platform: the environment variables of the driver tool

    [src/tools/external/driver-tool/util.posix.hpp]: on POSIX systems
    [PlatformEnvironmentVariables] reads a variable with [getenv] and
    writes one with [setenv(name, value, 1)], or removes it with
    [unsetenv] when the value is [NULL].  The process environment is a
    finite map from names to values; [setenv] and [unsetenv] follow
    POSIX, which refuses ([EINVAL], result -1) an empty name or one that
    contains ['='].  [opt_string] (not in the repository) is an optional
    string, empty for [NULL]. *)

From S2P Require Import Prelude.

(** [error_code_from_errno()]: [errno] in the system category. *)
Definition error_code_from_errno (errno : Z) : Z * string := (errno, "system").

(** The process environment. *)
Notation environ := (gmap string string).

(** A name [setenv] and [unsetenv] accept. *)
Definition valid_env_name (name : string) : bool :=
  negb (String.eqb name "") && bool_decide ("="%char ∉ String.list_ascii_of_string name).

(** [getenv(name)]: the value or [NULL]. *)
Definition getenv (env : environ) (name : string) : option string := env !! name.

(** [setenv(name, value, 1)]: the result and the environment after. *)
Definition setenv (env : environ) (name value : string) : Z * environ :=
  if valid_env_name name then (0%Z, <[name := value]> env) else ((-1)%Z, env).

(** [unsetenv(name)]. *)
Definition unsetenv (env : environ) (name : string) : Z * environ :=
  if valid_env_name name then (0%Z, delete name env) else ((-1)%Z, env).

(** [POSIX::EnvironmentVariables::get(name)]: [opt_string(getenv(name))]. *)
Definition EnvironmentVariables_get (env : environ) (name : string) : option string :=
  getenv env name.

(** [POSIX::EnvironmentVariables::set(name, value)]: the result of
    [setenv] or [unsetenv] is dropped. *)
Definition EnvironmentVariables_set (env : environ) (name : string) (value : option string)
  : environ :=
  match value with
  | Some v => (setenv env name v).2
  | None => (unsetenv env name).2
  end.

(** ** Properties *)

(** C37. With a name [setenv] accepts, [get] after [set] returns the value
    set, [NULL] included, and every other variable is unchanged. *)
Theorem EnvironmentVariables_set_get env name value name' :
  valid_env_name name = true ->
  EnvironmentVariables_get (EnvironmentVariables_set env name value) name' =
  if String.eqb name' name then value else EnvironmentVariables_get env name'.
Proof.
  intros Hv. unfold EnvironmentVariables_get, EnvironmentVariables_set, getenv, setenv, unsetenv.
  rewrite Hv. destruct (String.eqb_spec name' name) as [->|Hne]; destruct value as [v|]; cbn [snd].
  - by rewrite lookup_insert_eq.
  - by rewrite lookup_delete_eq.
  - by rewrite lookup_insert_ne by congruence.
  - by rewrite lookup_delete_ne by congruence.
Qed.

(** [set] drops the result of [setenv] and [unsetenv]: with an empty
    name or one containing ['='] the call fails and the environment is
    left as it was, without an error reaching the caller. *)
Theorem EnvironmentVariables_set_invalid env name value :
  valid_env_name name = false -> EnvironmentVariables_set env name value = env.
Proof.
  intros Hv. unfold EnvironmentVariables_set, setenv, unsetenv. rewrite Hv. by destruct value.
Qed.

Lemma EnvironmentVariables_set_get_witness :
  valid_env_name "NCBI_SETTINGS" = true /\
  EnvironmentVariables_get (EnvironmentVariables_set ∅ "NCBI_SETTINGS" (Some "/tmp/user.mkfg"))
    "NCBI_SETTINGS" = Some "/tmp/user.mkfg".
Proof.
  split; [reflexivity|].
  rewrite EnvironmentVariables_set_get by reflexivity. reflexivity.
Defined.

Lemma EnvironmentVariables_set_invalid_witness :
  valid_env_name "A=B" = false /\
  EnvironmentVariables_set ∅ "A=B" (Some "1") = ∅.
Proof. split; [reflexivity|]. apply EnvironmentVariables_set_invalid. reflexivity. Defined.
