(* ===== verification/StringItf.v ===== *)
(** * StringItf: the C++ face of an NGS string

    [src/ngs/ngs-sdk/dispatch/StringItf.cpp]: a [StringItf] is a C object
    [NGS_String_v1] whose vtable is reached by [Access], a [Cast] to the
    [NGS_String_v1] interface that throws [ErrorMsg] when the object has
    another type.  Each method calls the C function of the vtable with
    an [ErrBlock]; [ErrBlock::Check] throws the error the C side set.
    [data] and [size] are [NGS_NOTHROW]: they catch every exception and
    return [""] or 0; [substr] lets it through.

    The C side is not in the repository.  An object is its vtable, or
    [None] when [Cast] finds no [NGS_String_v1] interface; a vtable
    entry is [None] for a [NULL] function pointer, and a call gives its
    value ([inl]) or the message it puts in the [ErrBlock] ([inr]).  A
    [NULL] object is [None] at the level above: [Self()] is then
    dereferenced, which is undefined, and [Test()] throws. *)

From S2P Require Import Prelude.

(** [NGS_String_v1_vt]: the [data], [size] and [substr] entries. *)
Record NGS_String_v1_vt := mk_string_vt {
  vt_data : option (string + string);
  vt_size : option (Z + string);
  vt_substr : option (Z -> Z -> string + string)
}.

(** [NGS_String_v1]: the interface [Cast] finds through its vtable. *)
Record NGS_String_v1 := mk_ngs_string { self_vt : option NGS_String_v1_vt }.

(** [Access(vt)]. *)
Definition Access (self : NGS_String_v1) : result NGS_String_v1_vt :=
  match self_vt self with
  | Some vt => Ok vt
  | None => Err (FThrow 0 "object is not of type NGS_String_v1")
  end.

(** [ErrBlock::Check()] after a call: the value, or the [ErrorMsg] thrown. *)
Definition Check {A} (r : A + string) : result A :=
  match r with
  | inl a => Ok a
  | inr msg => Err (FThrow 0 msg)
  end.

(** [assert(vt->f != 0)] and the call through the pointer. *)
Definition call_entry {A} (ndebug : bool) (f : option A) (what : string) : result A :=
  match f with
  | Some g => Ok g
  | None => _ <- assert_ ndebug false what ;; Err (FUndefined what)
  end.

(** [catch (ErrorMsg &) {} catch (...) {}] followed by [return dflt]: an
    exception becomes the default value; an assert or undefined
    behaviour is not an exception. *)
Definition catch_all {A} (dflt : A) (r : result A) : result A :=
  match r with
  | Err (FThrow _ _) => Ok dflt
  | _ => r
  end.

(** [StringItf::data()]. *)
Definition StringItf_data (ndebug : bool) (self : option NGS_String_v1) : result string :=
  match self with
  | None => Err (FUndefined "self -> vt")
  | Some s =>
      catch_all "" (vt <- Access s ;;
                    r <- call_entry ndebug (vt_data vt) "vt -> data != 0" ;;
                    Check r)
  end.

(** [StringItf::size()]. *)
Definition StringItf_size (ndebug : bool) (self : option NGS_String_v1) : result Z :=
  match self with
  | None => Err (FUndefined "self -> vt")
  | Some s =>
      catch_all 0%Z (vt <- Access s ;;
                     r <- call_entry ndebug (vt_size vt) "vt -> size != 0" ;;
                     Check r)
  end.

(** [StringItf::substr(offset, size)]: [Test()] throws for a [NULL]
    object (with the message of [Refcount::Test], not in the
    repository); the errors of [Access] and of the C call are thrown. *)
Definition StringItf_substr2 (ndebug : bool) (self : option NGS_String_v1) (offset size : Z)
  : result string :=
  match self with
  | None => Err (FThrow 0 "NULL object")
  | Some s =>
      vt <- Access s ;;
      f <- call_entry ndebug (vt_substr vt) "vt -> substr != 0" ;;
      Check (f offset size)
  end.

(** [StringItf::substr(offset)]: [substr(offset, -1)], the [size_t]
    [SIZE_MAX]. *)
Definition StringItf_substr1 (ndebug : bool) (self : option NGS_String_v1) (offset : Z)
  : result string :=
  StringItf_substr2 ndebug self offset (wrapU 64 (-1)).

(** ** Properties *)

(** The value a [NGS_NOTHROW] accessor returns: the C side's value, or
    the default after a failed [Cast] or an error. *)
Definition nothrow_value {A} (dflt : A) (s : NGS_String_v1)
    (entry : NGS_String_v1_vt -> option (A + string)) : A :=
  match self_vt s with
  | Some vt => match entry vt with Some (inl v) => v | _ => dflt end
  | None => dflt
  end.

Lemma catch_all_entry {A} ndebug (dflt : A) s (entry : NGS_String_v1_vt -> option (A + string)) what :
  (forall vt, self_vt s = Some vt -> is_Some (entry vt)) ->
  catch_all dflt (vt <- Access s ;; r <- call_entry ndebug (entry vt) what ;; Check r) =
  Ok (nothrow_value dflt s entry).
Proof.
  intros He. unfold Access, nothrow_value.
  destruct (self_vt s) as [vt|]; [|done].
  destruct (He vt eq_refl) as [[v|msg] Hv]; rewrite bind_Ok, Hv; reflexivity.
Qed.

(** C38. [data] and [size] never throw: when the object's entry is set, a
    failed [Cast] or an error the C side reports gives [""] (0), and
    otherwise the C side's value. *)
Theorem StringItf_nothrow ndebug s :
  ((forall vt, self_vt s = Some vt -> is_Some (vt_data vt)) ->
   StringItf_data ndebug (Some s) = Ok (nothrow_value "" s vt_data)) /\
  ((forall vt, self_vt s = Some vt -> is_Some (vt_size vt)) ->
   StringItf_size ndebug (Some s) = Ok (nothrow_value 0%Z s vt_size)).
Proof. split; intros He; by apply catch_all_entry. Qed.

(** A string whose C side reports an error for [data]. *)
Definition failing_string : NGS_String_v1 :=
  mk_ngs_string (Some (mk_string_vt (Some (inr "read failed")) (Some (inl 4%Z)) None)).

Lemma StringItf_nothrow_witness :
  (forall vt, self_vt failing_string = Some vt -> is_Some (vt_data vt)) /\
  StringItf_data false (Some failing_string) = Ok "".
Proof.
  assert (H : forall vt, self_vt failing_string = Some vt -> is_Some (vt_data vt)).
  { intros vt Hvt. injection Hvt as <-. by eexists. }
  split; [exact H|]. exact (proj1 (StringItf_nothrow false failing_string) H).
Defined.

(** [substr] lets the errors through: a C error is thrown to the caller. *)
Lemma StringItf_substr_error ndebug s vt f offset size msg :
  self_vt s = Some vt -> vt_substr vt = Some f -> f offset size = inr msg ->
  StringItf_substr2 ndebug (Some s) offset size = Err (FThrow 0 msg).
Proof. intros Hs Hf Hr. unfold StringItf_substr2, Access. rewrite Hs, bind_Ok, Hf. cbn. by rewrite Hr. Qed.
