(* ===== verification/Bindings.v ===== *)
(** * Bindings: the generated language-binding headers of NGS

    [src/ngs/ngs-java/jni/ngs_itf_ReadCollectionItf.h] is the header
    [javah] generates for the native methods of the Java class
    [ngs.itf.ReadCollectionItf]: for each method, a comment with the
    class, the method and its type descriptor, and the C prototype the
    JVM links the method to.  The header is modelled as the table of its
    declarations; the rules by which the JVM derives a prototype from a
    descriptor (the JNI specification, not in the repository) are
    modelled as functions: the descriptor grammar ([desc], [parse_type],
    [parse_method]), the C type of each Java type ([c_type]) and the
    mangling of names into C symbols ([mangle]).  The theorems show that
    the descriptor parser inverts the printer, that mangling is injective
    on class and method names, and that every prototype of the header is
    the one the JVM expects.

    [src/ngs/ngs-sdk/language/python/py_StatisticsItf.h] declares the C
    entry points of the Python binding of [StatisticsItf], and
    [src/tools/external/fasterq-dump/simple_fasta_iter.h] the FASTA
    iterator of fasterq-dump; both only declare functions whose bodies
    are not in the repository, and are modelled as their declarations. *)

From S2P Require Import Prelude.

(** ** Java types and their descriptors *)

(** The field types of the JVM, and [void] for a return type. *)
Inductive jtype :=
| JBoolean | JByte | JChar | JShort | JInt | JLong | JFloat | JDouble | JVoid
| JClass (name : list ascii)
| JArray (t : jtype).

(** The descriptor of a type: [Z], [B], ..., [Lname;], [[t]. *)
Fixpoint desc (t : jtype) : list ascii :=
  match t with
  | JBoolean => ["Z"] | JByte => ["B"] | JChar => ["C"] | JShort => ["S"]
  | JInt => ["I"] | JLong => ["J"] | JFloat => ["F"] | JDouble => ["D"] | JVoid => ["V"]
  | JClass n => "L" :: n ++ [";"]
  | JArray t => "[" :: desc t
  end%char.

(** The class name of an [L] descriptor, up to the [;]. *)
Fixpoint class_name (l : list ascii) : option (list ascii * list ascii) :=
  match l with
  | [] => None
  | c :: r =>
      if Ascii.eqb c ";" then Some ([], r)
      else match class_name r with Some (n, r') => Some (c :: n, r') | None => None end
  end.

(** One type descriptor at the head of [l], and the rest. *)
Fixpoint parse_type (l : list ascii) : option (jtype * list ascii) :=
  match l with
  | "Z" :: r => Some (JBoolean, r) | "B" :: r => Some (JByte, r)
  | "C" :: r => Some (JChar, r) | "S" :: r => Some (JShort, r)
  | "I" :: r => Some (JInt, r) | "J" :: r => Some (JLong, r)
  | "F" :: r => Some (JFloat, r) | "D" :: r => Some (JDouble, r)
  | "V" :: r => Some (JVoid, r)
  | "L" :: r => match class_name r with Some (n, r') => Some (JClass n, r') | None => None end
  | "[" :: r => match parse_type r with Some (t, r') => Some (JArray t, r') | None => None end
  | _ => None
  end%char.

(** The parameter descriptors up to the [)], at most [fuel] of them. *)
Fixpoint parse_params (fuel : nat) (l : list ascii) : option (list jtype * list ascii) :=
  match fuel with
  | 0 => None
  | S f =>
      match l with
      | c :: r' => if Ascii.eqb c ")" then Some ([], r') else
          match parse_type l with
          | Some (t, r) =>
              match parse_params f r with Some (ts, r') => Some (t :: ts, r') | None => None end
          | None => None
          end
      | [] => None
      end
  end.

(** A method descriptor [(params)ret]; the parameter loop is given as
    many steps as the descriptor has characters. *)
Definition parse_method (l : list ascii) : option (list jtype * jtype) :=
  match l with
  | "("%char :: r =>
      match parse_params (length r) r with
      | Some (ps, r') => match parse_type r' with Some (ret, []) => Some (ps, ret) | _ => None end
      | None => None
      end
  | _ => None
  end.

Definition method_desc (ps : list jtype) (ret : jtype) : list ascii :=
  "("%char :: concat (map desc ps) ++ ")"%char :: desc ret.

(** A type whose class names hold no [;]. *)
Fixpoint jtype_wf (t : jtype) : Prop :=
  match t with
  | JClass n => ";"%char ∉ n
  | JArray t => jtype_wf t
  | _ => True
  end.

(** ** C types and symbols *)

(** The C type [jni.h] gives a Java type. *)
Definition c_type (t : jtype) : string :=
  match t with
  | JBoolean => "jboolean" | JByte => "jbyte" | JChar => "jchar" | JShort => "jshort"
  | JInt => "jint" | JLong => "jlong" | JFloat => "jfloat" | JDouble => "jdouble"
  | JVoid => "void"
  | JClass n =>
      if String.eqb (String.string_of_list_ascii n) "java/lang/String" then "jstring"
      else if String.eqb (String.string_of_list_ascii n) "java/lang/Class" then "jclass"
      else if String.eqb (String.string_of_list_ascii n) "java/lang/Throwable" then "jthrowable"
      else "jobject"
  | JArray t =>
      match t with
      | JBoolean => "jbooleanArray" | JByte => "jbyteArray" | JChar => "jcharArray"
      | JShort => "jshortArray" | JInt => "jintArray" | JLong => "jlongArray"
      | JFloat => "jfloatArray" | JDouble => "jdoubleArray"
      | _ => "jobjectArray"
      end
  end.

Definition is_digit (c : ascii) : bool :=
  (48 <=? Ascii.nat_of_ascii c) && (Ascii.nat_of_ascii c <=? 57).

Definition is_alnum (c : ascii) : bool :=
  is_digit c || ((65 <=? Ascii.nat_of_ascii c) && (Ascii.nat_of_ascii c <=? 90))
             || ((97 <=? Ascii.nat_of_ascii c) && (Ascii.nat_of_ascii c <=? 122)).

(** A lower-case hexadecimal digit and its value. *)
Definition hex_digit (n : nat) : ascii :=
  Ascii.ascii_of_nat (if n <? 10 then 48 + n else 87 + n).

Definition hex_value (c : ascii) : nat :=
  let n := Ascii.nat_of_ascii c in if n <? 97 then n - 48 else n - 87.

(** The escape of one character in a mangled name: [/] is [_], [_] is
    [_1], [;] is [_2], [[] is [_3], an ASCII letter or digit is itself,
    and any other character [c] is [_0] and the four hexadecimal digits
    of its code. *)
Definition mangle_char (c : ascii) : list ascii :=
  if Ascii.eqb c "/"%char then ["_"%char]
  else if Ascii.eqb c "_"%char then ["_"; "1"]%char
  else if Ascii.eqb c ";"%char then ["_"; "2"]%char
  else if Ascii.eqb c "["%char then ["_"; "3"]%char
  else if is_alnum c then [c]
  else ["_"; "0"; "0"; "0"; hex_digit (Ascii.nat_of_ascii c / 16);
        hex_digit (Ascii.nat_of_ascii c mod 16)]%char.

Definition mangle (l : list ascii) : list ascii := concat (map mangle_char l).

(** Reading a mangled name back. *)
Fixpoint unmangle (l : list ascii) : list ascii :=
  match l with
  | [] => []
  | c :: r =>
      if Ascii.eqb c "_" then
        match r with
        | [] => ["/"]
        | d :: r' =>
            if Ascii.eqb d "1" then "_" :: unmangle r'
            else if Ascii.eqb d "2" then ";" :: unmangle r'
            else if Ascii.eqb d "3" then "[" :: unmangle r'
            else if Ascii.eqb d "0" then
              match r' with
              | a :: b :: x :: y :: r'' =>
                  Ascii.ascii_of_nat (hex_value a * 4096 + hex_value b * 256 + hex_value x * 16
                                      + hex_value y) :: unmangle r''
              | _ => "/" :: unmangle r
              end
            else "/" :: unmangle r
        end
      else c :: unmangle r
  end%char.

(** A qualified name in which no part starts with a digit, as the JVM
    requires of identifiers. *)
Fixpoint mangle_input_ok (l : list ascii) : bool :=
  match l with
  | [] => true
  | c :: r =>
      (if Ascii.eqb c "/" then match r with d :: _ => negb (is_digit d) | [] => true end else true)
      && mangle_input_ok r
  end%char.

(** The short name the JVM looks up for a native method. *)
Definition jni_symbol (cls meth : list ascii) : list ascii :=
  String.list_ascii_of_string "Java_" ++ mangle cls ++ ["_"%char] ++ mangle meth.

(** ** The header [ngs_itf_ReadCollectionItf.h] *)

(** A declaration: the comment's class, method and signature, and the
    C prototype's return type, name and parameter types. *)
Record jni_decl := mk_jni_decl {
  jd_class : string;
  jd_method : string;
  jd_signature : string;
  jd_ret : string;
  jd_name : string;
  jd_params : list string
}.

Definition ReadCollectionItf_h : list jni_decl := [
  mk_jni_decl "ngs_itf_ReadCollectionItf" "GetName" "(J)Ljava/lang/String;"
    "jstring" "Java_ngs_itf_ReadCollectionItf_GetName" ["JNIEnv *"; "jobject"; "jlong"];
  mk_jni_decl "ngs_itf_ReadCollectionItf" "GetReadGroups" "(J)J"
    "jlong" "Java_ngs_itf_ReadCollectionItf_GetReadGroups" ["JNIEnv *"; "jobject"; "jlong"];
  mk_jni_decl "ngs_itf_ReadCollectionItf" "HasReadGroup" "(JLjava/lang/String;)Z"
    "jboolean" "Java_ngs_itf_ReadCollectionItf_HasReadGroup" ["JNIEnv *"; "jobject"; "jlong"; "jstring"];
  mk_jni_decl "ngs_itf_ReadCollectionItf" "GetReadGroup" "(JLjava/lang/String;)J"
    "jlong" "Java_ngs_itf_ReadCollectionItf_GetReadGroup" ["JNIEnv *"; "jobject"; "jlong"; "jstring"];
  mk_jni_decl "ngs_itf_ReadCollectionItf" "GetReferences" "(J)J"
    "jlong" "Java_ngs_itf_ReadCollectionItf_GetReferences" ["JNIEnv *"; "jobject"; "jlong"];
  mk_jni_decl "ngs_itf_ReadCollectionItf" "HasReference" "(JLjava/lang/String;)Z"
    "jboolean" "Java_ngs_itf_ReadCollectionItf_HasReference" ["JNIEnv *"; "jobject"; "jlong"; "jstring"];
  mk_jni_decl "ngs_itf_ReadCollectionItf" "GetReference" "(JLjava/lang/String;)J"
    "jlong" "Java_ngs_itf_ReadCollectionItf_GetReference" ["JNIEnv *"; "jobject"; "jlong"; "jstring"];
  mk_jni_decl "ngs_itf_ReadCollectionItf" "GetAlignment" "(JLjava/lang/String;)J"
    "jlong" "Java_ngs_itf_ReadCollectionItf_GetAlignment" ["JNIEnv *"; "jobject"; "jlong"; "jstring"];
  mk_jni_decl "ngs_itf_ReadCollectionItf" "GetAlignments" "(JI)J"
    "jlong" "Java_ngs_itf_ReadCollectionItf_GetAlignments" ["JNIEnv *"; "jobject"; "jlong"; "jint"];
  mk_jni_decl "ngs_itf_ReadCollectionItf" "GetAlignmentCount" "(JI)J"
    "jlong" "Java_ngs_itf_ReadCollectionItf_GetAlignmentCount" ["JNIEnv *"; "jobject"; "jlong"; "jint"];
  mk_jni_decl "ngs_itf_ReadCollectionItf" "GetAlignmentRange" "(JJJI)J"
    "jlong" "Java_ngs_itf_ReadCollectionItf_GetAlignmentRange"
    ["JNIEnv *"; "jobject"; "jlong"; "jlong"; "jlong"; "jint"];
  mk_jni_decl "ngs_itf_ReadCollectionItf" "GetRead" "(JLjava/lang/String;)J"
    "jlong" "Java_ngs_itf_ReadCollectionItf_GetRead" ["JNIEnv *"; "jobject"; "jlong"; "jstring"];
  mk_jni_decl "ngs_itf_ReadCollectionItf" "GetReads" "(JI)J"
    "jlong" "Java_ngs_itf_ReadCollectionItf_GetReads" ["JNIEnv *"; "jobject"; "jlong"; "jint"];
  mk_jni_decl "ngs_itf_ReadCollectionItf" "GetReadCount" "(JI)J"
    "jlong" "Java_ngs_itf_ReadCollectionItf_GetReadCount" ["JNIEnv *"; "jobject"; "jlong"; "jint"];
  mk_jni_decl "ngs_itf_ReadCollectionItf" "GetReadRange" "(JJJI)J"
    "jlong" "Java_ngs_itf_ReadCollectionItf_GetReadRange"
    ["JNIEnv *"; "jobject"; "jlong"; "jlong"; "jlong"; "jint"]
].

(** The Java class the header is generated for. *)
Definition ReadCollectionItf_class : list ascii := String.list_ascii_of_string "ngs/itf/ReadCollectionItf".

(** What the JVM expects of the declaration of an instance method of
    class [cls]: the comment names the mangled class, the symbol is the
    short JNI name, and the prototype has the C types of the descriptor
    after [JNIEnv *] and the receiver [jobject]. *)
Definition decl_ok (cls : list ascii) (d : jni_decl) : bool :=
  String.eqb (jd_class d) (String.string_of_list_ascii (mangle cls)) &&
  String.eqb (jd_name d)
    (String.string_of_list_ascii (jni_symbol cls (String.list_ascii_of_string (jd_method d)))) &&
  match parse_method (String.list_ascii_of_string (jd_signature d)) with
  | Some (ps, ret) =>
      String.eqb (jd_ret d) (c_type ret) &&
      bool_decide (jd_params d = "JNIEnv *" :: "jobject" :: map c_type ps)
  | None => false
  end.

(** ** The Python entry points of [py_StatisticsItf.h] *)

(** A declaration: its name, its return type and its parameters (type, name). *)
Record py_decl := mk_py_decl { py_name : string; py_ret : string; py_params : list (string * string) }.

Definition py_StatisticsItf_h : list py_decl := [
  mk_py_decl "PY_NGS_StatisticsGetValueType" "PY_RES_TYPE"
    [("void*", "pRef"); ("char const*", "path"); ("uint32_t*", "pRet"); ("void**", "ppNGSStrError")];
  mk_py_decl "PY_NGS_StatisticsGetAsString" "PY_RES_TYPE"
    [("void*", "pRef"); ("char const*", "path"); ("void**", "ppNGSStringBuf"); ("void**", "ppNGSStrError")];
  mk_py_decl "PY_NGS_StatisticsGetAsI64" "PY_RES_TYPE"
    [("void*", "pRef"); ("char const*", "path"); ("int64_t*", "pRet"); ("void**", "ppNGSStrError")];
  mk_py_decl "PY_NGS_StatisticsGetAsU64" "PY_RES_TYPE"
    [("void*", "pRef"); ("char const*", "path"); ("uint64_t*", "pRet"); ("void**", "ppNGSStrError")];
  mk_py_decl "PY_NGS_StatisticsGetAsDouble" "PY_RES_TYPE"
    [("void*", "pRef"); ("char const*", "path"); ("double*", "pRet"); ("void**", "ppNGSStrError")];
  mk_py_decl "PY_NGS_StatisticsGetNextPath" "PY_RES_TYPE"
    [("void*", "pRef"); ("char const*", "path"); ("void**", "ppNGSStringBuf"); ("void**", "ppNGSStrError")]
].

(** The result of each [NGS_Statistics] accessor (the [StatisticsItf]
    vtable, not in the repository), as the out parameter that carries
    it: a number through a typed pointer, a string through a string
    buffer. *)
Definition statistics_out (name : string) : option (string * string) :=
  if String.eqb name "PY_NGS_StatisticsGetValueType" then Some ("uint32_t*", "pRet")
  else if String.eqb name "PY_NGS_StatisticsGetAsString" then Some ("void**", "ppNGSStringBuf")
  else if String.eqb name "PY_NGS_StatisticsGetAsI64" then Some ("int64_t*", "pRet")
  else if String.eqb name "PY_NGS_StatisticsGetAsU64" then Some ("uint64_t*", "pRet")
  else if String.eqb name "PY_NGS_StatisticsGetAsDouble" then Some ("double*", "pRet")
  else if String.eqb name "PY_NGS_StatisticsGetNextPath" then Some ("void**", "ppNGSStringBuf")
  else None.

(** The calling convention of the Python entry points: the object, the
    statistics path, the out parameter of the result, then the error
    string, with a [PY_RES_TYPE] status. *)
Definition py_conv (d : py_decl) : bool :=
  String.eqb (py_ret d) "PY_RES_TYPE" &&
  match statistics_out (py_name d) with
  | Some out => bool_decide (py_params d = [("void*", "pRef"); ("char const*", "path"); out;
                                            ("void**", "ppNGSStrError")])
  | None => false
  end.

(** ** The FASTA iterator of [simple_fasta_iter.h] *)

(** The functions the header declares, for an iterator type and the
    [cmn_iter_params_t] of [cmn_iter.h]; [sfai_get] advances the
    iterator, whose state is the value it returns. *)
Class SimpleFastaIter := {
  simple_fasta_iter_t : Type;
  cmn_iter_params_t : Type;
  (** [sfai_create(params, tbl_name, &iter)]. *)
  sfai_create : cmn_iter_params_t -> string -> Z * option simple_fasta_iter_t;
  (** [sfai_destroy(self)]. *)
  sfai_destroy : simple_fasta_iter_t -> unit;
  (** [sfai_get(self, &read, &rc)]: a read was produced, the read, the code. *)
  sfai_get : simple_fasta_iter_t -> bool * string * Z * simple_fasta_iter_t;
  (** [sfai_get_row_count(self)], a [uint64_t]. *)
  sfai_get_row_count : simple_fasta_iter_t -> Z
}.

(** ** Lemmas *)

Lemma class_name_app n rest : ";"%char ∉ n -> class_name (n ++ ";"%char :: rest) = Some (n, rest).
Proof.
  induction n as [|c n IH]; intros Hn; [done|]. cbn [app class_name].
  destruct (Ascii.eqb_spec c ";"); [subst; set_solver|]. rewrite IH by set_solver. done.
Qed.

Lemma parse_type_desc t rest : jtype_wf t -> parse_type (desc t ++ rest) = Some (t, rest).
Proof.
  induction t as [| | | | | | | | |n|t IH]; intros Hwf; try reflexivity.
  - cbn [desc app parse_type]. rewrite <-app_assoc. cbn. by rewrite class_name_app.
  - cbn [desc app parse_type]. by rewrite IH.
Qed.

Lemma desc_head t : exists c d, desc t = c :: d /\ Ascii.eqb c ")" = false.
Proof. destruct t; cbn; eauto. Qed.

Lemma length_descs ps : length ps <= length (concat (map desc ps)).
Proof.
  induction ps as [|t ps IH]; [done|]. cbn [map concat]. rewrite length_app.
  destruct (desc_head t) as (c & d & -> & _). cbn. lia.
Qed.

Lemma parse_params_descs f ps rest :
  Forall jtype_wf ps -> length ps < f ->
  parse_params f (concat (map desc ps) ++ ")"%char :: rest) = Some (ps, rest).
Proof.
  revert f. induction ps as [|t ps IH]; intros f Hwf Hf; (destruct f as [|f]; [lia|]); [done|].
  inversion Hwf as [|? ? Ht Hps]; subst. cbn [map concat]. rewrite <-app_assoc.
  destruct (desc_head t) as (c & d & Hd & Hc). cbn [parse_params]. rewrite Hd at 1. cbn [app].
  rewrite Hc, parse_type_desc, IH by (done || cbn in Hf; lia). done.
Qed.

(** Each escape reads back as the character it stands for. *)
Lemma hex_roundtrip k : k < 16 -> hex_value (hex_digit k) = k.
Proof. intros Hk. do 16 (destruct k as [|k]; [reflexivity|]). lia. Qed.

Lemma unmangle_char c rest : c <> "/"%char -> unmangle (mangle_char c ++ rest) = c :: unmangle rest.
Proof.
  intros Hc. unfold mangle_char.
  destruct (Ascii.eqb_spec c "/"); [done|].
  destruct (Ascii.eqb_spec c "_"); [by subst|].
  destruct (Ascii.eqb_spec c ";"); [by subst|].
  destruct (Ascii.eqb_spec c "["); [by subst|].
  destruct (is_alnum c); cbn [app unmangle].
  - by destruct (Ascii.eqb_spec c "_").
  - pose proof (Ascii.nat_ascii_bounded c) as Hb.
    rewrite !hex_roundtrip by (first [apply Nat.mod_upper_bound; lia | apply Nat.Div0.div_lt_upper_bound; lia]).
    cbn [hex_value Ascii.nat_of_ascii]. f_equal.
    change (hex_value "0") with 0.
    replace (0 * 4096 + 0 * 256 + Ascii.nat_of_ascii c / 16 * 16 + Ascii.nat_of_ascii c mod 16)
      with (Ascii.nat_of_ascii c) by (pose proof (Nat.div_mod_eq (Ascii.nat_of_ascii c) 16); lia).
    apply Ascii.ascii_nat_embedding.
Qed.

(** The escape of a character that is not a digit does not start with
    [0] to [3], so a [/] before it reads back as [/]. *)
Lemma unmangle_slash c rest :
  is_digit c = false -> unmangle ("_"%char :: mangle_char c ++ rest) = "/"%char :: unmangle (mangle_char c ++ rest).
Proof.
  intros Hd. unfold mangle_char.
  repeat match goal with |- context [if Ascii.eqb c ?x then _ else _] =>
    destruct (Ascii.eqb_spec c x); [subst; reflexivity|] end.
  destruct (is_alnum c); [|reflexivity]. cbn [app unmangle Ascii.eqb].
  repeat match goal with |- context [Ascii.eqb c ?x] =>
    destruct (Ascii.eqb_spec c x); [subst; discriminate|] end.
  reflexivity.
Qed.

Lemma mangle_cons c l : mangle (c :: l) = mangle_char c ++ mangle l.
Proof. done. Qed.

Lemma decl_ok_iff cls d :
  decl_ok cls d = true <->
  jd_class d = String.string_of_list_ascii (mangle cls) /\
  jd_name d = String.string_of_list_ascii (jni_symbol cls (String.list_ascii_of_string (jd_method d))) /\
  exists ps ret, parse_method (String.list_ascii_of_string (jd_signature d)) = Some (ps, ret) /\
    jd_ret d = c_type ret /\ jd_params d = "JNIEnv *" :: "jobject" :: map c_type ps.
Proof.
  unfold decl_ok. rewrite !andb_true_iff, !String.eqb_eq.
  destruct (parse_method _) as [[ps ret]|]; rewrite ?andb_true_iff, ?String.eqb_eq, ?bool_decide_eq_true;
    naive_solver.
Qed.

(** ** Properties *)

(** Mangling is invertible on the names the JVM allows (no part of
    a qualified name starts with a digit): reading a mangled name back
    gives the name, so two such class or method names never share a C
    symbol. *)
Theorem mangle_roundtrip l : mangle_input_ok l = true -> unmangle (mangle l) = l.
Proof.
  induction l as [|c r IH]; intros Hok; [done|]. cbn [mangle_input_ok] in Hok.
  apply andb_true_iff in Hok as [Hc Hr]. rewrite mangle_cons.
  destruct (Ascii.eqb_spec c "/") as [->|Hne].
  - destruct r as [|d r']; [done|]. apply negb_true_iff in Hc.
    replace (mangle_char "/") with ["_"%char] by reflexivity. cbn [app].
    rewrite mangle_cons, unmangle_slash by done.
    by rewrite <-mangle_cons, IH.
  - by rewrite unmangle_char, IH.
Qed.

(** Hence distinct Java names have distinct mangled names. *)
Corollary mangle_inj l1 l2 :
  mangle_input_ok l1 = true -> mangle_input_ok l2 = true -> mangle l1 = mangle l2 -> l1 = l2.
Proof. intros H1 H2 Heq. by rewrite <-(mangle_roundtrip l1), <-(mangle_roundtrip l2), Heq. Qed.

(** Without the restriction two names collide: [a/1] and [a_] are both [a_1]. *)
Example mangle_collision :
  mangle (String.list_ascii_of_string "a/1") = mangle (String.list_ascii_of_string "a_").
Proof. reflexivity. Qed.

(** Parsing the descriptor of a method gives back its parameter
    and return types, provided no class name contains [;]. *)
Theorem parse_method_desc ps ret :
  Forall jtype_wf ps -> jtype_wf ret -> parse_method (method_desc ps ret) = Some (ps, ret).
Proof.
  intros Hps Hret. unfold method_desc, parse_method.
  rewrite parse_params_descs; [|done|].
  - rewrite <-(app_nil_r (desc ret)), parse_type_desc by done. done.
  - rewrite length_app. cbn [length]. pose proof (length_descs ps). lia.
Qed.

(** Every prototype of [ngs_itf_ReadCollectionItf.h] is the one the
    JVM links the native method to: the comment names the mangled class,
    the function is the short JNI name of the method, the signature
    parses, and the return and parameter types are the C types of its
    descriptor after [JNIEnv *] and the receiver; no two prototypes
    share a name. *)
Theorem ReadCollectionItf_h_ok :
  Forall (fun d => decl_ok ReadCollectionItf_class d = true) ReadCollectionItf_h /\
  NoDup (map jd_name ReadCollectionItf_h).
Proof.
  split.
  - apply Forall_forall. intros d Hd.
    apply (proj1 (forallb_forall (decl_ok ReadCollectionItf_class) ReadCollectionItf_h));
      [vm_compute; reflexivity | by apply list_elem_of_In].
  - apply (bool_decide_unpack _). vm_compute. reflexivity.
Qed.

(** Every entry point of [py_StatisticsItf.h] follows the calling
    convention, with the out parameter of its accessor's result type. *)
Lemma py_StatisticsItf_h_conv : Forall (fun d => py_conv d = true) py_StatisticsItf_h.
Proof. repeat constructor. Qed.
